(* ===== verification/_CoqProject ===== *)
-Q . S2P
Prelude.v
Str.v
Order.v
Num.v
Bytes.v
Net.v
TlsConfig.v
Config.v
Metrics.v
MetricsRegistry.v
HttpRouting.v
HttpProxy.v
Sni.v
SniRouter.v
ProxyProtocol.v
StreamUpstream.v
StreamProxy.v
Sockets.v
SockMap.v
CertStore.v
Files.v
FileWatcher.v
AcmeStorage.v
Cloudflare.v
Acme.v
ProxyProcess.v
ProxyMain.v
ProxyLabels.v
HttpsService.v
Crds.v
Store.v
Attachment.v
ConfigGen.v
Status.v
RuntimePlan.v
RuntimeApplier.v
GatewayReconciler.v
RouteReconciler.v
SecretReconciler.v
ServiceReconciler.v
GatewayWatches.v
HttpEndToEnd.v
EndToEnd.v
ClassReconciler.v
LeaderElection.v
ControllerMain.v
Bootstrap.v
ControllerLabels.v
