(* ===== verification/Prelude.v ===== *)
(** * Wicket: a verification library

    Wicket is a layer 4 and layer 7 proxy in Rust, with a Kubernetes controller that
    turns Gateway API resources into the configuration a proxy loads.  This library
    models the parts of the program that decide something, as Rocq functions over
    the data the code has, and proves the properties that make them correct.

    ** The program and its parts

    The data plane.  [wicket-config] holds the configuration types and
    [Config::validate].  [wicket-core] is the HTTP proxy: a router compiled from the
    configured routes, and the callbacks Pingora calls for every request.
    [wicket-stream] is the TCP and TLS proxy: it reads the server name of a
    ClientHello, picks an upstream by name and a backend by rotation and health,
    writes a PROXY protocol header and copies bytes.  [wicket-tls] chooses the
    certificate for a server name and expands the automatic certificates.

    The process [wicket] starts all of this: it obtains or loads the certificates,
    builds both proxies and reloads them when the configuration file changes.
    [wicket-sockmap] can let the kernel move the bytes of a stream.

    The control plane.  [wicket-controller] watches the cluster.  The watch handlers
    write what they see into a shared store; the attachment planner decides from a
    snapshot of the store which routes attach to which listeners; the configuration
    generator renders the accepted routes into a [wicket-config] configuration; the
    runtime planner and applier put it, with a deployment of the proxy, into the
    cluster; the reconcilers write the statuses.  The proxy validates the
    configuration, compiles it and serves it.

    ** The files

    The base: [Prelude], [Str], [Order], [Num], [Bytes], [Net] (results and the loops of
    Rust, strings as bytes, [Ord] and the stable sort, integers of machine width and
    their text, byte buffers, IP and socket addresses with their parser and printer),
    [Metrics] (the Prometheus series the code updates, as a map of integers) and
    [MetricsRegistry] (the collectors that the four metrics files declare, and their
    registration with the Prometheus library, which is a class).

    The data plane, under src/crates:
    - [TlsConfig], [Config]: wicket-tls/src/config.rs and wicket-config/src/lib.rs;
      [validate] has one [ConfigError] per [bail!].
    - [HttpRouting], [HttpProxy]: routing.rs and proxy.rs of wicket-core/src: the router,
      the request context, the callbacks as functions of the proxy state, the context and
      the metrics, the reload, the access log.  Pingora's load balancer is a parameter.
    - [Sni], [SniRouter], [ProxyProtocol]: sni.rs, router.rs and protocol.rs of
      wicket-stream/src.
    - [StreamUpstream]: [Upstream], health.rs, pool.rs and endpoint.rs; a clock reading
      is an argument.
    - [StreamProxy]: proxy.rs of wicket-stream.  Upstream objects live in a heap,
      because a connection keeps the [Arc] of the upstream it was routed to across
      reloads; the network is an argument that says what each operation returns; the
      accept loop is a step relation.
    - [Sockets]: listener.rs, and the outgoing connections of pool.rs and proxy.rs.
    - [SockMap]: wicket-sockmap with its BPF program, and its uses in the two proxies.
    - [CertStore]: cert_store.rs, cert_manager.rs and metrics.rs of wicket-tls/src.
    - [Files], [FileWatcher]: a disk whose operations may fail, and file_watcher.rs.
    - [AcmeStorage], [Cloudflare], [Acme]: wicket-tls/src/acme.  The ACME server and the
      DNS service are arguments; what the provider relies on of the DNS service is the
      class [CloudflareService], which a concrete service implements.
    - [ProxyProcess], [ProxyMain]: wicket/src/main.rs.  [HttpsService]: its HTTPS
      listener, with rustls as a class, and the streams it hands to the HTTP proxy.
    - [ProxyLabels] takes every part that updates metrics as a step of the registry they
      share.

    The control plane, under src/crates/wicket-controller/src:
    - [Crds]: crds.  [Store]: reconcilers/store.rs; every writer is a step, except
      [replace_all], which is two steps because it gives up the write lock before it
      rebuilds the reverse index.
    - [Attachment]: reconcilers/attachment_planner.rs.  [ConfigGen]:
      reconcilers/config_generator.rs.
    - [Status], [RuntimePlan], [RuntimeApplier]: status_helpers.rs, runtime_plan.rs (with
      the types of contracts.rs) and runtime_applier.rs.  SHA-256, JSON and TOML are
      parameters; the cluster is a map of objects, and server-side apply a class.
    - [GatewayReconciler], [GatewayWatches], [RouteReconciler], [SecretReconciler],
      [ServiceReconciler], [ClassReconciler]: the reconcilers, each a function of the
      answers of the API server and of the shared state.
    - [LeaderElection], [ControllerMain]: leader_election.rs, main.rs and context.rs.
    - [Bootstrap]: the [run_*_controller] functions of the reconcilers: the retried
      initial lists, and the nine controllers as tasks that interleave over the store.
    - [ControllerLabels] takes the reconcilers and the loops of the process as steps of
      the controller's registry.
    - [EndToEnd] composes the service reconciler, the generator and the stream proxy,
      [HttpEndToEnd] the generator and the HTTP router.

    A fallible function returns [result], [exec] or [option]; a possible panic is a value
    that the theorems exclude or characterise.  A [HashMap] is a [gmap]; where the
    code iterates over one, either the order is shown not to matter or the theorem
    quantifies over it.  Strings are byte strings; [to_lowercase], [to_uppercase] and
    [trim] act on ASCII.  Log messages are not modelled.

    ** What the theorems show

    - Controller to proxy: a generated configuration passes the proxy's validation
      except in precisely stated cases; the first HTTPRoute rule that takes a request
      decides where it goes, to its own backends unless upstream names collide; the stream proxy accepts
      a generated stream exactly when every backend has literal addresses; the planner's
      notion of intersecting hostnames is that of the proxy's matchers.
    - Store: the indexes are exact in every reachable state; planners see the store
      only once it is complete; routes are listed independently of map order.
    - Start: whatever the nine initial lists answer and however they interleave with the
      reconcilers, planners work exactly when all have listed; a list that is answered
      at last ends its loop within the stated time.
    - Metrics: registration never fails; every series updated is declared with as many
      labels as it is given; which declared series are never updated.
    - Planner: a route is attached exactly under the stated policies and grants.
    - Runtime: plans exist or fail for exactly the stated reasons, names are bounded and
      distinct, mounts cover the configuration; an apply touches only owned objects and
      is idempotent; the managed runtime converges.
    - Reconcilers: the outcome of every reconcile on every branch; a gateway is reported
      programmed only truthfully; every gateway whose configuration an event changes is
      woken, with two exceptions that are stated; written files are replaced whole; where a policy is not enforced, the
      theorem says how.
    - Leader election: one leader under atomic attempts, two without.
    - Routing: first match for HTTP requests, lookup by specificity for server names
      and certificates, errors of the builders, rewriting.
    - Requests and connections: gauges balance over the callbacks of a request but for
      what a retry leaks, error
      series are exact, connection limits and draining, reloads are all or nothing and
      isolate running connections, routing never panics; an HTTPS request is served only
      for the name whose certificate was resolved; the accelerated path is never taken.
    - Certificates: what ACME start-up and renewal serve, what they leave behind on a
      failure, what the challenges publish, what storage gives back, when files are
      reloaded, which certificates each TLS mode serves.
    - Protocols: the ClientHello parser is total, sound on every buffer and inverts an
      encoder; the PROXY v2 header round-trips and the v1 header fits its bound;
      access-log fields read back.
    - Selection: backends are chosen in rotation among the eligible ones.
    - Configuration: [validate] is sound and complete for a declarative notion of
      validity; automatic certificates cover their hosts; what one round of the
      configuration watcher does.

    ** Fuel

    [extract_sni] runs its two loops with one more unit of fuel than the buffer has
    bytes, and each round consumes at least three bytes ([extract_sni_terminates]);
    [drain_loop] has one round per 100 ms of its timeout and one more
    ([drain_loop_bounded]); [list_loop] needs one round per answer up to the first that
    succeeds ([initial_list_ends]).  Loops that never end (the renewal loop, the watchers, the
    accept loop, the leader election) are given by the number of their rounds, by the
    list of their events or by a step relation.  Every other loop is over a list.

    ** Not modelled

    What the sources only call: the Kubernetes client and its work queue, Pingora's
    services, the TLS and HTTP libraries, PEM, X.509, JSON and TOML, the ACME protocol
    client, the kernel.  Of the sources themselves: the set-up of logging and the HTTP
    endpoints of the controller, the installation of signal handlers, the delegation of
    reads and writes to wrapped streams, printer columns and serde attributes of the resources,
    the plan types of contracts.rs that no code path uses, and the programs of the BPF
    object that nothing attaches. *)

From stdpp Require Export gmap strings list sorting.

(** ** Results

    Rust's [Result<A, E>]; [mbind] is the [?] operator. *)

Inductive result (E A : Type) : Type :=
| Ok (a : A)
| Err (e : E).
Arguments Ok {E A} _.
Arguments Err {E A} _.

#[global] Instance result_ret {E} : MRet (result E) := λ A x, Ok x.
#[global] Instance result_bind {E} : MBind (result E) :=
  λ A B f m, match m with Ok x => f x | Err e => Err e end.
#[global] Instance result_fmap {E} : FMap (result E) :=
  λ A B f m, match m with Ok x => Ok (f x) | Err e => Err e end.
#[global] Instance result_eq_dec {E A} `{EqDecision E, EqDecision A} : EqDecision (result E A).
Proof. solve_decision. Defined.

(** [Option::ok_or]. *)
Definition ok_or {E A} (e : E) (o : option A) : result E A :=
  match o with Some x => Ok x | None => Err e end.

(** [Result::ok]. *)
Definition ok {E A} (r : result E A) : option A :=
  match r with Ok x => Some x | Err _ => None end.

(** [Result::map_err]. *)
Definition map_err {E F A} (f : E → F) (r : result E A) : result F A :=
  match r with Ok x => Ok x | Err e => Err (f e) end.

(** Computations that can panic. *)
Inductive exec (E A : Type) := Panicked | Failed (e : E) | Done (a : A).
Arguments Panicked {E A}.
Arguments Failed {E A} _.
Arguments Done {E A} _.

#[global] Instance exec_ret {E} : MRet (exec E) := λ A x, Done x.
#[global] Instance exec_bind {E} : MBind (exec E) :=
  λ A B f m, match m with Panicked => Panicked | Failed e => Failed e | Done a => f a end.

Definition of_result {E A} (r : result E A) : exec E A :=
  match r with Ok a => Done a | Err e => Failed e end.
Definition or_panic {E A} (o : option A) : exec E A :=
  match o with Some a => Done a | None => Panicked end.

(** Computations over a state [W] that can fail or panic, keeping the state they
    reached. *)
Definition io (W E A : Type) : Type := W → exec E A * W.
#[global] Instance io_ret {W E} : MRet (io W E) := λ A x w, (Done x, w).
#[global] Instance io_bind {W E} : MBind (io W E) :=
  λ A B f m w, match m w with
               | (Panicked, w') => (Panicked, w')
               | (Failed e, w') => (Failed e, w')
               | (Done a, w') => f a w'
               end.
Definition io_fail {W E A} (e : E) : io W E A := λ w, (Failed e, w).
Definition io_exec {W E A} (x : exec E A) : io W E A := λ w, (x, w).
Definition io_modify {W E} (f : W → W) : io W E unit := λ w, (Done tt, f w).

(** A guard: [if !b { return Err(e) }]. *)
Definition ensure {E} (b : bool) (e : E) : result E unit :=
  if b then Ok tt else Err e.

(** [for x in l { f(x)?; }]: the first error stops the loop. *)
Fixpoint for_each {E A} (f : A → result E unit) (l : list A) : result E unit :=
  match l with
  | [] => Ok tt
  | x :: l' => f x ≫= λ _, for_each f l'
  end.

(** [iter.map(f).collect::<Result<Vec<_>, _>>()]. *)
Fixpoint try_map {E A B} (f : A → result E B) (l : list A) : result E (list B) :=
  match l with
  | [] => Ok []
  | x :: l' => f x ≫= λ y, try_map f l' ≫= λ ys, Ok (y :: ys)
  end.

(** [Option::unwrap_or]. *)
Definition unwrap_or {A} (d : A) (o : option A) : A :=
  match o with Some x => x | None => d end.

Definition is_some {A} (o : option A) : bool :=
  match o with Some _ => true | None => false end.

Definition is_none {A} (o : option A) : bool := negb (is_some o).

Definition is_empty {A} (l : list A) : bool :=
  match l with [] => true | _ => false end.

(** [Iterator::find]. *)
Fixpoint find_first {A} (p : A → bool) (l : list A) : option A :=
  match l with
  | [] => None
  | x :: l' => if p x then Some x else find_first p l'
  end.

(** [Iterator::enumerate] from index [i]. *)
Fixpoint enumerate_from {A} (i : nat) (l : list A) : list (nat * A) :=
  match l with
  | [] => []
  | x :: l' => (i, x) :: enumerate_from (S i) l'
  end.
Definition enumerate {A} (l : list A) : list (nat * A) := enumerate_from 0 l.

(** [Vec]-deduplication with a [HashSet] of the keys seen so far: the first
    element of every key is kept, in order. *)
Fixpoint dedup_seen {A K} `{Countable K} (key : A → K) (seen : gset K) (l : list A) : list A :=
  match l with
  | [] => []
  | x :: l' =>
      if bool_decide (key x ∈ seen) then dedup_seen key seen l'
      else x :: dedup_seen key ({[key x]} ∪ seen) l'
  end.
Definition dedup_by {A K} `{Countable K} (key : A → K) (l : list A) : list A :=
  dedup_seen key ∅ l.

(** ** Automation *)

Create HintDb wicket.

(** Splits every boolean connective of the context and the goal. *)
Ltac destruct_bools :=
  repeat match goal with
  | H : (_ && _)%bool = true |- _ => apply andb_true_iff in H; destruct H
  | H : (_ || _)%bool = false |- _ => apply orb_false_iff in H; destruct H
  | H : negb _ = true |- _ => apply negb_true_iff in H
  | H : negb _ = false |- _ => apply negb_false_iff in H
  | H : bool_decide _ = true |- _ => apply bool_decide_eq_true in H
  | H : bool_decide _ = false |- _ => apply bool_decide_eq_false in H
  end.

(** Case analysis on the innermost scrutinee of the goal. *)
Ltac case_goal := case_match; simplify_eq/=; try done.

(** Runs a [result] or [option] hypothesis [H : m ≫= f = r] one bind at a time. *)
Ltac run_bind H :=
  match type of H with
  | context [mbind _ ?m] =>
      let E := fresh "E" in
      destruct m eqn:E; simpl in H; simplify_eq/=
  end.

(** ** Lists, options and results *)

(** A bind that ends well: both parts do. *)
Lemma io_bind_Done {W E A B} (m : io W E A) (f : A → io W E B) w b w' :
  (m ≫= f) w = (Done b, w') ↔ ∃ a w1, m w = (Done a, w1) ∧ f a w1 = (Done b, w').
Proof.
  unfold mbind, io_bind. destruct (m w) as [[|e|a] w1]; split; try done; try (by intros (?&?&?&_)).
  - intros H. by exists a, w1.
  - intros (?&?&[= <- <-]&H). done.
Qed.

Lemma io_bind_step {W E A B} (m : io W E A) (f : A → io W E B) w a w1 : m w = (Done a, w1) → (m ≫= f) w = f a w1.
Proof. intros H. unfold mbind, io_bind. by rewrite H. Qed.

(** How a sequence can end. *)
Lemma io_bind_cases {W E A B} (m : io W E A) (f : A → io W E B) w r w' :
  (m ≫= f) w = (r, w') →
  (∃ a w1, m w = (Done a, w1) ∧ f a w1 = (r, w')) ∨ (∃ e, m w = (Failed e, w') ∧ r = Failed e) ∨ (m w = (Panicked, w') ∧ r = Panicked).
Proof. unfold mbind, io_bind. destruct (m w) as [[|e|a] w1]; [intros [= <- <-]; by eauto 6..|]. intros H. left. by exists a, w1. Qed.

(** A computation leaves a part of the state alone. *)
Definition preserves {W X E A} (f : W → X) (m : io W E A) : Prop := ∀ w, f (m w).2 = f w.

Create HintDb preserves.
Lemma preserves_bind {W X E A B} (f : W → X) (m : io W E A) (k : A → io W E B) :
  preserves f m → (∀ a, preserves f (k a)) → preserves f (m ≫= k).
Proof.
  intros Hm Hk w. specialize (Hm w). unfold mbind, io_bind. destruct (m w) as [[|e|a] w1]; cbn in *; [done..|]. by rewrite Hk.
Qed.
Lemma preserves_ret {W X E A} (f : W → X) (a : A) : preserves f (mret a : io W E A).
Proof. done. Qed.
Lemma preserves_fail {W X E A} (f : W → X) (e : E) : preserves f (io_fail e : io W E A).
Proof. done. Qed.
Lemma preserves_exec {W X E A} (f : W → X) (x : exec E A) : preserves f (io_exec x).
Proof. done. Qed.
#[export] Hint Resolve preserves_ret preserves_fail preserves_exec : preserves.
(** Follows binds and case distinctions. *)
Ltac solve_preserves :=
  repeat first [progress intros | solve [eauto 2 with preserves] | case_match | apply preserves_bind].

(** What a computation keeps true, however it ends. *)
Definition upholds {W E A} (P : W → Prop) (m : io W E A) : Prop := ∀ w, P w → P (m w).2.

Create HintDb upholds.
Lemma upholds_bind {W E A B} (P : W → Prop) (m : io W E A) (k : A → io W E B) :
  upholds P m → (∀ a, upholds P (k a)) → upholds P (m ≫= k).
Proof.
  intros Hm Hk w Hw. specialize (Hm w Hw). unfold mbind, io_bind. destruct (m w) as [[|e|a] w']; [done..|]. by apply Hk.
Qed.
Lemma upholds_ret {W E A} (P : W → Prop) (a : A) : upholds P (mret a : io W E A).
Proof. by intros w Hw. Qed.
Lemma upholds_fail {W E A} (P : W → Prop) (e : E) : upholds P (io_fail e : io W E A).
Proof. by intros w Hw. Qed.
#[export] Hint Resolve upholds_ret upholds_fail : upholds.

Ltac solve_upholds :=
  repeat first [progress intros | solve [eauto 2 with upholds] | case_match | apply upholds_bind].

Lemma find_first_Some {A} (p : A → bool) l x :
  find_first p l = Some x ↔
  ∃ l1 l2, l = l1 ++ x :: l2 ∧ p x = true ∧ Forall (λ y, p y = false) l1.
Proof.
  induction l as [|y l IH]; simpl; [split; [done|intros (l1&l2&Hl&_); by destruct l1]|].
  destruct (p y) eqn:Hy.
  - split.
    + intros [= ->]. exists [], l. naive_solver.
    + intros (l1&l2&Hl&Hp&Hn). destruct l1 as [|z l1]; simplify_eq/=; [done|].
      inversion_clear Hn; congruence.
  - rewrite IH. split.
    + intros (l1&l2&->&Hp&Hn). exists (y :: l1), l2. naive_solver.
    + intros (l1&l2&Hl&Hp&Hn). destruct l1 as [|z l1]; simplify_eq/=; [congruence|].
      inversion_clear Hn. eauto.
Qed.

Lemma find_first_Some_elem {A} (p : A → bool) l x :
  find_first p l = Some x → x ∈ l ∧ p x = true.
Proof. intros (l1&l2&->&Hp&_)%find_first_Some. set_solver. Qed.

Lemma find_first_None {A} (p : A → bool) l :
  find_first p l = None ↔ ∀ x, x ∈ l → p x = false.
Proof.
  induction l as [|y l IH]; simpl; [split; [set_solver|done]|].
  destruct (p y) eqn:Hy.
  - split; [done|]. intros H. rewrite (H y) in Hy; [done|set_solver].
  - rewrite IH. set_solver.
Qed.

Lemma for_each_Ok {E A} (f : A → result E unit) l :
  for_each f l = Ok tt ↔ ∀ x, x ∈ l → f x = Ok tt.
Proof.
  induction l as [|x l IH]; simpl; [split; [set_solver|done]|].
  destruct (f x) as [[]|e] eqn:Hx; simpl.
  - rewrite IH. split; [intros H y [->|]%elem_of_cons; auto|].
    intros H y Hy. apply H. set_solver.
  - split; [done|]. intros H. rewrite (H x) in Hx; [done|set_solver].
Qed.

Lemma for_each_Err {E A} (f : A → result E unit) l e :
  for_each f l = Err e ↔
  ∃ l1 x l2, l = l1 ++ x :: l2 ∧ f x = Err e ∧ Forall (λ y, f y = Ok tt) l1.
Proof.
  induction l as [|x l IH]; simpl; [split; [done|intros (l1&?&?&Hl&_); by destruct l1]|].
  destruct (f x) as [[]|e'] eqn:Hx; simpl.
  - rewrite IH. split.
    + intros (l1&y&l2&->&Hy&Hn). exists (x :: l1), y, l2. naive_solver.
    + intros (l1&y&l2&Hl&Hy&Hn). destruct l1 as [|z l1]; simplify_eq/=; [congruence|].
      inversion_clear Hn. eauto 6.
  - split.
    + intros [= ->]. exists [], x, l. naive_solver.
    + intros (l1&y&l2&Hl&Hy&Hn). destruct l1 as [|z l1]; simplify_eq/=; [congruence|].
      inversion_clear Hn; congruence.
Qed.

Lemma ensure_Ok {E} b (e : E) : ensure b e = Ok tt ↔ b = true.
Proof. destruct b; naive_solver. Qed.

Lemma try_map_Ok {E A B} (f : A → result E B) l ys :
  try_map f l = Ok ys ↔ Forall2 (λ x y, f x = Ok y) l ys.
Proof.
  revert ys. induction l as [|x l IH]; intros ys; simpl.
  - split; [intros [= <-]; constructor|]. by inversion 1.
  - destruct (f x) as [y|e] eqn:Hx; simpl.
    + destruct (try_map f l) as [ys'|e] eqn:Hl; simpl.
      * split.
        -- intros [= <-]. constructor; [done|]. by apply IH.
        -- inversion 1 as [|?? ?? Hy Hys]; subst. apply IH in Hys. congruence.
      * split; [done|]. inversion 1 as [|?? ?? Hy Hys]; subst. by apply IH in Hys.
    + split; [done|]. inversion 1. congruence.
Qed.

Lemma try_map_total {E A B} (f : A → result E B) l : is_Some (ok (try_map f l)) ↔ Forall (λ x, is_Some (ok (f x))) l.
Proof.
  induction l as [|x l IH]; cbn [try_map]; [by split|]. rewrite Forall_cons, <-IH.
  destruct (f x), (try_map f l); cbn; naive_solver.
Qed.

Lemma bind_Ok {E A B} (m : result E A) (f : A → result E B) y :
  m ≫= f = Ok y ↔ ∃ x, m = Ok x ∧ f x = Ok y.
Proof. destruct m; simpl; naive_solver. Qed.

Lemma bind_unit_Ok {E B} (m : result E unit) (k : result E B) y :
  m ≫= (λ _, k) = Ok y ↔ m = Ok tt ∧ k = Ok y.
Proof. rewrite bind_Ok. split; [intros ([]&?&?)|intros (?&?)]; naive_solver. Qed.

Lemma is_some_spec {A} (o : option A) : is_some o = true ↔ is_Some o.
Proof. destruct o; split; try done; eauto. Qed.

Lemma is_some_false {A} (o : option A) : is_some o = false ↔ o = None.
Proof. by destruct o. Qed.

Lemma is_empty_true {A} (l : list A) : is_empty l = true ↔ l = [].
Proof. by destruct l. Qed.

Lemma is_empty_false {A} (l : list A) : is_empty l = false ↔ l ≠ [].
Proof. by destruct l. Qed.

Lemma is_none_true {A} (o : option A) : is_none o = true ↔ o = None.
Proof. by destruct o. Qed.

Lemma is_empty_negb {A} (l : list A) : negb (is_empty l) = true ↔ l ≠ [].
Proof. by destruct l. Qed.

Lemma existsb_true {A} (p : A → bool) l :
  existsb p l = true ↔ ∃ x, x ∈ l ∧ p x = true.
Proof. rewrite existsb_exists. by setoid_rewrite list_elem_of_In. Qed.

Lemma existsb_false {A} (p : A → bool) l : existsb p l = false ↔ ∀ x, x ∈ l → p x = false.
Proof.
  rewrite <-not_true_iff_false, existsb_true. split.
  - intros H x Hx. apply not_true_iff_false. intros Hp. apply H. by exists x.
  - intros H (x&Hx&Hp). specialize (H x Hx). congruence.
Qed.

Lemma forallb_true {A} (p : A → bool) l :
  forallb p l = true ↔ ∀ x, x ∈ l → p x = true.
Proof. rewrite forallb_forall. by setoid_rewrite list_elem_of_In. Qed.

Lemma elem_of_flat_map {A B} (f : A → list B) l y :
  y ∈ flat_map f l ↔ ∃ x, x ∈ l ∧ y ∈ f x.
Proof.
  rewrite list_elem_of_In, in_flat_map. by setoid_rewrite list_elem_of_In.
Qed.

Lemma elem_of_enumerate_from {A} i (l : list A) j x :
  (j, x) ∈ enumerate_from i l ↔ ∃ k, j = i + k ∧ l !! k = Some x.
Proof.
  revert i. induction l as [|y l IH]; intros i; simpl.
  - split; [set_solver|intros (k&_&Hk); by rewrite lookup_nil in Hk].
  - rewrite elem_of_cons, IH. split.
    + intros [[= -> ->]|(k&->&Hk)]; [exists 0; auto with lia|exists (S k); auto with lia].
    + intros ([|k]&->&Hk); simplify_eq/=; [left; f_equal; lia|right; exists k; auto with lia].
Qed.

Lemma elem_of_enumerate {A} (l : list A) j x :
  (j, x) ∈ enumerate l ↔ l !! j = Some x.
Proof.
  unfold enumerate. rewrite elem_of_enumerate_from. naive_solver.
Qed.

Section dedup.
Context {A K : Type} `{Countable K} (key : A → K).

Lemma dedup_seen_keys seen l k :
  k ∈ key <$> dedup_seen key seen l ↔ k ∉ seen ∧ k ∈ key <$> l.
Proof.
  revert seen. induction l as [|x l IH]; intros seen; simpl; [set_solver|].
  case_bool_decide; simpl.
  - rewrite IH. set_solver.
  - rewrite !elem_of_cons, IH. destruct (decide (k = key x)); set_solver.
Qed.

Lemma dedup_seen_sublist seen l : dedup_seen key seen l `sublist_of` l.
Proof.
  revert seen. induction l as [|x l IH]; intros seen; simpl; [done|].
  case_bool_decide; [by apply sublist_cons|by apply sublist_skip].
Qed.

Lemma dedup_seen_NoDup seen l : NoDup (key <$> dedup_seen key seen l).
Proof.
  revert seen. induction l as [|x l IH]; intros seen; simpl; [constructor|].
  case_bool_decide; [done|]. csimpl. constructor; [|done].
  rewrite dedup_seen_keys. set_solver.
Qed.

Lemma dedup_by_NoDup l : NoDup (key <$> dedup_by key l).
Proof. apply dedup_seen_NoDup. Qed.

Lemma dedup_by_keys l k : k ∈ key <$> dedup_by key l ↔ k ∈ key <$> l.
Proof. unfold dedup_by. rewrite dedup_seen_keys. set_solver. Qed.

Lemma dedup_by_elem l x : x ∈ dedup_by key l → x ∈ l.
Proof. intros Hx. eapply elem_of_submseteq; [done|apply sublist_submseteq, dedup_seen_sublist]. Qed.
End dedup.

(** ** Lookup of a list element by a key that is unique in the list *)

Lemma find_first_NoDup_dec {A K} `{EqDecision K} (key : A → K) (l : list A) (x : A) :
  NoDup (key <$> l) → x ∈ l → find_first (λ y, bool_decide (key y = key x)) l = Some x.
Proof.
  induction l as [|y l IH]; [by intros _ ?%elem_of_nil|]. csimpl. intros [Hn Hnd]%NoDup_cons [->|Hx]%elem_of_cons.
  - by rewrite bool_decide_eq_true_2.
  - rewrite bool_decide_eq_false_2; [by apply IH|]. intros He. apply Hn. rewrite He. apply list_elem_of_fmap. eauto.
Qed.

Lemma find_first_ext {A} (p q : A → bool) (l : list A) : (∀ x, p x = q x) → find_first p l = find_first q l.
Proof. intros H. induction l as [|x l IH]; cbn; [done|]. by rewrite H, IH. Qed.

Lemma find_first_NoDup {A} (key : A → string) (l : list A) (x : A) :
  NoDup (key <$> l) → x ∈ l → find_first (λ y, String.eqb (key y) (key x)) l = Some x.
Proof.
  intros Hnd Hx. rewrite <- (find_first_NoDup_dec key l x Hnd Hx). apply find_first_ext. intros y.
  apply eq_true_iff_eq. by rewrite String.eqb_eq, bool_decide_eq_true.
Qed.
