(* ===== verification/Str.v ===== *)
(** * Rust's [str]

    A Rust string is a sequence of bytes; it is modelled by [string], one
    [ascii] per byte.  [len] is the number of bytes, slices are byte slices.
    Case conversion and trimming are modelled on the ASCII letters and the
    ASCII white space: every string the routers convert is a host name, a
    header value or a method (the [http] crate's [to_str] only yields visible
    ASCII), and bytes of 128 and above are left as they are. *)

From S2P Require Import Prelude.
From Stdlib Require Import Ascii.

#[global] Arguments String.append !_ _ : simpl nomatch.

Fixpoint starts_with (p s : string) : bool :=
  match p, s with
  | EmptyString, _ => true
  | String a p', String b s' => Ascii.eqb a b && starts_with p' s'
  | String _ _, EmptyString => false
  end.

Fixpoint strip_prefix (p s : string) : option string :=
  match p, s with
  | EmptyString, _ => Some s
  | String a p', String b s' => if Ascii.eqb a b then strip_prefix p' s' else None
  | String _ _, EmptyString => None
  end.

Fixpoint strip_suffix (suf s : string) : option string :=
  if String.eqb s suf then Some EmptyString
  else match s with
       | EmptyString => None
       | String c s' => String c <$> strip_suffix suf s'
       end.

Definition ends_with (suf s : string) : bool := is_some (strip_suffix suf s).

Fixpoint contains_char (c : ascii) (s : string) : bool :=
  match s with
  | EmptyString => false
  | String d s' => Ascii.eqb c d || contains_char c s'
  end.

(** [str::split_once] on a character. *)
Fixpoint split_once (c : ascii) (s : string) : option (string * string) :=
  match s with
  | EmptyString => None
  | String d s' =>
      if Ascii.eqb c d then Some (EmptyString, s')
      else (λ '(a, b), (String d a, b)) <$> split_once c s'
  end.

(** [s.split(c).next().unwrap_or(s)]. *)
Fixpoint split_first (c : ascii) (s : string) : string :=
  match s with
  | EmptyString => EmptyString
  | String d s' => if Ascii.eqb c d then EmptyString else String d (split_first c s')
  end.

(** [str::trim_end_matches] on a character. *)
Fixpoint trim_end_matches (c : ascii) (s : string) : string :=
  match s with
  | EmptyString => EmptyString
  | String d s' =>
      match trim_end_matches c s' with
      | EmptyString => if Ascii.eqb c d then EmptyString else String d EmptyString
      | t => String d t
      end
  end.

Definition is_ascii_whitespace (c : ascii) : bool :=
  let n := N_of_ascii c in ((9 <=? n)%N && (n <=? 13)%N) || (n =? 32)%N.

Fixpoint trim_start (s : string) : string :=
  match s with
  | String c s' => if is_ascii_whitespace c then trim_start s' else s
  | EmptyString => EmptyString
  end.

Fixpoint trim_end (s : string) : string :=
  match s with
  | EmptyString => EmptyString
  | String d s' =>
      match trim_end s' with
      | EmptyString => if is_ascii_whitespace d then EmptyString else String d EmptyString
      | t => String d t
      end
  end.

Definition trim (s : string) : string := trim_end (trim_start s).

Definition lower_ascii (c : ascii) : ascii :=
  let n := N_of_ascii c in
  if (65 <=? n)%N && (n <=? 90)%N then ascii_of_N (n + 32) else c.

Definition upper_ascii (c : ascii) : ascii :=
  let n := N_of_ascii c in
  if (97 <=? n)%N && (n <=? 122)%N then ascii_of_N (n - 32) else c.

Fixpoint map_string (f : ascii → ascii) (s : string) : string :=
  match s with
  | EmptyString => EmptyString
  | String c s' => String (f c) (map_string f s')
  end.

Definition to_lowercase (s : string) : string := map_string lower_ascii s.
Definition to_uppercase (s : string) : string := map_string upper_ascii s.

Definition is_empty_str (s : string) : bool :=
  match s with EmptyString => true | _ => false end.

(** [&s[..n]] for a char boundary [n <= s.len()]. *)
Fixpoint slice_to (n : nat) (s : string) : string :=
  match n, s with
  | S n', String c s' => String c (slice_to n' s')
  | _, _ => EmptyString
  end.

(** [&s[n..]] for a char boundary [n <= s.len()]. *)
Fixpoint slice_from (n : nat) (s : string) : string :=
  match n, s with
  | S n', String _ s' => slice_from n' s'
  | _, _ => s
  end.

(** [s.contains(p)]. *)
Fixpoint contains_str (p s : string) : bool :=
  starts_with p s || match s with EmptyString => false | String _ s' => contains_str p s' end.

(** [s.lines()]: split at line feeds, a carriage return before one dropped, and no empty
    last line. *)
Definition strip_cr (l : string) : string :=
  match strip_suffix (String "013" "") l with Some l' => l' | None => l end.
Fixpoint str_lines (s : string) : list string :=
  match s with
  | EmptyString => []
  | String c s' =>
      if Ascii.eqb c "010" then EmptyString :: str_lines s'
      else match s' with
           | EmptyString => [String c EmptyString]
           | String c' s'' =>
               if Ascii.eqb c' "010" then strip_cr (String c EmptyString) :: str_lines s''
               else match str_lines s' with l :: ls => String c l :: ls | [] => [String c EmptyString] end
           end
  end.

(** [name.split('.')]: never empty. *)
Fixpoint split_labels (s : string) : list string :=
  match s with
  | EmptyString => [EmptyString]
  | String c s' =>
      match split_labels s' with
      | l :: ls => if Ascii.eqb c "." then EmptyString :: l :: ls else String c l :: ls
      | [] => [String c EmptyString]
      end
  end.

Fixpoint join_dots (ls : list string) : string :=
  match ls with
  | [] => EmptyString
  | [l] => l
  | l :: ls' => l +:+ "." +:+ join_dots ls'
  end.

(** ** Facts *)

Lemma app_str_assoc (a b c : string) : (a +:+ b) +:+ c = a +:+ (b +:+ c).
Proof. induction a as [|x a IH]; [done|]. cbn. by rewrite IH. Qed.

Lemma app_str_nil_r (a : string) : a +:+ "" = a.
Proof. induction a as [|x a IH]; [done|]. cbn. by rewrite IH. Qed.

Lemma length_app_str (a b : string) :
  String.length (a +:+ b) = String.length a + String.length b.
Proof. induction a as [|x a IH]; [done|]. cbn. by rewrite IH. Qed.

Lemma app_str_inj_l (a b c : string) : a +:+ b = a +:+ c → b = c.
Proof. induction a as [|x a IH]; [done|]. cbn. intros [=]. auto. Qed.

Lemma app_str_inj_r (a b c : string) : a +:+ c = b +:+ c → a = b.
Proof.
  revert b. induction a as [|x a IH]; intros [|y b] H; cbn in H; [done|..].
  - apply (f_equal String.length) in H. cbn in H. rewrite length_app_str in H. lia.
  - apply (f_equal String.length) in H. cbn in H. rewrite length_app_str in H. lia.
  - simplify_eq. f_equal. auto.
Qed.

Lemma strip_prefix_Some p s t : strip_prefix p s = Some t ↔ s = p +:+ t.
Proof.
  revert s. induction p as [|a p IH]; intros s; cbn; [naive_solver|].
  destruct s as [|b s]; [naive_solver|]. destruct (Ascii.eqb_spec a b) as [->|Hne].
  - rewrite IH. naive_solver.
  - naive_solver.
Qed.

Lemma strip_prefix_app p t : strip_prefix p (p +:+ t) = Some t.
Proof. by apply strip_prefix_Some. Qed.

Lemma starts_with_strip p s : starts_with p s = is_some (strip_prefix p s).
Proof.
  revert s. induction p as [|a p IH]; intros s; [done|].
  destruct s as [|b s]; cbn; [done|]. rewrite IH. by destruct (Ascii.eqb a b).
Qed.

Lemma starts_with_true p s : starts_with p s = true ↔ ∃ t, s = p +:+ t.
Proof.
  rewrite starts_with_strip, is_some_spec. unfold is_Some.
  by setoid_rewrite strip_prefix_Some.
Qed.

Lemma strip_suffix_Some suf s p : strip_suffix suf s = Some p ↔ s = p +:+ suf.
Proof.
  revert p. induction s as [|c s IH]; intros p; cbn [strip_suffix].
  - destruct (String.eqb_spec "" suf) as [<-|Hne].
    + rewrite app_str_nil_r. naive_solver.
    + destruct p, suf; naive_solver.
  - destruct (String.eqb_spec (String c s) suf) as [<-|Hne].
    + split; [by intros [= <-]|]. destruct p as [|d p]; [done|].
      intros Hl. apply (f_equal String.length) in Hl. cbn in Hl.
      rewrite length_app_str in Hl. cbn in Hl. lia.
    + rewrite fmap_Some. setoid_rewrite IH. split.
      * by intros (q&->&->).
      * destruct p as [|d p]; cbn; [done|]. intros [= -> ->]. eauto.
Qed.

Lemma strip_suffix_app p suf : strip_suffix suf (p +:+ suf) = Some p.
Proof. by apply strip_suffix_Some. Qed.

Lemma ends_with_true suf s : ends_with suf s = true ↔ ∃ p, s = p +:+ suf.
Proof.
  unfold ends_with. rewrite is_some_spec. unfold is_Some.
  by setoid_rewrite strip_suffix_Some.
Qed.

Lemma contains_char_app c a b :
  contains_char c (a +:+ b) = contains_char c a || contains_char c b.
Proof. induction a as [|x a IH]; [done|]. cbn. by rewrite IH, orb_assoc. Qed.

Lemma split_once_Some c s a b :
  split_once c s = Some (a, b) ↔ s = a +:+ String c b ∧ contains_char c a = false.
Proof.
  revert a b. induction s as [|d s IH]; intros a b; cbn.
  - destruct a; naive_solver.
  - destruct (Ascii.eqb_spec c d) as [->|Hne].
    + split.
      * intros [= <- <-]. done.
      * intros [Hs Ha]. destruct a as [|e a]; cbn in *; [naive_solver|].
        simplify_eq. by rewrite Ascii.eqb_refl in Ha.
    + rewrite fmap_Some. split.
      * intros ([a' b']&H&[= -> ->]). apply IH in H as [-> Ha]. split; [done|].
        cbn. rewrite Ha. by destruct (Ascii.eqb_spec c d).
      * destruct a as [|e a]; cbn; [naive_solver|]. intros [[= -> ->] Ha].
        apply orb_false_iff in Ha as [_ Ha]. exists (a, b). split; [by apply IH|done].
Qed.

Lemma split_first_spec c s :
  (contains_char c s = false ∧ split_first c s = s) ∨
  (∃ t, s = split_first c s +:+ String c t ∧ contains_char c (split_first c s) = false).
Proof.
  induction s as [|d s IH]; cbn; [by left|].
  destruct (Ascii.eqb_spec c d) as [->|Hne]; cbn; [right; eauto|].
  destruct IH as [[H ->]|(t&H&Ht)]; [by left|]. right. exists t. split; [by rewrite <-H|].
  rewrite Ht. by destruct (Ascii.eqb_spec c d).
Qed.

Lemma split_first_no c s : contains_char c (split_first c s) = false.
Proof. destruct (split_first_spec c s) as [[H ->]|(t&_&H)]; done. Qed.

Lemma split_first_app c s t :
  contains_char c s = false → split_first c (s +:+ String c t) = s.
Proof.
  induction s as [|d s IH]; cbn; [by rewrite Ascii.eqb_refl|].
  intros [Hd Hs]%orb_false_iff. rewrite Hd. by rewrite IH.
Qed.

Lemma split_first_id c s : contains_char c s = false → split_first c s = s.
Proof. induction s as [|d s IH]; cbn; [done|]. intros [-> ?]%orb_false_iff. by rewrite IH. Qed.

Lemma length_map_string f s : String.length (map_string f s) = String.length s.
Proof. induction s; cbn; congruence. Qed.

Lemma map_string_app f a b : map_string f (a +:+ b) = map_string f a +:+ map_string f b.
Proof. induction a as [|x a IH]; [done|]. cbn. by rewrite IH. Qed.

Lemma lower_ascii_idemp c : lower_ascii (lower_ascii c) = lower_ascii c.
Proof. destruct c as [[] [] [] [] [] [] [] []]; reflexivity. Qed.

Lemma upper_ascii_idemp c : upper_ascii (upper_ascii c) = upper_ascii c.
Proof. destruct c as [[] [] [] [] [] [] [] []]; reflexivity. Qed.

Lemma to_lowercase_idemp s : to_lowercase (to_lowercase s) = to_lowercase s.
Proof.
  unfold to_lowercase. induction s as [|c s IH]; [done|]. cbn.
  by rewrite IH, lower_ascii_idemp.
Qed.

Lemma to_uppercase_idemp s : to_uppercase (to_uppercase s) = to_uppercase s.
Proof.
  unfold to_uppercase. induction s as [|c s IH]; [done|]. cbn.
  by rewrite IH, upper_ascii_idemp.
Qed.

Lemma to_lowercase_app a b : to_lowercase (a +:+ b) = to_lowercase a +:+ to_lowercase b.
Proof. apply map_string_app. Qed.

(** A character that is not a letter is in a lowercased string exactly when it
    is in the string. *)
Lemma contains_char_lower c s :
  lower_ascii c = c → (∀ d, lower_ascii d = c → d = c) →
  contains_char c (to_lowercase s) = contains_char c s.
Proof.
  intros Hc Hinv. unfold to_lowercase. induction s as [|d s IH]; [done|]. cbn.
  rewrite IH. f_equal. destruct (Ascii.eqb_spec c (lower_ascii d)) as [Hd|Hd].
  - rewrite (Hinv d) by done. by rewrite Ascii.eqb_refl.
  - destruct (Ascii.eqb_spec c d) as [<-|]; [congruence|done].
Qed.

Lemma contains_dot_lower s : contains_char "." (to_lowercase s) = contains_char "." s.
Proof.
  apply contains_char_lower; [done|].
  intros [[] [] [] [] [] [] [] []]; vm_compute; congruence.
Qed.

Lemma is_empty_str_true s : is_empty_str s = true ↔ s = "".
Proof. by destruct s. Qed.

Lemma is_empty_str_false s : is_empty_str s = false ↔ s ≠ "".
Proof. by destruct s. Qed.

Lemma trim_end_matches_spec c s :
  ∃ t, s = trim_end_matches c s +:+ t ∧ (∀ d, contains_char d t = true → d = c).
Proof.
  induction s as [|d s (t&Hs&Ht)]; cbn; [by exists ""|].
  destruct (trim_end_matches c s) as [|e u] eqn:E; cbn in *.
  - destruct (Ascii.eqb_spec c d) as [->|Hne]; cbn.
    + exists (String d t). subst s. split; [done|]. intros e. cbn.
      intros [He|?]%orb_true_iff; [by apply Ascii.eqb_eq in He|auto].
    + exists t. by subst s.
  - exists t. split; [by rewrite <-Hs|done].
Qed.

Lemma trim_end_matches_no_suffix c s :
  ends_with (String c "") (trim_end_matches c s) = false.
Proof.
  apply not_true_iff_false. rewrite ends_with_true. intros (p&Hp).
  revert p Hp. induction s as [|d s IH]; intros p; cbn; [by destruct p|].
  destruct (trim_end_matches c s) as [|e u] eqn:E.
  - destruct (Ascii.eqb_spec c d) as [->|Hne]; [by destruct p|].
    destruct p as [|x p]; cbn; [congruence|]. intros [= _ Hp]. by destruct p.
  - destruct p as [|x p]; cbn; [congruence|]. intros [= _ Hp]. by apply (IH p).
Qed.

Lemma slice_to_from n s : slice_to n s +:+ slice_from n s = s.
Proof. revert s. induction n as [|n IH]; intros [|c s]; cbn; by rewrite ?IH. Qed.

Lemma length_slice_to n s : String.length (slice_to n s) = n `min` String.length s.
Proof. revert s. induction n as [|n IH]; intros [|c s]; cbn; by rewrite ?IH. Qed.

Lemma slice_to_app a b : slice_to (String.length a) (a +:+ b) = a.
Proof. induction a as [|c a IH]; [done|]. cbn. by rewrite IH. Qed.

Lemma slice_from_app a b : slice_from (String.length a) (a +:+ b) = b.
Proof. by induction a as [|c a IH]. Qed.

#[export] Hint Resolve strip_prefix_app strip_suffix_app split_first_no : wicket.
#[export] Hint Rewrite strip_prefix_app strip_suffix_app to_lowercase_idemp
  to_uppercase_idemp contains_dot_lower app_str_nil_r : wicket.

(** Operations reduce only on a literal subject. *)
#[global] Arguments starts_with _ !_ : simpl nomatch.
#[global] Arguments strip_prefix _ !_ : simpl nomatch.
#[global] Arguments strip_suffix _ !_ : simpl nomatch.
#[global] Arguments ends_with : simpl never.
#[global] Arguments contains_char _ !_ : simpl nomatch.
#[global] Arguments split_first _ !_ : simpl nomatch.
#[global] Arguments split_once _ !_ : simpl nomatch.
#[global] Arguments to_lowercase : simpl never.
#[global] Arguments to_uppercase : simpl never.

(** ** Labels *)

Lemma split_labels_nonempty s : split_labels s ≠ [].
Proof. destruct s; cbn; [done|]. destruct (split_labels s); [done|]. by case_match. Qed.

Lemma split_labels_join s :
  join_dots (split_labels s) = s ∧ Forall (λ l, contains_char "." l = false) (split_labels s).
Proof.
  induction s as [|c s [IHj IHf]]; cbn [split_labels]; [split; [done|by repeat constructor]|].
  pose proof (split_labels_nonempty s) as Hne. destruct (split_labels s) as [|l ls]; [done|].
  destruct (Ascii.eqb_spec c ".") as [->|Hc].
  - split; [by rewrite <- IHj|]. by constructor.
  - apply Forall_cons in IHf as [Hl Hls]. split.
    + rewrite <- IHj. by destruct ls.
    + constructor; [|done]. cbn [contains_char]. rewrite Hl, Ascii.eqb_sym. by rewrite (proj2 (Ascii.eqb_neq _ _)).
Qed.

Lemma split_labels_app l s : contains_char "." l = false → split_labels (l +:+ "." +:+ s) = l :: split_labels s.
Proof.
  induction l as [|c l IH]; cbn [contains_char]; intros Hl.
  - cbn. pose proof (split_labels_nonempty s). by destruct (split_labels s).
  - apply orb_false_iff in Hl as [Hc Hl]. change (String c l +:+ "." +:+ s) with (String c (l +:+ "." +:+ s)).
    cbn [split_labels]. rewrite (IH Hl), Ascii.eqb_sym. by rewrite Hc.
Qed.

Lemma split_labels_id l : contains_char "." l = false → split_labels l = [l].
Proof.
  induction l as [|c l IH]; cbn [contains_char split_labels]; [done|]. intros [Hc Hl]%orb_false_iff.
  rewrite (IH Hl), Ascii.eqb_sym. by rewrite Hc.
Qed.

Lemma join_split_labels ls :
  ls ≠ [] → Forall (λ l, contains_char "." l = false) ls → split_labels (join_dots ls) = ls.
Proof.
  induction ls as [|l [|l' ls] IH]; [done|intros _ Hf; inv Hf; by apply split_labels_id|]. intros _ Hf. inv Hf.
  change (join_dots (l :: l' :: ls)) with (l +:+ "." +:+ join_dots (l' :: ls)). rewrite split_labels_app by done.
  f_equal. by apply IH.
Qed.
