(* ===== verification/Order.v ===== *)
(** * Orderings and the stable sort

    Rust's [Ord::cmp] on the types the code sorts by, [Ordering::then_with],
    and [slice::sort_by], the stable sort.  [sort_by] is written as an insertion
    sort: a stable sort is determined by its specification, and the facts below
    (permutation, order, independence of the input order when the keys are
    distinct) are what the components use. *)

From S2P Require Import Prelude Str.
From Stdlib Require Import Ascii.

(** What [Ord] promises: [cmp] is a total preorder. *)
Class TotalCmp {A} (cmp : A → A → comparison) : Prop := {
  cmp_refl x : cmp x x = Eq;
  cmp_antisym x y : cmp x y = CompOpp (cmp y x);
  cmp_trans x y z : cmp x y ≠ Gt → cmp y z ≠ Gt → cmp x z ≠ Gt
}.

(** [PartialEq] agrees with [Ord]: [Equal] only on equal values. *)
Class StrictCmp {A} (cmp : A → A → comparison) : Prop := {
  strict_total :: TotalCmp cmp;
  cmp_eq x y : cmp x y = Eq → x = y
}.

(** [Ordering::then_with]. *)
Definition then_with (a b : comparison) : comparison :=
  match a with Eq => b | _ => a end.

Definition option_cmp {A} (cmp : A → A → comparison) (x y : option A) : comparison :=
  match x, y with
  | None, None => Eq
  | None, Some _ => Lt
  | Some _, None => Gt
  | Some a, Some b => cmp a b
  end.

(** The lexicographic order of tuples. *)
Definition pair_cmp {A B} (ca : A → A → comparison) (cb : B → B → comparison)
    (x y : A * B) : comparison :=
  then_with (ca x.1 y.1) (cb x.2 y.2).

(** [sort_by_key]: comparison through a key. *)
Definition by_key {A K} (key : A → K) (cmp : K → K → comparison) (x y : A) : comparison :=
  cmp (key x) (key y).

Fixpoint insert_sorted {A} (cmp : A → A → comparison) (x : A) (l : list A) : list A :=
  match l with
  | [] => [x]
  | y :: l' => match cmp x y with
               | Gt => y :: insert_sorted cmp x l'
               | _ => x :: l
               end
  end.

(** [slice::sort_by]. *)
Definition sort_by {A} (cmp : A → A → comparison) (l : list A) : list A :=
  foldr (insert_sorted cmp) [] l.

(** [sort_by_key]. *)
Definition sort_by_key {A K} (key : A → K) (cmp : K → K → comparison) (l : list A) : list A :=
  sort_by (by_key key cmp) l.

Definition cmp_le {A} (cmp : A → A → comparison) (x y : A) : Prop := cmp x y ≠ Gt.

Section total.
Context {A : Type} (cmp : A → A → comparison) `{!TotalCmp cmp}.

#[global] Instance cmp_le_trans : Transitive (cmp_le cmp).
Proof. intros x y z. apply cmp_trans. Qed.

#[global] Instance cmp_le_refl : Reflexive (cmp_le cmp).
Proof. intros x. unfold cmp_le. by rewrite cmp_refl. Qed.

Lemma cmp_gt_le x y : cmp x y = Gt → cmp_le cmp y x.
Proof. intros H. unfold cmp_le. rewrite (cmp_antisym (cmp := cmp)), H. done. Qed.

Lemma insert_sorted_perm x l : insert_sorted cmp x l ≡ₚ x :: l.
Proof.
  induction l as [|y l IH]; [done|]. cbn. destruct (cmp x y); [done..|].
  rewrite IH. by constructor.
Qed.

Lemma sort_by_perm l : sort_by cmp l ≡ₚ l.
Proof. induction l as [|x l IH]; [done|]. cbn. by rewrite insert_sorted_perm, IH. Qed.

Lemma insert_sorted_sorted x l :
  StronglySorted (cmp_le cmp) l → StronglySorted (cmp_le cmp) (insert_sorted cmp x l).
Proof.
  induction 1 as [|y l Hl IH Hy]; cbn; [by repeat constructor|].
  destruct (cmp x y) eqn:Hxy.
  1,2: constructor; [by constructor|]; constructor; [by unfold cmp_le; rewrite Hxy|];
    eapply Forall_impl; [exact Hy|]; intros z Hz; eapply cmp_le_trans; [|exact Hz];
    by unfold cmp_le; rewrite Hxy.
  constructor; [done|]. rewrite insert_sorted_perm. constructor; [by apply cmp_gt_le|done].
Qed.

Lemma sort_by_sorted l : StronglySorted (cmp_le cmp) (sort_by cmp l).
Proof. induction l as [|x l IH]; cbn; [constructor|by apply insert_sorted_sorted]. Qed.

Lemma elem_of_sort_by l x : x ∈ sort_by cmp l ↔ x ∈ l.
Proof. by rewrite sort_by_perm. Qed.

Lemma length_sort_by l : length (sort_by cmp l) = length l.
Proof. by rewrite sort_by_perm. Qed.

(** Sorting forgets the input order when distinct elements never compare equal. *)
Lemma sort_by_unique l1 l2 :
  (∀ x y, x ∈ l1 → y ∈ l1 → cmp x y = Eq → x = y) →
  l1 ≡ₚ l2 → sort_by cmp l1 = sort_by cmp l2.
Proof.
  intros Hinj Hp.
  apply (StronglySorted_unique_strong (cmp_le cmp)); [|apply sort_by_sorted..|].
  - intros x1 x2. rewrite !elem_of_sort_by, <-Hp. intros H1 H2 H12 H21.
    apply Hinj; [done..|]. unfold cmp_le in *.
    rewrite (cmp_antisym (cmp := cmp)) in H21. by destruct (cmp x1 x2).
  - by rewrite !sort_by_perm.
Qed.

Lemma sort_by_id l : StronglySorted (cmp_le cmp) l → sort_by cmp l = l.
Proof.
  induction 1 as [|x l Hl IH Hx]; [done|]. cbn. unfold sort_by in IH. rewrite IH.
  destruct l as [|y l]; [done|]. cbn. inversion Hx as [|?? Hxy]; subst.
  unfold cmp_le in Hxy. by destruct (cmp x y).
Qed.

Lemma by_key_total {B} (key : B → A) : TotalCmp (by_key key cmp).
Proof.
  split; unfold by_key; intros.
  - apply cmp_refl.
  - apply cmp_antisym.
  - eapply cmp_trans; eauto.
Qed.
End total.

#[export] Existing Instance by_key_total.

(** The first element of a sorted list that satisfies [p] is minimal among all
    the elements that satisfy it. *)
Lemma find_first_sorted_min {A} (cmp : A → A → comparison) `{!TotalCmp cmp} p l x :
  StronglySorted (cmp_le cmp) l → find_first p l = Some x →
  ∀ y, y ∈ l → p y = true → cmp_le cmp x y.
Proof.
  induction 1 as [|z l Hl IH Hz]; cbn; [done|]. destruct (p z) eqn:Hpz.
  - intros [= ->] y [->|Hy]%elem_of_cons _; [apply (cmp_le_refl cmp)|].
    rewrite Forall_forall in Hz. auto.
  - intros Hf y [->|Hy]%elem_of_cons Hpy; [congruence|auto].
Qed.

Section lex.
Context {A B : Type} (ca : A → A → comparison) (cb : B → B → comparison).
Context `{!TotalCmp ca, !TotalCmp cb}.

Lemma cmp_eq_trans x y z : ca x y = Eq → ca y z = ca x z.
Proof.
  intros Hxy. assert (Hyx : ca y x = Eq) by (by rewrite (cmp_antisym (cmp := ca)), Hxy).
  assert (Hle : ∀ a b c : A, ca a b = Eq → ca b c ≠ Gt → ca a c ≠ Gt).
  { intros a b c H. apply cmp_trans. by rewrite H. }
  assert (Hge : ∀ a b c : A, ca b a = Eq → ca c b ≠ Gt → ca c a ≠ Gt).
  { intros a b c H Hc. eapply cmp_trans; [exact Hc|]. by rewrite H. }
  pose proof (Hle x y z Hxy). pose proof (Hle y x z Hyx).
  pose proof (Hge x y z Hyx). pose proof (Hge y x z Hxy).
  rewrite (cmp_antisym (cmp := ca) z x), (cmp_antisym (cmp := ca) z y) in *.
  destruct (ca y z), (ca x z); cbn in *; naive_solver.
Qed.

#[global] Instance pair_cmp_total : TotalCmp (pair_cmp ca cb).
Proof.
  split; unfold pair_cmp.
  - intros [x1 x2]. cbn. by rewrite !cmp_refl.
  - intros [x1 x2] [y1 y2]; cbn. rewrite (cmp_antisym (cmp := ca) x1 y1), (cmp_antisym (cmp := cb) x2 y2).
    by destruct (ca y1 x1).
  - intros [x1 x2] [y1 y2] [z1 z2]; cbn. intros H1 H2.
    destruct (ca x1 y1) eqn:E1; cbn in H1; [|clear H1|done].
    + rewrite <-(cmp_eq_trans _ _ z1 E1). destruct (ca y1 z1) eqn:E2; cbn in *; [|done..].
      by eapply cmp_trans.
    + destruct (ca y1 z1) eqn:E2; cbn in H2; [| |done].
      * assert (ca z1 y1 = Eq) as E3 by (by rewrite (cmp_antisym (cmp := ca)), E2).
        pose proof (cmp_eq_trans _ _ x1 E3) as E4.
        rewrite (cmp_antisym (cmp := ca)), <-E4, (cmp_antisym (cmp := ca)), E1. done.
      * assert (ca x1 z1 ≠ Gt) by (apply (cmp_trans x1 y1 z1); by rewrite ?E1, ?E2).
        destruct (ca x1 z1) eqn:E3; [|done..].
        pose proof (cmp_eq_trans _ _ y1 E3) as E4.
        rewrite (cmp_antisym (cmp := ca)), E2 in E4. cbn in E4. congruence.
Qed.
End lex.

#[global] Instance pair_cmp_strict {A B} (ca : A → A → comparison) (cb : B → B → comparison)
  `{!StrictCmp ca, !StrictCmp cb} : StrictCmp (pair_cmp ca cb).
Proof.
  split; [apply _|]. intros [x1 x2] [y1 y2]. unfold pair_cmp. cbn.
  destruct (ca x1 y1) eqn:E; [|done..]. cbn. intros E2.
  apply cmp_eq in E. apply cmp_eq in E2. congruence.
Qed.

#[global] Instance option_cmp_strict {A} (ca : A → A → comparison) `{!StrictCmp ca} :
  StrictCmp (option_cmp ca).
Proof.
  split; [split|].
  - intros [x|]; cbn; [apply cmp_refl|done].
  - intros [x|] [y|]; cbn; [apply cmp_antisym|done..].
  - intros [x|] [y|] [z|]; cbn; [apply cmp_trans|done..].
  - intros [x|] [y|]; cbn; [|done..]. by intros ->%cmp_eq.
Qed.

#[global] Instance N_compare_strict : StrictCmp N.compare.
Proof.
  split; [split|].
  - apply N.compare_refl.
  - intros x y. apply N.compare_antisym.
  - intros x y z. rewrite !N.compare_le_iff. lia.
  - apply N.compare_eq.
Qed.

#[global] Instance nat_compare_strict : StrictCmp Nat.compare.
Proof.
  split; [split|].
  - apply Nat.compare_refl.
  - intros x y. apply Nat.compare_antisym.
  - intros x y z. rewrite !Nat.compare_le_iff. lia.
  - apply Nat.compare_eq.
Qed.

(** [Ord for str]: bytes, lexicographically. *)
Definition str_cmp : string → string → comparison := String.compare.

Lemma str_cmp_cons a s b t :
  str_cmp (String a s) (String b t)
  = then_with (N.compare (N_of_ascii a) (N_of_ascii b)) (str_cmp s t).
Proof. unfold str_cmp. cbn. unfold Ascii.compare. by destruct (N.compare _ _). Qed.

#[global] Instance str_cmp_strict : StrictCmp str_cmp.
Proof.
  split; [split|].
  - intros x. induction x as [|c x IH]; [done|]. by rewrite str_cmp_cons, N.compare_refl.
  - intros x y. apply String.compare_antisym.
  - intros x y z. revert x z. induction y as [|b y IH]; intros [|a x] [|c z]; try done.
    rewrite !str_cmp_cons.
    destruct (N.compare_spec (N_of_ascii a) (N_of_ascii b)) as [Hab|Hab|Hab];
    destruct (N.compare_spec (N_of_ascii b) (N_of_ascii c)) as [Hbc|Hbc|Hbc];
    destruct (N.compare_spec (N_of_ascii a) (N_of_ascii c)) as [Hac|Hac|Hac];
    cbn; try done; try lia. apply IH.
  - apply String.compare_eq_iff.
Qed.

(** Sorting the entries of a map by their (distinct) keys. *)
Definition btree_iter {V} (m : gmap string V) : list (string * V) :=
  sort_by_key fst str_cmp (map_to_list m).

Lemma btree_iter_perm {V} (m : gmap string V) : btree_iter m ≡ₚ map_to_list m.
Proof. apply sort_by_perm. Qed.

Lemma elem_of_btree_iter {V} (m : gmap string V) k v :
  (k, v) ∈ btree_iter m ↔ m !! k = Some v.
Proof. by rewrite btree_iter_perm, elem_of_map_to_list. Qed.

Lemma map_to_list_fst_inj {V} (m : gmap string V) (x y : string * V) :
  x ∈ map_to_list m → y ∈ map_to_list m → x.1 = y.1 → x = y.
Proof.
  destruct x as [k v], y as [k' w]. rewrite !elem_of_map_to_list.
  cbn. intros ?? ->. congruence.
Qed.

(** The sorted entries do not depend on the order the map was enumerated in. *)
Lemma sort_entries_unique {V} (m : gmap string V) l :
  l ≡ₚ map_to_list m → sort_by_key fst str_cmp l = btree_iter m.
Proof.
  intros Hl. unfold btree_iter, sort_by_key.
  apply sort_by_unique; [apply _| |done].
  intros x y Hx Hy Hxy. rewrite Hl in Hx, Hy.
  eapply map_to_list_fst_inj; [done..|]. by apply (cmp_eq (cmp := str_cmp)) in Hxy.
Qed.

Lemma NoDup_btree_iter_keys {V} (m : gmap string V) : NoDup (fst <$> btree_iter m).
Proof. rewrite btree_iter_perm. apply NoDup_fst_map_to_list. Qed.
