(* ===== verification/Num.v ===== *)
(** * Numbers and their text

    Rust's unsigned integers are [N] with their width written out where it
    matters; [show_N] is [u64::to_string] (and the other unsigned widths),
    [show_hex] is [{:x}], and [parse_uint max] is [str::parse::<uN>] for the type
    whose largest value is [max]: an optional ['+'], at least one digit, and an
    error as soon as the value overflows. *)

From S2P Require Import Prelude Str.
From Stdlib Require Import Ascii.

Definition u8_max : N := 255.
Definition u16_max : N := 65535.
Definition u32_max : N := 4294967295.
Definition u64_max : N := 18446744073709551615.
Definition i32_max : N := 2147483647.

(** [usize] is 64 bits wide; [wrapping] arithmetic is modulo [2^64]. *)
Definition usize_modulus : N := 18446744073709551616.
Definition wrapping_add_usize (a b : N) : N := (a + b) mod usize_modulus.

(** [u64::saturating_sub]. *)
Definition saturating_sub (a b : N) : N := a - b.

Definition digit_char (d : N) : ascii :=
  if (d <? 10)%N then ascii_of_N (48 + d) else ascii_of_N (87 + d).

Fixpoint show_radix (base : N) (fuel : nat) (n : N) (acc : string) : string :=
  match fuel with
  | O => acc
  | S fuel' =>
      let acc' := String (digit_char (n mod base)) acc in
      if (n <? base)%N then acc' else show_radix base fuel' (n / base) acc'
  end.

(** A number has no more decimal or hexadecimal digits than bits. *)
Definition show_N (n : N) : string := show_radix 10 (S (N.size_nat n)) n "".
Definition show_hex (n : N) : string := show_radix 16 (S (N.size_nat n)) n "".

(** The value of a decimal digit. *)
Definition digit_val (c : ascii) : option N :=
  let n := N_of_ascii c in
  if (48 <=? n)%N && (n <=? 57)%N then Some (n - 48)%N else None.

Fixpoint parse_digits (max acc : N) (s : string) : option N :=
  match s with
  | EmptyString => Some acc
  | String c s' =>
      match digit_val c with
      | Some d => let acc' := (acc * 10 + d)%N in
                  if (acc' <=? max)%N then parse_digits max acc' s' else None
      | None => None
      end
  end.

Definition parse_uint (max : N) (s : string) : option N :=
  match s with
  | EmptyString => None
  | String c s' =>
      if Ascii.eqb c "+" then
        match s' with EmptyString => None | _ => parse_digits max 0 s' end
      else parse_digits max 0 s
  end.

(** ** Facts *)

Lemma digit_val_char d : (d < 10)%N → digit_val (digit_char d) = Some d.
Proof.
  intros Hd. assert (d ∈ [0;1;2;3;4;5;6;7;8;9]%N) as H.
  { repeat rewrite elem_of_cons. lia. }
  repeat (apply elem_of_cons in H as [->|H]; [done|]). by apply not_elem_of_nil in H.
Qed.

Lemma digit_char_not_plus d : (d < 10)%N → digit_char d ≠ "+"%char.
Proof.
  intros Hd H. pose proof (digit_val_char d Hd) as Hv. rewrite H in Hv. done.
Qed.

Lemma size_nat_bound n : (n < 2 ^ N.of_nat (N.size_nat n))%N.
Proof.
  destruct n as [|p]; [done|]. cbn [N.size_nat].
  pose proof (N.size_gt (N.pos p)) as H. cbn [N.size] in H.
  replace (N.of_nat (Pos.size_nat p)) with (N.pos (Pos.size p)); [done|].
  clear H. induction p as [p IH|p IH|]; cbn [Pos.size_nat Pos.size]; lia.
Qed.

Lemma size_nat_bound_base b n :
  (2 ≤ b)%N → (n < b ^ N.of_nat (S (N.size_nat n)))%N.
Proof.
  intros Hb. pose proof (size_nat_bound n) as H.
  eapply N.lt_le_trans; [exact H|]. rewrite Nat2N.inj_succ, N.pow_succ_r'.
  assert (2 ^ N.of_nat (N.size_nat n) ≤ b ^ N.of_nat (N.size_nat n))%N
    by (apply N.pow_le_mono_l; lia).
  nia.
Qed.

Lemma parse_show_radix max fuel n acc :
  (n < 10 ^ N.of_nat fuel)%N → (n ≤ max)%N → 0 < fuel →
  parse_digits max 0 (show_radix 10 fuel n acc) = parse_digits max n acc.
Proof.
  revert n acc. induction fuel as [|fuel IH]; intros n acc Hn Hmax Hf; [lia|].
  cbn [show_radix]. destruct (N.ltb_spec n 10) as [Hlt|Hge].
  - rewrite N.mod_small by done. cbn [parse_digits].
    rewrite digit_val_char by done. replace (0 * 10 + n)%N with n by lia.
    cbn zeta. destruct (N.leb_spec n max); [done|lia].
  - destruct fuel as [|fuel].
    { cbn in Hn. lia. }
    rewrite IH; [|rewrite (Nat2N.inj_succ (S fuel)), N.pow_succ_r' in Hn;
      apply N.Div0.div_lt_upper_bound; lia|pose proof (N.Div0.div_le_upper_bound n 10 n); lia|lia].
    cbn [parse_digits]. pose proof (N.mod_lt n 10). rewrite digit_val_char by lia.
    pose proof (N.div_mod n 10).
    replace (n / 10 * 10 + n mod 10)%N with n by lia.
    destruct (N.leb_spec n max); [done|lia].
Qed.

(** The head of the text of a number is its leading digit. *)
Lemma show_radix_head fuel n acc :
  (n < 10 ^ N.of_nat fuel)%N → 0 < fuel →
  ∃ d s, show_radix 10 fuel n acc = String (digit_char d) s ∧ (d < 10)%N.
Proof.
  revert n acc. induction fuel as [|fuel IH]; intros n acc Hn Hf; [lia|].
  cbn [show_radix]. destruct (N.ltb_spec n 10) as [Hlt|Hge].
  - rewrite N.mod_small by done. eauto.
  - destruct fuel as [|fuel]; [cbn in Hn; lia|].
    apply IH; [|lia]. rewrite (Nat2N.inj_succ (S fuel)), N.pow_succ_r' in Hn.
    apply N.Div0.div_lt_upper_bound; lia.
Qed.

Lemma parse_digits_show max n acc :
  (n ≤ max)%N → parse_digits max 0 (show_radix 10 (S (N.size_nat n)) n acc) = parse_digits max n acc.
Proof. intros Hn. apply parse_show_radix; [apply size_nat_bound_base; lia|done|lia]. Qed.

(** [n.to_string().parse() == Ok(n)] for every [n] of the type. *)
Lemma parse_uint_show max n : (n ≤ max)%N → parse_uint max (show_N n) = Some n.
Proof.
  intros Hn. unfold parse_uint, show_N.
  destruct (show_radix_head (S (N.size_nat n)) n "") as (d&s&Hs&Hd);
    [apply size_nat_bound_base; lia|lia|].
  pose proof (parse_digits_show max n "" Hn) as Hp. rewrite Hs in *.
  destruct (Ascii.eqb_spec (digit_char d) "+") as [He|_]; [|done].
  by apply digit_char_not_plus in He.
Qed.

Lemma length_show_radix base fuel n acc k :
  (2 ≤ base)%N → (n < base ^ N.of_nat (S k))%N →
  String.length (show_radix base fuel n acc) ≤ S k + String.length acc.
Proof.
  intros Hb. revert n acc k. induction fuel as [|fuel IH]; intros n acc k Hn; cbn; [lia|].
  destruct (N.ltb_spec n base) as [Hlt|Hge]; cbn; [lia|].
  destruct k as [|k].
  { cbn in Hn. rewrite N.pow_1_r in Hn. lia. }
  rewrite (Nat2N.inj_succ (S k)), N.pow_succ_r' in Hn.
  pose proof (IH (n / base)%N (String (digit_char (n mod base)) acc) k) as H. cbn in H.
  assert (n / base < base ^ N.of_nat (S k))%N by (apply N.Div0.div_lt_upper_bound; lia).
  lia.
Qed.

Lemma length_show_N n k : (n < 10 ^ N.of_nat (S k))%N → String.length (show_N n) ≤ S k.
Proof. intros H. pose proof (length_show_radix 10 (S (N.size_nat n)) n "" k). cbn in *. unfold show_N. lia. Qed.

Lemma length_show_hex n k : (n < 16 ^ N.of_nat (S k))%N → String.length (show_hex n) ≤ S k.
Proof. intros H. pose proof (length_show_radix 16 (S (N.size_nat n)) n "" k). cbn in *. unfold show_hex. lia. Qed.

Lemma show_N_inj n m : show_N n = show_N m → n = m.
Proof.
  intros H. pose proof (parse_uint_show (N.max n m) n) as Hn.
  pose proof (parse_uint_show (N.max n m) m) as Hm. rewrite H in Hn.
  rewrite Hn in Hm by lia. specialize (Hm ltac:(lia)). congruence.
Qed.

Lemma show_radix_digits fuel n acc c :
  contains_char c acc = false → digit_val c = None →
  contains_char c (show_radix 10 fuel n acc) = false.
Proof.
  intros Hacc Hc. revert n acc Hacc. induction fuel as [|fuel IH]; intros n acc Hacc; cbn; [done|].
  assert (contains_char c (String (digit_char (n mod 10)) acc) = false) as Hacc'.
  { cbn. rewrite Hacc, orb_false_r. apply Ascii.eqb_neq. intros ->.
    rewrite digit_val_char in Hc; [done|]. pose proof (N.mod_lt n 10). lia. }
  destruct (n <? 10)%N; [done|]. by apply IH.
Qed.

(** The text of a number holds decimal digits only. *)
Lemma show_N_digits n c : digit_val c = None → contains_char c (show_N n) = false.
Proof. by apply show_radix_digits. Qed.

Lemma show_N_nonempty n : show_N n ≠ "".
Proof.
  destruct (show_radix_head (S (N.size_nat n)) n "") as (d&s&Hs&Hd);
    [apply size_nat_bound_base; lia|lia|]. unfold show_N. by rewrite Hs.
Qed.

Lemma parse_digits_le max acc s n : (acc ≤ max)%N → parse_digits max acc s = Some n → (n ≤ max)%N.
Proof.
  revert acc. induction s as [|c s IH]; intros acc Hacc; cbn; [naive_solver|].
  destruct (digit_val c) as [d|]; [|done].
  destruct (N.leb_spec (acc * 10 + d) max); [|done]. by apply IH.
Qed.

Lemma parse_uint_le max s n : parse_uint max s = Some n → (n ≤ max)%N.
Proof.
  unfold parse_uint. destruct s as [|c s]; [done|].
  destruct (Ascii.eqb c "+"); [destruct s as [|c' s]; [done|]|]; apply parse_digits_le; lia.
Qed.
