(* ===== verification/Bytes.v ===== *)
(** * Bytes

    [u8] is [Byte.byte], [Vec<u8>] and [&[u8]] are [list byte]; multi-byte
    integers are big-endian, as in the TLS record layer and in the PROXY
    protocol.  Strings and bytes convert one to one ([as_bytes]). *)

From S2P Require Import Prelude Str Num.
From Stdlib Require Export Strings.Byte.
From Stdlib Require Import Ascii.

#[global] Instance byte_eq_dec : EqDecision byte := Byte.byte_eq_dec.
#[global] Program Instance byte_countable : Countable byte :=
  inj_countable Byte.to_N Byte.of_N _.
Next Obligation. intros b. apply Byte.of_to_N. Qed.

Notation bytes := (list byte).

Definition u8 (b : byte) : N := Byte.to_N b.

(** [n as u8]: the low eight bits. *)
Definition as_u8 (n : N) : byte := unwrap_or x00 (Byte.of_N (n mod 256)).

(** [u16::from_be_bytes] and [u16::to_be_bytes]. *)
Definition u16_from_be (a b : byte) : N := (u8 a * 256 + u8 b)%N.
Definition u16_to_be (n : N) : bytes := [as_u8 (n / 256); as_u8 n].

Definition u24_from_be (a b c : byte) : N := (u8 a * 65536 + u8 b * 256 + u8 c)%N.
Definition u24_to_be (n : N) : bytes := [as_u8 (n / 65536); as_u8 (n / 256); as_u8 n].

(** [str::as_bytes] and its inverse. *)
Definition as_bytes (s : string) : bytes := String.list_byte_of_string s.
Definition of_bytes (l : bytes) : string := String.string_of_list_byte l.

(** ** UTF-8

    [core::str::from_utf8]: the byte sequences of RFC 3629 (no overlong form, no
    surrogate, nothing above U+10FFFF). *)

Definition in_range (lo hi : N) (b : byte) : bool := ((lo <=? u8 b) && (u8 b <=? hi))%N.

Definition is_cont (b : byte) : bool := in_range 128 191 b.

Fixpoint utf8_valid (l : bytes) : bool :=
  match l with
  | [] => true
  | a :: l1 =>
      if in_range 0 127 a then utf8_valid l1 else
      match l1 with
      | [] => false
      | b :: l2 =>
          if in_range 194 223 a then is_cont b && utf8_valid l2 else
          match l2 with
          | [] => false
          | c :: l3 =>
              if in_range 224 239 a then
                let lo := if (u8 a =? 224)%N then 160%N else 128%N in
                let hi := if (u8 a =? 237)%N then 159%N else 191%N in
                in_range lo hi b && is_cont c && utf8_valid l3 else
              match l3 with
              | [] => false
              | d :: l4 =>
                  if in_range 240 244 a then
                    let lo := if (u8 a =? 240)%N then 144%N else 128%N in
                    let hi := if (u8 a =? 244)%N then 143%N else 191%N in
                    in_range lo hi b && is_cont c && is_cont d && utf8_valid l4
                  else false
              end
          end
      end
  end.

(** [std::str::from_utf8(bytes)]. *)
Definition from_utf8 (l : bytes) : option string :=
  if utf8_valid l then Some (of_bytes l) else None.

(** ** Facts *)

Lemma u8_bound b : (u8 b < 256)%N.
Proof. unfold u8. pose proof (Byte.to_N_bounded b). lia. Qed.

Lemma u8_as_u8 n : u8 (as_u8 n) = (n mod 256)%N.
Proof.
  unfold u8, as_u8. pose proof (N.mod_lt n 256 ltac:(lia)) as H.
  destruct (Byte.of_N (n mod 256)) as [b|] eqn:E; cbn.
  - by apply Byte.to_of_N.
  - apply Byte.of_N_None_iff in E. lia.
Qed.

Lemma u8_inj a b : u8 a = u8 b → a = b.
Proof. unfold u8. intros H. apply (f_equal Byte.of_N) in H. rewrite !Byte.of_to_N in H. congruence. Qed.

Lemma as_u8_u8 b : as_u8 (u8 b) = b.
Proof. apply u8_inj. rewrite u8_as_u8. apply N.mod_small, u8_bound. Qed.

Lemma length_u16_to_be n : length (u16_to_be n) = 2.
Proof. done. Qed.

(** Encoding a 16-bit value and reading it back. *)
Lemma u16_from_to_be n : (n < 65536)%N → u16_from_be (as_u8 (n / 256)) (as_u8 n) = n.
Proof.
  intros Hn. unfold u16_from_be. rewrite !u8_as_u8.
  rewrite (N.mod_small (n / 256)) by (apply N.Div0.div_lt_upper_bound; lia).
  pose proof (N.div_mod n 256). lia.
Qed.

Lemma u24_from_to_be n :
  (n < 16777216)%N → u24_from_be (as_u8 (n / 65536)) (as_u8 (n / 256)) (as_u8 n) = n.
Proof.
  intros Hn. unfold u24_from_be. rewrite !u8_as_u8.
  rewrite (N.mod_small (n / 65536)) by (apply N.Div0.div_lt_upper_bound; lia).
  replace (n / 65536)%N with (n / 256 / 256)%N by (by rewrite N.Div0.div_div).
  pose proof (N.div_mod n 256). pose proof (N.div_mod (n / 256) 256). lia.
Qed.

Lemma u16_from_be_bound a b : (u16_from_be a b < 65536)%N.
Proof. unfold u16_from_be. pose proof (u8_bound a). pose proof (u8_bound b). lia. Qed.

Lemma of_bytes_as_bytes s : of_bytes (as_bytes s) = s.
Proof. apply String.string_of_list_byte_of_string. Qed.

Lemma as_bytes_of_bytes l : as_bytes (of_bytes l) = l.
Proof. apply String.list_byte_of_string_of_list_byte. Qed.

Lemma as_bytes_cons c s : as_bytes (String c s) = byte_of_ascii c :: as_bytes s.
Proof. done. Qed.

Lemma length_as_bytes s : length (as_bytes s) = String.length s.
Proof. induction s as [|c s IH]; [done|]. rewrite as_bytes_cons. cbn. by rewrite IH. Qed.

Lemma as_bytes_app s t : as_bytes (s +:+ t) = as_bytes s ++ as_bytes t.
Proof.
  induction s as [|c s IH]; [done|]. change (String c s +:+ t) with (String c (s +:+ t)).
  by rewrite !as_bytes_cons, IH.
Qed.

(** ASCII text is UTF-8. *)
Lemma utf8_valid_ascii l : forallb (in_range 0 127) l = true → utf8_valid l = true.
Proof.
  induction l as [|a l IH]; [done|]. cbn. intros [Ha Hl]%andb_true_iff. rewrite Ha. auto.
Qed.
