(* ===== verification/Net.v ===== *)
(** * Addresses

    [std::net::{Ipv4Addr, Ipv6Addr, IpAddr, SocketAddr}], their text form
    ([Display]) and their parser ([FromStr]), as the standard library of Rust
    defines them: decimal octets without leading zeros, at most four hexadecimal
    digits per IPv6 group, one [::], an embedded IPv4 tail, an optional [%scope]. *)

From S2P Require Import Prelude Str Num Bytes.
From Stdlib Require Import Ascii.

Record Ipv4Addr := mkIpv4 { oct1 : byte; oct2 : byte; oct3 : byte; oct4 : byte }.

(** The eight 16-bit groups of an IPv6 address. *)
Record Ipv6Addr := mkIpv6 { segments : list N }.

Inductive IpAddr := IpV4 (a : Ipv4Addr) | IpV6 (a : Ipv6Addr).

Inductive SocketAddr :=
| SocketAddrV4 (ip : Ipv4Addr) (port : N)
| SocketAddrV6 (ip : Ipv6Addr) (port : N) (scope_id : N).

#[global] Instance Ipv4Addr_eq_dec : EqDecision Ipv4Addr.
Proof. solve_decision. Defined.
#[global] Instance Ipv6Addr_eq_dec : EqDecision Ipv6Addr.
Proof. solve_decision. Defined.
#[global] Instance IpAddr_eq_dec : EqDecision IpAddr.
Proof. solve_decision. Defined.
#[global] Instance SocketAddr_eq_dec : EqDecision SocketAddr.
Proof. solve_decision. Defined.

#[global] Program Instance Ipv4Addr_countable : Countable Ipv4Addr :=
  inj_countable (λ a, (oct1 a, oct2 a, oct3 a, oct4 a))
    (λ '(a, b, c, d), Some (mkIpv4 a b c d)) _.
Next Obligation. by intros []. Qed.
#[global] Program Instance Ipv6Addr_countable : Countable Ipv6Addr :=
  inj_countable segments (λ l, Some (mkIpv6 l)) _.
Next Obligation. by intros []. Qed.
#[global] Program Instance SocketAddr_countable : Countable SocketAddr :=
  inj_countable
    (λ a, match a with
          | SocketAddrV4 ip p => inl (ip, p)
          | SocketAddrV6 ip p s => inr (ip, p, s)
          end)
    (λ x, Some (match x with
                | inl (ip, p) => SocketAddrV4 ip p
                | inr (ip, p, s) => SocketAddrV6 ip p s
                end)) _.
Next Obligation. by intros []. Qed.

Definition sock_port (a : SocketAddr) : N :=
  match a with SocketAddrV4 _ p => p | SocketAddrV6 _ p _ => p end.

Definition sock_ip (a : SocketAddr) : IpAddr :=
  match a with SocketAddrV4 ip _ => IpV4 ip | SocketAddrV6 ip _ _ => IpV6 ip end.

(** [SocketAddr::from(([a, b, c, d], port))]. *)
Definition socket_v4 (a b c d port : N) : SocketAddr :=
  SocketAddrV4 (mkIpv4 (as_u8 a) (as_u8 b) (as_u8 c) (as_u8 d)) port.

Definition octets4 (a : Ipv4Addr) : bytes := [oct1 a; oct2 a; oct3 a; oct4 a].
Definition octets6 (a : Ipv6Addr) : bytes := flat_map u16_to_be (segments a).

(** Eight groups of sixteen bits: the values the type holds. *)
Definition Ipv6_wf (a : Ipv6Addr) : Prop :=
  length (segments a) = 8 ∧ Forall (λ n, (n < 65536)%N) (segments a).

Definition SocketAddr_wf (a : SocketAddr) : Prop :=
  (sock_port a < 65536)%N ∧
  match a with SocketAddrV4 _ _ => True | SocketAddrV6 ip _ s => Ipv6_wf ip ∧ (s ≤ u32_max)%N end.

(** ** Display *)

Definition show_ipv4 (a : Ipv4Addr) : string :=
  show_N (u8 (oct1 a)) +:+ "." +:+ show_N (u8 (oct2 a)) +:+ "." +:+
  show_N (u8 (oct3 a)) +:+ "." +:+ show_N (u8 (oct4 a)).

(** The length of the run of zero groups at the head of [l]. *)
Fixpoint zero_run (l : list N) : nat :=
  match l with
  | n :: l' => if (n =? 0)%N then S (zero_run l') else 0
  | [] => 0
  end.

(** Start and length of the first longest run of zero groups. *)
Fixpoint longest_zeros (i : nat) (l : list N) : nat * nat :=
  match l with
  | [] => (i, 0)
  | _ :: l' =>
      let here := zero_run l in
      let '(j, n) := longest_zeros (S i) l' in
      if n <=? here then (i, here) else (j, n)
  end%nat.

Fixpoint show_groups (l : list N) : string :=
  match l with
  | [] => ""
  | [n] => show_hex n
  | n :: l' => show_hex n +:+ ":" +:+ show_groups l'
  end.

(** The IPv4 address of an IPv4-mapped address [::ffff:a.b.c.d]. *)
Definition ipv4_mapped (a : Ipv6Addr) : option Ipv4Addr :=
  match segments a with
  | [s0; s1; s2; s3; s4; s5; s6; s7] =>
      if ((s0 =? 0) && (s1 =? 0) && (s2 =? 0) && (s3 =? 0) && (s4 =? 0) && (s5 =? 65535))%N
      then Some (mkIpv4 (as_u8 (s6 / 256)) (as_u8 s6) (as_u8 (s7 / 256)) (as_u8 s7))
      else None
  | _ => None
  end.

Definition show_ipv6 (a : Ipv6Addr) : string :=
  match ipv4_mapped a with
  | Some v4 => "::ffff:" +:+ show_ipv4 v4
  | None =>
      let segs := segments a in
      let '(start, len) := longest_zeros 0 segs in
      if 1 <? len
      then show_groups (take start segs) +:+ "::" +:+ show_groups (drop (start + len) segs)
      else show_groups segs
  end%nat.

Definition show_ip (a : IpAddr) : string :=
  match a with IpV4 a => show_ipv4 a | IpV6 a => show_ipv6 a end.

Definition show_socket (a : SocketAddr) : string :=
  match a with
  | SocketAddrV4 ip p => show_ipv4 ip +:+ ":" +:+ show_N p
  | SocketAddrV6 ip p s =>
      if (s =? 0)%N then "[" +:+ show_ipv6 ip +:+ "]:" +:+ show_N p
      else "[" +:+ show_ipv6 ip +:+ "%" +:+ show_N s +:+ "]:" +:+ show_N p
  end.

(** ** The parser

    Each reader takes the unread text and returns the value and the rest; a
    reader that fails consumes nothing ([read_atomically]). *)

Definition reader (A : Type) := string → option (A * string).

Definition read_given_char (c : ascii) : reader unit := λ s,
  match s with
  | String d s' => if Ascii.eqb c d then Some (tt, s') else None
  | EmptyString => None
  end.

(** [char::to_digit]. *)
Definition to_digit (radix : N) (c : ascii) : option N :=
  let n := N_of_ascii c in
  let v := if (48 <=? n)%N && (n <=? 57)%N then Some (n - 48)%N
           else if (97 <=? n)%N && (n <=? 122)%N then Some (n - 87)%N
           else if (65 <=? n)%N && (n <=? 90)%N then Some (n - 55)%N
           else None in
  match v with Some d => if (d <? radix)%N then Some d else None | None => None end.

(** The digits at the head of [s]: their value, their number and the rest. *)
Fixpoint read_digits (radix acc : N) (count : nat) (s : string) : N * nat * string :=
  match s with
  | String c s' =>
      match to_digit radix c with
      | Some d => read_digits radix (acc * radix + d) (S count) s'
      | None => (acc, count, s)
      end
  | EmptyString => (acc, count, s)
  end.

(** [read_number]: fails on no digit, on more than [max_digits], on a leading
    zero where none is allowed and on a value above [max]. *)
Definition read_number (radix : N) (max_digits : option nat) (allow_zero_prefix : bool)
    (max : N) : reader N := λ s,
  let has_leading_zero := match s with String c _ => Ascii.eqb c "0" | _ => false end in
  let '(v, count, rest) := read_digits radix 0 0 s in
  if (count =? 0)%nat then None
  else if match max_digits with Some m => (m <? count)%nat | None => false end then None
  else if negb allow_zero_prefix && has_leading_zero && (1 <? count)%nat then None
  else if (v <=? max)%N then Some (v, rest) else None.

(** [read_separator]: a separator before every element but the first. *)
Definition read_separator {A} (sep : ascii) (index : nat) (inner : reader A) : reader A := λ s,
  if (0 <? index)%nat
  then match read_given_char sep s with Some (_, s') => inner s' | None => None end
  else inner s.

Definition read_octet : reader N := read_number 10 (Some 3) false u8_max.

Definition read_ipv4_addr : reader Ipv4Addr := λ s,
  '(a, s) ← read_separator "." 0 read_octet s;
  '(b, s) ← read_separator "." 1 read_octet s;
  '(c, s) ← read_separator "." 2 read_octet s;
  '(d, s) ← read_separator "." 3 read_octet s;
  Some (mkIpv4 (as_u8 a) (as_u8 b) (as_u8 c) (as_u8 d), s).

(** [read_groups]: the groups read, whether the last two are an embedded IPv4
    address, and the rest; [left] groups may still be read from index [i]. *)
Fixpoint read_groups (i left : nat) (s : string) : list N * bool * string :=
  match left with
  | O => ([], false, s)
  | S left' =>
      let v4 := if (0 <? left')%nat then read_separator ":" i read_ipv4_addr s else None in
      match v4 with
      | Some (a, s') =>
          ([u16_from_be (oct1 a) (oct2 a); u16_from_be (oct3 a) (oct4 a)], true, s')
      | None =>
          match read_separator ":" i (read_number 16 (Some 4) true u16_max) s with
          | Some (g, s') => let '(gs, v4', s'') := read_groups (S i) left' s' in (g :: gs, v4', s'')
          | None => ([], false, s)
          end
      end
  end.

Definition read_ipv6_addr : reader Ipv6Addr := λ s,
  let '(head, head_ipv4, s1) := read_groups 0 8 s in
  if (length head =? 8)%nat then Some (mkIpv6 head, s1)
  else if head_ipv4 then None
  else
    '(_, s2) ← read_given_char ":" s1;
    '(_, s3) ← read_given_char ":" s2;
    let '(tail, _, s4) := read_groups 0 (8 - (length head + 1)) s3 in
    Some (mkIpv6 (head ++ replicate (8 - length head - length tail) 0%N ++ tail), s4).

Definition read_port : reader N := λ s,
  '(_, s1) ← read_given_char ":" s; read_number 10 None true u16_max s1.

Definition read_scope_id : reader N := λ s,
  '(_, s1) ← read_given_char "%" s; read_number 10 None true u32_max s1.

Definition read_socket_addr_v4 : reader SocketAddr := λ s,
  '(ip, s1) ← read_ipv4_addr s;
  '(port, s2) ← read_port s1;
  Some (SocketAddrV4 ip port, s2).

Definition read_socket_addr_v6 : reader SocketAddr := λ s,
  '(_, s1) ← read_given_char "[" s;
  '(ip, s2) ← read_ipv6_addr s1;
  let '(scope, s3) := unwrap_or (0%N, s2) (read_scope_id s2) in
  '(_, s4) ← read_given_char "]" s3;
  '(port, s5) ← read_port s4;
  Some (SocketAddrV6 ip port scope, s5).

(** [str::parse::<SocketAddr>]: the whole text must be read. *)
Definition parse_socket_addr (s : string) : option SocketAddr :=
  match (match read_socket_addr_v4 s with
         | Some r => Some r
         | None => read_socket_addr_v6 s
         end) with
  | Some (a, EmptyString) => Some a
  | _ => None
  end.

(** ** Facts *)

Lemma to_digit_digit_char d : (d < 10)%N → to_digit 10 (digit_char d) = Some d.
Proof.
  intros Hd. assert (d ∈ [0;1;2;3;4;5;6;7;8;9]%N) as H.
  { repeat rewrite elem_of_cons. lia. }
  repeat (apply elem_of_cons in H as [->|H]; [done|]). by apply not_elem_of_nil in H.
Qed.

(** Text that does not start with a digit. *)
Definition no_digit_head (s : string) : Prop :=
  match s with String c _ => to_digit 10 c = None | EmptyString => True end.

Lemma read_digits_stop n k s : no_digit_head s → read_digits 10 n k s = (n, k, s).
Proof. destruct s as [|c s]; cbn; [done|]. by intros ->. Qed.

Lemma read_digits_show fuel n acc k :
  (n < 10 ^ N.of_nat fuel)%N → 0 < fuel →
  ∃ j, read_digits 10 0 k (show_radix 10 fuel n acc) = read_digits 10 n (S j + k) acc ∧
       (∀ m, (n < 10 ^ N.of_nat (S m))%N → j ≤ m).
Proof.
  revert n acc. induction fuel as [|fuel IH]; intros n acc Hn Hf; [lia|].
  cbn [show_radix]. destruct (N.ltb_spec n 10) as [Hlt|Hge].
  - exists 0. rewrite N.mod_small by done. cbn [read_digits].
    rewrite to_digit_digit_char by done. split; [f_equal; lia|lia].
  - destruct fuel as [|fuel]; [cbn in Hn; lia|].
    destruct (IH (n / 10)%N (String (digit_char (n mod 10)) acc)) as (j&Hj&Hm).
    { rewrite (Nat2N.inj_succ (S fuel)), N.pow_succ_r' in Hn.
      apply N.Div0.div_lt_upper_bound; lia. }
    { lia. }
    exists (S j). split.
    + rewrite Hj. cbn [read_digits]. pose proof (N.mod_lt n 10).
      rewrite to_digit_digit_char by lia. pose proof (N.div_mod n 10).
      f_equal; lia.
    + intros [|m] Hm'; [cbn in Hm'; lia|].
      assert (j ≤ m); [|lia]. apply Hm.
      rewrite (Nat2N.inj_succ (S m)), N.pow_succ_r' in Hm'.
      apply N.Div0.div_lt_upper_bound; lia.
Qed.

Lemma show_radix_app base fuel n a b :
  show_radix base fuel n (a +:+ b) = show_radix base fuel n a +:+ b.
Proof.
  revert n a. induction fuel as [|fuel IH]; intros n a; cbn [show_radix]; [done|].
  destruct (n <? base)%N; [done|]. apply (IH _ (String _ a)).
Qed.

Lemma show_N_app n s : show_N n +:+ s = show_radix 10 (S (N.size_nat n)) n s.
Proof. unfold show_N. by rewrite <-show_radix_app. Qed.

(** The text of a positive number does not start with [0]. *)
Lemma show_radix_leading fuel n acc :
  (n < 10 ^ N.of_nat fuel)%N → 0 < fuel → (0 < n)%N →
  ∃ d s, show_radix 10 fuel n acc = String (digit_char d) s ∧ (0 < d < 10)%N.
Proof.
  revert n acc. induction fuel as [|fuel IH]; intros n acc Hn Hf Hpos; [lia|].
  cbn [show_radix]. destruct (N.ltb_spec n 10) as [Hlt|Hge].
  - rewrite N.mod_small by done. eauto.
  - destruct fuel as [|fuel]; [cbn in Hn; lia|].
    apply IH; [|lia|apply N.div_str_pos; lia].
    rewrite (Nat2N.inj_succ (S fuel)), N.pow_succ_r' in Hn.
    apply N.Div0.div_lt_upper_bound; lia.
Qed.

Lemma digit_char_zero d : (0 < d < 10)%N → Ascii.eqb (digit_char d) "0" = false.
Proof.
  intros Hd. apply Ascii.eqb_neq. intros H.
  pose proof (digit_val_char d ltac:(lia)) as Hv. rewrite H in Hv.
  change (Some 0%N = Some d) in Hv. injection Hv. lia.
Qed.

(** Reading back the text of a number, whatever follows it that is no digit. *)
Lemma read_number_show md az max n s :
  (n ≤ max)%N → no_digit_head s →
  (∀ m, md = Some m → 0 < m ∧ (n < 10 ^ N.of_nat m)%N) →
  read_number 10 md az max (show_N n +:+ s) = Some (n, s).
Proof.
  intros Hmax Hs Hmd. unfold read_number. rewrite show_N_app.
  destruct (read_digits_show (S (N.size_nat n)) n s 0) as (j&Hj&Hm);
    [apply size_nat_bound_base; lia|lia|].
  rewrite Hj, read_digits_stop by done. rewrite Nat.add_0_r. cbn [Nat.eqb].
  assert (match md with Some m => (m <? S j)%nat | None => false end = false) as ->.
  { destruct md as [m|]; [|done]. destruct (Hmd m eq_refl) as [Hm0 Hn].
    destruct m as [|m]; [lia|]. specialize (Hm m Hn). apply Nat.ltb_ge. lia. }
  assert ((negb az &&
    match show_radix 10 (S (N.size_nat n)) n s with
    | EmptyString => false | String c _ => Ascii.eqb c "0" end && (1 <? S j)%nat) = false) as ->.
  { destruct (decide (n = 0)%N) as [->|Hn0].
    - specialize (Hm 0 ltac:(cbn; lia)). assert (j = 0) as -> by lia. by rewrite andb_false_r.
    - destruct (show_radix_leading (S (N.size_nat n)) n s) as (d&t&Ht&Hd);
        [apply size_nat_bound_base; lia|lia|lia|].
      rewrite Ht, digit_char_zero by done. by rewrite andb_false_r. }
  destruct (N.leb_spec n max); [done|lia].
Qed.

Lemma read_octet_show b s :
  no_digit_head s → read_octet (show_N (u8 b) +:+ s) = Some (u8 b, s).
Proof.
  intros Hs. pose proof (u8_bound b). apply read_number_show; [unfold u8_max; lia|done|].
  intros m [= <-]. cbn. lia.
Qed.

Lemma read_dot_octet_show i b s :
  no_digit_head s →
  read_separator "." (S i) read_octet ("." +:+ show_N (u8 b) +:+ s) = Some (u8 b, s).
Proof. intros Hs. unfold read_separator. by apply read_octet_show. Qed.

Lemma read_ipv4_show a s :
  no_digit_head s → read_ipv4_addr (show_ipv4 a +:+ s) = Some (a, s).
Proof.
  intros Hs. unfold show_ipv4. rewrite !app_str_assoc. unfold read_ipv4_addr.
  change (read_separator "." 0 read_octet) with read_octet.
  rewrite read_octet_show by done. cbn [mbind option_bind].
  do 3 (rewrite read_dot_octet_show by done; cbn [mbind option_bind]).
  rewrite !as_u8_u8. by destruct a.
Qed.

(** [addr.to_string().parse() == Ok(addr)] for IPv4 socket addresses. *)
Lemma parse_show_socket_v4 ip port :
  (port < 65536)%N → parse_socket_addr (show_socket (SocketAddrV4 ip port)) = Some (SocketAddrV4 ip port).
Proof.
  intros Hp. unfold parse_socket_addr, read_socket_addr_v4. cbn [show_socket].
  rewrite read_ipv4_show by done. cbn [mbind option_bind]. unfold read_port.
  change (read_given_char ":" (":" +:+ show_N port)) with (Some (tt, show_N port)).
  cbn [mbind option_bind].
  pose proof (read_number_show None true u16_max port "") as Hr. rewrite app_str_nil_r in Hr.
  rewrite Hr; [done|unfold u16_max; lia|done|done].
Qed.

Lemma read_number_le radix md az max s v r :
  read_number radix md az max s = Some (v, r) → (v ≤ max)%N.
Proof.
  unfold read_number. destruct (read_digits _ _ _ _) as [[v' c] r'].
  repeat case_match; intros; simplify_eq; by apply N.leb_le.
Qed.

Lemma read_port_le s p r : read_port s = Some (p, r) → (p ≤ u16_max)%N.
Proof.
  unfold read_port. destruct (read_given_char ":" s) as [[? s1]|]; [|done]. cbn.
  apply read_number_le.
Qed.

(** Ports of parsed addresses fit in sixteen bits. *)
Lemma parse_socket_port s a : parse_socket_addr s = Some a → (sock_port a < 65536)%N.
Proof.
  unfold parse_socket_addr.
  assert (∀ r, read_socket_addr_v4 s = Some r → (sock_port r.1 ≤ u16_max)%N) as H4.
  { unfold read_socket_addr_v4. intros r Hr. run_bind Hr. destruct p as [ip s1].
    run_bind Hr. destruct p as [port s2]. simplify_eq. cbn. by eapply read_port_le. }
  assert (∀ r, read_socket_addr_v6 s = Some r → (sock_port r.1 ≤ u16_max)%N) as H6.
  { unfold read_socket_addr_v6. intros r Hr. run_bind Hr. destruct p as [[] s1].
    run_bind Hr. destruct p as [ip s2]. destruct (unwrap_or _ _) as [sc s3].
    run_bind Hr. destruct p as [[] s4]. run_bind Hr. destruct p as [port s5].
    simplify_eq. cbn. by eapply read_port_le. }
  unfold u16_max in *. intros H.
  destruct (read_socket_addr_v4 s) as [[a' r]|] eqn:E4.
  - specialize (H4 _ eq_refl). cbn in H4. destruct r; simplify_eq. lia.
  - destruct (read_socket_addr_v6 s) as [[a' r]|] eqn:E6; [|done].
    specialize (H6 _ eq_refl). cbn in H6. destruct r; simplify_eq. lia.
Qed.
