(* ===== verification/TlsConfig.v ===== *)
(** * TLS configuration (crates/wicket-tls/src/config.rs)

    The TLS section of a configuration, the expansion of the automatic
    certificates of the routes ([all_certs_with_providers]) and the resolution of
    an API token.  The file system and the environment are parameters of
    [resolve_api_token]. *)

From S2P Require Import Prelude Str.
From Stdlib Require Import Ascii.

Inductive TlsMode := TlsMode_Acme | TlsMode_File | TlsMode_Mixed.
#[global] Instance TlsMode_eq_dec : EqDecision TlsMode.
Proof. solve_decision. Defined.

Record DnsProviderConfig := mkDnsProviderConfig {
  dp_provider : string;
  dp_api_token : string;
  dp_api_token_file : option string;
  dp_zone_id : option string
}.

Record AcmeCertConfig := mkAcmeCertConfig {
  ac_domains : list string;
  ac_dns : DnsProviderConfig
}.

Record AcmeConfig := mkAcmeConfig {
  acme_email : string;
  acme_staging : bool;
  acme_storage : string;
  acme_renew_before_days : N;
  acme_certs : list AcmeCertConfig;
  acme_default_dns : option DnsProviderConfig;
  acme_dns_providers : gmap string DnsProviderConfig
}.

Record FileCertConfig := mkFileCertConfig {
  fc_name : string;
  fc_cert : string;
  fc_key : string;
  fc_domains : list string
}.

Record FileConfig := mkFileConfig {
  file_watch : bool;
  file_poll_interval_secs : N;
  file_certs : list FileCertConfig
}.

Record TlsConfig := mkTlsConfig {
  tls_mode : TlsMode;
  tls_acme : option AcmeConfig;
  tls_file : option FileConfig
}.

Record AutoTlsDomain := mkAutoTlsDomain {
  atd_domain : string;
  atd_provider : option string
}.

(** Named provider, or the default one. *)
Definition auto_domain_dns (acme : AcmeConfig) (d : AutoTlsDomain) : option DnsProviderConfig :=
  match atd_provider d with
  | Some p => acme_dns_providers acme !! p
  | None => acme_default_dns acme
  end.

(** The loop body: a domain that an explicit certificate covers, or that has no
    DNS provider, adds nothing. *)
Definition auto_domain_cert (acme : AcmeConfig) (covered : gset string) (d : AutoTlsDomain)
    : option AcmeCertConfig :=
  if bool_decide (atd_domain d ∈ covered) then None
  else (λ dns, mkAcmeCertConfig [atd_domain d] dns) <$> auto_domain_dns acme d.

Definition all_certs_with_providers (acme : AcmeConfig) (auto_tls_domains : list AutoTlsDomain)
    : list AcmeCertConfig :=
  let covered : gset string := list_to_set (flat_map ac_domains (acme_certs acme)) in
  acme_certs acme ++ omap (auto_domain_cert acme covered) auto_tls_domains.

Definition all_certs (acme : AcmeConfig) (auto_tls_domains : list string) : list AcmeCertConfig :=
  all_certs_with_providers acme ((λ d, mkAutoTlsDomain d None) <$> auto_tls_domains).

(** ** API tokens *)

Inductive TokenError :=
| TokenReadFailed (path : string) (cause : string)
| TokenNotConfigured
| TokenEnvNotSet (var : string).

(** [&s[i..j]]; [None] is the panic of an invalid range. *)
Definition str_range (i j : nat) (s : string) : option string :=
  if (i <=? j)%nat && (j <=? String.length s)%nat
  then Some (slice_to (j - i) (slice_from i s)) else None.

Section token.
(** [std::fs::read_to_string] and [std::env::var]. *)
Context (read_to_string : string → result string string).
Context (env_var : string → option string).

(** [None] is a panic, [Some r] the value returned. *)
Definition resolve_api_token (c : DnsProviderConfig) : option (result TokenError string) :=
  match dp_api_token_file c with
  | Some token_file =>
      Some (map_err (TokenReadFailed token_file) (trim <$> read_to_string token_file))
  | None =>
      let t := dp_api_token c in
      if is_empty_str t then Some (Err TokenNotConfigured)
      else if starts_with "${" t && ends_with "}" t then
        var_name ← str_range 2 (String.length t - 1) t;
        Some (ok_or (TokenEnvNotSet var_name) (env_var var_name))
      else Some (Ok t)
  end.
End token.

(** ** Facts *)

Lemma elem_of_all_certs acme ds c :
  c ∈ all_certs_with_providers acme ds ↔
  c ∈ acme_certs acme ∨
  ∃ d, d ∈ ds ∧ atd_domain d ∉ flat_map ac_domains (acme_certs acme) ∧
       ∃ dns, auto_domain_dns acme d = Some dns ∧ c = mkAcmeCertConfig [atd_domain d] dns.
Proof.
  unfold all_certs_with_providers. rewrite elem_of_app, list_elem_of_omap.
  unfold auto_domain_cert. split; (intros [H|(d&Hd&H)]; [by left|right; exists d]).
  - case_bool_decide as Hc; [done|]. rewrite fmap_Some in H. destruct H as (dns&H1&->).
    set_solver.
  - destruct H as (Hn&dns&Hdns&->). rewrite bool_decide_eq_false_2 by set_solver.
    by rewrite Hdns.
Qed.

(** A domain whose provider resolves is covered, by an explicit certificate or by
    one of its own. *)
Lemma all_certs_covers acme ds d :
  d ∈ ds → is_Some (auto_domain_dns acme d) →
  ∃ c, c ∈ all_certs_with_providers acme ds ∧ atd_domain d ∈ ac_domains c.
Proof.
  intros Hd [dns Hdns].
  destruct (decide (atd_domain d ∈ flat_map ac_domains (acme_certs acme))) as [Hin|Hn].
  - apply elem_of_flat_map in Hin as (c&Hc&Hdc). exists c. split; [|done].
    apply elem_of_all_certs. by left.
  - exists (mkAcmeCertConfig [atd_domain d] dns). split; [|set_solver].
    apply elem_of_all_certs. right. exists d. eauto 6.
Qed.

Lemma str_range_token v :
  str_range 2 (String.length ("${" +:+ v +:+ "}") - 1) ("${" +:+ v +:+ "}") = Some v.
Proof.
  unfold str_range. cbn [String.append String.length]. rewrite length_app_str. cbn [String.length].
  replace (S (S (String.length v + 1)) - 1) with (S (S (String.length v))) by lia.
  rewrite (proj2 (Nat.leb_le 2 (S (S (String.length v))))) by lia.
  rewrite (proj2 (Nat.leb_le (S (S (String.length v))) _)) by lia.
  cbn [andb slice_from]. replace (S (S (String.length v)) - 2) with (String.length v) by lia.
  by rewrite slice_to_app.
Qed.

(** A token written as a variable reference is [${name}]. *)
Lemma token_var_form t :
  starts_with "${" t = true → ends_with "}" t = true → ∃ v, t = "${" +:+ v +:+ "}".
Proof.
  intros [u ->]%starts_with_true [p Hp]%ends_with_true.
  destruct p as [|a [|b p]]; cbn in Hp; simplify_eq. by exists p.
Qed.

(** [resolve_api_token] never panics on its string slice, and on every branch
    returns what the documentation says: the trimmed file (or its error), no
    token, the variable named by a [${NAME}] token (or that it is not set), or the
    token itself. *)
Theorem resolve_api_token_spec read_to_string env_var c :
  resolve_api_token read_to_string env_var c =
  Some (match dp_api_token_file c with
        | Some f => match read_to_string f with
                    | Ok s => Ok (trim s)
                    | Err e => Err (TokenReadFailed f e)
                    end
        | None =>
            if is_empty_str (dp_api_token c) then Err TokenNotConfigured
            else match strip_prefix "${" (dp_api_token c) ≫= strip_suffix "}" with
                 | Some v => match env_var v with
                             | Some t => Ok t
                             | None => Err (TokenEnvNotSet v)
                             end
                 | None => Ok (dp_api_token c)
                 end
        end).
Proof.
  unfold resolve_api_token. destruct (dp_api_token_file c) as [f|].
  { by destruct (read_to_string f). }
  destruct (is_empty_str (dp_api_token c)) eqn:He; [done|].
  destruct (starts_with "${" (dp_api_token c) && ends_with "}" (dp_api_token c)) eqn:Hv.
  - apply andb_true_iff in Hv as [Hp Hs]. destruct (token_var_form _ Hp Hs) as [v Ht].
    rewrite Ht, str_range_token, strip_prefix_app. cbn [mbind option_bind].
    rewrite strip_suffix_app. by destruct (env_var v).
  - destruct (strip_prefix "${" (dp_api_token c) ≫= strip_suffix "}") as [v|] eqn:E; [|done].
    apply bind_Some in E as (u&Hu&Hs). apply strip_prefix_Some in Hu. apply strip_suffix_Some in Hs.
    rewrite Hu, Hs in Hv. apply andb_false_iff in Hv as [Hv|Hv].
    + rewrite (proj2 (starts_with_true _ _)) in Hv; [done|eauto].
    + rewrite (proj2 (ends_with_true _ _)) in Hv; [done|].
      exists ("${" +:+ v). by rewrite app_str_assoc.
Qed.
