(* ===== verification/Config.v ===== *)
(** * The proxy configuration (crates/wicket-config/src/lib.rs)

    The configuration a proxy loads, its defaults, and [Config::validate] with
    one constructor of [ConfigError] per [bail!].  A [BTreeMap] is a [gmap]
    enumerated by [btree_iter]; the one [HashMap] that is enumerated
    ([sni_routes]) is enumerated by [map_to_list], which decides which of several
    errors is reported and nothing else.  The TOML parser is a parameter of
    [Config_parse]. *)

From S2P Require Import Prelude Str Order Num Bytes Net TlsConfig.
From Stdlib Require Import Ascii.

Inductive LogFormat := LogFormat_Text | LogFormat_Json.
Inductive AccessLogFormat := AccessLogFormat_Combined | AccessLogFormat_Json.

Record LogFilesConfig := mkLogFilesConfig {
  lf_enabled : bool;
  lf_directory : string;
  lf_error : string;
  lf_access : string;
  lf_acme : string
}.

Record AccessLogConfig := mkAccessLogConfig {
  al_enabled : bool;
  al_format : AccessLogFormat
}.

Record LoggingConfig := mkLoggingConfig {
  log_level : option string;
  log_format : option LogFormat;
  log_files : LogFilesConfig;
  log_access : AccessLogConfig
}.

Record ServerConfig := mkServerConfig {
  server_listen : SocketAddr;
  server_http_listens : list SocketAddr;
  server_https_listen : option SocketAddr;
  server_disable_http : bool;
  server_workers : option N;
  server_json_logs : bool;
  server_log_level : string;
  server_shutdown_timeout : N
}.

Inductive LoadBalanceStrategy := RoundRobin | ConsistentHash.

Record HealthCheckConfig := mkHealthCheckConfig {
  hc_path : string;
  hc_interval : N;
  hc_unhealthy_threshold : N
}.

Record UpstreamConfig := mkUpstreamConfig {
  up_backends : list string;
  up_strategy : LoadBalanceStrategy;
  up_health_check : option HealthCheckConfig
}.

Record HeaderModifier := mkHeaderModifier {
  hm_add : gmap string string;
  hm_set : gmap string string;
  hm_remove : list string
}.

Inductive PathModifier :=
| ReplaceFullPath (path : string)
| ReplacePrefixMatch (path : string).

Record RedirectFilter := mkRedirectFilter {
  rd_scheme : option string;
  rd_hostname : option string;
  rd_port : option N;
  rd_path : option PathModifier;
  rd_status_code : N
}.

Record UrlRewriteFilter := mkUrlRewriteFilter {
  ur_hostname : option string;
  ur_path : option PathModifier
}.

Record MirrorFilter := mkMirrorFilter {
  mf_upstream : string;
  mf_percent : N
}.

Record RouteFilters := mkRouteFilters {
  rf_request_headers : option HeaderModifier;
  rf_response_headers : option HeaderModifier;
  rf_redirect : option RedirectFilter;
  rf_url_rewrite : option UrlRewriteFilter;
  rf_mirror : option MirrorFilter
}.

Inductive SimpleTlsMode := Simple_Auto | Simple_Off.

Inductive RouteTlsConfig :=
| RouteTls_Simple (m : SimpleTlsMode)
| RouteTls_AutoWithProvider (auto : string)
| RouteTls_CertRef (cert : string).

Record RouteMatch := mkRouteMatch {
  rm_host : option string;
  rm_path_prefix : option string;
  rm_path : option string;
  rm_methods : list string;
  rm_headers : gmap string string
}.

Record RouteConfig := mkRouteConfig {
  rc_name : option string;
  rc_match_rules : RouteMatch;
  rc_upstream : string;
  rc_tls : option RouteTlsConfig;
  rc_filters : option RouteFilters;
  rc_timeout : option N
}.

Inductive ProxyProtocolConfig := PPC_None | PPC_V1 | PPC_V2.

Record StreamUpstreamConfig := mkStreamUpstreamConfig {
  su_name : string;
  su_servers : list string
}.

Record StreamConfig := mkStreamConfig {
  st_name : string;
  st_listen : string;
  st_backlog : N;
  st_reuseport : bool;
  st_proxy_protocol : ProxyProtocolConfig;
  st_source_ips : list IpAddr;
  st_default_upstream : option string;
  st_sni_routes : gmap string string;
  st_upstreams : list StreamUpstreamConfig;
  st_health_cooldown_secs : N;
  st_connect_timeout_ms : N;
  st_max_connections : N;
  st_drain_timeout_secs : N
}.

Record Config := mkConfig {
  cfg_server : ServerConfig;
  cfg_upstreams : gmap string UpstreamConfig;
  cfg_routes : list RouteConfig;
  cfg_tls : option TlsConfig;
  cfg_streams : list StreamConfig;
  cfg_logging : LoggingConfig
}.

(** ** Defaults *)

Definition default_log_level : string := "info".
Definition default_shutdown_timeout : N := 30.
Definition default_log_directory : string := "/var/log/wicket".
Definition default_error_log_file : string := "error.log".
Definition default_access_log_file : string := "access.log".
Definition default_acme_log_file : string := "acme.log".
Definition default_lb_strategy : LoadBalanceStrategy := RoundRobin.
Definition default_backlog : N := 8000.
Definition default_health_cooldown_secs : N := 30.
Definition default_connect_timeout_ms : N := 5000.
Definition default_max_connections : N := 10000.
Definition default_drain_timeout_secs : N := 30.

Definition LogFilesConfig_default : LogFilesConfig :=
  mkLogFilesConfig false default_log_directory default_error_log_file
    default_access_log_file default_acme_log_file.

Definition AccessLogConfig_default : AccessLogConfig :=
  mkAccessLogConfig false AccessLogFormat_Combined.

Definition LoggingConfig_default : LoggingConfig :=
  mkLoggingConfig None None LogFilesConfig_default AccessLogConfig_default.

Definition Config_default : Config :=
  mkConfig
    (mkServerConfig (socket_v4 0 0 0 0 8080) [] None false None true
       default_log_level default_shutdown_timeout)
    ∅ [] None [] LoggingConfig_default.

(** ** Accessors *)

(** [listen] first, duplicates removed. *)
Definition http_listen_addrs (s : ServerConfig) : list SocketAddr :=
  dedup_by id (server_listen s :: server_http_listens s).

Definition RouteTlsConfig_is_auto (t : RouteTlsConfig) : bool :=
  match t with
  | RouteTls_Simple Simple_Auto => true
  | RouteTls_AutoWithProvider _ => true
  | _ => false
  end.

Definition RouteTlsConfig_provider (t : RouteTlsConfig) : option string :=
  match t with RouteTls_AutoWithProvider p => Some p | _ => None end.

Definition RouteTlsConfig_is_cert_ref (t : RouteTlsConfig) : bool :=
  match t with RouteTls_CertRef _ => true | _ => false end.

Definition RouteTlsConfig_cert_name (t : RouteTlsConfig) : option string :=
  match t with RouteTls_CertRef c => Some c | _ => None end.

(** ** Validation *)

Inductive ConfigError :=
| AccessLogRequiresFiles
| LogFileErrorEmpty
| LogFileAccessEmpty
| LogFileAcmeEmpty
| UndefinedUpstream (route upstream : string)
| UnsupportedFilters (route : string)
| UnsupportedRewriteHostname (route : string)
| RewritePathNotAbsolute (route : string)
| TimeoutUnsupported (route : string)
| NoMatchRules (route : string)
| UpstreamNoBackends (upstream : string)
| AcmeNoCerts
| AcmeCertNoDomain
| AcmeSectionMissing
| FileNoCerts
| FileManyDefaults (count : nat)
| FileSectionMissing
| UnknownDnsProvider (route provider : string)
| ProviderNoAcme (route provider : string)
| AutoNoDefaultDns (route : string)
| AutoNoAcme (route : string)
| UnknownCert (route cert : string)
| CertNoFile (route cert : string)
| StreamNameEmpty
| StreamNameDuplicate (name : string)
| StreamListenInvalid (listen : string)
| StreamListenDuplicate (listen : string)
| StreamDefaultUndefined (stream upstream : string)
| StreamSniUndefined (stream sni upstream : string)
| StreamNoUpstreams (stream : string)
| StreamUpstreamNoServers (stream upstream : string)
| TomlError (message : string).

Notation vresult := (result ConfigError unit).

Definition route_label (r : RouteConfig) : string := unwrap_or "<unnamed>" (rc_name r).

Definition validate_route_filters (r : RouteConfig) (f : RouteFilters) : vresult :=
  ensure (negb (is_some (rf_request_headers f) || is_some (rf_response_headers f)
          || is_some (rf_redirect f) || is_some (rf_mirror f)))
    (UnsupportedFilters (route_label r)) ≫= λ _,
  match rf_url_rewrite f with
  | None => Ok tt
  | Some u =>
      ensure (is_none (ur_hostname u)) (UnsupportedRewriteHostname (route_label r)) ≫= λ _,
      match ur_path u with
      | None => Ok tt
      | Some (ReplaceFullPath p) | Some (ReplacePrefixMatch p) =>
          ensure (starts_with "/" p) (RewritePathNotAbsolute (route_label r))
      end
  end.

Definition has_match (m : RouteMatch) : bool :=
  is_some (rm_host m) || is_some (rm_path_prefix m) || is_some (rm_path m)
  || negb (is_empty (rm_methods m)) || negb (bool_decide (rm_headers m = ∅)).

Definition validate_logging (l : LoggingConfig) : vresult :=
  ensure (negb (al_enabled (log_access l) && negb (lf_enabled (log_files l))))
    AccessLogRequiresFiles ≫= λ _,
  if lf_enabled (log_files l) then
    ensure (negb (is_empty_str (lf_error (log_files l)))) LogFileErrorEmpty ≫= λ _,
    ensure (negb (is_empty_str (lf_access (log_files l)))) LogFileAccessEmpty ≫= λ _,
    ensure (negb (is_empty_str (lf_acme (log_files l)))) LogFileAcmeEmpty
  else Ok tt.

(** The body of the loop over the routes. *)
Definition validate_route (c : Config) (r : RouteConfig) : vresult :=
  ensure (is_some (cfg_upstreams c !! rc_upstream r))
    (UndefinedUpstream (route_label r) (rc_upstream r)) ≫= λ _,
  match rc_filters r with Some f => validate_route_filters r f | None => Ok tt end ≫= λ _,
  ensure (is_none (rc_timeout r)) (TimeoutUnsupported (route_label r)) ≫= λ _,
  ensure (has_match (rc_match_rules r)) (NoMatchRules (route_label r)).

Definition validate_tls_acme (tls : TlsConfig) : vresult :=
  match tls_mode tls, tls_acme tls with
  | TlsMode_File, _ => Ok tt
  | _, Some acme =>
      ensure (negb (is_empty (acme_certs acme))) AcmeNoCerts ≫= λ _,
      for_each (λ cert, ensure (negb (is_empty (ac_domains cert))) AcmeCertNoDomain)
        (acme_certs acme)
  | TlsMode_Acme, None => Err AcmeSectionMissing
  | TlsMode_Mixed, None => Ok tt
  end.

Definition default_cert_count (f : FileConfig) : nat :=
  length (filter (λ c, is_empty (fc_domains c) = true) (file_certs f)).

Definition validate_tls_file (tls : TlsConfig) : vresult :=
  match tls_mode tls, tls_file tls with
  | TlsMode_Acme, _ => Ok tt
  | mode, Some f =>
      ensure (negb (is_empty (file_certs f) && bool_decide (mode = TlsMode_File))) FileNoCerts ≫= λ _,
      ensure (default_cert_count f <=? 1)%nat (FileManyDefaults (default_cert_count f))
  | TlsMode_File, None => Err FileSectionMissing
  | TlsMode_Mixed, None => Ok tt
  end.

Definition validate_tls (tls : TlsConfig) : vresult :=
  validate_tls_acme tls ≫= λ _, validate_tls_file tls.

(** The body of the loop of [validate_route_tls]. *)
Definition validate_one_route_tls (tls : TlsConfig) (r : RouteConfig) (t : RouteTlsConfig) : vresult :=
  match RouteTlsConfig_provider t with
  | Some p =>
      match tls_acme tls with
      | Some acme => ensure (is_some (acme_dns_providers acme !! p)) (UnknownDnsProvider (route_label r) p)
      | None => Err (ProviderNoAcme (route_label r) p)
      end
  | None => Ok tt
  end ≫= λ _,
  (if RouteTlsConfig_is_auto t && is_none (RouteTlsConfig_provider t) then
     match tls_acme tls with
     | Some acme => ensure (is_some (acme_default_dns acme)) (AutoNoDefaultDns (route_label r))
     | None => Err (AutoNoAcme (route_label r))
     end
   else Ok tt) ≫= λ _,
  match RouteTlsConfig_cert_name t with
  | Some n =>
      match tls_file tls with
      | Some f => ensure (existsb (λ c, String.eqb (fc_name c) n) (file_certs f))
                    (UnknownCert (route_label r) n)
      | None => Err (CertNoFile (route_label r) n)
      end
  | None => Ok tt
  end.

Definition validate_route_tls (c : Config) (tls : TlsConfig) : vresult :=
  for_each (λ r, match rc_tls r with
                 | Some t => validate_one_route_tls tls r t
                 | None => Ok tt
                 end) (cfg_routes c).

Definition validate_stream (s : StreamConfig) : vresult :=
  let names : gset string := list_to_set (su_name <$> st_upstreams s) in
  match st_default_upstream s with
  | Some d => ensure (bool_decide (d ∈ names)) (StreamDefaultUndefined (st_name s) d)
  | None => Ok tt
  end ≫= λ _,
  for_each (λ '(sni, up), ensure (bool_decide (up ∈ names)) (StreamSniUndefined (st_name s) sni up))
    (map_to_list (st_sni_routes s)) ≫= λ _,
  ensure (negb (is_empty (st_upstreams s))) (StreamNoUpstreams (st_name s)) ≫= λ _,
  for_each (λ u, ensure (negb (is_empty (su_servers u))) (StreamUpstreamNoServers (st_name s) (su_name u)))
    (st_upstreams s).

Fixpoint validate_streams_from (names : gset string) (addrs : gset SocketAddr)
    (l : list StreamConfig) : vresult :=
  match l with
  | [] => Ok tt
  | s :: l' =>
      ensure (negb (is_empty_str (trim (st_name s)))) StreamNameEmpty ≫= λ _,
      ensure (negb (bool_decide (st_name s ∈ names))) (StreamNameDuplicate (st_name s)) ≫= λ _,
      ok_or (StreamListenInvalid (st_listen s)) (parse_socket_addr (st_listen s)) ≫= λ addr,
      ensure (negb (bool_decide (addr ∈ addrs))) (StreamListenDuplicate (st_listen s)) ≫= λ _,
      validate_stream s ≫= λ _,
      validate_streams_from ({[st_name s]} ∪ names) ({[addr]} ∪ addrs) l'
  end.

Definition validate_streams (c : Config) : vresult := validate_streams_from ∅ ∅ (cfg_streams c).

Definition validate (c : Config) : vresult :=
  validate_logging (cfg_logging c) ≫= λ _,
  for_each (validate_route c) (cfg_routes c) ≫= λ _,
  for_each (λ '(name, u), ensure (negb (is_empty (up_backends u))) (UpstreamNoBackends name))
    (btree_iter (cfg_upstreams c)) ≫= λ _,
  match cfg_tls c with
  | Some tls => validate_tls tls ≫= λ _, validate_route_tls c tls
  | None => Ok tt
  end ≫= λ _,
  validate_streams c.

(** [toml::from_str] is the parameter. *)
Definition Config_parse (from_toml : string → result string Config) (content : string)
    : result ConfigError Config :=
  map_err TomlError (from_toml content) ≫= λ c,
  validate c ≫= λ _, Ok c.

(** ** Automatic TLS domains *)

Definition route_is_auto (r : RouteConfig) : bool :=
  match rc_tls r with Some t => RouteTlsConfig_is_auto t | None => false end.

Definition collect_auto_tls_domains (c : Config) : list string :=
  omap (λ r, rm_host (rc_match_rules r)) (filter (λ r, route_is_auto r = true) (cfg_routes c)).

Definition collect_auto_tls_domains_with_providers (c : Config) : list AutoTlsDomain :=
  omap (λ r,
    tls ← rc_tls r;
    if negb (RouteTlsConfig_is_auto tls) then None else
    host ← rm_host (rc_match_rules r);
    Some (mkAutoTlsDomain host (RouteTlsConfig_provider tls))) (cfg_routes c).

Definition has_auto_tls_routes (c : Config) : bool := existsb route_is_auto (cfg_routes c).

(** ** What a valid configuration is *)

Definition valid_logging (l : LoggingConfig) : Prop :=
  (al_enabled (log_access l) = true → lf_enabled (log_files l) = true) ∧
  (lf_enabled (log_files l) = true →
   lf_error (log_files l) ≠ "" ∧ lf_access (log_files l) ≠ "" ∧ lf_acme (log_files l) ≠ "").

(** Only a URL rewrite of the path is supported, to an absolute path. *)
Definition valid_filters (f : RouteFilters) : Prop :=
  rf_request_headers f = None ∧ rf_response_headers f = None ∧
  rf_redirect f = None ∧ rf_mirror f = None ∧
  ∀ u, rf_url_rewrite f = Some u →
    ur_hostname u = None ∧
    ∀ p, ur_path u = Some (ReplaceFullPath p) ∨ ur_path u = Some (ReplacePrefixMatch p) →
      starts_with "/" p = true.

Definition valid_match (m : RouteMatch) : Prop :=
  rm_host m ≠ None ∨ rm_path_prefix m ≠ None ∨ rm_path m ≠ None ∨
  rm_methods m ≠ [] ∨ rm_headers m ≠ ∅.

Definition valid_route (c : Config) (r : RouteConfig) : Prop :=
  is_Some (cfg_upstreams c !! rc_upstream r) ∧
  (∀ f, rc_filters r = Some f → valid_filters f) ∧
  rc_timeout r = None ∧ valid_match (rc_match_rules r).

Definition valid_tls (t : TlsConfig) : Prop :=
  (tls_mode t = TlsMode_Acme → tls_acme t ≠ None) ∧
  (tls_mode t = TlsMode_File → tls_file t ≠ None) ∧
  (∀ a, tls_mode t ≠ TlsMode_File → tls_acme t = Some a →
     acme_certs a ≠ [] ∧ ∀ cert, cert ∈ acme_certs a → ac_domains cert ≠ []) ∧
  (∀ f, tls_mode t ≠ TlsMode_Acme → tls_file t = Some f →
     (tls_mode t = TlsMode_File → file_certs f ≠ []) ∧ default_cert_count f ≤ 1).

Definition valid_route_tls (tls : TlsConfig) (t : RouteTlsConfig) : Prop :=
  match t with
  | RouteTls_Simple Simple_Off => True
  | RouteTls_Simple Simple_Auto => ∃ a, tls_acme tls = Some a ∧ acme_default_dns a ≠ None
  | RouteTls_AutoWithProvider p => ∃ a, tls_acme tls = Some a ∧ is_Some (acme_dns_providers a !! p)
  | RouteTls_CertRef n => ∃ f cert, tls_file tls = Some f ∧ cert ∈ file_certs f ∧ fc_name cert = n
  end.

Definition valid_stream (s : StreamConfig) : Prop :=
  (∀ d, st_default_upstream s = Some d → d ∈ su_name <$> st_upstreams s) ∧
  (∀ sni up, st_sni_routes s !! sni = Some up → up ∈ su_name <$> st_upstreams s) ∧
  st_upstreams s ≠ [] ∧
  ∀ u, u ∈ st_upstreams s → su_servers u ≠ [].

Definition valid_streams (l : list StreamConfig) : Prop :=
  NoDup (st_name <$> l) ∧ NoDup (parse_socket_addr ∘ st_listen <$> l) ∧
  ∀ s, s ∈ l → trim (st_name s) ≠ "" ∧ is_Some (parse_socket_addr (st_listen s)) ∧ valid_stream s.

Record valid_config (c : Config) : Prop := {
  vc_logging : valid_logging (cfg_logging c);
  vc_routes r : r ∈ cfg_routes c → valid_route c r;
  vc_upstreams name u : cfg_upstreams c !! name = Some u → up_backends u ≠ [];
  vc_tls tls : cfg_tls c = Some tls →
    valid_tls tls ∧ ∀ r t, r ∈ cfg_routes c → rc_tls r = Some t → valid_route_tls tls t;
  vc_streams : valid_streams (cfg_streams c)
}.

(** ** Soundness and completeness of each check *)

Lemma validate_logging_Ok l : validate_logging l = Ok tt ↔ valid_logging l.
Proof.
  unfold validate_logging, valid_logging. rewrite bind_unit_Ok, ensure_Ok.
  destruct (al_enabled _), (lf_enabled _); cbn; rewrite ?bind_unit_Ok, ?ensure_Ok,
    ?negb_true_iff, ?is_empty_str_false; naive_solver.
Qed.

Lemma validate_route_filters_Ok r f : validate_route_filters r f = Ok tt ↔ valid_filters f.
Proof.
  unfold validate_route_filters, valid_filters. rewrite bind_unit_Ok, ensure_Ok.
  destruct (rf_request_headers f), (rf_response_headers f), (rf_redirect f), (rf_mirror f);
    cbn; try naive_solver.
  destruct (rf_url_rewrite f) as [u|]; [|naive_solver].
  rewrite bind_unit_Ok, ensure_Ok, is_none_true.
  destruct (ur_path u) as [[p|p]|] eqn:E; rewrite ?ensure_Ok; naive_solver.
Qed.

Lemma has_match_true m : has_match m = true ↔ valid_match m.
Proof.
  unfold has_match, valid_match. rewrite !orb_true_iff, !is_some_spec, !is_empty_negb.
  rewrite negb_true_iff, bool_decide_eq_false, <-!not_eq_None_Some. tauto.
Qed.

Lemma validate_route_Ok c r : validate_route c r = Ok tt ↔ valid_route c r.
Proof.
  unfold validate_route, valid_route. rewrite !bind_unit_Ok, !ensure_Ok, is_some_spec.
  rewrite is_none_true, has_match_true.
  destruct (rc_filters r) as [f|]; rewrite ?validate_route_filters_Ok; naive_solver.
Qed.

Lemma validate_tls_acme_Ok t :
  validate_tls_acme t = Ok tt ↔
  (tls_mode t = TlsMode_Acme → tls_acme t ≠ None) ∧
  ∀ a, tls_mode t ≠ TlsMode_File → tls_acme t = Some a →
    acme_certs a ≠ [] ∧ ∀ cert, cert ∈ acme_certs a → ac_domains cert ≠ [].
Proof.
  assert (∀ a : AcmeConfig,
    (ensure (negb (is_empty (acme_certs a))) AcmeNoCerts ≫= (λ _,
      for_each (λ cert, ensure (negb (is_empty (ac_domains cert))) AcmeCertNoDomain)
        (acme_certs a))) = Ok tt ↔
    acme_certs a ≠ [] ∧ ∀ cert, cert ∈ acme_certs a → ac_domains cert ≠ []) as Ha.
  { intros a. rewrite bind_unit_Ok, ensure_Ok, is_empty_negb, for_each_Ok.
    setoid_rewrite ensure_Ok. by setoid_rewrite is_empty_negb. }
  unfold validate_tls_acme.
  destruct (tls_mode t), (tls_acme t) as [a|]; rewrite ?Ha; clear Ha; naive_solver.
Qed.

Lemma validate_tls_file_Ok t :
  validate_tls_file t = Ok tt ↔
  (tls_mode t = TlsMode_File → tls_file t ≠ None) ∧
  ∀ f, tls_mode t ≠ TlsMode_Acme → tls_file t = Some f →
    (tls_mode t = TlsMode_File → file_certs f ≠ []) ∧ default_cert_count f ≤ 1.
Proof.
  unfold validate_tls_file.
  destruct (tls_mode t), (tls_file t) as [f|];
    rewrite ?bind_unit_Ok, ?ensure_Ok, ?Nat.leb_le, ?negb_true_iff, ?andb_false_iff,
      ?is_empty_false, ?bool_decide_eq_false; naive_solver.
Qed.

Lemma validate_tls_Ok t : validate_tls t = Ok tt ↔ valid_tls t.
Proof.
  unfold validate_tls, valid_tls.
  rewrite bind_unit_Ok, validate_tls_acme_Ok, validate_tls_file_Ok. tauto.
Qed.

Lemma validate_one_route_tls_Ok tls r t :
  validate_one_route_tls tls r t = Ok tt ↔ valid_route_tls tls t.
Proof.
  unfold validate_one_route_tls, valid_route_tls.
  destruct t as [[]|p|n]; cbn; rewrite ?bind_unit_Ok.
  - destruct (tls_acme tls) as [a|]; [|naive_solver]. rewrite ensure_Ok, is_some_spec,
      <-not_eq_None_Some. naive_solver.
  - done.
  - destruct (tls_acme tls) as [a|]; rewrite ?ensure_Ok, ?is_some_spec; naive_solver.
  - destruct (tls_file tls) as [f|]; rewrite ?ensure_Ok, ?existsb_true; [|naive_solver].
    setoid_rewrite String.eqb_eq. naive_solver.
Qed.

Lemma validate_stream_Ok s : validate_stream s = Ok tt ↔ valid_stream s.
Proof.
  unfold validate_stream, valid_stream. rewrite !bind_unit_Ok, !for_each_Ok, ensure_Ok, is_empty_negb.
  assert ((match st_default_upstream s with
     | Some d => ensure (bool_decide (d ∈ (list_to_set (su_name <$> st_upstreams s) : gset string)))
                   (StreamDefaultUndefined (st_name s) d)
     | None => Ok tt end = Ok tt) ↔
     ∀ d, st_default_upstream s = Some d → d ∈ su_name <$> st_upstreams s) as ->.
  { destruct (st_default_upstream s); [|naive_solver].
    rewrite ensure_Ok, bool_decide_eq_true, elem_of_list_to_set. naive_solver. }
  assert ((∀ x, x ∈ map_to_list (st_sni_routes s) →
     (let '(sni, up) := x in ensure (bool_decide (up ∈ (list_to_set (su_name <$> st_upstreams s) : gset string)))
        (StreamSniUndefined (st_name s) sni up)) = Ok tt) ↔
     ∀ sni up, st_sni_routes s !! sni = Some up → up ∈ su_name <$> st_upstreams s) as ->.
  { split.
    - intros H sni up Hup. apply elem_of_map_to_list in Hup. apply H in Hup. cbn in Hup.
      by rewrite ensure_Ok, bool_decide_eq_true, elem_of_list_to_set in Hup.
    - intros H [sni up] Hup. apply elem_of_map_to_list in Hup. apply H in Hup.
      by rewrite ensure_Ok, bool_decide_eq_true, elem_of_list_to_set. }
  setoid_rewrite ensure_Ok. setoid_rewrite is_empty_negb. done.
Qed.

Lemma validate_streams_from_Ok names addrs l :
  validate_streams_from names addrs l = Ok tt ↔
  valid_streams l ∧ (∀ s, s ∈ l → st_name s ∉ names) ∧
  (∀ s a, s ∈ l → parse_socket_addr (st_listen s) = Some a → a ∉ addrs).
Proof.
  revert names addrs. induction l as [|s l IH]; intros names addrs; cbn [validate_streams_from].
  { split; [intros _|done]. split; [|split; set_solver].
    split; [apply NoDup_nil_2|split; [apply NoDup_nil_2|set_solver]]. }
  destruct (parse_socket_addr (st_listen s)) as [addr|] eqn:Ea; cycle 1.
  { split; [rewrite !bind_unit_Ok; naive_solver|].
    intros ((_&_&H)&_). destruct (H s) as (_&[a Ha]&_); [set_solver|congruence]. }
  cbn [ok_or]. rewrite !bind_unit_Ok. change (Ok addr ≫= ?f) with (f addr). cbv beta.
  rewrite !bind_unit_Ok, !ensure_Ok, !negb_true_iff, is_empty_str_false, !bool_decide_eq_false,
    validate_stream_Ok, IH.
  clear IH. unfold valid_streams. csimpl. rewrite !NoDup_cons. split.
  - intros (Hn&Hnn&Ha&Hv&(Hd1&Hd2&Hl)&Hl1&Hl2).
    split; [split; [split; [|done]|split; [split; [|done]|]]|split].
    + intros (s'&Hs'&Hin)%list_elem_of_fmap. apply (Hl1 s' Hin). set_solver.
    + rewrite Ea. intros (s'&Hs'&Hin)%list_elem_of_fmap. apply (Hl2 s' addr Hin); [done|set_solver].
    + intros s' [->|H]%elem_of_cons; [rewrite Ea; eauto|by apply Hl].
    + intros s' [->|H]%elem_of_cons; [done|]. specialize (Hl1 s' H). set_solver.
    + intros s' a [->|H]%elem_of_cons Hp; [congruence|]. specialize (Hl2 s' a H Hp). set_solver.
  - intros (((Hn&Hd1)&(Hp&Hd2)&Hl)&Hnames&Haddrs). destruct (Hl s) as (Ht&_&Hv); [set_solver|].
    split; [done|]. split; [apply Hnames; set_solver|].
    split; [apply (Haddrs s addr); [set_solver|done]|]. split; [done|].
    split; [split; [done|split; [done|]]|split].
    + intros s' Hs'. apply Hl. set_solver.
    + intros s' Hs'. rewrite not_elem_of_union, not_elem_of_singleton. split; [|apply Hnames; set_solver].
      intros He. apply Hn. rewrite <-He. by apply list_elem_of_fmap_2.
    + intros s' a Hs' Ha. rewrite not_elem_of_union, not_elem_of_singleton.
      split; [|eapply Haddrs; [|exact Ha]; set_solver].
      intros ->. apply Hp. rewrite Ea, <-Ha. by apply (list_elem_of_fmap_2 (parse_socket_addr ∘ st_listen)).
Qed.

Lemma validate_streams_Ok c : validate_streams c = Ok tt ↔ valid_streams (cfg_streams c).
Proof. unfold validate_streams. rewrite validate_streams_from_Ok. set_solver. Qed.

Lemma validate_upstreams_Ok m :
  for_each (λ '(name, u), ensure (negb (is_empty (up_backends u))) (UpstreamNoBackends name))
    (btree_iter m) = Ok tt ↔
  ∀ name u, m !! name = Some u → up_backends u ≠ [].
Proof.
  rewrite for_each_Ok. split.
  - intros H name u Hu. apply elem_of_btree_iter in Hu. apply H in Hu. cbn in Hu.
    by rewrite ensure_Ok, is_empty_negb in Hu.
  - intros H [name u] Hu. apply elem_of_btree_iter in Hu. rewrite ensure_Ok, is_empty_negb. eauto.
Qed.

Lemma validate_route_tls_Ok c tls :
  validate_route_tls c tls = Ok tt ↔
  ∀ r t, r ∈ cfg_routes c → rc_tls r = Some t → valid_route_tls tls t.
Proof.
  unfold validate_route_tls. rewrite for_each_Ok. split.
  - intros H r t Hr Ht. specialize (H r Hr). rewrite Ht in H.
    by apply validate_one_route_tls_Ok in H.
  - intros H r Hr. destruct (rc_tls r) as [t|] eqn:Ht; [|done].
    apply validate_one_route_tls_Ok. eauto.
Qed.

Lemma validate_valid c : validate c = Ok tt ↔ valid_config c.
Proof.
  unfold validate. rewrite !bind_unit_Ok, validate_logging_Ok, for_each_Ok, validate_upstreams_Ok,
    validate_streams_Ok.
  setoid_rewrite validate_route_Ok.
  assert ((match cfg_tls c with
           | Some tls => validate_tls tls ≫= λ _, validate_route_tls c tls
           | None => Ok tt end = Ok tt) ↔
          ∀ tls, cfg_tls c = Some tls →
            valid_tls tls ∧ ∀ r t, r ∈ cfg_routes c → rc_tls r = Some t → valid_route_tls tls t) as ->.
  { destruct (cfg_tls c) as [tls|]; [|naive_solver].
    rewrite bind_unit_Ok, validate_tls_Ok, validate_route_tls_Ok. naive_solver. }
  split; [intros (?&?&?&?&?); by split|intros []; done].
Qed.

(** C5: [Config::validate] accepts exactly the valid configurations: logging,
    routes (defined upstream, supported filters, no timeout, some match rule),
    upstreams, TLS sections, per-route TLS references and streams (distinct names
    and parsed listen addresses, defined upstreams, servers). *)
Theorem validate_sound_complete c : validate c = Ok tt ↔ valid_config c.
Proof. apply validate_valid. Qed.

(** Whatever the TOML parser yields, a configuration that [Config::parse]
    returns is the parsed one and is valid; a parse error and a validation error
    are reported as such. *)
Theorem Config_parse_spec from_toml content :
  match Config_parse from_toml content with
  | Ok c => from_toml content = Ok c ∧ valid_config c
  | Err e => (∃ m, from_toml content = Err m ∧ e = TomlError m) ∨
             (∃ c, from_toml content = Ok c ∧ ¬ valid_config c ∧ validate c = Err e)
  end.
Proof.
  unfold Config_parse. destruct (from_toml content) as [c|m]; cbn; [|eauto].
  destruct (validate c) as [[]|e] eqn:Hv; cbn.
  - split; [done|]. by apply validate_valid.
  - right. exists c. rewrite <-validate_valid, Hv. naive_solver.
Qed.

Lemma elem_of_collect_auto c d :
  d ∈ collect_auto_tls_domains_with_providers c ↔
  ∃ r t h, r ∈ cfg_routes c ∧ rc_tls r = Some t ∧ RouteTlsConfig_is_auto t = true ∧
    rm_host (rc_match_rules r) = Some h ∧ d = mkAutoTlsDomain h (RouteTlsConfig_provider t).
Proof.
  unfold collect_auto_tls_domains_with_providers. rewrite list_elem_of_omap. split.
  - intros (r&Hr&H). run_bind H. destruct (RouteTlsConfig_is_auto r0) eqn:Ha; [|done].
    cbn in H. run_bind H. naive_solver.
  - intros (r&t&h&Hr&Ht&Ha&Hh&->). exists r. split; [done|].
    rewrite Ht. cbn. rewrite Ha. cbn. by rewrite Hh.
Qed.

(** In a valid configuration with an ACME section, every host of a route
    with automatic TLS is covered by a certificate that [all_certs_with_providers]
    requests: the warning branch that skips a domain is never taken. *)
Theorem auto_tls_domains_covered c tls acme r t h :
  validate c = Ok tt → cfg_tls c = Some tls → tls_acme tls = Some acme →
  r ∈ cfg_routes c → rc_tls r = Some t → RouteTlsConfig_is_auto t = true →
  rm_host (rc_match_rules r) = Some h →
  ∃ cert, cert ∈ all_certs_with_providers acme (collect_auto_tls_domains_with_providers c) ∧
          h ∈ ac_domains cert.
Proof.
  intros Hv%validate_valid Htls Hacme Hr Ht Hauto Hh.
  apply (all_certs_covers acme _ (mkAutoTlsDomain h (RouteTlsConfig_provider t))).
  - apply elem_of_collect_auto. eauto 8.
  - destruct (vc_tls c Hv tls Htls) as [_ Hrt]. specialize (Hrt r t Hr Ht).
    unfold auto_domain_dns. destruct t as [[]|p|n]; cbn in *; try done.
    + destruct Hrt as (a&Ha&Hd). simplify_eq. by apply not_eq_None_Some.
    + destruct Hrt as (a&Ha&Hd). by simplify_eq.
Qed.

Definition ex_dns : DnsProviderConfig := mkDnsProviderConfig "cloudflare" "${CF}" None None.
Definition ex_acme : AcmeConfig :=
  mkAcmeConfig "ops@example.com" false "/var/lib/wicket/acme" 30
    [mkAcmeCertConfig ["example.com"] ex_dns] (Some ex_dns) ∅.
Definition ex_route : RouteConfig :=
  mkRouteConfig (Some "r") (mkRouteMatch (Some "www.example.com") None None [] ∅) "web"
    (Some (RouteTls_Simple Simple_Auto)) None None.
Definition ex_config : Config :=
  mkConfig (cfg_server Config_default) {["web" := mkUpstreamConfig ["10.0.0.1:80"] RoundRobin None]}
    [ex_route] (Some (mkTlsConfig TlsMode_Acme (Some ex_acme) None)) [] LoggingConfig_default.

Lemma auto_tls_domains_covered_witness :
  ∃ cert, cert ∈ all_certs_with_providers ex_acme (collect_auto_tls_domains_with_providers ex_config) ∧
          "www.example.com" ∈ ac_domains cert.
Proof.
  apply (auto_tls_domains_covered ex_config (mkTlsConfig TlsMode_Acme (Some ex_acme) None)
           ex_acme ex_route (RouteTls_Simple Simple_Auto) "www.example.com");
    try (vm_compute; reflexivity).
  apply list_elem_of_here.
Defined.
