(* ===== verification/Metrics.v ===== *)
(** * Metrics

    Prometheus counters and gauges (crates/wicket-core/src/metrics.rs,
    crates/wicket-stream/src/metrics.rs and crates/wicket-controller/src/metrics/mod.rs) as one store: the value of every (metric
    name, labels) pair, absent meaning zero.  An observation of a histogram counts
    as one. *)

From S2P Require Import Prelude.

Notation Metrics := (gmap (list string) Z).
Definition metric (m : Metrics) (k : list string) : Z := unwrap_or 0%Z (m !! k).
Definition metric_add (k : list string) (n : Z) (m : Metrics) : Metrics := <[k := (metric m k + n)%Z]> m.
Definition metric_inc (k : list string) : Metrics → Metrics := metric_add k 1.
Definition metric_dec (k : list string) : Metrics → Metrics := metric_add k (-1).
(** [Gauge::set]. *)
Definition metric_set (k : list string) (n : Z) (m : Metrics) : Metrics := <[k := n]> m.

(** [ReconcileMetrics::record_success], [record_error] and [record_requeue] (of which the
    controllers call only the first), and the counter of the error policies. *)
Definition ReconcileMetrics_record_success (resource_type : string) (m : Metrics) : Metrics :=
  metric_inc ["wicket_reconcile_duration_seconds"; resource_type] (metric_inc ["wicket_reconcile_total"; resource_type; "success"] m).
Definition ReconcileMetrics_record_error (resource_type error_type : string) (m : Metrics) : Metrics :=
  metric_inc ["wicket_reconcile_errors_total"; resource_type; error_type]
    (metric_inc ["wicket_reconcile_duration_seconds"; resource_type] (metric_inc ["wicket_reconcile_total"; resource_type; "error"] m)).
Definition ReconcileMetrics_record_requeue (resource_type : string) (m : Metrics) : Metrics :=
  metric_inc ["wicket_reconcile_duration_seconds"; resource_type] (metric_inc ["wicket_reconcile_total"; resource_type; "requeue"] m).
Definition count_reconcile_error (resource_type : string) : Metrics → Metrics :=
  metric_inc ["wicket_reconcile_errors_total"; resource_type; "reconcile_error"].
(** A gauge per label set, from the counts of a hash map. *)
Definition set_counts {K} `{Countable K} (series : K → list string) (counts : gmap K Z) (m : Metrics) : Metrics :=
  foldl (λ m '(k, count), metric_set (series k) count m) m (map_to_list counts).

#[global] Arguments metric_set : simpl never.
#[global] Arguments metric : simpl never.
#[global] Arguments metric_add : simpl never.
#[global] Arguments metric_inc : simpl never.
#[global] Arguments metric_dec : simpl never.

Lemma metric_add_same k n m : metric (metric_add k n m) k = (metric m k + n)%Z.
Proof. unfold metric_add, metric. by rewrite lookup_insert_eq. Qed.

Lemma metric_add_other k k' n m : k ≠ k' → metric (metric_add k n m) k' = metric m k'.
Proof. intros H. unfold metric_add, metric. by rewrite lookup_insert_ne. Qed.

Lemma metric_set_other k k' n m : k ≠ k' → metric (metric_set k n m) k' = metric m k'.
Proof. intros H. unfold metric_set, metric. by rewrite lookup_insert_ne. Qed.

(** A metric update adds to one series only. *)
Lemma metric_add_eq k k' n m :
  metric (metric_add k n m) k' = (metric m k' + if bool_decide (k = k') then n else 0)%Z.
Proof.
  case_bool_decide as H; [subst; apply metric_add_same|].
  rewrite metric_add_other by done. lia.
Qed.

Lemma metric_if_other (b : bool) a k n m :
  a ≠ k → metric (if b then metric_add a n m else m) k = metric m k.
Proof. destruct b; [apply metric_add_other|done]. Qed.

Lemma metric_set_same k n m : metric (metric_set k n m) k = n.
Proof. unfold metric_set, metric. by rewrite lookup_insert_eq. Qed.

(** A recount sets the gauges of the keys that were counted, and no other. *)
Lemma set_counts_spec {K} `{Countable K} (series : K → list string) `{!Inj (=) (=) series} counts m k :
  metric (set_counts series counts m) (series k) = default (metric m (series k)) (counts !! k).
Proof.
  unfold set_counts. rewrite <-(list_to_map_to_list counts) at 2. pose proof (NoDup_fst_map_to_list counts) as Hnd. revert m Hnd.
  induction (map_to_list counts) as [|[k0 n] l IH]; intros m Hnd; [done|]. csimpl in Hnd. apply NoDup_cons in Hnd as [Hk0 Hnd].
  cbn [foldl]. rewrite IH by done. csimpl. destruct (decide (k0 = k)) as [->|Hne].
  - rewrite lookup_insert_eq, (not_elem_of_list_to_map_1 l k) by done. apply metric_set_same.
  - rewrite lookup_insert_ne by done. rewrite metric_set_other; [done|]. intros ?%(inj series). done.
Qed.

Lemma set_counts_other {K} `{Countable K} (series : K → list string) counts m x :
  (∀ k, series k ≠ x) → metric (set_counts series counts m) x = metric m x.
Proof.
  intros Hx. unfold set_counts. revert m. induction (map_to_list counts) as [|[k n] l IH]; intros m; [done|].
  cbn [foldl]. rewrite IH. by apply metric_set_other.
Qed.

(** Reads a series through a chain of updates of literal series. *)
Ltac solve_metrics :=
  unfold metric_inc, metric_dec in *;
  repeat first
    [ rewrite metric_add_other by done
    | rewrite metric_set_other by done
    | rewrite metric_if_other by done
    | match goal with
      | |- context [metric ?x ?k] =>
          match x with
          | match ?o with Some _ => _ | None => ?m end =>
              replace (metric x k) with (metric m k)
                by (destruct o; [symmetry; by apply metric_add_other|done])
          end
      end
    | rewrite metric_add_eq ];
  repeat case_bool_decide; simplify_eq/=; try done; try lia.
