(* ===== verification/MetricsRegistry.v ===== *)
(** * Registration of the metrics

    The collectors each crate declares (metrics.rs of crates/wicket-core/src,
    crates/wicket-stream/src and crates/wicket-tls/src, and metrics/mod.rs of
    crates/wicket-controller/src) and their registration.  The registry is the one of the
    prometheus library: a class with what its documentation says of it.  Bucket bounds are
    in units of 0.1 ms. *)

From S2P Require Import Prelude Str Metrics.
From Stdlib Require Import Ascii.

Inductive MetricKind := Counter | Gauge | Histogram (buckets : list N).

(** A collector: its full name, its label names and what it is. *)
Record Desc := mkDesc { d_name : string; d_labels : list string; d_kind : MetricKind }.

(** ** The collectors *)

(** Request rate and errors. *)
Definition http_request_metrics : list Desc := [
  mkDesc "wicket_http_requests_total" ["method"; "route"; "status_code"] Counter;
  mkDesc "wicket_http_requests_active" ["route"] Gauge;
  mkDesc "wicket_http_errors_total" ["method"; "route"; "status_code"; "error_type"] Counter;
  mkDesc "wicket_upstream_errors_total" ["upstream"; "error_type"] Counter;
  mkDesc "wicket_tls_handshake_errors_total" ["listener"; "error_type"] Counter
].

(** Durations. *)
Definition http_duration_metrics : list Desc := [
  mkDesc "wicket_http_request_duration_seconds" ["method"; "route"] (Histogram [10; 50; 100; 250; 500; 1000; 2500; 5000; 10000; 25000; 50000; 100000]%N);
  mkDesc "wicket_upstream_duration_seconds" ["upstream"] (Histogram [10; 50; 100; 250; 500; 1000; 2500; 5000; 10000; 25000; 50000; 100000]%N)
].

(** Connections. *)
Definition connection_metrics : list Desc := [
  mkDesc "wicket_client_connections_active" ["listener"] Gauge;
  mkDesc "wicket_client_connections_total" ["listener"] Counter;
  mkDesc "wicket_upstream_connections_active" ["upstream"] Gauge
].

(** Upstream health. *)
Definition upstream_health_metrics : list Desc := [
  mkDesc "wicket_upstream_health" ["upstream"; "backend"] Gauge;
  mkDesc "wicket_upstream_healthy_backends" ["upstream"] Gauge;
  mkDesc "wicket_health_check_total" ["upstream"; "backend"; "result"] Counter
].

(** TLS handshakes. *)
Definition tls_handshake_metrics : list Desc := [
  mkDesc "wicket_tls_handshakes_total" ["listener"; "tls_version"; "cipher"] Counter;
  mkDesc "wicket_tls_handshake_duration_seconds" ["listener"] (Histogram [10; 50; 100; 250; 500; 1000; 2500; 5000]%N)
].

(** Bandwidth and routes. *)
Definition bandwidth_route_metrics : list Desc := [
  mkDesc "wicket_bytes_received_total" ["route"] Counter;
  mkDesc "wicket_bytes_sent_total" ["route"] Counter;
  mkDesc "wicket_route_match_duration_seconds" [] (Histogram [1; 5; 10; 50; 100]%N);
  mkDesc "wicket_route_not_found_total" [] Counter
].

(** Reloads and the process. *)
Definition proxy_process_metrics : list Desc := [
  mkDesc "wicket_config_reloads_total" ["result"] Counter;
  mkDesc "wicket_proxy_config_generation" [] Gauge;
  mkDesc "wicket_config_last_reload_timestamp_seconds" [] Gauge;
  mkDesc "wicket_proxy_uptime_seconds" [] Gauge;
  mkDesc "wicket_worker_threads" [] Gauge
].

(** The stream proxy. *)
Definition stream_metrics : list Desc := [
  mkDesc "wicket_stream_connections_total" ["upstream"] Counter;
  mkDesc "wicket_stream_connections_active" [] Gauge;
  mkDesc "wicket_stream_connection_duration_seconds" ["upstream"] (Histogram [1000; 5000; 10000; 50000; 100000; 300000; 600000; 3000000; 6000000; 18000000; 36000000]%N);
  mkDesc "wicket_stream_connection_errors_total" ["error_type"] Counter;
  mkDesc "wicket_stream_bytes_total" ["direction"] Counter;
  mkDesc "wicket_stream_sni_extractions_total" ["result"] Counter;
  mkDesc "wicket_stream_connect_duration_seconds" ["upstream"] (Histogram [10; 50; 100; 250; 500; 1000; 2500; 5000; 10000; 25000; 50000]%N);
  mkDesc "wicket_stream_upstream_health" ["upstream"; "backend"] Gauge;
  mkDesc "wicket_stream_backend_health_transitions_total" ["upstream"; "backend"; "transition"] Counter;
  mkDesc "wicket_stream_connections_rejected_total" [] Counter;
  mkDesc "wicket_stream_config_reloads_total" [] Counter;
  mkDesc "wicket_stream_proxy_path_total" ["path"] Counter
].

(** Certificates and ACME. *)
Definition tls_metrics : list Desc := [
  mkDesc "wicket_cert_reload_total" ["status"] Counter;
  mkDesc "wicket_acme_renewal_total" ["status"] Counter;
  mkDesc "wicket_acme_renewal_failures_total" ["domain"; "reason"] Counter;
  mkDesc "wicket_acme_last_renewal_attempt_timestamp_seconds" ["domain"] Gauge;
  mkDesc "wicket_acme_last_renewal_success_timestamp_seconds" ["domain"] Gauge;
  mkDesc "wicket_tls_certificate_expiry_timestamp_seconds" ["domain"] Gauge;
  mkDesc "wicket_tls_cert_resolution_total" ["outcome"] Counter
].

(** Resource counts. *)
Definition resource_metrics : list Desc := [
  mkDesc "wicket_gateway_classes" [] Gauge;
  mkDesc "wicket_gateways" ["namespace"; "gateway_class"] Gauge;
  mkDesc "wicket_httproutes" ["namespace"] Gauge;
  mkDesc "wicket_tcproutes" ["namespace"] Gauge;
  mkDesc "wicket_tlsroutes" ["namespace"] Gauge;
  mkDesc "wicket_reference_grants" ["namespace"] Gauge
].

(** Reconciliation and backends. *)
Definition reconcile_metrics : list Desc := [
  mkDesc "wicket_reconcile_total" ["resource_type"; "result"] Counter;
  mkDesc "wicket_reconcile_duration_seconds" ["resource_type"] (Histogram [10; 50; 100; 250; 500; 1000; 2500; 5000; 10000; 25000; 50000; 100000]%N);
  mkDesc "wicket_reconcile_errors_total" ["resource_type"; "error_type"] Counter;
  mkDesc "wicket_reconcile_queue_depth" ["resource_type"] Gauge;
  mkDesc "wicket_backends" ["namespace"] Gauge;
  mkDesc "wicket_backend_endpoints_healthy" ["namespace"; "service"] Gauge;
  mkDesc "wicket_backend_endpoints_unhealthy" ["namespace"; "service"] Gauge
].

(** Configuration and certificates. *)
Definition config_metrics : list Desc := [
  mkDesc "wicket_config_updates_total" ["result"] Counter;
  mkDesc "wicket_config_last_update_timestamp_seconds" [] Gauge;
  mkDesc "wicket_controller_config_generation" [] Gauge;
  mkDesc "wicket_tls_certificates" ["namespace"; "type"] Gauge;
  mkDesc "wicket_tls_certificate_expiry_timestamp_seconds" ["namespace"; "name"] Gauge
].

(** The controller's health. *)
Definition controller_health_metrics : list Desc := [
  mkDesc "wicket_controller_is_leader" [] Gauge;
  mkDesc "wicket_controller_uptime_seconds" [] Gauge;
  mkDesc "wicket_k8s_api_duration_seconds" ["operation"; "resource"] (Histogram [10; 50; 100; 250; 500; 1000; 2500; 5000; 10000; 25000; 50000]%N);
  mkDesc "wicket_k8s_api_errors_total" ["operation"; "resource"; "error_type"] Counter
].

(** TLS secrets. *)
Definition secret_metrics : list Desc := [
  mkDesc "wicket_tls_secret_extractions_total" ["namespace"; "result"] Counter;
  mkDesc "wicket_tls_secret_extraction_duration_seconds" ["namespace"] (Histogram [10; 50; 100; 250; 500; 1000; 2500; 5000; 10000]%N);
  mkDesc "wicket_reference_grant_validations_total" ["from_namespace"; "to_namespace"; "result"] Counter;
  mkDesc "wicket_cross_namespace_blocked_total" ["from_namespace"; "to_namespace"; "resource_type"] Counter
].

(** Gateways and routes. *)
Definition status_metrics : list Desc := [
  mkDesc "wicket_gateway_programmed" ["namespace"; "name"] Gauge;
  mkDesc "wicket_gateway_listener_attached_routes" ["namespace"; "gateway"; "listener"] Gauge;
  mkDesc "wicket_routes_accepted" ["namespace"; "route_type"; "gateway"] Gauge;
  mkDesc "wicket_routes_rejected_total" ["namespace"; "route_type"; "reason"] Counter
].

(** Synchronisation and watches. *)
Definition sync_watch_metrics : list Desc := [
  mkDesc "wicket_config_sync_lag_seconds" [] Gauge;
  mkDesc "wicket_config_hash" [] Gauge;
  mkDesc "wicket_resources_pending_sync" ["resource_type"] Gauge;
  mkDesc "wicket_watch_connections_active" ["resource_type"] Gauge;
  mkDesc "wicket_watch_errors_total" ["resource_type"; "error_type"] Counter;
  mkDesc "wicket_watch_events_total" ["resource_type"; "event_type"] Counter
].

(** The three crates of the proxy share the default registry. *)
Definition core_metrics : list Desc :=
  http_request_metrics ++ http_duration_metrics ++ connection_metrics ++ upstream_health_metrics ++ tls_handshake_metrics
  ++ bandwidth_route_metrics ++ proxy_process_metrics.
Definition proxy_metrics : list Desc := core_metrics ++ stream_metrics ++ tls_metrics.

(** The controller has a registry of its own. *)
Definition controller_metrics : list Desc :=
  resource_metrics ++ reconcile_metrics ++ config_metrics ++ controller_health_metrics ++ secret_metrics ++ status_metrics
  ++ sync_watch_metrics.

(** ** Well-formed descriptions

    What the library asks of a description: names of letters, digits, underscores and
    colons, label names without colons and without repetition, increasing buckets and no
    label [le] for a histogram. *)

Definition is_letter (c : ascii) : bool :=
  let n := N_of_ascii c in (((65 <=? n) && (n <=? 90)) || ((97 <=? n) && (n <=? 122)))%N.
Definition is_number (c : ascii) : bool := let n := N_of_ascii c in ((48 <=? n) && (n <=? 57))%N.
Definition name_start (colon : bool) (c : ascii) : bool := is_letter c || Ascii.eqb c "_" || (colon && Ascii.eqb c ":").
Definition valid_metric_name (colon : bool) (s : string) : bool :=
  match s with
  | EmptyString => false
  | String c s' => name_start colon c && forallb (λ d, name_start colon d || is_number d) (String.list_ascii_of_string s')
  end.

Fixpoint increasing (l : list N) : bool :=
  match l with
  | x :: (y :: _) as l' => (x <? y)%N && increasing l'
  | _ => true
  end.

Definition desc_ok (d : Desc) : bool :=
  valid_metric_name true (d_name d) && forallb (valid_metric_name false) (d_labels d) && bool_decide (NoDup (d_labels d))
  && match d_kind d with
     | Histogram bs => increasing bs && negb (bool_decide ("le" ∈ d_labels d))
     | _ => true
     end.

(** ** The registry *)

Class Prometheus := {
  Registry : Type;
  new_registry : Registry;
  registered : Registry → gset string;
  register : Desc → Registry → result string Registry;
  new_registered : registered new_registry = ∅;
  (** A well-formed collector whose name is not taken is registered. *)
  register_fresh d r : desc_ok d = true → d_name d ∉ registered r →
    ∃ r', register d r = Ok r' ∧ registered r' = {[d_name d]} ∪ registered r
}.

Section registration.
Context `{Prometheus}.

(** [REGISTRY.register(..)?] for each collector. *)
Fixpoint register_all (ds : list Desc) (r : Registry) : result string Registry :=
  match ds with
  | [] => Ok r
  | d :: ds' => register d r ≫= register_all ds'
  end.

Definition controller_register_metrics : result string Registry := register_all controller_metrics new_registry.

(** A static is registered when it is first used, and a failure is a panic: the proxy
    uses its metrics in the order [ds]. *)
Definition first_uses (ds : list Desc) : option Registry := ok (register_all ds new_registry).

Lemma register_all_fresh ds r :
  forallb desc_ok ds = true → NoDup (d_name <$> ds) → (∀ d, d ∈ ds → d_name d ∉ registered r) → is_Some (ok (register_all ds r)).
Proof.
  revert r. induction ds as [|d ds IH]; intros r Hok Hnd Hfresh; cbn; [eauto|].
  cbn in Hok. apply andb_true_iff in Hok as [Hd Hok]. rewrite fmap_cons in Hnd. apply NoDup_cons in Hnd as [Hnot Hnd].
  destruct (register_fresh d r Hd) as (r'&->&Hr'); [apply Hfresh; left|]. cbn. apply IH; [done|done|].
  intros e He. rewrite Hr'. intros [Ee%elem_of_singleton|Hin]%elem_of_union; [|by apply (Hfresh e); [right|]].
  apply Hnot. rewrite <-Ee. by apply list_elem_of_fmap_2.
Qed.

(** Registration never fails.  In whatever order the proxy first uses its metrics, and
    the controller in the order of its list, every collector is well-formed and has a name
    of its own, so that no [expect] on a registration panics. *)
Theorem metrics_always_register ds :
  ds ≡ₚ proxy_metrics → is_Some (first_uses ds) ∧ is_Some (ok controller_register_metrics).
Proof.
  intros Hp. split; apply register_all_fresh.
  - apply forallb_forall. intros d Hd. assert (forallb desc_ok proxy_metrics = true) as Ha by (vm_compute; reflexivity).
    apply (proj1 (forallb_forall _ _) Ha). apply list_elem_of_In. rewrite <-Hp. by apply list_elem_of_In.
  - rewrite Hp. apply (bool_decide_eq_true_1 _). vm_compute. reflexivity.
  - intros d _. rewrite new_registered. apply not_elem_of_empty.
  - vm_compute. reflexivity.
  - apply (bool_decide_eq_true_1 _). vm_compute. reflexivity.
  - intros d _. rewrite new_registered. apply not_elem_of_empty.
Qed.

End registration.

(** ** Labels

    [with_label_values] panics unless it gets one value per label name. *)

Definition declared (ds : list Desc) (series : list string) : bool :=
  match series with
  | [] => false
  | name :: values => existsb (λ d, String.eqb (d_name d) name && Nat.eqb (length values) (length (d_labels d))) ds
  end.

(** Every series that was updated satisfies [ok]. *)
Definition well_labelled (ok : list string → bool) (m : Metrics) : Prop := map_Forall (λ k _, ok k = true) m.

(** The collectors other than those named. *)
Definition without (names : list string) (ds : list Desc) : list Desc :=
  List.filter (λ d, negb (existsb (String.eqb (d_name d)) names)) ds.

Lemma declared_without names ds k : declared (without names ds) k = true → declared ds k = true ∧ ∀ name, head k = Some name → name ∉ names.
Proof.
  destruct k as [|name values]; [done|]. cbn. rewrite !existsb_exists. intros (d&Hd&Hk). apply filter_In in Hd as [Hd Hn].
  split; [eauto|]. intros ? [= <-]. apply andb_true_iff in Hk as [<-%String.eqb_eq _]. intros Hin%list_elem_of_In.
  apply negb_true_iff, not_true_iff_false in Hn. apply Hn, existsb_exists. exists (d_name d). split; [done|]. apply String.eqb_refl.
Qed.

Lemma well_labelled_mono ok ok' m : (∀ k, ok k = true → ok' k = true) → well_labelled ok m → well_labelled ok' m.
Proof. intros Hok Hm k v Hk. apply Hok. exact (Hm k v Hk). Qed.

Lemma well_labelled_absent ok m k : ok k = false → well_labelled ok m → m !! k = None.
Proof. intros Hk Hm. destruct (m !! k) as [v|] eqn:E; [|done]. pose proof (Hm k v E) as H. cbn in H. congruence. Qed.

Section well_labelled.
Context (ok : list string → bool).

Lemma well_labelled_empty : well_labelled ok ∅.
Proof. apply map_Forall_empty. Qed.

Lemma well_labelled_set k n m : ok k = true → well_labelled ok m → well_labelled ok (metric_set k n m).
Proof. intros Hk Hm. by apply map_Forall_insert_2. Qed.

Lemma well_labelled_add k n m : ok k = true → well_labelled ok m → well_labelled ok (metric_add k n m).
Proof. intros Hk Hm. by apply map_Forall_insert_2. Qed.

Lemma well_labelled_inc k m : ok k = true → well_labelled ok m → well_labelled ok (metric_inc k m).
Proof. apply well_labelled_add. Qed.

Lemma well_labelled_dec k m : ok k = true → well_labelled ok m → well_labelled ok (metric_dec k m).
Proof. apply well_labelled_add. Qed.

(** An update that is made only in some cases. *)
Lemma well_labelled_if (b : bool) m m' :
  (well_labelled ok m → well_labelled ok m') → well_labelled ok m → well_labelled ok (if b then m' else m).
Proof. destruct b; auto. Qed.

Lemma well_labelled_option {A} (o : option A) (f : A → Metrics) m :
  (∀ x, well_labelled ok m → well_labelled ok (f x)) → well_labelled ok m →
  well_labelled ok (match o with Some x => f x | None => m end).
Proof. destruct o; auto. Qed.

Lemma well_labelled_foldl {A} (f : Metrics → A → Metrics) l m :
  (∀ m x, well_labelled ok m → well_labelled ok (f m x)) → well_labelled ok m → well_labelled ok (foldl f m l).
Proof. intros Hf. revert m. induction l as [|x l IH]; intros m Hm; cbn; [done|]. apply IH. by apply Hf. Qed.

Lemma well_labelled_set_counts {K} `{Countable K} (series : K → list string) counts m :
  (∀ k, ok (series k) = true) → well_labelled ok m → well_labelled ok (set_counts series counts m).
Proof. intros Hs. apply well_labelled_foldl. intros m' [k c] Hm. by apply well_labelled_set. Qed.

End well_labelled.

#[global] Arguments well_labelled : simpl never.
#[global] Arguments controller_metrics : simpl never.
#[global] Arguments proxy_metrics : simpl never.

(** Goes through the updates of a handler, branch by branch; a series is checked against
    the declarations by evaluation. *)
Ltac solve_labels :=
  repeat match goal with
  | |- well_labelled _ _ =>
      first [ assumption | apply well_labelled_set | apply well_labelled_inc | apply well_labelled_dec | apply well_labelled_add
            | apply well_labelled_set_counts | apply well_labelled_foldl
            | apply well_labelled_if | apply well_labelled_option | progress cbn | case_match ]
  | |- _ = true => reflexivity
  | |- well_labelled _ _ → _ => intros ?
  | |- ∀ _, _ => intros ?
  end.

(** ** Examples *)

Module Demo.

(** A registry that keeps the names. *)
Definition naming : Prometheus := {|
  Registry := gset string;
  new_registry := ∅;
  registered r := r;
  register d r := if desc_ok d && negb (bool_decide (d_name d ∈ r)) then Ok ({[d_name d]} ∪ r) else Err "duplicate metrics collector registration attempted";
  new_registered := eq_refl;
  register_fresh d r Hok Hn := ltac:(exists ({[d_name d]} ∪ r); rewrite Hok, (bool_decide_eq_false_2 _ Hn); done)
|}.

End Demo.

Lemma metrics_always_register_witness :
  is_Some (@first_uses Demo.naming proxy_metrics) ∧ is_Some (ok (@controller_register_metrics Demo.naming)).
Proof. apply (@metrics_always_register Demo.naming). reflexivity. Defined.
