(* ===== verification/HttpRouting.v ===== *)
(** * HTTP routing (crates/wicket-core/src/routing.rs)

    A [Router] is the list of the compiled routes, in the order of the
    configuration; [match_request] takes the first one that matches.  The
    specification is stated on the route configurations themselves: what host,
    path, method and header rules mean, without the compiled form. *)

From S2P Require Import Prelude Str Order Config.
From Stdlib Require Import Ascii.

Inductive HostMatcher :=
| HostMatcher_Exact (h : string)
| HostMatcher_WildcardPrefix (suffix : string).

Inductive PathMatcher :=
| PathMatcher_Exact (p : string)
| PathMatcher_Prefix (p : string).

Record CompiledRoute := mkCompiledRoute {
  cr_name : option string;
  cr_upstream : string;
  cr_host_matcher : option HostMatcher;
  cr_path_matcher : option PathMatcher;
  cr_methods : list string;
  cr_headers : gmap string string;
  cr_url_rewrite : option UrlRewriteFilter
}.

Record Router := mkRouter { router_routes : list CompiledRoute }.

(** [routing::RouteMatch]: what is known of the matched route. *)
Record MatchedRoute := mkMatchedRoute {
  mr_route_name : option string;
  mr_upstream : string;
  mr_url_rewrite : option UrlRewriteFilter;
  mr_matched_path_prefix : string
}.

Inductive RouterError := InvalidHostPattern (pattern : string).

Definition HostMatcher_compile (pattern : string) : result RouterError HostMatcher :=
  match strip_prefix "*." pattern with
  | Some suffix => Ok (HostMatcher_WildcardPrefix ("." +:+ to_lowercase suffix))
  | None =>
      if contains_char "*" pattern then Err (InvalidHostPattern pattern)
      else Ok (HostMatcher_Exact (to_lowercase pattern))
  end.

Definition HostMatcher_matches (m : HostMatcher) (host : string) : bool :=
  let host_lower := to_lowercase host in
  let host_without_port := split_first ":" host_lower in
  match m with
  | HostMatcher_Exact expected => String.eqb host_without_port expected
  | HostMatcher_WildcardPrefix suffix =>
      if negb (ends_with suffix host_without_port) then false
      else
        let prefix_len := String.length host_without_port - String.length suffix in
        if (prefix_len =? 0)%nat then false
        else negb (contains_char "." (slice_to prefix_len host_without_port))
  end.

Definition PathMatcher_matches (m : PathMatcher) (path : string) : bool :=
  match m with
  | PathMatcher_Exact expected => String.eqb path expected
  | PathMatcher_Prefix prefix =>
      starts_with prefix path
      || (ends_with "/" prefix && String.eqb path (slice_to (String.length prefix - 1) prefix))
  end.

Definition CompiledRoute_compile (c : RouteConfig) : result RouterError CompiledRoute :=
  match rm_host (rc_match_rules c) with
  | Some h => Some <$> HostMatcher_compile h
  | None => Ok None
  end ≫= λ host_matcher,
  let path_matcher := match rm_path (rc_match_rules c) with
                      | Some exact => Some (PathMatcher_Exact exact)
                      | None => PathMatcher_Prefix <$> rm_path_prefix (rc_match_rules c)
                      end in
  Ok (mkCompiledRoute (rc_name c) (rc_upstream c) host_matcher path_matcher
        (to_uppercase <$> rm_methods (rc_match_rules c))
        (rm_headers (rc_match_rules c))
        (rc_filters c ≫= rf_url_rewrite)).

Definition CompiledRoute_matches (r : CompiledRoute) (host : option string) (path method : string)
    (headers : gmap string string) : bool :=
  if negb match cr_host_matcher r with
          | Some m => match host with Some h => HostMatcher_matches m h | None => false end
          | None => true
          end then false
  else if negb match cr_path_matcher r with
               | Some m => PathMatcher_matches m path
               | None => true
               end then false
  else if negb (is_empty (cr_methods r))
          && negb (bool_decide (to_uppercase method ∈ cr_methods r)) then false
  else forallb (λ '(key, value), match headers !! key with
                                 | Some v => String.eqb v value
                                 | None => false
                                 end) (map_to_list (cr_headers r)).

Definition matched_path_prefix (r : CompiledRoute) (path : string) : string :=
  match cr_path_matcher r with
  | Some (PathMatcher_Exact exact) => exact
  | Some (PathMatcher_Prefix prefix) => prefix
  | None => path
  end.

Definition Router_build (routes : list RouteConfig) : result RouterError Router :=
  mkRouter <$> try_map CompiledRoute_compile routes.

Definition has_header_matchers (r : Router) : bool :=
  existsb (λ c, negb (bool_decide (cr_headers c = ∅))) (router_routes r).

Definition match_request (r : Router) (host : option string) (path method : string)
    (headers : gmap string string) : option MatchedRoute :=
  (λ c, mkMatchedRoute (cr_name c) (cr_upstream c) (cr_url_rewrite c) (matched_path_prefix c path))
  <$> find_first (λ c, CompiledRoute_matches c host path method headers) (router_routes r).

Definition replace_path_prefix (path matched_prefix replacement : string) : string :=
  let suffix := unwrap_or path (strip_prefix matched_prefix path) in
  if is_empty_str suffix then replacement
  else if ends_with "/" replacement && starts_with "/" suffix
       then trim_end_matches "/" replacement +:+ suffix
  else if ends_with "/" replacement || starts_with "/" suffix
       then replacement +:+ suffix
  else replacement +:+ "/" +:+ suffix.

Definition rewrite_path_and_query (path : string) (query : option string) (matched_prefix : string)
    (rewrite : UrlRewriteFilter) : option string :=
  path_rewrite ← ur_path rewrite;
  let rewritten_path := match path_rewrite with
                        | ReplaceFullPath replacement => replacement
                        | ReplacePrefixMatch replacement =>
                            replace_path_prefix path matched_prefix replacement
                        end in
  Some (match query with
        | Some q => rewritten_path +:+ "?" +:+ q
        | None => rewritten_path
        end).

(** ** Specification *)

(** What the host rule [pattern] means for the [Host] value [host]: the name
    before the port, compared without case; [*.suffix] takes exactly one label. *)
Definition host_rule (pattern host : string) : Prop :=
  let name := split_first ":" (to_lowercase host) in
  match strip_prefix "*." pattern with
  | Some suffix => ∃ label, label ≠ "" ∧ contains_char "." label = false ∧
                            name = label +:+ "." +:+ to_lowercase suffix
  | None => name = to_lowercase pattern
  end.

(** An exact rule wins over a prefix rule; a prefix [p/] also takes [p]. *)
Definition path_rule (m : RouteMatch) (path : string) : Prop :=
  match rm_path m, rm_path_prefix m with
  | Some exact, _ => path = exact
  | None, Some prefix => (∃ rest, path = prefix +:+ rest) ∨ prefix = path +:+ "/"
  | None, None => True
  end.

Definition config_rule (c : RouteConfig) (host : option string) (path method : string)
    (headers : gmap string string) : Prop :=
  let m := rc_match_rules c in
  (∀ pattern, rm_host m = Some pattern → ∃ h, host = Some h ∧ host_rule pattern h) ∧
  path_rule m path ∧
  (rm_methods m = [] ∨ ∃ x, x ∈ rm_methods m ∧ to_uppercase x = to_uppercase method) ∧
  rm_headers m ⊆ headers.

Definition config_prefix (m : RouteMatch) (path : string) : string :=
  match rm_path m, rm_path_prefix m with
  | Some exact, _ => exact
  | None, Some prefix => prefix
  | None, None => path
  end.

Definition config_target (c : RouteConfig) (path : string) : MatchedRoute :=
  mkMatchedRoute (rc_name c) (rc_upstream c) (rc_filters c ≫= rf_url_rewrite)
    (config_prefix (rc_match_rules c) path).

(** ** Lemmas *)

Lemma HostMatcher_wildcard_matches suffix host :
  HostMatcher_matches (HostMatcher_WildcardPrefix suffix) host = true ↔
  ∃ label, label ≠ "" ∧ contains_char "." label = false ∧
           split_first ":" (to_lowercase host) = label +:+ suffix.
Proof.
  unfold HostMatcher_matches. set (n := split_first ":" (to_lowercase host)).
  destruct (ends_with suffix n) eqn:E; cbn [negb].
  - apply ends_with_true in E as [p ->]. rewrite length_app_str.
    replace (String.length p + String.length suffix - String.length suffix) with (String.length p) by lia.
    rewrite slice_to_app. destruct p as [|c p]; cbn [String.length Nat.eqb].
    + split; [done|]. intros (l&Hl&_&He). apply (app_str_inj_r "" l) in He. congruence.
    + rewrite negb_true_iff. split.
      * intros H. by exists (String c p).
      * intros (l&_&Hd&He). apply app_str_inj_r in He. by subst l.
  - split; [done|]. intros (l&_&_&He).
    rewrite (proj2 (ends_with_true suffix n)) in E; [done|eauto].
Qed.

(** A compiled host matcher means the host rule it was compiled from. *)
Lemma HostMatcher_compile_rule pattern m host :
  HostMatcher_compile pattern = Ok m → HostMatcher_matches m host = true ↔ host_rule pattern host.
Proof.
  unfold HostMatcher_compile, host_rule. destruct (strip_prefix "*." pattern) as [sfx|].
  - intros [= <-]. apply HostMatcher_wildcard_matches.
  - destruct (contains_char "*" pattern); [done|]. intros [= <-]. cbn. apply String.eqb_eq.
Qed.

Lemma slice_drop_last p x : slice_to (String.length (p +:+ String x "") - 1) (p +:+ String x "") = p.
Proof.
  rewrite length_app_str. cbn [String.length].
  replace (String.length p + 1 - 1) with (String.length p) by lia. apply slice_to_app.
Qed.

Lemma PathMatcher_prefix_matches prefix path :
  PathMatcher_matches (PathMatcher_Prefix prefix) path = true ↔
  (∃ rest, path = prefix +:+ rest) ∨ prefix = path +:+ "/".
Proof.
  cbn. rewrite orb_true_iff, starts_with_true, andb_true_iff, String.eqb_eq, ends_with_true.
  split; (intros [H|H]; [by left|right]).
  - destruct H as [(p&->) ->]. by rewrite slice_drop_last.
  - subst prefix. split; [eauto|]. by rewrite slice_drop_last.
Qed.

Lemma headers_match_subseteq (required headers : gmap string string) :
  forallb (λ '(key, value), match headers !! key with
                            | Some v => String.eqb v value
                            | None => false
                            end) (map_to_list required) = true ↔ required ⊆ headers.
Proof.
  rewrite forallb_true, map_subseteq_spec. split.
  - intros H k v Hk. apply elem_of_map_to_list in Hk. apply H in Hk.
    destruct (headers !! k) as [w|]; [|done]. apply String.eqb_eq in Hk. by subst.
  - intros H [k v] Hk%elem_of_map_to_list%H. by rewrite Hk, String.eqb_refl.
Qed.

Lemma methods_match (methods : list string) method :
  negb (is_empty (to_uppercase <$> methods))
    && negb (bool_decide (to_uppercase method ∈ to_uppercase <$> methods)) = false ↔
  methods = [] ∨ ∃ x, x ∈ methods ∧ to_uppercase x = to_uppercase method.
Proof.
  rewrite andb_false_iff, !negb_false_iff, bool_decide_eq_true, list_elem_of_fmap.
  destruct methods; cbn; naive_solver.
Qed.

Lemma guards_true (a b c d : bool) :
  (if negb a then false else if negb b then false else if c then false else d) = true ↔
  a = true ∧ b = true ∧ c = false ∧ d = true.
Proof. destruct a, b, c, d; naive_solver. Qed.

Lemma CompiledRoute_compile_Ok c r :
  CompiledRoute_compile c = Ok r →
  (∀ host path method headers,
     CompiledRoute_matches r host path method headers = true ↔ config_rule c host path method headers) ∧
  ∀ path, mkMatchedRoute (cr_name r) (cr_upstream r) (cr_url_rewrite r) (matched_path_prefix r path)
          = config_target c path.
Proof.
  unfold CompiledRoute_compile. intros Hc. run_bind Hc. rename a into hm. split.
  - intros host path method headers. unfold CompiledRoute_matches, config_rule. cbn.
    set (m := rc_match_rules c) in *.
    assert ((match hm with
             | Some m => match host with Some h => HostMatcher_matches m h | None => false end
             | None => true end = true) ↔
            ∀ pattern, rm_host m = Some pattern → ∃ h, host = Some h ∧ host_rule pattern h) as Hh.
    { destruct (rm_host m) as [p|]; cbn in E; [|simplify_eq; naive_solver].
      destruct (HostMatcher_compile p) as [x|] eqn:Ex; cbn in E; simplify_eq.
      destruct host as [h|]; [|naive_solver]. rewrite (HostMatcher_compile_rule p x h Ex). naive_solver. }
    assert ((match match rm_path m with
                   | Some exact => Some (PathMatcher_Exact exact)
                   | None => PathMatcher_Prefix <$> rm_path_prefix m end with
             | Some m => PathMatcher_matches m path | None => true end = true) ↔ path_rule m path) as Hp.
    { unfold path_rule. destruct (rm_path m) as [e|]; [apply String.eqb_eq|].
      destruct (rm_path_prefix m) as [p|]; cbn; [apply PathMatcher_prefix_matches|done]. }
    by rewrite <-Hh, <-Hp, <-methods_match, <-headers_match_subseteq, guards_true.
  - intros path. unfold config_target, config_prefix, matched_path_prefix. cbn.
    by destruct (rm_path (rc_match_rules c)), (rm_path_prefix (rc_match_rules c)).
Qed.

Lemma HostMatcher_compile_is_ok pattern :
  (∃ m, HostMatcher_compile pattern = Ok m) ↔
  starts_with "*." pattern = true ∨ contains_char "*" pattern = false.
Proof.
  unfold HostMatcher_compile. rewrite starts_with_strip.
  destruct (strip_prefix "*." pattern); cbn; [naive_solver|].
  destruct (contains_char "*" pattern); naive_solver.
Qed.

Lemma find_first_Forall2 {A B} (R : A → B → Prop) (p : A → Prop) (q : B → bool) l k y :
  Forall2 R l k → (∀ a b, R a b → q b = true ↔ p a) → find_first q k = Some y →
  ∃ i x, l !! i = Some x ∧ R x y ∧ p x ∧ ∀ j z, j < i → l !! j = Some z → ¬ p z.
Proof.
  intros HR Hq. induction HR as [|a b l k Hab HR IH]; cbn; [done|].
  destruct (q b) eqn:Eb.
  - intros [= <-]. exists 0, a. split; [done|]. split; [done|]. split; [by apply (Hq a b)|lia].
  - intros Hf. destruct (IH Hf) as (i&x&Hl&Hx&Hp&Hj). exists (S i), x.
    split; [done|]. split; [done|]. split; [done|]. intros [|j] z Hlt Hz; cbn in Hz.
    + simplify_eq. intros Hpz. apply (Hq z b Hab) in Hpz. congruence.
    + apply (Hj j); [lia|done].
Qed.

Lemma find_first_None_Forall2 {A B} (R : A → B → Prop) (p : A → Prop) (q : B → bool) l k :
  Forall2 R l k → (∀ a b, R a b → q b = true ↔ p a) →
  find_first q k = None ↔ ∀ x, x ∈ l → ¬ p x.
Proof.
  intros HR Hq. induction HR as [|a b l k Hab HR IH]; cbn; [split; [set_solver|done]|].
  destruct (q b) eqn:Eb.
  - split; [done|]. intros H. exfalso. apply (H a); [set_solver|]. by apply (Hq a b).
  - rewrite IH. split.
    + intros H x [->|Hx]%elem_of_cons; [|auto]. rewrite <-(Hq a b Hab). congruence.
    + intros H x Hx. apply H. set_solver.
Qed.

(** The first route that matches is unique, so a lookup is determined by it. *)
Lemma match_request_first routes r host path method headers :
  Router_build routes = Ok r →
  match match_request r host path method headers with
  | Some m => ∃ i c, routes !! i = Some c ∧ config_rule c host path method headers ∧
                m = config_target c path ∧
                ∀ j c', j < i → routes !! j = Some c' → ¬ config_rule c' host path method headers
  | None => ∀ c, c ∈ routes → ¬ config_rule c host path method headers
  end.
Proof.
  unfold Router_build. destruct (try_map CompiledRoute_compile routes) as [cs|] eqn:Hm; [|done].
  intros [= <-]. apply try_map_Ok in Hm. unfold match_request. cbn.
  assert (∀ c d, CompiledRoute_compile c = Ok d →
    CompiledRoute_matches d host path method headers = true ↔ config_rule c host path method headers) as Hq.
  { intros c d Hcd. apply (proj1 (CompiledRoute_compile_Ok c d Hcd)). }
  destruct (find_first _ cs) as [d|] eqn:Hf; cbn.
  - destruct (find_first_Forall2 _ _ _ _ _ _ Hm Hq Hf) as (i&c&Hi&Hcd&Hp&Hj).
    exists i, c. split; [done|]. split; [done|]. split; [|done].
    by apply (proj2 (CompiledRoute_compile_Ok c d Hcd)).
  - by apply (find_first_None_Forall2 _ _ _ _ _ Hm Hq).
Qed.

(** C4: a request goes to the first configured route whose host, path, method and
    header rules all hold, with that route's upstream, rewrite and prefix; there is
    no match exactly when no configured route's rules hold. *)
Theorem match_request_first_match routes r host path method headers :
  Router_build routes = Ok r →
  match match_request r host path method headers with
  | Some m => ∃ i c, routes !! i = Some c ∧ config_rule c host path method headers ∧
                m = config_target c path ∧
                ∀ j c', j < i → routes !! j = Some c' → ¬ config_rule c' host path method headers
  | None => ∀ c, c ∈ routes → ¬ config_rule c host path method headers
  end.
Proof. apply match_request_first. Qed.

Lemma match_request_first_match_witness :
  match match_request (mkRouter [mkCompiledRoute (Some "r") "web"
            (Some (HostMatcher_Exact "www.example.com")) None [] ∅ None])
          (Some "WWW.example.com:80") "/" "GET" ∅ with
  | Some m => ∃ i c, [ex_route] !! i = Some c ∧ config_rule c (Some "WWW.example.com:80") "/" "GET" ∅ ∧
                m = config_target c "/" ∧
                ∀ j c', j < i → [ex_route] !! j = Some c' → ¬ config_rule c' (Some "WWW.example.com:80") "/" "GET" ∅
  | None => ∀ c, c ∈ [ex_route] → ¬ config_rule c (Some "WWW.example.com:80") "/" "GET" ∅
  end.
Proof. apply match_request_first_match. reflexivity. Defined.

Definition good_host_pattern (c : RouteConfig) : Prop :=
  ∀ p, rm_host (rc_match_rules c) = Some p →
       starts_with "*." p = true ∨ contains_char "*" p = false.

Lemma CompiledRoute_compile_good c d : CompiledRoute_compile c = Ok d → good_host_pattern c.
Proof.
  unfold CompiledRoute_compile. intros H p Hp. rewrite Hp in H.
  destruct (HostMatcher_compile p) as [m|] eqn:E; [|done].
  apply HostMatcher_compile_is_ok. eauto.
Qed.

Lemma CompiledRoute_compile_Err c e :
  CompiledRoute_compile c = Err e →
  ∃ p, e = InvalidHostPattern p ∧ rm_host (rc_match_rules c) = Some p ∧
       starts_with "*." p = false ∧ contains_char "*" p = true.
Proof.
  unfold CompiledRoute_compile. destruct (rm_host (rc_match_rules c)) as [p|]; [|done].
  unfold HostMatcher_compile.
  destruct (strip_prefix "*." p) eqn:E; [done|]. destruct (contains_char "*" p) eqn:Ec; [|done].
  intros [= <-]. exists p. by rewrite starts_with_strip, E, Ec.
Qed.

(** Building a router fails exactly when some host pattern has a [*] that is
    not a leading [*.] label, and reports the first such pattern. *)
Theorem Router_build_error routes :
  match Router_build routes with
  | Ok r => length (router_routes r) = length routes ∧
            ∀ c, c ∈ routes → good_host_pattern c
  | Err (InvalidHostPattern p) =>
      ∃ l1 c l2, routes = l1 ++ c :: l2 ∧ rm_host (rc_match_rules c) = Some p ∧
        starts_with "*." p = false ∧ contains_char "*" p = true ∧
        ∀ c', c' ∈ l1 → good_host_pattern c'
  end.
Proof.
  unfold Router_build. induction routes as [|c l IH]; [cbn; set_solver|]. cbn [try_map].
  destruct (CompiledRoute_compile c) as [d|e] eqn:Ec; cbn [mbind result_bind].
  - apply CompiledRoute_compile_good in Ec.
    destruct (try_map CompiledRoute_compile l) as [ds|[q]]; cbn in *.
    + destruct IH as [Hl Hr]. split; [by rewrite Hl|].
      intros c' [->|Hc']%elem_of_cons; auto.
    + destruct IH as (l1&c'&l2&->&Hq&Hs&Hc&Hl1). exists (c :: l1), c', l2.
      do 4 (split; [done|]). intros c'' [->|Hin]%elem_of_cons; auto.
  - apply CompiledRoute_compile_Err in Ec as (p&->&Hp&Hs&Hc). cbn.
    exists [], c, l. do 4 (split; [done|]). set_solver.
Qed.

Lemma starts_with_slash_app a b : starts_with "/" a = true → starts_with "/" (a +:+ b) = true.
Proof. by destruct a. Qed.

Lemma replace_path_prefix_absolute path prefix r :
  starts_with "/" r = true → starts_with "/" (replace_path_prefix path prefix r) = true.
Proof.
  intros Hr. unfold replace_path_prefix. cbn zeta.
  set (sfx := unwrap_or _ _). destruct (is_empty_str sfx); [done|].
  destruct (ends_with "/" r && starts_with "/" sfx) eqn:E1.
  - apply andb_true_iff in E1 as [_ Hs].
    destruct (trim_end_matches_spec "/" r) as (t&Ht&_).
    destruct (trim_end_matches "/" r) as [|c u]; [done|].
    rewrite Ht in Hr. by apply starts_with_slash_app.
  - destruct (ends_with "/" r || starts_with "/" sfx); by apply starts_with_slash_app.
Qed.

(** The rewrite of a route of a valid configuration is an absolute path,
    followed by the unchanged query; a route without a path rewrite leaves the
    request as it is. *)
Theorem rewrite_absolute c rc f u path query prefix :
  validate c = Ok tt → rc ∈ cfg_routes c → rc_filters rc = Some f → rf_url_rewrite f = Some u →
  match rewrite_path_and_query path query prefix u with
  | Some out => ∃ p, starts_with "/" p = true ∧
                  out = p +:+ match query with Some q => "?" +:+ q | None => "" end
  | None => ur_path u = None
  end.
Proof.
  intros Hv%validate_valid Hrc Hf Hu.
  destruct (vc_routes c Hv rc Hrc) as (_&Hfil&_). destruct (Hfil f Hf) as (_&_&_&_&Hr).
  destruct (Hr u Hu) as [_ Hp]. unfold rewrite_path_and_query.
  destruct (ur_path u) as [[p|p]|]; cbn; [| |done].
  - exists p. split; [apply Hp; auto|]. destruct query; [done|by rewrite app_str_nil_r].
  - exists (replace_path_prefix path prefix p).
    split; [apply replace_path_prefix_absolute, Hp; auto|]. destruct query; [done|by rewrite app_str_nil_r].
Qed.

Definition ex_rewrite : UrlRewriteFilter := mkUrlRewriteFilter None (Some (ReplacePrefixMatch "/v2/")).
Definition ex_rewrite_filters : RouteFilters := mkRouteFilters None None None (Some ex_rewrite) None.
Definition ex_rewrite_route : RouteConfig :=
  mkRouteConfig None (mkRouteMatch None (Some "/api/") None [] ∅) "web" None (Some ex_rewrite_filters) None.
Definition ex_rewrite_config : Config :=
  mkConfig (cfg_server Config_default) (cfg_upstreams ex_config) [ex_rewrite_route] None []
    LoggingConfig_default.

Lemma rewrite_absolute_witness :
  match rewrite_path_and_query "/api/users" (Some "x=1") "/api/" ex_rewrite with
  | Some out => ∃ p, starts_with "/" p = true ∧ out = p +:+ ("?" +:+ "x=1")
  | None => ur_path ex_rewrite = None
  end.
Proof.
  apply (rewrite_absolute ex_rewrite_config ex_rewrite_route ex_rewrite_filters ex_rewrite
           "/api/users" (Some "x=1") "/api/"); [reflexivity|apply list_elem_of_here|reflexivity..].
Defined.

(** Under a prefix rule [p/] the request path [p] itself matches, but a prefix
    rewrite of it does not replace the prefix: [p] does not start with [p/], so the
    whole path is kept behind the replacement. *)
Theorem trailing_slash_prefix_not_replaced p r :
  starts_with "/" p = true → ends_with "/" r = false →
  PathMatcher_matches (PathMatcher_Prefix (p +:+ "/")) p = true ∧
  replace_path_prefix p (p +:+ "/") r = r +:+ p.
Proof.
  intros Hp Hr. split; [apply PathMatcher_prefix_matches; by right|].
  unfold replace_path_prefix. destruct (strip_prefix (p +:+ "/") p) as [t|] eqn:E.
  { apply strip_prefix_Some, (f_equal String.length) in E.
    rewrite !length_app_str in E. cbn in E. lia. }
  cbn. destruct (is_empty_str p) eqn:Ee; [by apply is_empty_str_true in Ee; subst|].
  by rewrite Hr, Hp.
Qed.

Lemma trailing_slash_prefix_not_replaced_witness :
  PathMatcher_matches (PathMatcher_Prefix ("/api" +:+ "/")) "/api" = true ∧
  replace_path_prefix "/api" ("/api" +:+ "/") "/v2" = "/v2" +:+ "/api".
Proof. apply trailing_slash_prefix_not_replaced; reflexivity. Defined.
