(* ===== verification/HttpProxy.v ===== *)
(** * The HTTP proxy (crates/wicket-core/src/proxy.rs)

    The callbacks Pingora runs for a request, in state-passing style: the shared
    state is the router and the upstream table (two [ArcSwap] slots) and the
    metrics; the per-request state is [WicketCtx].  Pingora's load balancer, its
    header-value validation and its URI parser are parameters; the clock and the
    random request id are arguments.  A header map is the list of its (lower-case)
    names and values in order. *)

From S2P Require Import Prelude Str Order Num Bytes Net Metrics Config HttpRouting.
From Stdlib Require Import Ascii.

(** ** Series *)

Definition LISTENER_DEFAULT : string := "default".
Definition ERROR_NO_HEALTHY_BACKENDS : string := "no_healthy_backends".
Definition CLIENT_CONNECTIONS_ACTIVE : list string := ["wicket_client_connections_active"; LISTENER_DEFAULT].
Definition CLIENT_CONNECTIONS_TOTAL : list string := ["wicket_client_connections_total"; LISTENER_DEFAULT].
Definition HTTP_REQUESTS_ACTIVE (route : string) : list string := ["wicket_http_requests_active"; route].
Definition HTTP_REQUESTS_TOTAL (m r s : string) : list string := ["wicket_http_requests_total"; m; r; s].
Definition HTTP_REQUEST_DURATION (m r : string) : list string := ["wicket_http_request_duration_seconds"; m; r].
Definition HTTP_ERRORS_TOTAL (m r s c : string) : list string := ["wicket_http_errors_total"; m; r; s; c].
Definition ROUTE_NOT_FOUND_TOTAL : list string := ["wicket_route_not_found_total"].
Definition UPSTREAM_CONNECTIONS_ACTIVE (u : string) : list string := ["wicket_upstream_connections_active"; u].
Definition UPSTREAM_DURATION (u : string) : list string := ["wicket_upstream_duration_seconds"; u].
Definition UPSTREAM_ERRORS_TOTAL (u e : string) : list string := ["wicket_upstream_errors_total"; u; e].
Definition BYTES_SENT_TOTAL (r : string) : list string := ["wicket_bytes_sent_total"; r].
Definition BYTES_RECEIVED_TOTAL (r : string) : list string := ["wicket_bytes_received_total"; r].

Definition classify_http_error (status : N) : string :=
  if (500 <=? status)%N then "server_error" else "client_error".

(** ** Requests *)

Definition HEADER_REQUEST_ID : string := "x-request-id".
Definition HEADER_HOST : string := "host".
Definition HEADER_X_FORWARDED_FOR : string := "x-forwarded-for".
Definition HEADER_CONTENT_LENGTH : string := "content-length".
Definition HEADER_REFERER : string := "referer".
Definition HEADER_USER_AGENT : string := "user-agent".

Definition HeaderMap := list (string * string).

Record RequestHeader := mkRequestHeader {
  rq_method : string;
  rq_path : string;
  rq_query : option string;
  rq_authority : option string;
  rq_version : string;
  rq_headers : HeaderMap
}.

(** [HeaderMap::get]: the first value of the name. *)
Definition header_get (name : string) (h : HeaderMap) : option string :=
  snd <$> find_first (λ kv, String.eqb kv.1 name) h.

(** [HeaderValue::to_str]: visible ASCII and tab only. *)
Definition visible_ascii (c : ascii) : bool :=
  let n := N_of_ascii c in ((32 <=? n)%N && (n <? 127)%N) || (n =? 9)%N.
Fixpoint forall_char (p : ascii → bool) (s : string) : bool :=
  match s with EmptyString => true | String c s' => p c && forall_char p s' end.
Definition to_str (v : string) : option string :=
  if forall_char visible_ascii v then Some v else None.

(** [RequestHeader::insert_header] replaces every value of the name by one. *)
Definition header_insert (name v : string) (h : HeaderMap) : HeaderMap :=
  filter (λ kv, kv.1 ≠ name) h ++ [(name, v)].

Definition request_host (r : RequestHeader) : option string :=
  match header_get HEADER_HOST (rq_headers r) ≫= to_str with
  | Some h => Some h
  | None => rq_authority r
  end.

Definition normalize_hostname (host : string) : string :=
  let host := to_lowercase (trim_end_matches "." host) in
  match strip_prefix "[" host ≫= split_once "]" with
  | Some (inside, _) => inside
  | None => split_first ":" host
  end.

Definition same_hostname (host sni : string) : bool :=
  String.eqb (normalize_hostname host) (normalize_hostname sni).

(** The headers a router sees: lower-case names, readable values, the last value
    of a repeated name. *)
Definition router_headers (h : HeaderMap) : gmap string string :=
  foldl (λ m '(k, v), match to_str v with
                      | Some v => <[to_lowercase k := v]> m
                      | None => m
                      end) ∅ h.

(** ** Shared and per-request state *)

Section proxy.
(** Pingora: a load balancer built from backend addresses, and the answer of one
    [select] call on it. *)
Context {LB Peer : Type}.
Context (try_from_iter : LoadBalanceStrategy → list string → option LB).
Context (set_health_check : N → LB → LB).
Context (select : LB → string → N → option Peer).

Record UpstreamCluster := mkUpstreamCluster {
  uc_lb_round_robin : option LB;
  uc_lb_ketama : option LB;
  uc_strategy : LoadBalanceStrategy
}.

Record ProxyState := mkProxyState {
  ps_router : Router;
  ps_upstreams : gmap string UpstreamCluster
}.

Record WicketCtx := mkWicketCtx {
  ctx_route_match : option MatchedRoute;
  ctx_start_time : N;
  ctx_request_id : string;
  ctx_method : string;
  ctx_upstream_connect_time : option N;
  ctx_metrics_recorded : bool
}.

Inductive ReloadError := ReloadRouter (e : RouterError) | ReloadUpstream (name : string).

Definition backend_addr (b : string) : string :=
  match strip_prefix "http://" b with
  | Some a => a
  | None => unwrap_or b (strip_prefix "https://" b)
  end.

Definition UpstreamCluster_new (c : UpstreamConfig) : option UpstreamCluster :=
  let backends := backend_addr <$> up_backends c in
  match up_strategy c with
  | RoundRobin =>
      lb ← try_from_iter RoundRobin backends;
      let lb := match up_health_check c with
                | Some hc => set_health_check (hc_interval hc) lb
                | None => lb
                end in
      Some (mkUpstreamCluster (Some lb) None RoundRobin)
  | ConsistentHash =>
      lb ← try_from_iter ConsistentHash backends;
      Some (mkUpstreamCluster None (Some lb) ConsistentHash)
  end.

Definition select_peer (c : UpstreamCluster) (key : string) : option Peer :=
  match uc_strategy c with
  | RoundRobin => lb ← uc_lb_round_robin c; select lb key 256
  | ConsistentHash => lb ← uc_lb_ketama c; select lb key 256
  end.

Definition build_upstreams (configs : gmap string UpstreamConfig)
    : result ReloadError (gmap string UpstreamCluster) :=
  list_to_map <$>
  try_map (λ '(name, c), (λ u, (name, u)) <$> ok_or (ReloadUpstream name) (UpstreamCluster_new c))
    (btree_iter configs).

(** The two stores of a reload, in order: each is atomic, the pair is not. *)
Inductive ReloadStore :=
| StoreRouter (r : Router)
| StoreUpstreams (u : gmap string UpstreamCluster).

Definition reload_store (x : ReloadStore) (s : ProxyState) : ProxyState :=
  match x with
  | StoreRouter r => mkProxyState r (ps_upstreams s)
  | StoreUpstreams u => mkProxyState (ps_router s) u
  end.

(** What a reload of [config] stores, or why it stores nothing. *)
Definition reload_plan (config : Config) : result ReloadError (list ReloadStore) :=
  map_err ReloadRouter (Router_build (cfg_routes config)) ≫= λ router,
  build_upstreams (cfg_upstreams config) ≫= λ upstreams,
  Ok [StoreRouter router; StoreUpstreams upstreams].

Definition apply_reload (s : ProxyState) (config : Config) : ProxyState * result ReloadError unit :=
  match reload_plan config with
  | Ok stores => (foldl (λ s x, reload_store x s) s stores, Ok tt)
  | Err e => (s, Err e)
  end.

Definition get_peer (s : ProxyState) (upstream_name key : string) : option Peer :=
  cluster ← ps_upstreams s !! upstream_name; select_peer cluster key.

(** ** Callbacks *)

(** [format!("req_{:016x}", value)]. *)
Definition generate_request_id (value : N) : string :=
  let h := show_hex value in
  "req_" +:+ String.concat "" (replicate (16 - String.length h) "0") +:+ h.

Definition new_ctx (now random : N) (m : Metrics) : WicketCtx * Metrics :=
  (mkWicketCtx None now (generate_request_id random) "" None false,
   metric_inc CLIENT_CONNECTIONS_TOTAL (metric_inc CLIENT_CONNECTIONS_ACTIVE m)).

Inductive ProxyError := HTTPStatus (code : N) | InternalError.

Definition match_label (rm : MatchedRoute) : string := unwrap_or (mr_upstream rm) (mr_route_name rm).

Definition with_request_id (ctx : WicketCtx) (id : string) : WicketCtx :=
  mkWicketCtx (ctx_route_match ctx) (ctx_start_time ctx) id (ctx_method ctx)
    (ctx_upstream_connect_time ctx) (ctx_metrics_recorded ctx).

Definition with_match (ctx : WicketCtx) (method : string) (rm : option MatchedRoute) : WicketCtx :=
  mkWicketCtx rm (ctx_start_time ctx) (ctx_request_id ctx) method
    (ctx_upstream_connect_time ctx) (ctx_metrics_recorded ctx).

Definition request_filter (s : ProxyState) (req : RequestHeader) (tls_sni : option string)
    (ctx : WicketCtx) (m : Metrics) : WicketCtx * Metrics * result ProxyError bool :=
  let ctx := match header_get HEADER_REQUEST_ID (rq_headers req) ≫= to_str with
             | Some id => with_request_id ctx id
             | None => ctx
             end in
  let host := request_host req in
  let mismatch := match tls_sni, host with
                  | Some sni, Some h => negb (same_hostname h sni)
                  | _, _ => false
                  end in
  if mismatch then (ctx, m, Err (HTTPStatus 421))
  else
    let headers := if has_header_matchers (ps_router s) then router_headers (rq_headers req) else ∅ in
    let route_match := match_request (ps_router s) host (rq_path req) (rq_method req) headers in
    let m := match route_match with
             | Some rm => metric_inc (HTTP_REQUESTS_ACTIVE (match_label rm)) m
             | None => metric_inc ROUTE_NOT_FOUND_TOTAL m
             end in
    (with_match ctx (rq_method req) route_match, m, Ok false).

Definition upstream_peer (s : ProxyState) (req : RequestHeader) (now : N)
    (ctx : WicketCtx) (m : Metrics) : WicketCtx * Metrics * result ProxyError Peer :=
  match ctx_route_match ctx with
  | None => (ctx, m, Err (HTTPStatus 404))
  | Some rm =>
      match get_peer s (mr_upstream rm) (rq_path req) with
      | None => (ctx, metric_inc (UPSTREAM_ERRORS_TOTAL (mr_upstream rm) ERROR_NO_HEALTHY_BACKENDS) m,
                 Err (HTTPStatus 503))
      | Some peer =>
          (mkWicketCtx (ctx_route_match ctx) (ctx_start_time ctx) (ctx_request_id ctx) (ctx_method ctx)
             (Some now) (ctx_metrics_recorded ctx),
           metric_inc (UPSTREAM_CONNECTIONS_ACTIVE (mr_upstream rm)) m, Ok peer)
      end
  end.

(** [http]'s checks on a header value and Pingora's on a raw path. *)
Context (valid_header_value valid_path : string → bool).
(** The path and the query of a raw path and query. *)
Context (split_uri : string → string * option string).

Definition set_raw_path (pq : string) (r : RequestHeader) : result ProxyError RequestHeader :=
  if valid_path pq then
    let '(p, q) := split_uri pq in
    Ok (mkRequestHeader (rq_method r) p q (rq_authority r) (rq_version r) (rq_headers r))
  else Err InternalError.

Definition insert_header (name v : string) (r : RequestHeader) : result ProxyError RequestHeader :=
  if valid_header_value v then
    Ok (mkRequestHeader (rq_method r) (rq_path r) (rq_query r) (rq_authority r) (rq_version r)
          (header_insert name v (rq_headers r)))
  else Err InternalError.

Definition upstream_request_filter (client_ip : option IpAddr) (ctx : WicketCtx)
    (up : RequestHeader) : result ProxyError RequestHeader :=
  match ctx_route_match ctx ≫= λ rm,
        mr_url_rewrite rm ≫= λ rw,
        rewrite_path_and_query (rq_path up) (rq_query up) (mr_matched_path_prefix rm) rw with
  | Some pq => set_raw_path pq up
  | None => Ok up
  end ≫= λ up,
  insert_header HEADER_REQUEST_ID (ctx_request_id ctx) up ≫= λ up,
  match client_ip with
  | Some ip =>
      let client_ip := show_ip ip in
      let xff := match header_get HEADER_X_FORWARDED_FOR (rq_headers up) with
                 | Some existing => unwrap_or "" (to_str existing) +:+ ", " +:+ client_ip
                 | None => client_ip
                 end in
      insert_header HEADER_X_FORWARDED_FOR xff up
  | None => Ok up
  end.

(** ** Logging *)

Inductive ErrorType :=
| ConnectTimedout | ReadTimedout | WriteTimedout | ConnectRefused | ConnectionClosed | OtherError.

Definition error_label (e : ErrorType) : string :=
  match e with
  | ConnectTimedout => "connect_timeout"
  | ReadTimedout => "read_timeout"
  | WriteTimedout => "write_timeout"
  | ConnectRefused => "connect_refused"
  | ConnectionClosed => "connection_closed"
  | OtherError => "other"
  end.

Record ResponseHeader := mkResponseHeader { rs_status : N; rs_headers : HeaderMap }.

Record AccessLogEntry := mkAccessLogEntry {
  ae_remote_addr : string;
  ae_time_local : string;
  ae_method : string;
  ae_request_uri : string;
  ae_protocol : string;
  ae_status : N;
  ae_bytes_sent : N;
  ae_referer : string;
  ae_user_agent : string;
  ae_request_id : string;
  ae_route : string;
  ae_upstream : string;
  ae_duration_ms : N
}.

Definition content_length (h : HeaderMap) : option N :=
  (header_get HEADER_CONTENT_LENGTH h ≫= to_str) ≫= parse_uint u64_max.

Definition header_or_dash (name : string) (h : HeaderMap) : string :=
  unwrap_or "-" (header_get name h ≫= to_str).

(** [logging]: the metrics after the request, the context, and the access log
    entry (written when access logging is on); a second call does nothing. *)
Definition logging (req : RequestHeader) (uri : string) (response : option ResponseHeader)
    (remote_addr : option string) (error : option ErrorType) (now : N) (time_local : string)
    (ctx : WicketCtx) (m : Metrics) : WicketCtx * Metrics * option AccessLogEntry :=
  if ctx_metrics_recorded ctx then (ctx, m, None)
  else
    let ctx' := mkWicketCtx (ctx_route_match ctx) (ctx_start_time ctx) (ctx_request_id ctx)
                  (ctx_method ctx) (ctx_upstream_connect_time ctx) true in
    let duration := (now - ctx_start_time ctx)%N in
    let status := unwrap_or 0%N (rs_status <$> response) in
    let method := if is_empty_str (ctx_method ctx) then rq_method req else ctx_method ctx in
    let '(route_label, upstream) := match ctx_route_match ctx with
                                    | Some rm => (match_label rm, mr_upstream rm)
                                    | None => ("unknown", "unknown")
                                    end in
    let status_str := show_N status in
    let m := metric_inc (HTTP_REQUESTS_TOTAL method route_label status_str) m in
    let m := metric_inc (HTTP_REQUEST_DURATION method route_label) m in
    let m := if is_some (ctx_route_match ctx)
             then metric_dec (HTTP_REQUESTS_ACTIVE route_label) m else m in
    let m := if is_some (ctx_upstream_connect_time ctx)
             then metric_dec (UPSTREAM_CONNECTIONS_ACTIVE upstream)
                    (metric_inc (UPSTREAM_DURATION upstream) m) else m in
    let m := if (400 <=? status)%N
             then metric_inc (HTTP_ERRORS_TOTAL method route_label status_str
                                (classify_http_error status)) m else m in
    let m := match error with
             | Some e => metric_inc (UPSTREAM_ERRORS_TOTAL upstream (error_label e)) m
             | None => m
             end in
    let sent := response ≫= λ r, content_length (rs_headers r) in
    let m := match sent with
             | Some n => metric_add (BYTES_SENT_TOTAL route_label) (Z.of_N n) m
             | None => m
             end in
    let m := match content_length (rq_headers req) with
             | Some n => metric_add (BYTES_RECEIVED_TOTAL route_label) (Z.of_N n) m
             | None => m
             end in
    let m := metric_dec CLIENT_CONNECTIONS_ACTIVE m in
    (ctx', m,
     Some (mkAccessLogEntry (unwrap_or "-" remote_addr) time_local method uri (rq_version req)
             status (unwrap_or 0%N sent) (header_or_dash HEADER_REFERER (rq_headers req))
             (header_or_dash HEADER_USER_AGENT (rq_headers req)) (ctx_request_id ctx)
             route_label upstream duration)).
End proxy.

(** ** Access log lines *)

(** [str::replace] of a character. *)
Fixpoint replace_char (c : ascii) (by_ : string) (s : string) : string :=
  match s with
  | EmptyString => EmptyString
  | String d s' => if Ascii.eqb c d then by_ +:+ replace_char c by_ s' else String d (replace_char c by_ s')
  end.

Definition quote_char : ascii := ascii_of_nat 34.
Definition backslash : ascii := ascii_of_nat 92.
Definition newline : ascii := ascii_of_nat 10.
Definition carriage_return : ascii := ascii_of_nat 13.
Definition tab : ascii := ascii_of_nat 9.
Definition q : string := String quote_char "".

Definition escape_access_field (value : string) : string :=
  replace_char tab "\t"
  (replace_char carriage_return "\r"
  (replace_char newline "\n"
  (replace_char quote_char (String backslash q)
  (replace_char backslash "\\" value)))).

Definition escape_json : string → string := escape_access_field.

Definition format_combined_access_log (e : AccessLogEntry) : string :=
  escape_access_field (ae_remote_addr e) +:+ " - - [" +:+ ae_time_local e +:+ "] " +:+ q +:+
  escape_access_field (ae_method e) +:+ " " +:+ escape_access_field (ae_request_uri e) +:+ " " +:+
  escape_access_field (ae_protocol e) +:+ q +:+ " " +:+ show_N (ae_status e) +:+ " " +:+
  show_N (ae_bytes_sent e) +:+ " " +:+ q +:+ escape_access_field (ae_referer e) +:+ q +:+ " " +:+
  q +:+ escape_access_field (ae_user_agent e) +:+ q +:+ " " +:+
  q +:+ escape_access_field (ae_request_id e) +:+ q +:+ " " +:+
  q +:+ escape_access_field (ae_route e) +:+ q +:+ " " +:+
  q +:+ escape_access_field (ae_upstream e) +:+ q +:+ " " +:+ show_N (ae_duration_ms e).

(** A JSON member with a string or a number value. *)
Definition json_str (key value : string) : string := q +:+ key +:+ q +:+ ":" +:+ q +:+ escape_json value +:+ q.
Definition json_num (key : string) (n : N) : string := q +:+ key +:+ q +:+ ":" +:+ show_N n.

Definition format_json_access_log (e : AccessLogEntry) : string :=
  "{" +:+ String.concat ","
    [json_str "remote_addr" (ae_remote_addr e); json_str "time_local" (ae_time_local e);
     json_str "method" (ae_method e); json_str "request_uri" (ae_request_uri e);
     json_str "protocol" (ae_protocol e); json_num "status" (ae_status e);
     json_num "bytes_sent" (ae_bytes_sent e); json_str "referer" (ae_referer e);
     json_str "user_agent" (ae_user_agent e); json_str "request_id" (ae_request_id e);
     json_str "route" (ae_route e); json_str "upstream" (ae_upstream e);
     json_num "duration_ms" (ae_duration_ms e)] +:+ "}".

Definition access_log_line (format : AccessLogFormat) (e : AccessLogEntry) : string :=
  match format with
  | AccessLogFormat_Combined => format_combined_access_log e
  | AccessLogFormat_Json => format_json_access_log e
  end.

(** [AccessLogger::write]: one line is appended; the mutex may be poisoned and the write
    may fail, in which case what is left of the line is the writer's business. *)
Definition AccessLogger_write (poisoned : bool) (write : string → string → string * result string unit)
    (format : AccessLogFormat) (e : AccessLogEntry) (log : string) : string * result string unit :=
  if poisoned then (log, Err "access log lock poisoned")
  else write (access_log_line format e +:+ String "010" EmptyString) log.

(** ** Lemmas *)

Section requests.
Context {LB Peer : Type}.
Context (select : LB → string → N → option Peer).
Notation ProxyState := (@ProxyState LB).

(** A gauge of work in progress. *)
Definition is_gauge (k : list string) : Prop :=
  k = CLIENT_CONNECTIONS_ACTIVE ∨ (∃ r, k = HTTP_REQUESTS_ACTIVE r) ∨
  (∃ u, k = UPSTREAM_CONNECTIONS_ACTIVE u).

(** The share of the gauge [k] that belongs to a request in progress. *)
Definition gauge_share (ctx : WicketCtx) (k : list string) : Z :=
  if ctx_metrics_recorded ctx then 0%Z
  else ((if bool_decide (k = CLIENT_CONNECTIONS_ACTIVE) then 1 else 0)
        + match ctx_route_match ctx with
          | Some rm =>
              (if bool_decide (k = HTTP_REQUESTS_ACTIVE (match_label rm)) then 1 else 0)
              + (if bool_decide (k = UPSTREAM_CONNECTIONS_ACTIVE (mr_upstream rm))
                 then (if is_some (ctx_upstream_connect_time ctx) then 1 else 0) else 0)
          | None => 0
          end)%Z.

(** What a gauge is off by after [n] peer selections: every selection after the first
    counts an upstream connection of the request's upstream that is never given back. *)
Definition leaked (ctx : WicketCtx) (n : nat) (k : list string) : Z :=
  match ctx_route_match ctx with
  | Some rm => if bool_decide (k = UPSTREAM_CONNECTIONS_ACTIVE (mr_upstream rm)) then Z.of_nat (n - 1) else 0
  | None => 0
  end.

(** What a request does, one callback at a time, as Pingora runs them: the request
    filter before a route is known, peer selections, one per attempt to reach an
    upstream, and the logging callback any number of times; the shared state may be
    reloaded between two callbacks.  The number counts the selections that succeeded. *)
Inductive request_step : WicketCtx * Metrics * nat → WicketCtx * Metrics * nat → Prop :=
| step_request_filter (s : ProxyState) req sni ctx m n ctx' m' r :
    ctx_metrics_recorded ctx = false → ctx_route_match ctx = None →
    ctx_upstream_connect_time ctx = None →
    request_filter s req sni ctx m = (ctx', m', r) →
    request_step (ctx, m, n) (ctx', m', n)
| step_upstream_peer (s : ProxyState) req now ctx m n ctx' m' r :
    ctx_metrics_recorded ctx = false →
    upstream_peer select s req now ctx m = (ctx', m', r) →
    request_step (ctx, m, n) (ctx', m', if is_some (ok r) then S n else n)
| step_logging req uri resp addr err now time ctx m n ctx' m' e :
    logging req uri resp addr err now time ctx m = (ctx', m', e) →
    request_step (ctx, m, n) (ctx', m', n).

(** The selections a context knows of: some, exactly when a connection time is set,
    which only happens to a request with a route. *)
Definition selections_wf (ctx : WicketCtx) (n : nat) : Prop :=
  (ctx_upstream_connect_time ctx ≠ None → ctx_route_match ctx ≠ None) ∧ (n = 0 ↔ ctx_upstream_connect_time ctx = None).

Lemma upstream_time_match (ctx : WicketCtx) :
  (ctx_upstream_connect_time ctx ≠ None → ctx_route_match ctx ≠ None) →
  ctx_route_match ctx = None → ctx_upstream_connect_time ctx = None.
Proof. destruct (ctx_upstream_connect_time ctx); naive_solver. Qed.

(** Every callback changes a gauge by exactly the change of the request's share and of
    what it has leaked. *)
Lemma request_step_gauge c1 m1 n1 c2 m2 n2 k :
  is_gauge k → selections_wf c1 n1 → request_step (c1, m1, n1) (c2, m2, n2) →
  (metric m2 k - gauge_share c2 k - leaked c2 n2 k = metric m1 k - gauge_share c1 k - leaked c1 n1 k)%Z ∧ selections_wf c2 n2.
Proof.
  intros Hk Hwf Hstep. inversion Hstep as [s req sni ctx m n ctx' m' r Hr Hm Hu Hf|
    s req now ctx m n ctx' m' r Hr Hf|req uri resp addr err now time ctx m n ctx' m' e Hf]; subst; clear Hstep.
  - assert (n2 = 0) as -> by (by apply Hwf). unfold request_filter in Hf.
    destruct (match header_get _ _ ≫= to_str with Some _ => _ | None => _ end) as [a b c d e f] eqn:Ec in Hf.
    assert (gauge_share c1 k = (if bool_decide (k = CLIENT_CONNECTIONS_ACTIVE) then 1 else 0)%Z) as ->.
    { unfold gauge_share. rewrite Hr, Hm. lia. }
    assert (leaked c1 0 k = 0%Z) as -> by (unfold leaked; by rewrite Hm).
    assert (a = None ∧ e = None ∧ f = false) as (->&->&->).
    { destruct (_ ≫= to_str) in Ec; unfold with_request_id in Ec; [by simplify_eq|].
      subst c1. cbn in *. done. }
    destruct (match sni, request_host req with Some _, Some _ => _ | _, _ => _ end).
    { simplify_eq. split; [unfold gauge_share, leaked; cbn; lia|done]. }
    simplify_eq. split; [|done]. unfold gauge_share, leaked. cbn.
    destruct (match_request _ _ _ _ _) as [rm|]; destruct Hk as [->|[[r' ->]|[u ->]]]; solve_metrics.
  - unfold upstream_peer in Hf. destruct (ctx_route_match c1) as [rm|] eqn:Hm; [|by simplify_eq].
    destruct (get_peer _ _ _) as [p|]; simplify_eq; cbn [is_some ok].
    + split; [|done]. unfold gauge_share, leaked. cbn [ctx_metrics_recorded ctx_route_match ctx_upstream_connect_time]. rewrite Hr, Hm.
      destruct Hwf as [_ Hn]. destruct (ctx_upstream_connect_time c1); cbn [is_some]; [|rewrite (proj2 Hn eq_refl)];
        destruct Hk as [->|[[r' ->]|[u ->]]]; try solve_metrics.
      assert (n1 ≠ 0) by naive_solver. solve_metrics.
    + split; [|done]. destruct Hk as [->|[[r' ->]|[u ->]]]; solve_metrics.
  - unfold logging in Hf. destruct (ctx_metrics_recorded c1) eqn:Hr; [by simplify_eq|].
    destruct (ctx_route_match c1) as [rm|] eqn:Hm.
    + injection Hf as <- <- <-. split; [|by split; [|apply Hwf]].
      unfold gauge_share, leaked. cbn [ctx_metrics_recorded ctx_route_match]. rewrite Hr, Hm.
      destruct (ctx_upstream_connect_time c1); cbn [is_some];
        destruct Hk as [->|[[r' ->]|[u ->]]]; solve_metrics.
    + pose proof (upstream_time_match c1 (proj1 Hwf) Hm) as Hu.
      rewrite Hu in Hf. cbn [is_some] in Hf. injection Hf as <- <- <-.
      split; [|split; [done|split; [done|intros _; by apply Hwf]]]. unfold gauge_share, leaked. cbn [ctx_metrics_recorded ctx_route_match]. rewrite Hr, Hm.
      destruct Hk as [->|[[r' ->]|[u ->]]]; solve_metrics.
Qed.

Lemma request_steps_gauge p1 p2 k :
  is_gauge k → rtc request_step p1 p2 → selections_wf p1.1.1 p1.2 →
  (metric p2.1.2 k - gauge_share p2.1.1 k - leaked p2.1.1 p2.2 k =
   metric p1.1.2 k - gauge_share p1.1.1 k - leaked p1.1.1 p1.2 k)%Z.
Proof.
  intros Hk. induction 1 as [p|[[c1 m1] n1] [[c2 m2] n2] p3 Hs _ IH]; [done|]. cbn [fst snd] in *. intros Hwf.
  destruct (request_step_gauge _ _ _ _ _ _ k Hk Hwf Hs) as [He Hwf2]. rewrite IH by done. done.
Qed.

(** C31: the gauges of work in progress over the callbacks of one request, retries
    and reloads included.  After [n] successful peer selections each of them (client
    connections, active requests, upstream connections) differs from its value before
    the request by what the request still holds, and the upstream connections of the
    request's upstream by another [n - 1].  So once the request is logged, however
    often that runs, the gauges are back where they were if a peer was selected at most
    once, and every retry that selects a peer again leaves one upstream connection too
    many for good. *)
Theorem gauges_balanced now random m0 ctx m n k :
  is_gauge k → rtc request_step (new_ctx now random m0, 0) (ctx, m, n) →
  metric m k = (metric m0 k + gauge_share ctx k + leaked ctx n k)%Z ∧
  (ctx_metrics_recorded ctx = true → metric m k = (metric m0 k + leaked ctx n k)%Z) ∧
  (ctx_metrics_recorded ctx = true → n ≤ 1 → metric m k = metric m0 k).
Proof.
  intros Hk Hr. pose proof (request_steps_gauge _ _ k Hk Hr ltac:(done)) as H. cbn [fst snd] in H.
  assert (metric m k = (metric m0 k + gauge_share ctx k + leaked ctx n k)%Z) as He.
  { revert H. generalize (gauge_share ctx k) as g, (leaked ctx n k) as l. intros g l. unfold gauge_share, leaked. cbn.
    destruct Hk as [->|[[r' ->]|[u ->]]]; solve_metrics. }
  assert (ctx_metrics_recorded ctx = true → gauge_share ctx k = 0%Z) as Hz by (intros Hrec; unfold gauge_share; by rewrite Hrec).
  split_and!; [done|intros Hrec; rewrite He, Hz by done; lia|]. intros Hrec Hn. rewrite He, Hz by done. unfold leaked.
  replace (n - 1) with 0 by lia. destruct (ctx_route_match ctx); [destruct (bool_decide _)|]; lia.
Qed.

(** Pingora asks for a peer again when it retries a request; a second
    successful selection counts a second upstream connection that logging, which
    subtracts one, never gives back. *)
Theorem retry_leaks_upstream_gauge (s : ProxyState) req t1 t2 ctx m rm p1 p2 c1 m1 c2 m2
    uri resp addr err now time c3 m3 e :
  ctx_metrics_recorded ctx = false → ctx_route_match ctx = Some rm →
  upstream_peer select s req t1 ctx m = (c1, m1, Ok p1) →
  upstream_peer select s req t2 c1 m1 = (c2, m2, Ok p2) →
  logging req uri resp addr err now time c2 m2 = (c3, m3, e) →
  metric m3 (UPSTREAM_CONNECTIONS_ACTIVE (mr_upstream rm))
  = (metric m (UPSTREAM_CONNECTIONS_ACTIVE (mr_upstream rm)) + 1)%Z.
Proof.
  unfold upstream_peer. intros Hr -> H1 H2 H3.
  destruct (get_peer select s (mr_upstream rm) (rq_path req)) as [p|] eqn:Hp; simplify_eq/=.
  rewrite Hp in H2. simplify_eq/=. unfold logging in H3. cbn [ctx_metrics_recorded] in H3.
  rewrite Hr in H3. injection H3 as <- <- <-. cbn [is_some].
  solve_metrics.
Qed.
End requests.

(** ** Routing a request *)

(** With no header rule in the router the headers do not matter: skipping the
    header map changes no match. *)
Lemma lazy_headers_sound (r : Router) host path method hs :
  match_request r host path method (if has_header_matchers r then hs else ∅)
  = match_request r host path method hs.
Proof.
  destruct (has_header_matchers r) eqn:E; [done|]. unfold match_request. f_equal.
  unfold has_header_matchers in E. destruct r as [cs]. cbn in *.
  induction cs as [|c cs IH]; [done|]. cbn in *. apply orb_false_iff in E as [Hc Hcs].
  apply negb_false_iff, bool_decide_eq_true in Hc.
  assert (CompiledRoute_matches c host path method ∅ = CompiledRoute_matches c host path method hs) as ->.
  { unfold CompiledRoute_matches. by rewrite Hc, map_to_list_empty. }
  by rewrite IH.
Qed.

Lemma request_filter_cases {LB} (s : @ProxyState LB) req sni ctx m :
  let '(ctx', m', r) := request_filter s req sni ctx m in
  (∃ n h, sni = Some n ∧ request_host req = Some h ∧
     normalize_hostname h ≠ normalize_hostname n ∧
     r = Err (HTTPStatus 421) ∧ m' = m ∧ ctx_route_match ctx' = ctx_route_match ctx) ∨
  ((∀ n h, sni = Some n → request_host req = Some h → normalize_hostname h = normalize_hostname n) ∧
   r = Ok false ∧ ctx_method ctx' = rq_method req ∧
   ctx_route_match ctx' =
     match_request (ps_router s) (request_host req) (rq_path req) (rq_method req)
       (router_headers (rq_headers req))).
Proof.
  unfold request_filter, same_hostname.
  set (c0 := match header_get HEADER_REQUEST_ID _ ≫= to_str with Some _ => _ | None => _ end).
  assert (ctx_route_match c0 = ctx_route_match ctx) as Hc0.
  { unfold c0. by destruct (header_get HEADER_REQUEST_ID (rq_headers req) ≫= to_str). }
  destruct sni as [n|], (request_host req) as [h|] eqn:Hh; cbn zeta;
    [destruct (String.eqb_spec (normalize_hostname h) (normalize_hostname n)) as [He|He]; cbn [negb]|..].
  2: left; naive_solver.
  all: right; rewrite lazy_headers_sound; naive_solver.
Qed.

(** The request filter rejects a request exactly when the TLS server name and
    the host are both known and name different hosts (421, nothing counted and the
    context's match untouched); otherwise it records the first matching route for
    the request's host, path, method and headers, as if the header map were always
    built. *)
Theorem request_filter_spec {LB} (s : @ProxyState LB) req sni ctx m :
  let '(ctx', m', r) := request_filter s req sni ctx m in
  (∃ n h, sni = Some n ∧ request_host req = Some h ∧
     normalize_hostname h ≠ normalize_hostname n ∧
     r = Err (HTTPStatus 421) ∧ m' = m ∧ ctx_route_match ctx' = ctx_route_match ctx) ∨
  ((∀ n h, sni = Some n → request_host req = Some h → normalize_hostname h = normalize_hostname n) ∧
   r = Ok false ∧ ctx_method ctx' = rq_method req ∧
   ctx_route_match ctx' =
     match_request (ps_router s) (request_host req) (rq_path req) (rq_method req)
       (router_headers (rq_headers req))).
Proof. apply request_filter_cases. Qed.

Lemma router_headers_lower hs k v : router_headers hs !! k = Some v → to_lowercase k = k.
Proof.
  unfold router_headers.
  assert (∀ m : gmap string string, (∀ k v, m !! k = Some v → to_lowercase k = k) →
    foldl (λ m '(k, v), match to_str v with
                        | Some v => <[to_lowercase k := v]> m
                        | None => m
                        end) m hs !! k = Some v → to_lowercase k = k) as H.
  { induction hs as [|[k' v'] hs IH]; intros m Hm; [apply Hm|]. cbn. apply IH.
    destruct (to_str v') as [w|]; [|done]. intros k0 v0.
    destruct (decide (to_lowercase k' = k0)) as [<-|Hne].
    - intros _. apply to_lowercase_idemp.
    - rewrite lookup_insert_ne by done. apply Hm. }
  apply H. intros ?? Hl. by rewrite lookup_empty in Hl.
Qed.

(** A route with a header rule whose name has an upper-case letter never
    matches: the request filter lower-cases the names of the request's headers and
    the router compares them with the name as configured. *)
Theorem mixed_case_header_never_matches {LB} (s : @ProxyState LB) c k v req sni ctx m ctx' m' r :
  Router_build [c] = Ok (ps_router s) → rm_headers (rc_match_rules c) !! k = Some v →
  to_lowercase k ≠ k → request_filter s req sni ctx m = (ctx', m', r) →
  r = Ok false → ctx_route_match ctx' = None.
Proof.
  intros Hb Hk Hlow Hf ->. pose proof (request_filter_cases s req sni ctx m) as Hs.
  rewrite Hf in Hs. destruct Hs as [(?&?&_&_&_&?&_)|(_&_&_&->)]; [done|].
  pose proof (match_request_first [c] _ (request_host req) (rq_path req) (rq_method req)
                (router_headers (rq_headers req)) Hb) as Hm.
  destruct (match_request _ _ _ _ _) as [rm|]; [|done]. exfalso.
  destruct Hm as (i&c'&Hi&(_&_&_&Hhd)&_). apply list_elem_of_lookup_2 in Hi.
  apply list_elem_of_singleton in Hi as ->.
  eapply lookup_weaken in Hk; [|exact Hhd]. by apply router_headers_lower in Hk.
Qed.

(** ** Reload *)

Lemma build_upstreams_Ok {LB} (try_from_iter : LoadBalanceStrategy → list string → option LB) shc cs us :
  build_upstreams try_from_iter shc cs = Ok us → ∀ name, is_Some (cs !! name) ↔ is_Some (us !! name).
Proof.
  unfold build_upstreams. destruct (try_map _ _) as [l|] eqn:E; [|done]. intros [= <-] name.
  apply try_map_Ok in E.
  assert (fst <$> l = fst <$> btree_iter cs) as Hfst.
  { induction E as [|[n c] [n' u] l1 l2 Hh _ IH]; [done|]. csimpl. rewrite IH. f_equal.
    by destruct (UpstreamCluster_new try_from_iter shc c); cbn in Hh; simplify_eq. }
  rewrite <-(elem_of_dom (list_to_map l : gmap _ _)), dom_list_to_map_L, Hfst.
  rewrite elem_of_list_to_set, list_elem_of_fmap. split.
  - intros [c Hc]. exists (name, c). split; [done|]. by apply elem_of_btree_iter.
  - intros ([n c]&->&Hin). exists c. by apply elem_of_btree_iter.
Qed.

(** A reload that fails changes nothing; one that succeeds installs the router
    of the new configuration and an upstream table with exactly its upstreams, so
    that after the reload of a valid configuration every matched route has its
    upstream. *)
Theorem apply_reload_all_or_nothing {LB} (try_from_iter : LoadBalanceStrategy → list string → option LB)
    shc (s : @ProxyState LB) config :
  match apply_reload try_from_iter shc s config with
  | (s', Err _) => s' = s
  | (s', Ok _) =>
      Router_build (cfg_routes config) = Ok (ps_router s') ∧
      (∀ name, is_Some (cfg_upstreams config !! name) ↔ is_Some (ps_upstreams s' !! name)) ∧
      (validate config = Ok tt → ∀ host path method headers rm,
         match_request (ps_router s') host path method headers = Some rm →
         is_Some (ps_upstreams s' !! mr_upstream rm))
  end.
Proof.
  unfold apply_reload, reload_plan.
  destruct (Router_build (cfg_routes config)) as [r|e] eqn:Hr; cbn; [|done].
  destruct (build_upstreams try_from_iter shc (cfg_upstreams config)) as [us|e] eqn:Hu; cbn; [|done].
  pose proof (build_upstreams_Ok _ _ _ _ Hu) as Hdom. split; [done|]. split; [done|].
  intros Hv%validate_valid host path method headers rm Hm. apply Hdom.
  pose proof (match_request_first _ _ host path method headers Hr) as Hf. rewrite Hm in Hf.
  destruct Hf as (i&c&Hi&_&->&_). apply list_elem_of_lookup_2 in Hi.
  by destruct (vc_routes config Hv c Hi) as (?&_).
Qed.

(** ** Access log fields *)

Definition escape_char (c : ascii) : string :=
  if Ascii.eqb backslash c then "\\" else
  if Ascii.eqb quote_char c then String backslash q else
  if Ascii.eqb newline c then "\n" else
  if Ascii.eqb carriage_return c then "\r" else
  if Ascii.eqb tab c then "\t" else String c "".

Lemma replace_char_app c b s t :
  replace_char c b (s +:+ t) = replace_char c b s +:+ replace_char c b t.
Proof.
  induction s as [|d s IH]; [done|]. cbn. destruct (Ascii.eqb c d); rewrite IH; [|done].
  by rewrite app_str_assoc.
Qed.

(** The five replacements together escape character by character. *)
Lemma escape_access_field_cons c s :
  escape_access_field (String c s) = escape_char c +:+ escape_access_field s.
Proof.
  assert (escape_access_field (String c "") = escape_char c) as Hc.
  { destruct c as [[] [] [] [] [] [] [] []]; reflexivity. }
  rewrite <-Hc. unfold escape_access_field.
  change (String c s) with (String c "" +:+ s). by rewrite !replace_char_app.
Qed.

Definition unescape_char (c : ascii) : ascii :=
  if Ascii.eqb "n" c then newline else if Ascii.eqb "r" c then carriage_return
  else if Ascii.eqb "t" c then tab else c.

(** A reader of a quoted field: up to the first quote that is not escaped; the
    field's value and the text after the quote. *)
Fixpoint read_quoted (s : string) : option (string * string) :=
  match s with
  | EmptyString => None
  | String c s' =>
      if Ascii.eqb quote_char c then Some ("", s')
      else if Ascii.eqb backslash c then
        match s' with
        | String d s'' => (λ '(v, r), (String (unescape_char d) v, r)) <$> read_quoted s''
        | EmptyString => None
        end
      else (λ '(v, r), (String c v, r)) <$> read_quoted s'
  end.

Lemma read_quoted_backslash d s :
  read_quoted (String backslash (String d s))
  = (λ '(v, r), (String (unescape_char d) v, r)) <$> read_quoted s.
Proof. reflexivity. Qed.

Lemma read_quoted_plain c s :
  Ascii.eqb quote_char c = false → Ascii.eqb backslash c = false →
  read_quoted (String c s) = (λ '(v, r), (String c v, r)) <$> read_quoted s.
Proof. intros H1 H2. change (read_quoted (String c s)) with
  (if Ascii.eqb quote_char c then Some ("", s)
   else if Ascii.eqb backslash c then
     match s with
     | String d s'' => (λ '(v, r), (String (unescape_char d) v, r)) <$> read_quoted s''
     | EmptyString => None
     end
   else (λ '(v, r), (String c v, r)) <$> read_quoted s). by rewrite H1, H2.
Qed.

Lemma read_quoted_escape_char c s v r :
  read_quoted s = Some (v, r) → read_quoted (escape_char c +:+ s) = Some (String c v, r).
Proof.
  intros Hs. unfold escape_char.
  destruct (Ascii.eqb_spec backslash c) as [<-|H1];
    [change ("\\" +:+ s) with (String backslash (String backslash s));
     by rewrite read_quoted_backslash, Hs|].
  destruct (Ascii.eqb_spec quote_char c) as [<-|H2];
    [change (String backslash q +:+ s) with (String backslash (String quote_char s));
     by rewrite read_quoted_backslash, Hs|].
  destruct (Ascii.eqb_spec newline c) as [<-|H3];
    [change ("\n" +:+ s) with (String backslash (String "n" s));
     by rewrite read_quoted_backslash, Hs|].
  destruct (Ascii.eqb_spec carriage_return c) as [<-|H4];
    [change ("\r" +:+ s) with (String backslash (String "r" s));
     by rewrite read_quoted_backslash, Hs|].
  destruct (Ascii.eqb_spec tab c) as [<-|H5];
    [change ("\t" +:+ s) with (String backslash (String "t" s));
     by rewrite read_quoted_backslash, Hs|].
  change (String c "" +:+ s) with (String c s).
  rewrite read_quoted_plain; [by rewrite Hs|by apply Ascii.eqb_neq..].
Qed.

(** An access-log field can be read back whatever it holds: the reader of a
    quoted field recovers the value and stops at the closing quote, so no field
    can end early or run into the next one. *)
Theorem access_field_roundtrip v rest :
  read_quoted (escape_access_field v +:+ q +:+ rest) = Some (v, rest).
Proof.
  induction v as [|c v IH]; [done|]. rewrite escape_access_field_cons, app_str_assoc.
  by apply read_quoted_escape_char.
Qed.

Lemma escape_no_newline v : contains_char newline (escape_access_field v) = false.
Proof.
  induction v as [|c v IH]; [done|]. rewrite escape_access_field_cons, contains_char_app, IH.
  rewrite orb_false_r. destruct c as [[] [] [] [] [] [] [] []]; reflexivity.
Qed.

Lemma show_N_no_newline n : contains_char newline (show_N n) = false.
Proof. by apply show_N_digits. Qed.

Lemma json_str_no_newline k v : contains_char newline k = false → contains_char newline (json_str k v) = false.
Proof. intros Hk. unfold json_str, escape_json. rewrite !contains_char_app, Hk, escape_no_newline. done. Qed.

Lemma json_num_no_newline k n : contains_char newline k = false → contains_char newline (json_num k n) = false.
Proof. intros Hk. unfold json_num. rewrite !contains_char_app, Hk, show_N_no_newline. done. Qed.

Lemma concat_no_newline l :
  (∀ x, x ∈ l → contains_char newline x = false) → contains_char newline (String.concat "," l) = false.
Proof.
  induction l as [|x [|y l] IH]; intros H; [done|apply H; set_solver|].
  change (String.concat "," (x :: y :: l)) with (x +:+ "," +:+ String.concat "," (y :: l)).
  rewrite !contains_char_app, IH by set_solver. rewrite H by set_solver. done.
Qed.

(** One request writes one line: with a time stamp on one line, no line of
    either access-log format holds a newline, whatever the request put in its URI,
    referer or user agent. *)
Theorem access_log_one_line format e :
  contains_char newline (ae_time_local e) = false →
  contains_char newline (access_log_line format e) = false.
Proof.
  intros Ht. destruct format; cbn [access_log_line].
  - unfold format_combined_access_log.
    rewrite !contains_char_app, !escape_no_newline, !show_N_no_newline, Ht. done.
  - unfold format_json_access_log. rewrite !contains_char_app, concat_no_newline; [done|].
    intros x Hx. repeat (apply elem_of_cons in Hx as [->|Hx];
      [by first [apply json_str_no_newline | apply json_num_no_newline]|]).
    by apply not_elem_of_nil in Hx.
Qed.

(** ** Witnesses: a load balancer with one peer that always answers *)

Definition ex_select (lb : unit) (key : string) (n : N) : option string := Some "10.0.0.1:80".
Definition ex_state : @ProxyState unit :=
  mkProxyState (mkRouter [mkCompiledRoute (Some "r") "web" None None [] ∅ None])
    {["web" := mkUpstreamCluster (Some tt) None RoundRobin]}.
Definition ex_request : RequestHeader :=
  mkRequestHeader "GET" "/" None None "HTTP/1.1" [("host", "example.com")].
Definition ex_filtered : WicketCtx * Metrics :=
  (request_filter ex_state ex_request None (new_ctx 0 7 ∅).1 (new_ctx 0 7 ∅).2).1.
Definition ex_peered : WicketCtx * Metrics :=
  (upstream_peer ex_select ex_state ex_request 1 ex_filtered.1 ex_filtered.2).1.
Definition ex_retried : WicketCtx * Metrics :=
  (upstream_peer ex_select ex_state ex_request 2 ex_peered.1 ex_peered.2).1.
Definition ex_log (p : WicketCtx * Metrics) : WicketCtx * Metrics :=
  (logging ex_request "/" None None None 2 "now" p.1 p.2).1.

(** A request that is tried twice. *)
Lemma gauges_balanced_witness :
  metric (ex_log ex_retried).2 CLIENT_CONNECTIONS_ACTIVE = metric ∅ CLIENT_CONNECTIONS_ACTIVE ∧
  metric (ex_log ex_retried).2 (UPSTREAM_CONNECTIONS_ACTIVE "web") = (metric ∅ (UPSTREAM_CONNECTIONS_ACTIVE "web") + 1)%Z.
Proof.
  assert (rtc (request_step ex_select) (new_ctx 0 7 ∅, 0) ((ex_log ex_retried).1, (ex_log ex_retried).2, 2)) as Hr.
  { eapply rtc_l; [|eapply rtc_l; [|eapply rtc_l; [|eapply rtc_once]]].
    - eapply (step_request_filter _ ex_state ex_request None _ _ 0 ex_filtered.1 ex_filtered.2 (Ok false)); reflexivity.
    - eapply (step_upstream_peer _ ex_state ex_request 1 _ _ 0 ex_peered.1 ex_peered.2 (Ok _)); reflexivity.
    - eapply (step_upstream_peer _ ex_state ex_request 2 _ _ 1 ex_retried.1 ex_retried.2 (Ok _)); reflexivity.
    - eapply (step_logging _ ex_request "/" None None None 2 "now"); reflexivity. }
  split.
  - apply (gauges_balanced ex_select 0 7 ∅ _ _ 2 CLIENT_CONNECTIONS_ACTIVE) in Hr as (_&H&_); [|by left]. rewrite H by reflexivity. reflexivity.
  - apply (gauges_balanced ex_select 0 7 ∅ _ _ 2 (UPSTREAM_CONNECTIONS_ACTIVE "web")) in Hr as (_&H&_); [|right; right; by eexists].
    rewrite H by reflexivity. reflexivity.
Defined.

Lemma retry_leaks_upstream_gauge_witness :
  metric (ex_log ex_retried).2 (UPSTREAM_CONNECTIONS_ACTIVE "web")
  = (metric ex_filtered.2 (UPSTREAM_CONNECTIONS_ACTIVE "web") + 1)%Z.
Proof.
  eapply (retry_leaks_upstream_gauge ex_select ex_state ex_request 1 2 ex_filtered.1 ex_filtered.2
    (mkMatchedRoute (Some "r") "web" None "/") _ _ ex_peered.1 ex_peered.2 ex_retried.1 ex_retried.2
    "/" None None None 2 "now" (ex_log ex_retried).1); reflexivity.
Defined.

Definition ex_header_route : RouteConfig :=
  mkRouteConfig None (mkRouteMatch None None None [] {["X-Env" := "prod"]}) "web" None None None.
Definition ex_header_state : @ProxyState unit :=
  mkProxyState (mkRouter [mkCompiledRoute None "web" None None [] {["X-Env" := "prod"]} None]) ∅.
Definition ex_header_request : RequestHeader :=
  mkRequestHeader "GET" "/" None None "HTTP/1.1" [("host", "example.com"); ("x-env", "prod")].

Lemma mixed_case_header_never_matches_witness :
  ctx_route_match (request_filter ex_header_state ex_header_request None
                     (new_ctx 0 7 ∅).1 (new_ctx 0 7 ∅).2).1.1 = None.
Proof.
  apply (mixed_case_header_never_matches ex_header_state ex_header_route "X-Env" "prod"
           ex_header_request None (new_ctx 0 7 ∅).1 (new_ctx 0 7 ∅).2 _
           (request_filter ex_header_state ex_header_request None
              (new_ctx 0 7 ∅).1 (new_ctx 0 7 ∅).2).1.2 (Ok false));
    try reflexivity; vm_compute; discriminate.
Defined.

Definition ex_entry : AccessLogEntry :=
  mkAccessLogEntry "10.0.0.9" "01/Jan/2025:00:00:00 +0000" "GET" (String newline "/") "HTTP/1.1"
    200 5 "-" q "req_0" "r" "web" 3.

Lemma access_log_one_line_witness :
  contains_char newline (access_log_line AccessLogFormat_Combined ex_entry) = false.
Proof. apply access_log_one_line. reflexivity. Defined.
