(* ===== verification/Sni.v ===== *)
(** * Server names in TLS ClientHello messages (crates/wicket-stream/src/sni.rs)

    The parser reads a byte buffer through a cursor: a position and the readers
    [read_u8], [read_u16], [read_u24] and [skip], each [None] past the end.  The
    two loops (extensions, names) carry fuel; running out of it is [OutOfFuel], a
    value of its own, and the buffer's length is always enough
    ([extract_sni_terminates]). *)

From S2P Require Import Prelude Str Num Bytes.

Definition MIN_TLS_HEADER : N := 5.
Definition TLS_HANDSHAKE : N := 22.
Definition HANDSHAKE_CLIENT_HELLO : N := 1.
Definition EXT_SERVER_NAME : N := 0.
Definition NAME_TYPE_HOSTNAME : N := 0.
Definition MAX_HOSTNAME_LEN : N := 253.

Definition blen (buf : bytes) : N := N.of_nat (length buf).

Definition is_tls_handshake (buf : bytes) : bool :=
  if (blen buf <? MIN_TLS_HEADER)%N then false
  else match buf with b :: _ => (u8 b =? TLS_HANDSHAKE)%N | [] => false end.

(** ** The cursor *)

Section cursor.
Context (buf : bytes).

Definition read_u8 (pos : N) : option (N * N) :=
  b ← buf !! N.to_nat pos; Some (u8 b, (pos + 1)%N).

Definition read_u16 (pos : N) : option (N * N) :=
  a ← buf !! N.to_nat pos; b ← buf !! N.to_nat (pos + 1);
  Some (u16_from_be a b, (pos + 2)%N).

Definition read_u24 (pos : N) : option (N * N) :=
  a ← buf !! N.to_nat pos; b ← buf !! N.to_nat (pos + 1); c ← buf !! N.to_nat (pos + 2);
  Some (u24_from_be a b c, (pos + 3)%N).

Definition skip (n pos : N) : option N :=
  if (blen buf <? pos + n)%N then None else Some (pos + n)%N.

(** [&buf[start..end]]. *)
Definition slice (start end_ : N) : bytes :=
  take (N.to_nat (end_ - start)) (drop (N.to_nat start) buf).

(** The result of a loop: the value the function returns from inside it. *)
Inductive loop_result (A : Type) := Return (r : A) | OutOfFuel.
Arguments Return {A} _.
Arguments OutOfFuel {A}.

(** The loop over the server names of one extension: the host name found, or why
    there is none. *)
Fixpoint name_loop (fuel : nat) (list_end pos : N) : loop_result (option string) :=
  match fuel with
  | O => OutOfFuel
  | S fuel' =>
      if (pos <? list_end)%N then
        match read_u8 pos with
        | None => Return None
        | Some (name_type, pos) =>
            match read_u16 pos with
            | None => Return None
            | Some (name_len, pos) =>
                if (name_type =? NAME_TYPE_HOSTNAME)%N then
                  if (MAX_HOSTNAME_LEN <? name_len)%N then Return None
                  else
                    let name_end := (pos + name_len)%N in
                    if (blen buf <? name_end)%N then Return None
                    else Return (from_utf8 (slice pos name_end))
                else
                  match skip name_len pos with
                  | None => Return None
                  | Some pos => name_loop fuel' list_end pos
                  end
            end
        end
      else Return None
  end.

(** The loop over the extensions. *)
Fixpoint ext_loop (fuel : nat) (extensions_end pos : N) : loop_result (option string) :=
  match fuel with
  | O => OutOfFuel
  | S fuel' =>
      if (pos <? extensions_end)%N then
        match read_u16 pos with
        | None => Return None
        | Some (ext_type, pos) =>
            match read_u16 pos with
            | None => Return None
            | Some (ext_len, ext_start) =>
                if (ext_type =? EXT_SERVER_NAME)%N then
                  match read_u16 ext_start with
                  | None => Return None
                  | Some (list_len, pos) => name_loop (S (length buf)) (pos + list_len) pos
                  end
                else ext_loop fuel' extensions_end (ext_start + ext_len)
            end
        end
      else Return None
  end.

(** Everything before the extensions: the position of the first extension and of
    the end of the extensions. *)
Definition parse_header : option (N * N) :=
  '(content_type, pos) ← read_u8 0;
  if negb (content_type =? TLS_HANDSHAKE)%N then None else
  pos ← skip 2 pos;
  '(record_len, pos) ← read_u16 pos;
  if (blen buf <? pos + record_len)%N then None else
  '(handshake_type, pos) ← read_u8 pos;
  if negb (handshake_type =? HANDSHAKE_CLIENT_HELLO)%N then None else
  '(handshake_len, pos) ← read_u24 pos;
  let handshake_start := pos in
  if (blen buf <? handshake_start + handshake_len)%N then None else
  pos ← skip 2 pos;
  pos ← skip 32 pos;
  '(session_id_len, pos) ← read_u8 pos;
  pos ← skip session_id_len pos;
  '(cipher_suites_len, pos) ← read_u16 pos;
  pos ← skip cipher_suites_len pos;
  '(compression_len, pos) ← read_u8 pos;
  pos ← skip compression_len pos;
  if (handshake_start + handshake_len <=? pos)%N then None else
  '(extensions_len, pos) ← read_u16 pos;
  Some (pos, pos + extensions_len)%N.

Definition extract_sni_fuel (fuel : nat) : loop_result (option string) :=
  match parse_header with
  | None => Return None
  | Some (pos, extensions_end) => ext_loop fuel extensions_end pos
  end.
End cursor.

Arguments Return {A} _.
Arguments OutOfFuel {A}.

Definition extract_sni (buf : bytes) : option string :=
  match extract_sni_fuel buf (S (length buf)) with
  | Return r => r
  | OutOfFuel => None
  end.

(** ** Reading from a connection *)

(** [AsyncReadExt::read_exact]: [n] bytes of the stream and what is left, or an
    unexpected end of file. *)
Definition read_exact (n : N) (stream : bytes) : option (bytes * bytes) :=
  if (blen stream <? n)%N then None
  else Some (take (N.to_nat n) stream, drop (N.to_nat n) stream).

Inductive PeekError := UnexpectedEof.

(** The result and the stream after the call. *)
Definition peek_sni (stream : bytes) : result PeekError (option string * bytes) :=
  '(header, rest) ← ok_or UnexpectedEof (read_exact MIN_TLS_HEADER stream);
  if negb (is_tls_handshake header) then Ok (None, rest)
  else
    let record_len := match header with
                      | [_; _; _; a; b] => u16_from_be a b
                      | _ => 0%N
                      end in
    '(body, rest) ← ok_or UnexpectedEof (read_exact record_len rest);
    Ok (extract_sni (header ++ body), rest).

(** ** The wire format *)

Record ClientHello := mkClientHello {
  ch_record_version : byte * byte;
  ch_version : byte * byte;
  ch_random : bytes;
  ch_session_id : bytes;
  ch_cipher_suites : bytes;
  ch_compression : bytes;
  ch_extensions : list (N * bytes);
  ch_server_name : string;
  ch_more_extensions : bytes
}.

(** A value with its length in front. *)
Definition with_len8 (l : bytes) : bytes := as_u8 (blen l) :: l.
Definition with_len16 (l : bytes) : bytes := u16_to_be (blen l) ++ l.
Definition with_len24 (l : bytes) : bytes := u24_to_be (blen l) ++ l.

Definition encode_ext (e : N * bytes) : bytes := u16_to_be e.1 ++ with_len16 e.2.

Definition encode_server_name (name : string) : bytes :=
  encode_ext (EXT_SERVER_NAME, with_len16 (as_u8 NAME_TYPE_HOSTNAME :: with_len16 (as_bytes name))).

Definition encode_extensions (c : ClientHello) : bytes :=
  flat_map encode_ext (ch_extensions c) ++ encode_server_name (ch_server_name c) ++ ch_more_extensions c.

Definition encode_body (c : ClientHello) : bytes :=
  [(ch_version c).1; (ch_version c).2] ++ ch_random c ++ with_len8 (ch_session_id c) ++
  with_len16 (ch_cipher_suites c) ++ with_len8 (ch_compression c) ++ with_len16 (encode_extensions c).

Definition encode_client_hello (c : ClientHello) : bytes :=
  as_u8 TLS_HANDSHAKE :: (ch_record_version c).1 :: (ch_record_version c).2 ::
  with_len16 (as_u8 HANDSHAKE_CLIENT_HELLO :: with_len24 (encode_body c)).

(** Lengths that fit their length fields, other extensions before the server name,
    and a server name that is text of at most 253 bytes. *)
Definition ClientHello_wf (c : ClientHello) : Prop :=
  length (ch_random c) = 32 ∧
  (blen (ch_session_id c) < 256)%N ∧ (blen (ch_cipher_suites c) < 65536)%N ∧
  (blen (ch_compression c) < 256)%N ∧
  (∀ e, e ∈ ch_extensions c → e.1 ≠ 0%N ∧ (e.1 < 65536)%N ∧ (blen e.2 < 65536)%N) ∧
  (blen (as_bytes (ch_server_name c)) ≤ 253)%N ∧
  utf8_valid (as_bytes (ch_server_name c)) = true ∧
  (4 + blen (encode_body c) < 65536)%N.

(** ** The cursor at a suffix of the buffer *)

Definition at_suffix (buf : bytes) (pos : N) (suf : bytes) : Prop :=
  drop (N.to_nat pos) buf = suf ∧ (pos + blen suf = blen buf)%N.

Lemma at_suffix_start buf : at_suffix buf 0 buf.
Proof. split; [done|lia]. Qed.

Lemma at_suffix_app buf pos a suf n :
  at_suffix buf pos (a ++ suf) → blen a = n → at_suffix buf (pos + n) suf.
Proof.
  intros [Hd Hl] <-. unfold at_suffix, blen in *. rewrite length_app in Hl. split; [|lia].
  replace (N.to_nat (pos + N.of_nat (length a))) with (N.to_nat pos + length a) by lia.
  by rewrite <-drop_drop, Hd, drop_app_length.
Qed.

Lemma at_suffix_lookup buf pos suf i :
  at_suffix buf pos suf → buf !! N.to_nat (pos + i) = suf !! N.to_nat i.
Proof.
  intros [<- Hl]. rewrite lookup_drop. f_equal. lia.
Qed.

Lemma at_suffix_lookup0 buf pos suf : at_suffix buf pos suf → buf !! N.to_nat pos = suf !! 0.
Proof. intros H. rewrite <-(N.add_0_r pos) at 1. by rewrite (at_suffix_lookup _ _ _ 0 H). Qed.

Lemma read_u8_at buf pos b suf :
  at_suffix buf pos (b :: suf) → read_u8 buf pos = Some (u8 b, pos + 1)%N ∧ at_suffix buf (pos + 1) suf.
Proof.
  intros H. split; [|by apply (at_suffix_app _ _ [b])]. unfold read_u8.
  by rewrite (at_suffix_lookup0 _ _ _ H).
Qed.

Lemma read_u16_at buf pos n suf :
  (n < 65536)%N → at_suffix buf pos (u16_to_be n ++ suf) →
  read_u16 buf pos = Some (n, pos + 2)%N ∧ at_suffix buf (pos + 2) suf.
Proof.
  intros Hn H. split; [|by apply (at_suffix_app _ _ (u16_to_be n))]. unfold read_u16.
  rewrite (at_suffix_lookup0 _ _ _ H), (at_suffix_lookup _ _ _ 1 H).
  transitivity (Some (u16_from_be (as_u8 (n / 256)) (as_u8 n), pos + 2)%N); [reflexivity|].
  by rewrite u16_from_to_be.
Qed.

Lemma read_u24_at buf pos n suf :
  (n < 16777216)%N → at_suffix buf pos (u24_to_be n ++ suf) →
  read_u24 buf pos = Some (n, pos + 3)%N ∧ at_suffix buf (pos + 3) suf.
Proof.
  intros Hn H. split; [|by apply (at_suffix_app _ _ (u24_to_be n))]. unfold read_u24.
  rewrite (at_suffix_lookup0 _ _ _ H), (at_suffix_lookup _ _ _ 1 H), (at_suffix_lookup _ _ _ 2 H).
  transitivity (Some (u24_from_be (as_u8 (n / 65536)) (as_u8 (n / 256)) (as_u8 n), pos + 3)%N);
    [reflexivity|].
  by rewrite u24_from_to_be.
Qed.

Lemma skip_at buf pos a suf n :
  at_suffix buf pos (a ++ suf) → blen a = n →
  skip buf n pos = Some (pos + n)%N ∧ at_suffix buf (pos + n) suf.
Proof.
  intros H Hn. split; [|by eapply at_suffix_app]. destruct H as [_ Hl]. unfold skip, blen in *.
  rewrite length_app in Hl. destruct (N.ltb_spec (N.of_nat (length buf)) (pos + n)); [lia|done].
Qed.

Lemma slice_at buf pos a suf n :
  at_suffix buf pos (a ++ suf) → blen a = n → slice buf pos (pos + n) = a.
Proof.
  intros [Hd _] <-. unfold slice. rewrite Hd. unfold blen.
  replace (N.to_nat (pos + N.of_nat (length a) - pos)) with (length a) by lia.
  apply take_app_length.
Qed.

Lemma blen_app a b : blen (a ++ b) = (blen a + blen b)%N.
Proof. unfold blen. rewrite length_app. lia. Qed.

Lemma blen_cons a b : blen (a :: b) = (1 + blen b)%N.
Proof. unfold blen. cbn [length]. lia. Qed.

Lemma blen_u16 n : blen (u16_to_be n) = 2%N.
Proof. done. Qed.

Lemma blen_u24 n : blen (u24_to_be n) = 3%N.
Proof. done. Qed.

Lemma blen_with_len16 l : blen (with_len16 l) = (2 + blen l)%N.
Proof. unfold with_len16. by rewrite blen_app. Qed.

Lemma blen_encode_ext e : blen (encode_ext e) = (4 + blen e.2)%N.
Proof. unfold encode_ext. rewrite blen_app, blen_with_len16, blen_u16. lia. Qed.

#[export] Hint Rewrite blen_app blen_cons blen_u16 blen_u24 blen_with_len16 blen_encode_ext : blen.

Ltac blen := unfold with_len8, with_len24 in *; autorewrite with blen in *; cbn [fst snd] in *; lia.

Lemma u8_as_u8_small n : (n < 256)%N → u8 (as_u8 n) = n.
Proof. intros Hn. rewrite u8_as_u8. by apply N.mod_small. Qed.

Lemma with_len16_assoc (l suf : bytes) : with_len16 l ++ suf = u16_to_be (blen l) ++ l ++ suf.
Proof. unfold with_len16. by rewrite <-app_assoc. Qed.

Lemma with_len24_assoc (l suf : bytes) : with_len24 l ++ suf = u24_to_be (blen l) ++ l ++ suf.
Proof. unfold with_len24. by rewrite <-app_assoc. Qed.

Lemma from_utf8_as_bytes s : utf8_valid (as_bytes s) = true → from_utf8 (as_bytes s) = Some s.
Proof. intros H. unfold from_utf8. by rewrite H, of_bytes_as_bytes. Qed.

Lemma at_suffix_bound buf pos a suf :
  at_suffix buf pos (a ++ suf) → (pos + blen a ≤ blen buf)%N.
Proof. intros [_ H]. rewrite blen_app in H. lia. Qed.

Lemma name_loop_host buf pos name suf fuel list_end :
  at_suffix buf pos (as_u8 NAME_TYPE_HOSTNAME :: with_len16 (as_bytes name) ++ suf) →
  (blen (as_bytes name) ≤ 253)%N → utf8_valid (as_bytes name) = true → (pos < list_end)%N →
  name_loop buf (S fuel) list_end pos = Return (Some name).
Proof.
  intros H Hlen Hutf Hpos. cbn [name_loop]. destruct (N.ltb_spec pos list_end); [|lia].
  apply read_u8_at in H as [-> H]. rewrite u8_as_u8_small by done.
  rewrite with_len16_assoc in H. apply read_u16_at in H as [-> H]; [|lia].
  cbn [N.eqb NAME_TYPE_HOSTNAME]. unfold MAX_HOSTNAME_LEN.
  destruct (N.ltb_spec 253 (blen (as_bytes name))); [lia|]. cbn zeta.
  pose proof (at_suffix_bound _ _ _ _ H).
  destruct (N.ltb_spec (blen buf) (pos + 1 + 2 + blen (as_bytes name))); [lia|].
  rewrite (slice_at _ _ _ _ _ H eq_refl). by rewrite from_utf8_as_bytes.
Qed.

Lemma ext_loop_server_name buf exts name suf : ∀ fuel pos extensions_end,
  at_suffix buf pos (flat_map encode_ext exts ++ encode_server_name name ++ suf) →
  (∀ e, e ∈ exts → e.1 ≠ 0%N ∧ (e.1 < 65536)%N ∧ (blen e.2 < 65536)%N) →
  (blen (as_bytes name) ≤ 253)%N → utf8_valid (as_bytes name) = true →
  (pos + blen (flat_map encode_ext exts) + 4 ≤ extensions_end)%N → length exts < fuel →
  ext_loop buf fuel extensions_end pos = Return (Some name).
Proof.
  induction exts as [|[ty data] exts IH]; intros fuel pos ends H Hexts Hlen Hutf Hends Hfuel;
    (destruct fuel as [|fuel]; [cbn in Hfuel; lia|]); cbn [ext_loop].
  - cbn [flat_map] in *. unfold blen in Hends; cbn [length] in Hends.
    destruct (N.ltb_spec pos ends); [|lia].
    unfold encode_server_name, encode_ext in H. cbn [fst snd app] in H.
    rewrite <-!app_assoc in H. apply read_u16_at in H as [-> H]; [|done].
    rewrite with_len16_assoc in H. apply read_u16_at in H as [-> H]; [|blen].
    cbn [N.eqb EXT_SERVER_NAME]. rewrite with_len16_assoc in H.
    apply read_u16_at in H as [-> H]; [|blen].
    eapply name_loop_host; [exact H|done|done|blen].
  - cbn [flat_map] in *. rewrite blen_app in Hends.
    destruct (N.ltb_spec pos ends); [|lia].
    destruct (Hexts (ty, data)) as (Hne&Hty&Hdata); [set_solver|]. cbn [fst snd] in *.
    rewrite <-!app_assoc in H.
    change (encode_ext (ty, data)) with (u16_to_be ty ++ with_len16 data) in H. rewrite <-!app_assoc in H.
    apply read_u16_at in H as [-> H]; [|done].
    rewrite with_len16_assoc in H. apply read_u16_at in H as [-> H]; [|done].
    unfold EXT_SERVER_NAME. destruct (N.eqb_spec ty 0); [done|].
    apply at_suffix_app with (n := blen data) in H; [|done].
    apply IH; [done|set_solver|done|done|blen|cbn in Hfuel; lia].
Qed.

Lemma length_flat_map_exts exts : (N.of_nat (length exts) ≤ blen (flat_map encode_ext exts))%N.
Proof.
  induction exts as [|e exts IH]; [done|]. cbn [flat_map length]. rewrite blen_app.
  rewrite blen_encode_ext. lia.
Qed.

Ltac step_read H :=
  first [ apply read_u8_at in H as [-> H]
        | apply read_u16_at in H as [-> H]; [|blen]
        | apply read_u24_at in H as [-> H]; [|blen] ];
  cbn [mbind option_bind].

Lemma parse_header_client_hello c tail :
  ClientHello_wf c →
  let buf := encode_client_hello c ++ tail in
  ∃ pos, parse_header buf = Some (pos, pos + blen (encode_extensions c))%N ∧
         at_suffix buf pos (encode_extensions c ++ tail).
Proof.
  intros (Hr&Hs&Hcs&Hcm&Hex&Hn&Hu&Hb). cbn zeta. set (buf := encode_client_hello c ++ tail).
  pose proof (at_suffix_start buf) as H. unfold buf at 2, encode_client_hello in H.
  assert (blen (encode_extensions c) < 65536)%N as Hel.
  { unfold encode_body in Hb. blen. }
  cbn [app] in H. unfold parse_header.
  step_read H. rewrite u8_as_u8_small by done. cbn [N.eqb TLS_HANDSHAKE negb Pos.eqb].
  apply (skip_at _ _ [_; _] _ 2) in H as [-> H]; [|done]. cbn [mbind option_bind].
  rewrite with_len16_assoc in H. step_read H.
  pose proof (at_suffix_bound _ _ _ _ H) as Hrec.
  match goal with |- context [(blen buf <? ?x)%N] => destruct (N.ltb_spec (blen buf) x); [lia|] end.
  cbn [app] in H. step_read H. rewrite u8_as_u8_small by done.
  cbn [N.eqb HANDSHAKE_CLIENT_HELLO negb Pos.eqb].
  rewrite with_len24_assoc in H. step_read H.
  pose proof (at_suffix_bound _ _ _ _ H) as Hhs. cbn zeta.
  match goal with |- context [(blen buf <? ?x)%N] => destruct (N.ltb_spec (blen buf) x); [lia|] end.
  unfold encode_body in H at 1. rewrite <-!app_assoc in H.
  apply skip_at with (n := 2%N) in H as [-> H]; [|done]. cbn [mbind option_bind].
  apply skip_at with (n := 32%N) in H as [-> H]; [|unfold blen; by rewrite Hr]. cbn [mbind option_bind].
  unfold with_len8 in H. cbn [app] in H. step_read H. rewrite u8_as_u8_small by done.
  eapply skip_at in H as [-> H]; [|reflexivity]. cbn [mbind option_bind].
  rewrite with_len16_assoc in H. step_read H.
  eapply skip_at in H as [-> H]; [|reflexivity]. cbn [mbind option_bind].
  cbn [app] in H. step_read H. rewrite u8_as_u8_small by done.
  eapply skip_at in H as [-> H]; [|reflexivity]. cbn [mbind option_bind].
  match goal with |- context [(?x <=? ?y)%N] => destruct (N.leb_spec x y) as [Hle|_] end.
  { exfalso. unfold encode_body in Hle. assert (blen (ch_random c) = 32%N) by (unfold blen; by rewrite Hr).
    blen. }
  rewrite with_len16_assoc in H. step_read H. eexists. split; [reflexivity|done].
Qed.

Lemma extract_sni_client_hello c tail :
  ClientHello_wf c → extract_sni (encode_client_hello c ++ tail) = Some (ch_server_name c).
Proof.
  intros Hwf. unfold extract_sni, extract_sni_fuel.
  destruct (parse_header_client_hello c tail Hwf) as (pos&->&H).
  destruct Hwf as (Hr&Hs&Hcs&Hcm&Hex&Hn&Hu&Hb).
  unfold encode_extensions in H at 1. rewrite <-!app_assoc in H.
  erewrite (ext_loop_server_name _ (ch_extensions c)); [done|exact H|done|done|done| |].
  - unfold encode_extensions, encode_server_name. blen.
  - pose proof (length_flat_map_exts (ch_extensions c)). destruct H as [_ H].
    rewrite blen_app in H. unfold blen in *. lia.
Qed.

(** C15: a ClientHello that carries a server name, in whatever position among its
    extensions and with whatever bytes after the record, is parsed to that name. *)
Theorem extract_sni_roundtrip c tail :
  ClientHello_wf c → extract_sni (encode_client_hello c ++ tail) = Some (ch_server_name c).
Proof. apply extract_sni_client_hello. Qed.

(** ** Termination and soundness *)

Lemma read_u8_pos buf pos v p : read_u8 buf pos = Some (v, p) → p = (pos + 1)%N ∧ (pos < blen buf)%N.
Proof.
  unfold read_u8. destruct (buf !! N.to_nat pos) as [b|] eqn:E; [|done]. cbn. intros [= _ <-].
  apply lookup_lt_Some in E. unfold blen. lia.
Qed.

Lemma read_u16_pos buf pos v p : read_u16 buf pos = Some (v, p) → p = (pos + 2)%N ∧ (pos + 1 < blen buf)%N.
Proof.
  unfold read_u16. destruct (buf !! N.to_nat pos) as [b|]; [|done]. cbn.
  destruct (buf !! N.to_nat (pos + 1)) as [b'|] eqn:E; [|done]. cbn. intros [= _ <-].
  apply lookup_lt_Some in E. unfold blen. lia.
Qed.

Lemma skip_pos buf n pos p : skip buf n pos = Some p → p = (pos + n)%N ∧ (p ≤ blen buf)%N.
Proof. unfold skip. destruct (N.ltb_spec (blen buf) (pos + n)); [done|]. intros [= <-]. lia. Qed.

(** The host name the parser may return at a position. *)
Definition hostname_at (buf : bytes) (h : string) : Prop :=
  String.length h ≤ 253 ∧ utf8_valid (as_bytes h) = true ∧
  ∃ start, slice buf start (start + N.of_nat (String.length h)) = as_bytes h ∧
           (start + N.of_nat (String.length h) ≤ blen buf)%N.

Lemma from_utf8_slice buf pos n h :
  from_utf8 (slice buf pos (pos + n)) = Some h → (n ≤ 253)%N → (pos + n ≤ blen buf)%N →
  hostname_at buf h.
Proof.
  unfold from_utf8. destruct (utf8_valid _) eqn:Hu; [|done]. intros [= <-] Hn Hb.
  assert (String.length (of_bytes (slice buf pos (pos + n))) = N.to_nat n) as Hl.
  { rewrite <-length_as_bytes, as_bytes_of_bytes. unfold slice.
    rewrite length_take, length_drop. unfold blen in Hb. lia. }
  unfold hostname_at. rewrite Hl, as_bytes_of_bytes. split; [lia|]. split; [done|].
  exists pos. rewrite N2Nat.id. done.
Qed.

(** A loop started with one step more than the bytes left returns, and a name it
    returns is in the buffer. *)
Definition loop_ok (buf : bytes) (l : loop_result (option string)) : Prop :=
  ∃ r, l = Return r ∧ ∀ h, r = Some h → hostname_at buf h.

Lemma loop_ok_None buf : loop_ok buf (Return None).
Proof. by exists None. Qed.
#[local] Hint Resolve loop_ok_None : core.

Lemma name_loop_ok buf fuel : ∀ list_end pos,
  (blen buf ≤ pos + N.of_nat fuel)%N → loop_ok buf (name_loop buf (S fuel) list_end pos).
Proof.
  induction fuel as [|fuel IH]; intros list_end pos Hf; cbn [name_loop];
    (destruct (N.ltb_spec pos list_end); [|done]);
    (destruct (read_u8 buf pos) as [[ty p1]|] eqn:E1; [|done]);
    apply read_u8_pos in E1 as [-> Hp1]; [lia|].
  destruct (read_u16 buf (pos + 1)) as [[n p2]|] eqn:E2; [|done].
  apply read_u16_pos in E2 as [-> Hp2]. destruct (ty =? NAME_TYPE_HOSTNAME)%N.
  - unfold MAX_HOSTNAME_LEN. destruct (N.ltb_spec 253 n); [done|].
    destruct (N.ltb_spec (blen buf) (pos + 1 + 2 + n)); [done|].
    eexists. split; [done|]. intros h Hh. by eapply from_utf8_slice.
  - destruct (skip buf n (pos + 1 + 2)) as [p3|] eqn:E3; [|done].
    apply skip_pos in E3 as [-> _]. apply IH. lia.
Qed.

Lemma ext_loop_ok buf fuel : ∀ extensions_end pos,
  (blen buf ≤ pos + N.of_nat fuel)%N → loop_ok buf (ext_loop buf (S fuel) extensions_end pos).
Proof.
  induction fuel as [|fuel IH]; intros extensions_end pos Hf; cbn [ext_loop];
    (destruct (N.ltb_spec pos extensions_end); [|done]);
    (destruct (read_u16 buf pos) as [[ty p1]|] eqn:E1; [|done]);
    apply read_u16_pos in E1 as [-> Hp1]; [lia|].
  destruct (read_u16 buf (pos + 2)) as [[n p2]|] eqn:E2; [|done].
  apply read_u16_pos in E2 as [-> Hp2]. destruct (ty =? EXT_SERVER_NAME)%N; [|apply IH; lia].
  destruct (read_u16 buf (pos + 2 + 2)) as [[m p3]|] eqn:E3; [|done].
  apply name_loop_ok. unfold blen. lia.
Qed.

(** Parsing terminates on every buffer: the fuel [extract_sni] gives its loops
    is never used up, so its result is the one of the unbounded loops. *)
Theorem extract_sni_terminates buf :
  ∃ r, extract_sni_fuel buf (S (length buf)) = Return r ∧ extract_sni buf = r.
Proof.
  unfold extract_sni. assert (loop_ok buf (extract_sni_fuel buf (S (length buf)))) as (r&->&_); [|eauto].
  unfold extract_sni_fuel. destruct (parse_header buf) as [[pos e]|]; [|done].
  apply ext_loop_ok. unfold blen. lia.
Qed.

(** A name taken from any bytes at all, malformed or hostile, is at most 253
    bytes of valid UTF-8 and is a slice of the buffer. *)
Theorem extract_sni_sound buf h : extract_sni buf = Some h → hostname_at buf h.
Proof.
  unfold extract_sni. assert (loop_ok buf (extract_sni_fuel buf (S (length buf)))) as (r&->&Hr); [|auto].
  unfold extract_sni_fuel. destruct (parse_header buf) as [[pos e]|]; [|done].
  apply ext_loop_ok. unfold blen. lia.
Qed.

(** Reading the name from a connection takes exactly one record off the
    stream, leaves what follows, and finds the name of a ClientHello; a stream that
    is not TLS loses its first five bytes, and one that ends early is an error. *)
Theorem peek_sni_spec c rest junk :
  ClientHello_wf c →
  peek_sni (encode_client_hello c ++ rest) = Ok (Some (ch_server_name c), rest) ∧
  (is_tls_handshake (take 5 junk) = false → 5 ≤ length junk → peek_sni junk = Ok (None, drop 5 junk)) ∧
  (length junk < 5 → peek_sni junk = Err UnexpectedEof).
Proof.
  intros Hwf. split; [|split].
  - pose proof (extract_sni_client_hello c [] Hwf) as Hx. rewrite app_nil_r in Hx.
    destruct Hwf as (_&_&_&_&_&_&_&Hb).
    unfold peek_sni, encode_client_hello in *.
    set (body := as_u8 HANDSHAKE_CLIENT_HELLO :: with_len24 (encode_body c)) in *.
    assert (blen body < 65536)%N as Hbody.
    { unfold body, with_len24. rewrite blen_cons, blen_app, blen_u24. lia. }
    set (hdr := [as_u8 TLS_HANDSHAKE; (ch_record_version c).1; (ch_record_version c).2;
                 as_u8 (blen body / 256); as_u8 (blen body)]).
    change (as_u8 TLS_HANDSHAKE :: _ :: _ :: with_len16 body) with (hdr ++ body) in Hx |- *.
    rewrite <-app_assoc. unfold read_exact.
    destruct (N.ltb_spec (blen (hdr ++ body ++ rest)) MIN_TLS_HEADER) as [Hlt|_].
    { rewrite blen_app in Hlt. change (blen hdr) with 5%N in Hlt. unfold MIN_TLS_HEADER in Hlt. lia. }
    change (take (N.to_nat MIN_TLS_HEADER) (hdr ++ body ++ rest)) with hdr.
    change (drop (N.to_nat MIN_TLS_HEADER) (hdr ++ body ++ rest)) with (body ++ rest).
    cbn [mbind result_bind ok_or]. change (is_tls_handshake hdr) with true. cbn [negb].
    change (match hdr with [_; _; _; a; b] => u16_from_be a b | _ => 0%N end)
      with (u16_from_be (as_u8 (blen body / 256)) (as_u8 (blen body))).
    rewrite u16_from_to_be by done. cbn zeta. rewrite blen_app.
    destruct (N.ltb_spec (blen body + blen rest) (blen body)) as [?|_]; [lia|].
    unfold blen at 1 2. rewrite !Nat2N.id, take_app_length, drop_app_length.
    cbn [mbind result_bind ok_or]. by rewrite Hx.
  - intros Ht Hl. unfold peek_sni, read_exact, MIN_TLS_HEADER.
    destruct (N.ltb_spec (blen junk) 5) as [Hlt|_]; [unfold blen in Hlt; lia|].
    cbn [mbind result_bind ok_or]. change (N.to_nat 5) with 5. by rewrite Ht.
  - intros Hl. unfold peek_sni, read_exact, MIN_TLS_HEADER.
    destruct (N.ltb_spec (blen junk) 5) as [_|Hge]; [done|]. unfold blen in Hge. lia.
Qed.

(** ** Witnesses *)

Definition ex_hello : ClientHello :=
  mkClientHello (x03, x01) (x03, x03) (replicate 32 x00) [] [x00; x2f] [x00]
    [(10%N, [x00; x02; x00; x1d])] "www.example.com" [x00].

Lemma ex_hello_wf : ClientHello_wf ex_hello.
Proof.
  unfold ClientHello_wf. repeat split; try (vm_compute; reflexivity); try (vm_compute; discriminate).
  all: apply list_elem_of_singleton in H; subst; vm_compute; congruence.
Qed.

Lemma extract_sni_roundtrip_witness : extract_sni (encode_client_hello ex_hello ++ [x01]) = Some "www.example.com".
Proof. apply (extract_sni_roundtrip ex_hello [x01]). exact ex_hello_wf. Defined.

Lemma extract_sni_sound_witness : hostname_at (encode_client_hello ex_hello) "www.example.com".
Proof. apply extract_sni_sound. vm_compute. reflexivity. Defined.

Lemma peek_sni_spec_witness :
  peek_sni (encode_client_hello ex_hello ++ [x17]) = Ok (Some "www.example.com", [x17]).
Proof. apply (peek_sni_spec ex_hello [x17] []). exact ex_hello_wf. Defined.
