(* ===== verification/SniRouter.v ===== *)
(** * SNI routing (crates/wicket-stream/src/router.rs)

    The router compiles the patterns of a [HashMap], sorts them (exact names
    first, then wildcards by decreasing suffix) and takes the first that matches.
    The order in which the map is enumerated is arbitrary: [SniRouter_new] takes
    the enumeration as its argument, and the theorem holds for every one. *)

From S2P Require Import Prelude Str Order.
From Stdlib Require Import Ascii.

Inductive CompiledPattern :=
| Pattern_Exact (h : string)
| Pattern_Wildcard (suffix : string).

Definition CompiledPattern_parse (pattern : string) : CompiledPattern :=
  let pattern_lower := to_lowercase pattern in
  match strip_prefix "*." pattern_lower with
  | Some suffix => Pattern_Wildcard ("." +:+ suffix)
  | None => Pattern_Exact pattern_lower
  end.

Definition CompiledPattern_matches (p : CompiledPattern) (hostname : string) : bool :=
  match p with
  | Pattern_Exact exact => String.eqb hostname exact
  | Pattern_Wildcard suffix =>
      match strip_suffix suffix hostname with
      | Some prefix => negb (is_empty_str prefix) && negb (contains_char "." prefix)
      | None => false
      end
  end.

Definition CompiledPattern_priority (p : CompiledPattern) : nat :=
  match p with Pattern_Exact _ => 0 | Pattern_Wildcard _ => 1 end.

Record SniRouter := mkSniRouter {
  sr_routes : list (CompiledPattern * string);
  sr_default_upstream : option string
}.

(** The comparison of [sort_by]. *)
Definition route_cmp (a b : CompiledPattern * string) : comparison :=
  then_with (Nat.compare (CompiledPattern_priority a.1) (CompiledPattern_priority b.1))
    (match a.1, b.1 with
     | Pattern_Wildcard sa, Pattern_Wildcard sb => Nat.compare (String.length sb) (String.length sa)
     | _, _ => Eq
     end).

Definition SniRouter_new (sni_routes : list (string * string)) (default_upstream : option string) : SniRouter :=
  mkSniRouter
    (sort_by route_cmp ((λ '(pattern, upstream), (CompiledPattern_parse pattern, upstream)) <$> sni_routes))
    default_upstream.

Definition match_sni (r : SniRouter) (sni : option string) : option string :=
  match sni with
  | Some hostname =>
      match find_first (λ '(p, _), CompiledPattern_matches p (to_lowercase hostname)) (sr_routes r) with
      | Some (_, upstream) => Some upstream
      | None => sr_default_upstream r
      end
  | None => sr_default_upstream r
  end.

(** ** Specification: two lookups

    The lower-cased pattern equal to the name; else the wildcard for everything
    after the name's first label; else the default. *)

Definition lowered (m : gmap string string) : gmap string string :=
  list_to_map (prod_map to_lowercase id <$> map_to_list m).

Definition wildcard_of (h : string) : option string :=
  match split_once "." h with
  | Some (label, rest) => if is_empty_str label then None else Some ("*." +:+ rest)
  | None => None
  end.

Definition sni_lookup (m : gmap string string) (default : option string) (host : string) : option string :=
  let h := to_lowercase host in
  match lowered m !! h with
  | Some u => Some u
  | None => match wildcard_of h ≫= (λ w, lowered m !! w) with
            | Some u => Some u
            | None => default
            end
  end.

(** Patterns that differ only in case would be two entries for one name. *)
Definition patterns_distinct (m : gmap string string) : Prop :=
  ∀ k1 k2, is_Some (m !! k1) → is_Some (m !! k2) → to_lowercase k1 = to_lowercase k2 → k1 = k2.

(** ** Lemmas *)

Definition route_key (a : CompiledPattern * string) : nat * nat :=
  match a.1 with
  | Pattern_Exact _ => (0, 0)
  | Pattern_Wildcard s => (1, String.length s)
  end.

#[global] Instance flip_nat_compare_total : TotalCmp (λ a b, Nat.compare b a).
Proof.
  split; intros.
  - apply Nat.compare_refl.
  - apply Nat.compare_antisym.
  - rewrite !Nat.compare_le_iff in *. lia.
Qed.

Lemma route_cmp_key a b : route_cmp a b = by_key route_key (pair_cmp Nat.compare (λ x y, Nat.compare y x)) a b.
Proof. by destruct a as [[]], b as [[]]. Qed.

#[global] Instance route_cmp_total : TotalCmp route_cmp.
Proof.
  pose proof (by_key_total (pair_cmp Nat.compare (λ x y, Nat.compare y x)) route_key) as [H1 H2 H3].
  split; setoid_rewrite route_cmp_key; assumption.
Qed.

Lemma pattern_matches_spec k h :
  CompiledPattern_matches (CompiledPattern_parse k) h = true ↔
  (strip_prefix "*." (to_lowercase k) = None ∧ to_lowercase k = h) ∨ wildcard_of h = Some (to_lowercase k).
Proof.
  unfold CompiledPattern_parse, wildcard_of.
  destruct (strip_prefix "*." (to_lowercase k)) as [sfx|] eqn:E; cbn.
  - apply strip_prefix_Some in E as ->.
    destruct (strip_suffix (String "." sfx) h) as [p|] eqn:Es.
    + apply strip_suffix_Some in Es as ->.
      destruct (is_empty_str p) eqn:Ep; cbn.
      * apply is_empty_str_true in Ep as ->. split; [done|]. cbn. naive_solver.
      * destruct (contains_char "." p) eqn:Ed; cbn.
        -- split; [done|]. intros [[? _]|Hw]; [done|]. exfalso.
           destruct (split_once "." (p +:+ String "." sfx)) as [[l r]|] eqn:Eo; [|done].
           apply split_once_Some in Eo as [He Hl]. destruct (is_empty_str l); [done|].
           injection Hw as ->. apply app_str_inj_r in He. congruence.
        -- split; [intros _; right|done].
           assert (split_once "." (p +:+ String "." sfx) = Some (p, sfx)) as ->.
           { by apply split_once_Some. }
           by rewrite Ep.
    + split; [done|]. intros [[? _]|Hw]; [done|].
      destruct (split_once "." h) as [[l r]|] eqn:Eo; [|done].
      apply split_once_Some in Eo as [-> Hl]. destruct (is_empty_str l); [done|].
      injection Hw as ->. by rewrite strip_suffix_app in Es.
  - rewrite String.eqb_eq. split; [auto|]. intros [[_ ?]|Hw]; [done|].
    destruct (split_once "." h) as [[l r]|]; [|done]. destruct (is_empty_str l); [done|].
    injection Hw as Hw. rewrite <-Hw in E. cbn in E. done.
Qed.

(** A name that is itself a wildcard pattern falls under that pattern. *)
Lemma wildcard_self h s : strip_prefix "*." h = Some s → wildcard_of h = Some h.
Proof. intros ->%strip_prefix_Some. reflexivity. Qed.

Lemma lowered_lookup m p u :
  patterns_distinct m →
  lowered m !! p = Some u ↔ ∃ k, m !! k = Some u ∧ to_lowercase k = p.
Proof.
  intros Hd. unfold lowered. rewrite <-elem_of_list_to_map.
  - rewrite list_elem_of_fmap. split.
    + intros ([k v]&[= -> ->]&Hin). apply elem_of_map_to_list in Hin. eauto.
    + intros (k&Hk&<-). exists (k, u). split; [done|]. by apply elem_of_map_to_list.
  - rewrite <-list_fmap_compose.
    assert (fst ∘ prod_map to_lowercase id = to_lowercase ∘ (fst : string * string → string)) as -> by done.
    rewrite list_fmap_compose. apply NoDup_fmap_2_strong; [|apply NoDup_fst_map_to_list].
    intros k1 k2 Hk1 Hk2. apply Hd.
    + apply list_elem_of_fmap in Hk1 as ([k v]&->&Hin). apply elem_of_map_to_list in Hin. eauto.
    + apply list_elem_of_fmap in Hk2 as ([k v]&->&Hin). apply elem_of_map_to_list in Hin. eauto.
Qed.

Lemma elem_of_router_routes l m d p u :
  l ≡ₚ map_to_list m → (p, u) ∈ sr_routes (SniRouter_new l d) ↔
  ∃ k, m !! k = Some u ∧ p = CompiledPattern_parse k.
Proof.
  intros Hl. cbn. rewrite (elem_of_sort_by route_cmp), list_elem_of_fmap. setoid_rewrite Hl. split.
  - intros ([k v]&[= -> ->]&Hin). apply elem_of_map_to_list in Hin. eauto.
  - intros (k&Hk&->). exists (k, u). split; [done|]. by apply elem_of_map_to_list.
Qed.

(** C32: whatever order the configured patterns are enumerated in, a server name
    goes to the upstream of the pattern equal to it, else of the wildcard of its
    parent domain, else to the default; comparison ignores case and a wildcard
    takes exactly one label.  (No two patterns may differ only in case.) *)
Theorem match_sni_is_lookup m l d host :
  l ≡ₚ map_to_list m → patterns_distinct m →
  match_sni (SniRouter_new l d) (Some host) = sni_lookup m d host ∧
  match_sni (SniRouter_new l d) None = d.
Proof.
  intros Hl Hd. split; [|done]. unfold match_sni, sni_lookup. set (h := to_lowercase host).
  pose proof (elem_of_router_routes l m d) as Hin.
  assert (StronglySorted (cmp_le route_cmp) (sr_routes (SniRouter_new l d))) as Hsort
    by apply (sort_by_sorted route_cmp).
  destruct (find_first _ _) as [[p u]|] eqn:Hf.
  - pose proof (find_first_sorted_min route_cmp _ _ _ Hsort Hf) as Hmin.
    apply find_first_Some_elem in Hf as [Hpu Hm]. apply Hin in Hpu as (k&Hk&->); [|done].
    apply pattern_matches_spec in Hm.
    destruct (lowered m !! h) as [u'|] eqn:Eh.
    + apply lowered_lookup in Eh as (k'&Hk'&Hh); [|done].
      assert (to_lowercase k = to_lowercase k'); [|assert (k = k') by (by apply Hd); congruence].
      destruct Hm as [[_ Hm]|Hw]; [congruence|].
      destruct (strip_prefix "*." h) as [s|] eqn:Es.
      { apply wildcard_self in Es. rewrite Es in Hw. congruence. }
      exfalso. apply (Hmin (CompiledPattern_parse k', u')).
      * apply Hin; [done|eauto].
      * apply pattern_matches_spec. left. by rewrite Hh.
      * rewrite route_cmp_key. unfold CompiledPattern_parse at 1 2. rewrite Hh, Es.
        assert (∃ s, strip_prefix "*." (to_lowercase k) = Some s) as [s ->]; [|done].
        unfold wildcard_of in Hw. destruct (split_once "." h) as [[la r]|]; [|done].
        destruct (is_empty_str la); [done|]. injection Hw as <-. exists r. by apply (strip_prefix_app "*.").
    + destruct Hm as [[_ Hm]|Hw].
      * rewrite (proj2 (lowered_lookup m h u Hd)) in Eh; [done|eauto].
      * rewrite Hw. cbn. by rewrite (proj2 (lowered_lookup m (to_lowercase k) u Hd)); [|eauto].
  - cbn [sr_default_upstream SniRouter_new]. pose proof (proj1 (find_first_None _ _) Hf) as Hn.
    assert (∀ k u, m !! k = Some u → CompiledPattern_matches (CompiledPattern_parse k) h = false) as Hno.
    { intros k u Hk. apply (Hn (CompiledPattern_parse k, u)). apply Hin; [done|eauto]. }
    destruct (lowered m !! h) as [u|] eqn:Eh.
    + exfalso. apply lowered_lookup in Eh as (k&Hk&Hh); [|done]. apply Hno in Hk.
      apply not_true_iff_false in Hk. apply Hk, pattern_matches_spec. rewrite Hh.
      destruct (strip_prefix "*." h) eqn:Es; [right; by eapply wildcard_self|by left].
    + destruct (wildcard_of h) as [w|] eqn:Ew; cbn; [|done].
      destruct (lowered m !! w) as [u|] eqn:Eu; [|done]. exfalso.
      apply lowered_lookup in Eu as (k&Hk&Hh); [|done]. apply Hno in Hk.
      apply not_true_iff_false in Hk. apply Hk, pattern_matches_spec. rewrite Hh. auto.
Qed.

Definition ex_sni : gmap string string :=
  {["api.example.com" := "api"; "*.Example.com" := "web"]}.

Lemma match_sni_is_lookup_witness :
  match_sni (SniRouter_new (map_to_list ex_sni) (Some "d")) (Some "WWW.example.com") = Some "web".
Proof.
  refine (eq_trans (proj1 (match_sni_is_lookup ex_sni (map_to_list ex_sni) (Some "d") "WWW.example.com" _ _)) _).
  - reflexivity.
  - intros k1 k2 H1 H2. unfold ex_sni in *.
    rewrite lookup_insert_is_Some, lookup_singleton_is_Some in H1, H2.
    destruct H1 as [<-|[_ <-]], H2 as [<-|[_ <-]]; vm_compute; congruence.
  - vm_compute. reflexivity.
Defined.
