(* ===== verification/ProxyProtocol.v ===== *)
(** * The PROXY protocol (crates/wicket-stream/src/protocol.rs)

    The v1 (text) and v2 (binary) headers sent to a backend ahead of the client's
    bytes.  The specification is a reader of the v2 format, written from the
    protocol's layout (signature, version and command, family, length, addresses,
    ports), that the encoder is proved against. *)

From S2P Require Import Prelude Str Num Bytes Net.
From Stdlib Require Import Ascii.

Inductive ProxyProtocolVersion := PPV1 | PPV2.

Definition PROXY_V2_SIGNATURE : bytes :=
  [x0d; x0a; x0d; x0a; x00; x0d; x0a; x51; x55; x49; x54; x0a].

Definition Ipv4_UNSPECIFIED : Ipv4Addr := mkIpv4 x00 x00 x00 x00.

(** [Ipv4Addr::to_ipv6_mapped]. *)
Definition to_ipv6_mapped (a : Ipv4Addr) : Ipv6Addr :=
  mkIpv6 [0; 0; 0; 0; 0; 65535; u16_from_be (oct1 a) (oct2 a); u16_from_be (oct3 a) (oct4 a)]%N.

Definition is_ipv4 (a : SocketAddr) : bool :=
  match a with SocketAddrV4 _ _ => true | SocketAddrV6 _ _ _ => false end.

(** The address as the IPv4 header carries it. *)
Definition as_v4 (a : SocketAddr) : Ipv4Addr :=
  match a with
  | SocketAddrV4 ip _ => ip
  | SocketAddrV6 ip _ _ => unwrap_or Ipv4_UNSPECIFIED (ipv4_mapped ip)
  end.

(** The address as the IPv6 header carries it. *)
Definition as_v6 (a : SocketAddr) : Ipv6Addr :=
  match a with
  | SocketAddrV6 ip _ _ => ip
  | SocketAddrV4 ip _ => to_ipv6_mapped ip
  end.

Definition crlf : string := String (ascii_of_nat 13) (String (ascii_of_nat 10) "").

Definition encode_v1_text (client_addr proxy_addr : SocketAddr) : string :=
  let '(protocol, src_ip, dst_ip) :=
    if is_ipv4 client_addr
    then ("TCP4", show_ipv4 (as_v4 client_addr), show_ipv4 (as_v4 proxy_addr))
    else ("TCP6", show_ipv6 (as_v6 client_addr), show_ipv6 (as_v6 proxy_addr)) in
  "PROXY " +:+ protocol +:+ " " +:+ src_ip +:+ " " +:+ dst_ip +:+ " " +:+
  show_N (sock_port client_addr) +:+ " " +:+ show_N (sock_port proxy_addr) +:+ crlf.

Definition encode_v1 (client_addr proxy_addr : SocketAddr) : bytes :=
  as_bytes (encode_v1_text client_addr proxy_addr).

Definition encode_v2 (client_addr proxy_addr : SocketAddr) : bytes :=
  PROXY_V2_SIGNATURE ++ [x21] ++
  (if is_ipv4 client_addr
   then [x11] ++ [x00; x0c] ++ octets4 (as_v4 client_addr) ++ octets4 (as_v4 proxy_addr)
   else [x21] ++ [x00; x24] ++ octets6 (as_v6 client_addr) ++ octets6 (as_v6 proxy_addr)) ++
  u16_to_be (sock_port client_addr) ++ u16_to_be (sock_port proxy_addr).

Definition encode (version : ProxyProtocolVersion) (client_addr proxy_addr : SocketAddr) : bytes :=
  match version with
  | PPV1 => encode_v1 client_addr proxy_addr
  | PPV2 => encode_v2 client_addr proxy_addr
  end.

(** ** A reader of v2 headers *)

Definition read4 (l : bytes) : option (Ipv4Addr * bytes) :=
  match l with
  | a :: b :: c :: d :: l' => Some (mkIpv4 a b c d, l')
  | _ => None
  end.

Fixpoint read_segments (n : nat) (l : bytes) : option (list N * bytes) :=
  match n, l with
  | O, _ => Some ([], l)
  | S n', a :: b :: l' => '(segs, r) ← read_segments n' l'; Some (u16_from_be a b :: segs, r)
  | S _, _ => None
  end.

Definition read6 (l : bytes) : option (Ipv6Addr * bytes) :=
  '(segs, r) ← read_segments 8 l; Some (mkIpv6 segs, r).

Definition read_port16 (l : bytes) : option (N * bytes) :=
  match l with a :: b :: l' => Some (u16_from_be a b, l') | _ => None end.

(** Source, destination and the bytes after the header; the length field must be
    the length of the address block. *)
Definition decode_v2 (l : bytes) : option (IpAddr * N * (IpAddr * N) * bytes) :=
  if bool_decide (take 12 l = PROXY_V2_SIGNATURE) then
    match drop 12 l with
    | x21 :: x11 :: x00 :: x0c :: l =>
        '(src, l) ← read4 l; '(dst, l) ← read4 l;
        '(sp, l) ← read_port16 l; '(dp, l) ← read_port16 l;
        Some (IpV4 src, sp, (IpV4 dst, dp), l)
    | x21 :: x21 :: x00 :: x24 :: l =>
        '(src, l) ← read6 l; '(dst, l) ← read6 l;
        '(sp, l) ← read_port16 l; '(dp, l) ← read_port16 l;
        Some (IpV6 src, sp, (IpV6 dst, dp), l)
    | _ => None
    end
  else None.

(** What the header says of the pair: the addresses in the client's family. *)
Definition header_addrs (client proxy : SocketAddr) : IpAddr * N * (IpAddr * N) :=
  if is_ipv4 client
  then (IpV4 (as_v4 client), sock_port client, (IpV4 (as_v4 proxy), sock_port proxy))
  else (IpV6 (as_v6 client), sock_port client, (IpV6 (as_v6 proxy), sock_port proxy)).

(** ** Lemmas *)

Lemma to_ipv6_mapped_wf a : Ipv6_wf (to_ipv6_mapped a).
Proof.
  split; [done|]. cbn. repeat (constructor; [try done; apply u16_from_be_bound|]). constructor.
Qed.

Lemma as_v6_wf a : SocketAddr_wf a → Ipv6_wf (as_v6 a).
Proof. destruct a; intros [_ H]; [apply to_ipv6_mapped_wf|apply H]. Qed.

Lemma read_segments_encode segs r :
  Forall (λ n, (n < 65536)%N) segs →
  read_segments (length segs) (flat_map u16_to_be segs ++ r) = Some (segs, r).
Proof.
  induction 1 as [|n segs Hn _ IH]; [done|]. cbn. rewrite IH. cbn.
  by rewrite (u16_from_to_be n Hn).
Qed.

Lemma read6_octets a r : Ipv6_wf a → read6 (octets6 a ++ r) = Some (a, r).
Proof.
  intros [Hl Hs]. unfold read6, octets6. rewrite <-Hl, read_segments_encode by done. by destruct a.
Qed.

Lemma read4_octets a r : read4 (octets4 a ++ r) = Some (a, r).
Proof. by destruct a. Qed.

Lemma read_port16_u16 n r : (n < 65536)%N → read_port16 (u16_to_be n ++ r) = Some (n, r).
Proof. intros Hn. cbn. by rewrite (u16_from_to_be n Hn). Qed.

Lemma length_octets6 a : Ipv6_wf a → length (octets6 a) = 16.
Proof.
  intros [Hl _]. unfold octets6. destruct a as [segs]. cbn in *.
  do 9 (destruct segs as [|? segs]; [done|]). done.
Qed.

(** The v2 header decodes to the client's and the proxy's addresses and
    ports, in the client's address family, and to the bytes that follow it. *)
Theorem proxy_v2_roundtrip client proxy rest :
  SocketAddr_wf client → SocketAddr_wf proxy →
  decode_v2 (encode_v2 client proxy ++ rest) = Some (header_addrs client proxy, rest).
Proof.
  intros Hc Hp. pose proof (proj1 Hc) as Hcp. pose proof (proj1 Hp) as Hpp.
  unfold decode_v2, encode_v2, header_addrs. rewrite <-!app_assoc.
  rewrite bool_decide_eq_true_2 by done. cbn [drop PROXY_V2_SIGNATURE app].
  destruct (is_ipv4 client); cbn [app]; rewrite <-!app_assoc.
  - rewrite read4_octets. cbn [mbind option_bind]. rewrite read4_octets. cbn [mbind option_bind].
    rewrite read_port16_u16 by done. cbn [mbind option_bind]. by rewrite read_port16_u16.
  - rewrite read6_octets by (by apply as_v6_wf). cbn [mbind option_bind].
    rewrite read6_octets by (by apply as_v6_wf). cbn [mbind option_bind].
    rewrite read_port16_u16 by done. cbn [mbind option_bind]. by rewrite read_port16_u16.
Qed.

(** ** The v1 line *)

Lemma show_u8_length b : String.length (show_N (u8 b)) ≤ 3.
Proof. apply (length_show_N _ 2). pose proof (u8_bound b). cbn. lia. Qed.

Lemma show_ipv4_length a : String.length (show_ipv4 a) ≤ 15.
Proof.
  unfold show_ipv4. rewrite !length_app_str. cbn [String.length].
  pose proof (show_u8_length (oct1 a)). pose proof (show_u8_length (oct2 a)).
  pose proof (show_u8_length (oct3 a)). pose proof (show_u8_length (oct4 a)). lia.
Qed.

Lemma show_groups_length l :
  Forall (λ n, (n < 65536)%N) l → String.length (show_groups l) ≤ 5 * length l - 1.
Proof.
  induction 1 as [|n l Hn _ IH]; [cbn; lia|].
  assert (String.length (show_hex n) ≤ 4) as Hh by (apply (length_show_hex _ 3); cbn; lia).
  destruct l as [|m l]; [cbn [show_groups length]; lia|].
  change (show_groups (n :: m :: l)) with (show_hex n +:+ ":" +:+ show_groups (m :: l)).
  rewrite !length_app_str. cbn [String.length length] in *. lia.
Qed.

Lemma zero_run_length l : zero_run l ≤ length l.
Proof. induction l as [|n l IH]; cbn; [lia|]. destruct (n =? 0)%N; lia. Qed.

Lemma longest_zeros_bound i l j n : longest_zeros i l = (j, n) → j + n ≤ i + length l.
Proof.
  revert i j n. induction l as [|x l IH]; intros i j n; cbn [longest_zeros]; [intros; simplify_eq; lia|].
  pose proof (zero_run_length (x :: l)). destruct (longest_zeros (S i) l) as [j' n'] eqn:E.
  apply IH in E. cbn [length] in *. cbn zeta. case_match; intros; simplify_eq; lia.
Qed.

Lemma show_ipv6_length a : Ipv6_wf a → String.length (show_ipv6 a) ≤ 39.
Proof.
  intros [Hl Hs]. unfold show_ipv6. destruct (ipv4_mapped a) as [v4|].
  { rewrite length_app_str. pose proof (show_ipv4_length v4). cbn [String.length]. lia. }
  destruct (longest_zeros 0 (segments a)) as [start len] eqn:E. apply longest_zeros_bound in E.
  destruct (Nat.ltb_spec 1 len).
  - rewrite !length_app_str. cbn [String.length].
    pose proof (show_groups_length (take start (segments a)) ltac:(by apply Forall_take)) as H1.
    pose proof (show_groups_length (drop (start + len) (segments a)) ltac:(by apply Forall_drop)) as H2.
    rewrite length_take in H1. rewrite length_drop in H2. lia.
  - pose proof (show_groups_length (segments a) Hs). lia.
Qed.

Lemma show_port_length p : (p < 65536)%N → String.length (show_N p) ≤ 5.
Proof. intros H. apply (length_show_N _ 4). cbn. lia. Qed.

Lemma show_hex_no_cr n : contains_char (ascii_of_nat 13) (show_hex n) = false.
Proof.
  unfold show_hex. generalize (S (N.size_nat n)) as fuel. intros fuel.
  assert (∀ acc, contains_char (ascii_of_nat 13) acc = false →
    contains_char (ascii_of_nat 13) (show_radix 16 fuel n acc) = false) as H; [|by apply H].
  revert n. induction fuel as [|fuel IH]; intros n acc Hacc; cbn [show_radix]; [done|].
  assert (contains_char (ascii_of_nat 13) (String (digit_char (n mod 16)) acc) = false) as H'.
  { cbn [contains_char]. rewrite Hacc, orb_false_r.
    pose proof (N.mod_lt n 16 ltac:(lia)) as Hm. set (d := (n mod 16)%N) in *.
    assert (d ∈ [0;1;2;3;4;5;6;7;8;9;10;11;12;13;14;15]%N) as Hd by (repeat rewrite elem_of_cons; lia).
    repeat (apply elem_of_cons in Hd as [->|Hd]; [reflexivity|]). by apply not_elem_of_nil in Hd. }
  destruct (n <? 16)%N; [done|by apply IH].
Qed.

Lemma show_ipv4_no_cr a : contains_char (ascii_of_nat 13) (show_ipv4 a) = false.
Proof. unfold show_ipv4. rewrite !contains_char_app, !show_N_digits by done. done. Qed.

Lemma show_groups_no_cr l : contains_char (ascii_of_nat 13) (show_groups l) = false.
Proof.
  induction l as [|n [|m l] IH]; [done|apply show_hex_no_cr|].
  change (show_groups (n :: m :: l)) with (show_hex n +:+ ":" +:+ show_groups (m :: l)).
  by rewrite !contains_char_app, show_hex_no_cr, IH.
Qed.

Lemma show_ipv6_no_cr a : contains_char (ascii_of_nat 13) (show_ipv6 a) = false.
Proof.
  unfold show_ipv6. destruct (ipv4_mapped a) as [v4|].
  { by rewrite contains_char_app, show_ipv4_no_cr. }
  destruct (longest_zeros 0 (segments a)) as [start len]. destruct (1 <? len)%nat.
  - by rewrite !contains_char_app, !show_groups_no_cr.
  - apply show_groups_no_cr.
Qed.

(** The v1 header is one line: at most the 107 bytes the protocol allows, with
    a single CR, the one of the CRLF it ends with, for every pair of addresses. *)
Theorem proxy_v1_line client proxy :
  SocketAddr_wf client → SocketAddr_wf proxy →
  length (encode_v1 client proxy) ≤ 107 ∧
  ∃ line, encode_v1_text client proxy = line +:+ crlf ∧ contains_char (ascii_of_nat 13) line = false ∧
          starts_with "PROXY TCP" line = true.
Proof.
  intros Hc Hp. unfold encode_v1. rewrite length_as_bytes. unfold encode_v1_text.
  pose proof (show_port_length _ (proj1 Hc)). pose proof (show_port_length _ (proj1 Hp)).
  assert (∀ proto src dst, String.length proto = 4 → contains_char (ascii_of_nat 13) proto = false →
    starts_with "TCP" proto = true →
    String.length src ≤ 39 → String.length dst ≤ 39 →
    contains_char (ascii_of_nat 13) src = false → contains_char (ascii_of_nat 13) dst = false →
    let t := "PROXY " +:+ proto +:+ " " +:+ src +:+ " " +:+ dst +:+ " " +:+
             show_N (sock_port client) +:+ " " +:+ show_N (sock_port proxy) +:+ crlf in
    String.length t ≤ 107 ∧
    ∃ line, t = line +:+ crlf ∧ contains_char (ascii_of_nat 13) line = false ∧
            starts_with "PROXY TCP" line = true) as Hline.
  { intros proto src dst Hpl Hpr Htcp Hs Hd Hsc Hdc t. split.
    - unfold t. rewrite !length_app_str. cbn [String.length crlf]. lia.
    - exists ("PROXY " +:+ proto +:+ " " +:+ src +:+ " " +:+ dst +:+ " " +:+
              show_N (sock_port client) +:+ " " +:+ show_N (sock_port proxy)).
      split; [unfold t; by rewrite !app_str_assoc|]. split.
      + rewrite !contains_char_app, Hpr, Hsc, Hdc, !show_N_digits by done. done.
      + apply starts_with_true in Htcp as [rest ->]. apply starts_with_true. eauto. }
  destruct (is_ipv4 client).
  - pose proof (show_ipv4_length (as_v4 client)). pose proof (show_ipv4_length (as_v4 proxy)).
    apply Hline; try done; try lia; apply show_ipv4_no_cr.
  - apply Hline; try done; try apply show_ipv6_no_cr; by apply show_ipv6_length, as_v6_wf.
Qed.

Definition ex_client : SocketAddr := SocketAddrV6 (mkIpv6 [8193; 3512; 0; 0; 0; 0; 0; 1]%N) 51000 0.
Definition ex_proxy : SocketAddr := socket_v4 10 0 0 7 443.

Lemma ex_client_wf : SocketAddr_wf ex_client.
Proof. repeat split; try (vm_compute; reflexivity); [repeat constructor|vm_compute; discriminate]. Qed.

Lemma proxy_v2_roundtrip_witness :
  decode_v2 (encode_v2 ex_client ex_proxy ++ [x16]) = Some (header_addrs ex_client ex_proxy, [x16]).
Proof. apply proxy_v2_roundtrip; [exact ex_client_wf|by split]. Defined.

Lemma proxy_v1_line_witness : length (encode_v1 ex_client ex_proxy) ≤ 107.
Proof. apply proxy_v1_line; [exact ex_client_wf|by split]. Defined.
