(* ===== verification/StreamUpstream.v ===== *)
(** * Stream backends (crates/wicket-stream/src/endpoint.rs, health.rs, pool.rs,
      and [Upstream] of proxy.rs)

    Backend addresses and their text, passive health, source address rotation and
    the choice of the next server.  Atomics are fields of a record that the
    operations return changed; a counter wraps at [2^64] as [fetch_add] does;
    an index out of range (the panic of [servers[i]], of [% 0]) is [None].  Times
    are milliseconds since the epoch and are arguments. *)

From S2P Require Import Prelude Str Order Num Bytes Net.
From Stdlib Require Import Ascii.

(** ** Errors (lib.rs) *)

Inductive StreamError :=
| SniError (m : string)
| RoutingError (m : string)
| ConnectionError (m : string)
| ConfigError_ (m : string)
| IoError (m : string).

(** ** Endpoints (endpoint.rs) *)

Inductive StreamBackendAddr :=
| Backend_Tcp (a : SocketAddr)
| Backend_Unix (path : string).

#[global] Instance StreamBackendAddr_eq_dec : EqDecision StreamBackendAddr.
Proof. solve_decision. Defined.

Definition as_tcp (b : StreamBackendAddr) : option SocketAddr :=
  match b with Backend_Tcp a => Some a | Backend_Unix _ => None end.
Definition as_unix_path (b : StreamBackendAddr) : option string :=
  match b with Backend_Tcp _ => None | Backend_Unix p => Some p end.
Definition transport (b : StreamBackendAddr) : string :=
  match b with Backend_Tcp _ => "TCP" | Backend_Unix _ => "Unix" end.

(** [PathBuf::is_absolute] on Unix. *)
Definition is_absolute (path : string) : bool := starts_with "/" path.

Definition parse_unix_endpoint (input path : string) : result StreamError StreamBackendAddr :=
  if is_empty_str path then Err (ConfigError_ "unix stream backend endpoint must include an absolute path")
  else if starts_with "//" path then
    Err (ConfigError_ ("invalid Unix stream backend endpoint '" +:+ input +:+
                       "': use unix:/absolute/path, not unix://"))
  else if negb (is_absolute path) then
    Err (ConfigError_ ("invalid Unix stream backend endpoint '" +:+ input +:+ "': path must be absolute"))
  else Ok (Backend_Unix path).

Definition StreamBackendAddr_from_str (input : string) : result StreamError StreamBackendAddr :=
  if is_empty_str input then Err (ConfigError_ "stream backend endpoint must not be empty")
  else match strip_prefix "unix:" input with
       | Some path => parse_unix_endpoint input path
       | None => Backend_Tcp <$> ok_or
           (ConfigError_ ("invalid TCP stream backend endpoint '" +:+ input +:+
                          "': invalid socket address syntax"))
           (parse_socket_addr input)
       end.

Definition show_backend (b : StreamBackendAddr) : string :=
  match b with
  | Backend_Tcp a => show_socket a
  | Backend_Unix p => "unix:" +:+ p
  end.

Definition parse_backend_endpoints (servers : list string) : result StreamError (list StreamBackendAddr) :=
  try_map StreamBackendAddr_from_str servers.

(** ** Health (health.rs) *)

Record BackendHealth := mkBackendHealth {
  bh_label : string;
  bh_healthy : bool;
  bh_unhealthy_since : N;
  bh_consecutive_failures : N
}.

Definition BackendHealth_new (label : string) : BackendHealth := mkBackendHealth label true 0 0.

Definition is_eligible (cooldown_ms now_ms : N) (h : BackendHealth) : bool :=
  if bh_healthy h then true
  else if (bh_unhealthy_since h =? 0)%N then true
  else (cooldown_ms <=? saturating_sub now_ms (bh_unhealthy_since h))%N.

Definition record_success (h : BackendHealth) : BackendHealth :=
  mkBackendHealth (bh_label h) true 0 0.

Definition record_failure (now_ms : N) (h : BackendHealth) : BackendHealth :=
  mkBackendHealth (bh_label h) false
    (if bh_healthy h then now_ms else bh_unhealthy_since h)
    (wrapping_add_usize (bh_consecutive_failures h) 1).

(** ** Source addresses (pool.rs) *)

Record SourceIpPool := mkSourceIpPool { pool_ips : list IpAddr; pool_counter : N }.

(** [None] is the assertion's panic. *)
Definition SourceIpPool_new (ips : list IpAddr) : option SourceIpPool :=
  if is_empty ips then None else Some (mkSourceIpPool ips 0).

Definition next_ip (p : SourceIpPool) : option (IpAddr * SourceIpPool) :=
  let len := N.of_nat (length (pool_ips p)) in
  if (len =? 0)%N then None
  else ip ← pool_ips p !! N.to_nat (pool_counter p mod len);
       Some (ip, mkSourceIpPool (pool_ips p) (wrapping_add_usize (pool_counter p) 1)).

(** ** Upstreams (proxy.rs) *)

Record Upstream := mkUpstream {
  u_name : string;
  u_servers : list StreamBackendAddr;
  u_health : list BackendHealth;
  u_counter : N;
  u_cooldown_ms : N
}.

Definition Upstream_with_cooldown (name : string) (servers : list StreamBackendAddr) (cooldown_secs : N) : Upstream :=
  mkUpstream name servers ((λ e, BackendHealth_new (show_backend e)) <$> servers) 0
    ((cooldown_secs * 1000) mod usize_modulus).

Definition Upstream_new (name : string) (servers : list StreamBackendAddr) : Upstream :=
  Upstream_with_cooldown name servers 30.

(** The slots in the order they are tried: [(start + i) % len]. *)
Definition slot (start len : N) (i : nat) : nat :=
  N.to_nat (wrapping_add_usize start (N.of_nat i) mod len).

Definition slots (start len : N) : list nat := slot start len <$> seq 0 (N.to_nat len).

(** [self.health[idx].is_eligible()].  There is one health entry per server
    ([Upstream_wf]), so the index is never out of range. *)
Definition eligible_slot (u : Upstream) (now_ms : N) (i : nat) : bool :=
  match u_health u !! i with
  | Some h => is_eligible (u_cooldown_ms u) now_ms h
  | None => false
  end.

Definition with_counter (u : Upstream) (c : N) : Upstream :=
  mkUpstream (u_name u) (u_servers u) (u_health u) c (u_cooldown_ms u).

Definition next_server (now_ms : N) (u : Upstream) : option (StreamBackendAddr * Upstream) :=
  let len := N.of_nat (length (u_servers u)) in
  let start := u_counter u in
  let u' := with_counter u (wrapping_add_usize start 1) in
  if (len =? 0)%N then None
  else
    let idx := match find_first (eligible_slot u now_ms) (slots start len) with
               | Some i => i
               | None => N.to_nat (start mod len)
               end in
    b ← u_servers u !! idx; Some (b, u').

(** The first health entry with the endpoint's label is changed. *)
Fixpoint update_first {A} (p : A → bool) (f : A → A) (l : list A) : list A :=
  match l with
  | [] => []
  | x :: l' => if p x then f x :: l' else x :: update_first p f l'
  end.

Definition with_health (u : Upstream) (h : list BackendHealth) : Upstream :=
  mkUpstream (u_name u) (u_servers u) h (u_counter u) (u_cooldown_ms u).

Definition has_label (e : StreamBackendAddr) (h : BackendHealth) : bool :=
  String.eqb (bh_label h) (show_backend e).

Definition report_success (e : StreamBackendAddr) (u : Upstream) : Upstream :=
  with_health u (update_first (has_label e) record_success (u_health u)).

Definition report_failure (now_ms : N) (e : StreamBackendAddr) (u : Upstream) : Upstream :=
  with_health u (update_first (has_label e) (record_failure now_ms) (u_health u)).

(** ** Invariant: one health entry per server, labelled by it. *)

Definition Upstream_wf (u : Upstream) : Prop :=
  bh_label <$> u_health u = show_backend <$> u_servers u.

Lemma Upstream_with_cooldown_wf name servers c : Upstream_wf (Upstream_with_cooldown name servers c).
Proof. unfold Upstream_wf. cbn. rewrite <-list_fmap_compose. done. Qed.

Lemma Upstream_wf_length u : Upstream_wf u → length (u_health u) = length (u_servers u).
Proof. intros H. apply (f_equal length) in H. by rewrite !length_fmap in H. Qed.

Lemma update_first_label (f : BackendHealth → BackendHealth) p l :
  (∀ h, bh_label (f h) = bh_label h) → bh_label <$> update_first p f l = bh_label <$> l.
Proof.
  intros Hf. induction l as [|h l IH]; [done|]. cbn [update_first].
  destruct (p h); csimpl; [by rewrite Hf|by rewrite IH].
Qed.

Lemma next_server_wf now u b u' : next_server now u = Some (b, u') → Upstream_wf u → Upstream_wf u'.
Proof.
  unfold next_server. cbn zeta. destruct (_ =? _)%N; [done|].
  intros H Hwf. run_bind H. done.
Qed.

Lemma report_success_wf e u : Upstream_wf u → Upstream_wf (report_success e u).
Proof. unfold Upstream_wf. cbn [u_health u_servers with_health report_success report_failure].
  intros H. rewrite update_first_label; done.
Qed.

Lemma report_failure_wf now e u : Upstream_wf u → Upstream_wf (report_failure now e u).
Proof. unfold Upstream_wf. cbn [u_health u_servers with_health report_success report_failure].
  intros H. rewrite update_first_label; done.
Qed.

(** ** Selection *)

Lemma slot_bound start len i : (0 < len)%N → slot start len i < N.to_nat len.
Proof. intros H. unfold slot. pose proof (N.mod_lt (wrapping_add_usize start (N.of_nat i)) len). lia. Qed.

Lemma wrapping_add_mod start i len :
  (start + i < usize_modulus)%N → (wrapping_add_usize start i mod len = (start + i) mod len)%N.
Proof. intros H. unfold wrapping_add_usize. by rewrite (N.mod_small (start + i) usize_modulus). Qed.

Lemma slot_id start len (j : nat) :
  (0 < len)%N → (start + len < usize_modulus)%N → j < N.to_nat len →
  ∃ i, i < N.to_nat len ∧ slot start len i = j.
Proof.
  intros Hlen Hw Hj. set (s := (start mod len)%N). pose proof (N.mod_lt start len ltac:(lia)) as Hs.
  fold s in Hs.
  exists (N.to_nat ((N.of_nat j + len - s) mod len)).
  pose proof (N.mod_lt (N.of_nat j + len - s) len ltac:(lia)) as Hi. split; [lia|].
  unfold slot. rewrite N2Nat.id, wrapping_add_mod by lia.
  rewrite N.Div0.add_mod_idemp_r, <-N.Div0.add_mod_idemp_l. fold s.
  replace (s + (N.of_nat j + len - s))%N with (N.of_nat j + 1 * len)%N by lia.
  rewrite N.Div0.mod_add, N.mod_small by lia. lia.
Qed.

Lemma elem_of_slots start len i : i ∈ slots start len ↔ ∃ k, k < N.to_nat len ∧ i = slot start len k.
Proof.
  unfold slots. rewrite list_elem_of_fmap. setoid_rewrite elem_of_seq. split.
  - intros (k&->&Hk). exists k. split; [lia|done].
  - intros (k&Hk&->). exists k. split; [done|lia].
Qed.

(** The answer of [next_server], written out. *)
Lemma next_server_eq now u :
  u_servers u ≠ [] →
  ∃ i b, next_server now u = Some (b, with_counter u (wrapping_add_usize (u_counter u) 1)) ∧
    u_servers u !! i = Some b ∧
    i = (match find_first (eligible_slot u now) (slots (u_counter u) (N.of_nat (length (u_servers u)))) with
         | Some i => i
         | None => N.to_nat (u_counter u mod N.of_nat (length (u_servers u)))
         end).
Proof.
  intros Hne. unfold next_server. set (len := N.of_nat (length (u_servers u))).
  assert (0 < len)%N as Hlen.
  { unfold len. destruct (u_servers u); [done|]. cbn [length]. lia. }
  destruct (N.eqb_spec len 0); [lia|]. cbn zeta.
  set (i := match find_first _ _ with Some i => i | None => _ end).
  assert (i < length (u_servers u)) as Hi.
  { unfold i. destruct (find_first _ _) as [j|] eqn:Hf.
    - apply find_first_Some_elem in Hf as [(k&_&->)%elem_of_slots _].
      pose proof (slot_bound (u_counter u) len k Hlen). lia.
    - pose proof (N.mod_lt (u_counter u) len ltac:(lia)). lia. }
  apply lookup_lt_is_Some_2 in Hi as [b Hb]. exists i, b. split; [by rewrite Hb|done].
Qed.

(** C16: from a non-empty upstream a server is always returned, never a panic; it
    is the first in rotation order, from the counter, that is healthy or past its
    cooldown; if there is none (with the counter away from its wrap-around) the
    choice fails open to the plain rotation.  The counter advances by one and
    nothing else changes. *)
Theorem next_server_spec now u :
  u_servers u ≠ [] → (u_counter u + N.of_nat (length (u_servers u)) < usize_modulus)%N →
  let len := N.of_nat (length (u_servers u)) in
  ∃ i b, next_server now u = Some (b, with_counter u (u_counter u + 1)%N) ∧ u_servers u !! i = Some b ∧
    ((eligible_slot u now i = true ∧
      ∃ k, i = slot (u_counter u) len k ∧ ∀ j, j < k → eligible_slot u now (slot (u_counter u) len j) = false) ∨
     ((∀ j, j < length (u_servers u) → eligible_slot u now j = false) ∧
      i = N.to_nat (u_counter u mod len))).
Proof.
  intros Hne Hw len. destruct (next_server_eq now u Hne) as (i&b&Hn&Hb&Hi). fold len in Hi, Hw.
  assert (0 < length (u_servers u)) as Hpos by (destruct (u_servers u); [done|cbn; lia]).
  exists i, b. split; [|split; [done|]].
  - rewrite Hn. do 3 f_equal. unfold wrapping_add_usize. rewrite N.mod_small; lia.
  - destruct (find_first _ _) as [i'|] eqn:Hf; [left|right].
    + subst i'. apply find_first_Some in Hf as (l1&l2&Hl&He&Hb1). split; [done|].
      exists (length l1). unfold slots in Hl.
      assert (∀ j x, (l1 ++ i :: l2) !! j = Some x → x = slot (u_counter u) len j) as Hlk.
      { intros j x. rewrite <-Hl, list_lookup_fmap. destruct (seq 0 (N.to_nat len) !! j) eqn:Es; [|done].
        apply lookup_seq in Es as [-> _]. cbn. by intros [= <-]. }
      split; [apply Hlk; by apply list_lookup_middle|].
      intros j Hj. assert (is_Some (l1 !! j)) as [x Hx] by (by apply lookup_lt_is_Some).
      rewrite <-(Hlk j x) by (by apply lookup_app_l_Some). exact (Forall_lookup_1 _ _ _ _ Hb1 Hx).
    + split; [|done]. intros j Hj.
      destruct (slot_id (u_counter u) len j ltac:(lia) Hw ltac:(lia)) as (k&Hk&<-).
      apply (proj1 (find_first_None _ _) Hf). apply elem_of_slots. eauto.
Qed.

(** Repeated selection, at the times given. *)
Fixpoint next_servers (times : list N) (u : Upstream) : option (list StreamBackendAddr) :=
  match times with
  | [] => Some []
  | t :: ts => '(b, u') ← next_server t u; bs ← next_servers ts u'; Some (b :: bs)
  end.

(** While every backend is healthy, selection is round-robin: the [k]-th
    choice is the server at the counter plus [k], modulo the number of servers. *)
Theorem next_server_round_robin u times :
  Upstream_wf u → u_servers u ≠ [] → Forall (λ h, bh_healthy h = true) (u_health u) →
  (u_counter u + N.of_nat (length times) + N.of_nat (length (u_servers u)) < usize_modulus)%N →
  ∃ bs, next_servers times u = Some bs ∧ length bs = length times ∧
    ∀ k b, bs !! k = Some b →
      u_servers u !! N.to_nat ((u_counter u + N.of_nat k) mod N.of_nat (length (u_servers u))) = Some b.
Proof.
  revert u. induction times as [|t ts IH]; intros u Hwf Hne Hh Hw; [by exists []|].
  destruct (next_server_eq t u Hne) as (i&b&Hn&Hb&Hi). cbn [next_servers length] in *.
  set (len := N.of_nat (length (u_servers u))) in *.
  assert (0 < length (u_servers u)) as Hpos by (destruct (u_servers u); [done|cbn; lia]).
  assert (∀ j, j < length (u_servers u) → eligible_slot u t j = true) as Hel.
  { intros j Hj. unfold eligible_slot. rewrite <-(Upstream_wf_length u Hwf) in Hj.
    apply lookup_lt_is_Some_2 in Hj as [h Hl]. rewrite Hl. unfold is_eligible.
    eapply Forall_lookup_1 in Hh; [|exact Hl]. by rewrite Hh. }
  assert (i = N.to_nat (u_counter u mod len)) as ->.
  { rewrite Hi. unfold slots. destruct (N.to_nat len) as [|n] eqn:El; [lia|]. cbn.
    assert (slot (u_counter u) len 0 = N.to_nat (u_counter u mod len)) as Hs.
    { unfold slot. rewrite wrapping_add_mod by lia. f_equal. f_equal. lia. }
    rewrite Hs, Hel; [done|]. rewrite <-Hs.
    pose proof (slot_bound (u_counter u) len 0 ltac:(lia)). lia. }
  assert (wrapping_add_usize (u_counter u) 1 = u_counter u + 1)%N as Hc.
  { unfold wrapping_add_usize. apply N.mod_small. lia. }
  rewrite Hc in Hn. destruct (IH (with_counter u (u_counter u + 1))) as (bs&Hbs&Hl&Hk); [done..|cbn; fold len; lia|].
  exists (b :: bs). rewrite Hn. cbn. rewrite Hbs. cbn. split; [done|]. split; [by rewrite Hl|].
  intros [|k] b' Hb'; cbn in Hb'.
  - simplify_eq. by rewrite N.add_0_r.
  - apply Hk in Hb'. cbn [u_counter u_servers with_counter] in Hb'. fold len in Hb'.
    rewrite <-Hb'. f_equal. f_equal. f_equal. lia.
Qed.

(** ** Health *)

(** The cooldown of a failing backend runs from the first of a row of
    failures: later failures do not restart it, so once it has passed the backend
    stays eligible however often it fails, until a success clears the state. *)
Theorem cooldown_from_first_failure h t0 ts cooldown now :
  bh_healthy h = true → t0 ≠ 0%N →
  let h' := foldl (λ h t, record_failure t h) h (t0 :: ts) in
  is_eligible cooldown now h' = (cooldown <=? now - t0)%N ∧
  is_eligible cooldown now (record_success h') = true.
Proof.
  intros Hh Ht0. cbn zeta. split; [|done]. cbn [foldl].
  set (h1 := record_failure t0 h).
  assert (bh_healthy h1 = false ∧ bh_unhealthy_since h1 = t0) as H1.
  { unfold h1, record_failure. cbn. by rewrite Hh. }
  clearbody h1. revert h1 H1. induction ts as [|t ts IH]; intros h1 [Hf Hs]; cbn [foldl].
  - unfold is_eligible, saturating_sub. rewrite Hf, Hs. by destruct (N.eqb_spec t0 0).
  - apply IH. cbn. by rewrite Hf.
Qed.

Lemma update_first_lookup {A} (p : A → bool) (f : A → A) l i x :
  l !! i = Some x → p x = true → (∀ j y, j < i → l !! j = Some y → p y = false) →
  ∀ j, update_first p f l !! j = if bool_decide (j = i) then Some (f x) else l !! j.
Proof.
  revert i. induction l as [|y l IH]; intros i Hi Hp Hbefore j; [done|]. cbn [update_first].
  destruct i as [|i]; cbn in Hi.
  - simplify_eq. rewrite Hp. by destruct j as [|j]; cbn; case_bool_decide.
  - rewrite (Hbefore 0 y) by (done || lia). destruct j as [|j]; [by case_bool_decide|]. cbn.
    rewrite (IH i Hi Hp).
    + by repeat case_bool_decide; simplify_eq.
    + intros j' y' Hj' Hy'. apply (Hbefore (S j')); [lia|done].
Qed.

Lemma report_update u e i (f : BackendHealth → BackendHealth) h :
  Upstream_wf u → u_servers u !! i = Some e → u_health u !! i = Some h →
  (∀ j e', j < i → u_servers u !! j = Some e' → show_backend e' ≠ show_backend e) →
  ∀ j, update_first (has_label e) f (u_health u) !! j
       = if bool_decide (j = i) then Some (f h) else u_health u !! j.
Proof.
  intros Hwf Hi Hh Hfirst.
  assert (∀ j h' e', u_health u !! j = Some h' → u_servers u !! j = Some e' → bh_label h' = show_backend e') as Hl.
  { intros j h' e' H1 H2. apply (f_equal (λ l, l !! j)) in Hwf.
    rewrite !list_lookup_fmap, H1, H2 in Hwf. by simplify_eq/=. }
  apply update_first_lookup; [done|unfold has_label; rewrite (Hl i h e) by done; apply String.eqb_refl|].
  intros j h' Hj Hh'. assert (is_Some (u_servers u !! j)) as [e' He'].
  { apply lookup_lt_is_Some. rewrite <-(Upstream_wf_length u Hwf). by apply lookup_lt_Some in Hh'. }
  unfold has_label. rewrite (Hl j h' e') by done. apply String.eqb_neq. by eapply Hfirst.
Qed.

(** A connect outcome changes the health of exactly the backend it is about,
    the first with that address, and no other entry, address or counter. *)
Theorem report_outcome_exact u now e i h :
  Upstream_wf u → u_servers u !! i = Some e → u_health u !! i = Some h →
  (∀ j e', j < i → u_servers u !! j = Some e' → show_backend e' ≠ show_backend e) →
  (∀ j, u_health (report_failure now e u) !! j
        = if bool_decide (j = i) then Some (record_failure now h) else u_health u !! j) ∧
  (∀ j, u_health (report_success e u) !! j
        = if bool_decide (j = i) then Some (record_success h) else u_health u !! j) ∧
  u_servers (report_failure now e u) = u_servers u ∧ u_servers (report_success e u) = u_servers u ∧
  Upstream_wf (report_failure now e u) ∧ Upstream_wf (report_success e u).
Proof.
  intros Hwf Hi Hh Hfirst.
  split; [by apply (report_update u e i)|]. split; [by apply (report_update u e i)|].
  split; [done|]. split; [done|]. split; [by apply report_failure_wf|by apply report_success_wf].
Qed.

(** A backend listed twice has two health entries of which only the first is
    ever updated: however often it fails, its second slot stays as it was. *)
Theorem duplicate_backend_second_slot u now e i j h :
  Upstream_wf u → i < j → u_servers u !! i = Some e → u_servers u !! j = Some e →
  (∀ k e', k < i → u_servers u !! k = Some e' → show_backend e' ≠ show_backend e) →
  u_health u !! j = Some h →
  u_health (report_failure now e u) !! j = Some h ∧ u_health (report_success e u) !! j = Some h.
Proof.
  intros Hwf Hij Hi Hj Hfirst Hh.
  assert (is_Some (u_health u !! i)) as [h0 Hh0].
  { apply lookup_lt_is_Some. rewrite (Upstream_wf_length u Hwf). by apply lookup_lt_Some in Hi. }
  cbn. rewrite !(report_update u e i _ h0 Hwf Hi Hh0 Hfirst).
  rewrite bool_decide_eq_false_2 by lia. done.
Qed.

(** ** Endpoints *)

Definition backend_wf (b : StreamBackendAddr) : Prop :=
  match b with
  | Backend_Tcp (SocketAddrV4 _ port) => (port < 65536)%N
  | Backend_Tcp (SocketAddrV6 _ _ _) => False
  | Backend_Unix p => starts_with "/" p = true ∧ starts_with "//" p = false
  end.

Lemma show_ipv4_head a s : strip_prefix "unix:" (show_ipv4 a +:+ s) = None.
Proof.
  unfold show_ipv4. rewrite !app_str_assoc, show_N_app.
  match goal with |- context [show_radix 10 ?f ?n ?t] =>
    destruct (show_radix_head f n t) as (d&r&->&Hd) end;
    [apply size_nat_bound_base; lia|lia|].
  change (strip_prefix "unix:" (String (digit_char d) r))
    with (if Ascii.eqb "u" (digit_char d) then strip_prefix "nix:" r else None).
  destruct (Ascii.eqb_spec "u" (digit_char d)) as [He|_]; [|done].
  exfalso. pose proof (digit_val_char d Hd) as Hv. by rewrite <-He in Hv.
Qed.

(** The text of an IPv4 or Unix backend address parses back to it, and parsing
    yields only such text, absolute Unix paths and TCP addresses; everything else is
    a configuration error. *)
Theorem backend_addr_roundtrip b s :
  (backend_wf b → StreamBackendAddr_from_str (show_backend b) = Ok b) ∧
  match StreamBackendAddr_from_str s with
  | Ok (Backend_Tcp a) => parse_socket_addr s = Some a ∧ (sock_port a < 65536)%N
  | Ok (Backend_Unix p) => s = "unix:" +:+ p ∧ starts_with "/" p = true ∧ starts_with "//" p = false
  | Err (ConfigError_ _) => True
  | Err _ => False
  end.
Proof.
  split.
  - destruct b as [[ip port|]|p]; cbn [backend_wf show_backend]; [|done|].
    + intros Hp. unfold StreamBackendAddr_from_str.
      assert (is_empty_str (show_socket (SocketAddrV4 ip port)) = false) as ->.
      { cbn [show_socket]. apply is_empty_str_false. unfold show_ipv4. intros He.
        apply (f_equal String.length) in He. rewrite !length_app_str in He. cbn in He. lia. }
      cbn [show_socket]. rewrite show_ipv4_head.
      change (show_ipv4 ip +:+ ":" +:+ show_N port) with (show_socket (SocketAddrV4 ip port)).
      by rewrite parse_show_socket_v4.
    + intros [Ha Hd]. unfold StreamBackendAddr_from_str. cbn [is_empty_str String.append].
      change (strip_prefix "unix:" _) with (Some p). unfold parse_unix_endpoint, is_absolute.
      rewrite Ha, Hd. by destruct p.
  - unfold StreamBackendAddr_from_str. destruct (is_empty_str s); [done|].
    destruct (strip_prefix "unix:" s) as [p|] eqn:Hs.
    + apply strip_prefix_Some in Hs as ->. unfold parse_unix_endpoint, is_absolute.
      destruct (is_empty_str p); [done|]. destruct (starts_with "//" p) eqn:Hd; [done|].
      by destruct (starts_with "/" p) eqn:Ha.
    + destruct (parse_socket_addr s) as [a|] eqn:Ha; cbn; [|done].
      split; [done|]. by apply parse_socket_port in Ha.
Qed.

(** ** Source addresses *)

(** From a pool that [SourceIpPool_new] made, the [k]-th address is the one at [k]
    modulo the number of addresses. *)
Lemma next_ip_round_robin ips k :
  ips ≠ [] → (k < usize_modulus)%N →
  ∃ ip, next_ip (mkSourceIpPool ips k) = Some (ip, mkSourceIpPool ips ((k + 1) mod usize_modulus)) ∧
        ips !! N.to_nat (k mod N.of_nat (length ips)) = Some ip.
Proof.
  intros Hne Hk. unfold next_ip. cbn [pool_ips pool_counter].
  assert (0 < length ips) by (destruct ips; [done|cbn; lia]).
  destruct (N.eqb_spec (N.of_nat (length ips)) 0); [lia|].
  pose proof (N.mod_lt k (N.of_nat (length ips)) ltac:(lia)).
  assert (is_Some (ips !! N.to_nat (k mod N.of_nat (length ips)))) as [ip Hip]
    by (apply lookup_lt_is_Some; lia).
  exists ip. by rewrite Hip.
Qed.

(** ** Witnesses *)

Definition ex_b1 : StreamBackendAddr := Backend_Tcp (socket_v4 10 0 0 1 80).
Definition ex_b2 : StreamBackendAddr := Backend_Tcp (socket_v4 10 0 0 2 80).
Definition ex_upstream : Upstream := Upstream_new "web" [ex_b1; ex_b2].
Definition ex_dup_upstream : Upstream := Upstream_new "web" [ex_b1; ex_b1].

Lemma next_server_spec_witness :
  ∃ i b, next_server 5 (report_failure 4 ex_b1 ex_upstream) = Some (b, with_counter (report_failure 4 ex_b1 ex_upstream) 1) ∧
    u_servers ex_upstream !! i = Some b.
Proof.
  destruct (next_server_spec 5 (report_failure 4 ex_b1 ex_upstream)) as (i&b&H1&H2&_);
    [discriminate|reflexivity|]. exists i, b. split; [exact H1|exact H2].
Defined.

Lemma next_server_round_robin_witness :
  ∃ bs, next_servers [1; 2; 3]%N ex_upstream = Some bs ∧ length bs = 3.
Proof.
  destruct (next_server_round_robin ex_upstream [1; 2; 3]%N) as (bs&H1&H2&_);
    [reflexivity|discriminate|repeat constructor|reflexivity|]. exists bs. split; [exact H1|exact H2].
Defined.

Lemma cooldown_from_first_failure_witness :
  is_eligible 30 45 (foldl (λ h t, record_failure t h) (BackendHealth_new "b") [10; 40; 44]%N) = true.
Proof.
  etransitivity; [apply (cooldown_from_first_failure (BackendHealth_new "b") 10 [40; 44]%N); [reflexivity|discriminate]|].
  reflexivity.
Defined.

Lemma report_outcome_exact_witness :
  u_health (report_failure 7 ex_b2 ex_upstream) !! 0 = u_health ex_upstream !! 0.
Proof.
  etransitivity.
  - apply (report_outcome_exact ex_upstream 7 ex_b2 1 (BackendHealth_new (show_backend ex_b2)));
      try (vm_compute; reflexivity).
    intros [|j] e' Hj He'; [|lia]. cbn in He'. simplify_eq. vm_compute. discriminate.
  - reflexivity.
Defined.

Lemma duplicate_backend_second_slot_witness :
  u_health (report_failure 7 ex_b1 ex_dup_upstream) !! 1 = Some (BackendHealth_new (show_backend ex_b1)).
Proof.
  apply (duplicate_backend_second_slot ex_dup_upstream 7 ex_b1 0 1); try (vm_compute; reflexivity).
  intros k e' Hk. lia.
Defined.
