(* ===== verification/StreamProxy.v ===== *)
(** * The stream (L4) proxy (crates/wicket-stream/src/proxy.rs)

    [from_config], [reload], the handling of one connection and the accept and
    drain loops of [run].  An upstream is a shared object ([Arc<Upstream>]): the
    upstream table maps names to addresses of a heap, a connection keeps the
    address it was routed to, and a reload allocates new objects; the counters and
    health a connection updates are those of the object it holds.  The network is
    an argument: the bytes peeked, the outcome of a connect, of the write of the
    PROXY header and of the copy.  The eBPF path, which is behind a cargo feature, is in
    [SockMap]. *)

From S2P Require Import Prelude Str Order Num Bytes Net Metrics Config Sni SniRouter ProxyProtocol StreamUpstream.
From Stdlib Require Import Ascii.

(** ** Series *)

Definition STREAM_CONNECTIONS_ACTIVE : list string := ["wicket_stream_connections_active"].
Definition STREAM_CONNECTIONS_TOTAL (u : string) : list string := ["wicket_stream_connections_total"; u].
Definition STREAM_CONNECTION_DURATION (u : string) : list string := ["wicket_stream_connection_duration_seconds"; u].
Definition STREAM_CONNECTION_ERRORS_TOTAL (e : string) : list string := ["wicket_stream_connection_errors_total"; e].
Definition STREAM_BYTES_TOTAL (d : string) : list string := ["wicket_stream_bytes_total"; d].
Definition STREAM_SNI_EXTRACTIONS_TOTAL (r : string) : list string := ["wicket_stream_sni_extractions_total"; r].
Definition STREAM_CONNECT_DURATION (u : string) : list string := ["wicket_stream_connect_duration_seconds"; u].
Definition STREAM_UPSTREAM_HEALTH (u b : string) : list string := ["wicket_stream_upstream_health"; u; b].
Definition STREAM_HEALTH_TRANSITIONS (u b t : string) : list string := ["wicket_stream_backend_health_transitions_total"; u; b; t].
Definition STREAM_CONNECTIONS_REJECTED_TOTAL : list string := ["wicket_stream_connections_rejected_total"].
Definition STREAM_CONFIG_RELOADS_TOTAL : list string := ["wicket_stream_config_reloads_total"].
Definition STREAM_PROXY_PATH_TOTAL (p : string) : list string := ["wicket_stream_proxy_path_total"; p].

(** ** State *)

Record StreamProxy := mkStreamProxy {
  sp_name : string;
  sp_router : SniRouter;
  sp_upstreams : gmap string nat;
  sp_source_ip_pool : option SourceIpPool;
  sp_proxy_protocol : option ProxyProtocolVersion;
  sp_local_addr : SocketAddr;
  sp_connect_timeout_ms : N;
  sp_max_permits : option N;
  sp_drain_timeout_ms : N
}.

Record World := mkWorld {
  w_heap : gmap nat Upstream;
  w_next : nat;
  w_proxy : StreamProxy;
  w_metrics : Metrics
}.

Definition with_metrics (w : World) (m : Metrics) : World :=
  mkWorld (w_heap w) (w_next w) (w_proxy w) m.

(** ** Construction and reload *)

(** The upstreams of a configuration, in order. *)
Definition parse_upstreams (config : StreamConfig) : result StreamError (list (string * Upstream)) :=
  try_map (λ u,
    servers ← parse_backend_endpoints (su_servers u);
    Ok (su_name u, Upstream_with_cooldown (su_name u) servers (st_health_cooldown_secs config)))
    (st_upstreams config).

(** [Arc::new] of each; a later upstream of the same name replaces an earlier one. *)
Fixpoint alloc_upstreams (l : list (string * Upstream)) (heap : gmap nat Upstream) (next : nat)
    (table : gmap string nat) : gmap nat Upstream * nat * gmap string nat :=
  match l with
  | [] => (heap, next, table)
  | (name, u) :: l' => alloc_upstreams l' (<[next := u]> heap) (S next) (<[name := next]> table)
  end.

Definition semaphore (max_connections : N) : option N :=
  if (0 <? max_connections)%N then Some max_connections else None.

Definition proxy_protocol_of (c : ProxyProtocolConfig) : option ProxyProtocolVersion :=
  match c with PPC_None => None | PPC_V1 => Some PPV1 | PPC_V2 => Some PPV2 end.

Definition StreamProxy_new (name : string) (router : SniRouter) (upstreams : gmap string nat) (source_ip_pool : option SourceIpPool)
    (proxy_protocol : option ProxyProtocolVersion) (local_addr : SocketAddr) (connect_timeout_ms max_connections : N) : StreamProxy :=
  mkStreamProxy name router upstreams source_ip_pool proxy_protocol local_addr connect_timeout_ms (semaphore max_connections) 30000.

(** [routes] enumerates [config.sni_routes]; the metrics are the process's. *)
Definition from_config (routes : list (string * string)) (config : StreamConfig) (m : Metrics)
    : result StreamError World :=
  ups ← parse_upstreams config;
  local_addr ← ok_or (ConfigError_ "Invalid listen address: invalid socket address syntax")
                 (parse_socket_addr (st_listen config));
  let '(heap, next, table) := alloc_upstreams ups ∅ 0 ∅ in
  Ok (mkWorld heap next
        (mkStreamProxy (st_name config) (SniRouter_new routes (st_default_upstream config)) table
           (SourceIpPool_new (st_source_ips config)) (proxy_protocol_of (st_proxy_protocol config))
           local_addr (st_connect_timeout_ms config) (semaphore (st_max_connections config))
           (st_drain_timeout_secs config * 1000))
        m).

Definition with_routes (p : StreamProxy) (r : SniRouter) (table : gmap string nat) : StreamProxy :=
  mkStreamProxy (sp_name p) r table (sp_source_ip_pool p) (sp_proxy_protocol p) (sp_local_addr p)
    (sp_connect_timeout_ms p) (sp_max_permits p) (sp_drain_timeout_ms p).

Definition stream_reload (routes : list (string * string)) (config : StreamConfig) (w : World)
    : World * result StreamError unit :=
  match parse_upstreams config with
  | Err e => (w, Err e)
  | Ok ups =>
      let '(heap, next, table) := alloc_upstreams ups (w_heap w) (w_next w) ∅ in
      (mkWorld heap next
         (with_routes (w_proxy w) (SniRouter_new routes (st_default_upstream config)) table)
         (metric_inc STREAM_CONFIG_RELOADS_TOTAL (w_metrics w)), Ok tt)
  end.

(** ** One connection *)

(** A connection that was routed: the upstream object and name, the backend and
    the source address it binds. *)
Record Pending := mkPending {
  pd_upstream : nat;
  pd_name : string;
  pd_backend : StreamBackendAddr;
  pd_source_ip : option IpAddr
}.

Definition with_upstream (w : World) (id : nat) (u : Upstream) : World :=
  mkWorld (<[id := u]> (w_heap w)) (w_next w) (w_proxy w) (w_metrics w).

Definition with_pool (w : World) (p : option SourceIpPool) : World :=
  let sp := w_proxy w in
  mkWorld (w_heap w) (w_next w)
    (mkStreamProxy (sp_name sp) (sp_router sp) (sp_upstreams sp) p (sp_proxy_protocol sp)
       (sp_local_addr sp) (sp_connect_timeout_ms sp) (sp_max_permits sp) (sp_drain_timeout_ms sp))
    (w_metrics w).

Definition sni_result (peeked : bytes) (sni : option string) : string :=
  match sni with
  | Some _ => "success"
  | None => match peeked with
            | b :: _ => if (u8 b =? 22)%N then "failure" else "none"
            | [] => "none"
            end
  end.

(** [ConnectionGuard::new] and [drop]. *)
Definition guard_new (w : World) : World :=
  with_metrics w (metric_inc STREAM_CONNECTIONS_ACTIVE (w_metrics w)).
Definition guard_drop (upstream : option string) (w : World) : World :=
  let m := metric_dec STREAM_CONNECTIONS_ACTIVE (w_metrics w) in
  with_metrics w (match upstream with
                  | Some u => metric_inc (STREAM_CONNECTION_DURATION u) m
                  | None => m
                  end).

(** A failure before the connect: the error series, the guard's drop. *)
Definition fail_connection (series : string) (e : StreamError) (w : World)
    : World * (StreamError + Pending) :=
  (guard_drop None (with_metrics w (metric_inc (STREAM_CONNECTION_ERRORS_TOTAL series) (w_metrics w))),
   inl e).

(** The connect itself starts with the source address of a TCP backend. *)
Definition take_source_ip (b : StreamBackendAddr) (w : World) : option (option IpAddr * World) :=
  match b, sp_source_ip_pool (w_proxy w) with
  | Backend_Tcp _, Some pool => '(ip, pool') ← next_ip pool; Some (Some ip, with_pool w (Some pool'))
  | _, _ => Some (None, w)
  end.

(** Up to the start of the connect: peek, server name, route, server.  [None] is a
    panic.  The router and the table of upstreams are taken from one state of the proxy;
    the code loads them one after the other, so a reload that falls between the two
    loads, or between its two stores, can pair the router of one configuration with the
    table of the other. *)
Definition hc_route (now_ms : N) (peek : result StreamError bytes) (w : World)
    : option (World * (StreamError + Pending)) :=
  let w := guard_new w in
  match peek with
  | Err e => Some (guard_drop None w, inl e)
  | Ok peeked =>
  let sni := extract_sni peeked in
  let w := with_metrics w (metric_inc (STREAM_SNI_EXTRACTIONS_TOTAL (sni_result peeked sni)) (w_metrics w)) in
  match match_sni (sp_router (w_proxy w)) sni with
  | None => Some (fail_connection "routing" (RoutingError "No matching upstream") w)
  | Some upstream_name =>
      match sp_upstreams (w_proxy w) !! upstream_name with
      | None => Some (fail_connection "routing" (RoutingError ("Unknown upstream: " +:+ upstream_name)) w)
      | Some id =>
          u ← w_heap w !! id;
          '(backend, u') ← next_server now_ms u;
          '(ip, w') ← take_source_ip backend (with_upstream w id u');
          Some (w', inr (mkPending id upstream_name backend ip))
      end
  end
  end.

Inductive ConnectOutcome := Connected | ConnectFailed (e : StreamError) | ConnectTimeout.

(** The transition metrics of a report: only when the health changes. *)
Definition health_metrics (u : Upstream) (e : StreamBackendAddr) (healthy : bool) (m : Metrics) : Metrics :=
  match find_first (has_label e) (u_health u) with
  | Some h =>
      if Bool.eqb (bh_healthy h) healthy then m
      else metric_inc (STREAM_HEALTH_TRANSITIONS (u_name u) (show_backend e)
                         (if healthy then "unhealthy_to_healthy" else "healthy_to_unhealthy"))
             (metric_set (STREAM_UPSTREAM_HEALTH (u_name u) (show_backend e)) (if healthy then 1 else 0) m)
  | None => m
  end.

Definition report (now_ms : N) (healthy : bool) (id : nat) (e : StreamBackendAddr) (w : World) : World :=
  match w_heap w !! id with
  | Some u =>
      with_metrics (with_upstream w id (if healthy then report_success e u else report_failure now_ms e u))
        (health_metrics u e healthy (w_metrics w))
  | None => w
  end.

(** After the connect: the report, and on success the PROXY header to send. *)
Definition hc_connected (now_ms : N) (client_addr : SocketAddr) (p : Pending) (o : ConnectOutcome) (w : World)
    : World * result StreamError bytes :=
  match o with
  | Connected =>
      let w := report now_ms true (pd_upstream p) (pd_backend p) w in
      let m := metric_inc (STREAM_CONNECT_DURATION (pd_name p)) (w_metrics w) in
      let m := metric_inc (STREAM_CONNECTIONS_TOTAL (pd_name p)) m in
      (with_metrics w m,
       Ok (match sp_proxy_protocol (w_proxy w) with
           | Some version => encode version client_addr (sp_local_addr (w_proxy w))
           | None => []
           end))
  | ConnectFailed e =>
      let w := report now_ms false (pd_upstream p) (pd_backend p) w in
      ((fail_connection "connect" e w).1, Err e)
  | ConnectTimeout =>
      let w := report now_ms false (pd_upstream p) (pd_backend p) w in
      let e := IoError (transport (pd_backend p) +:+ " backend '" +:+ show_backend (pd_backend p) +:+
                        "' connect timed out after " +:+ show_N (sp_connect_timeout_ms (w_proxy w)) +:+ "ms") in
      ((fail_connection "connect_timeout" e w).1, Err e)
  end.

Inductive Transfer := HeaderWriteFailed (e : StreamError) | Copied (rx tx : N) | TransferError.

(** The copy, with the bytes of each direction or an error. *)
Definition copy_userspace (copied : option (N * N)) (m : Metrics) : Metrics :=
  match copied with
  | Some (rx, tx) => metric_add (STREAM_BYTES_TOTAL "tx") (Z.of_N tx) (metric_add (STREAM_BYTES_TOTAL "rx") (Z.of_N rx) m)
  | None => metric_inc (STREAM_CONNECTION_ERRORS_TOTAL "transfer") m
  end.

(** The header write, the copy and the guard's drop. *)
Definition hc_finish (p : Pending) (t : Transfer) (w : World) : World * result StreamError unit :=
  match t with
  | HeaderWriteFailed e => (guard_drop (Some (pd_name p)) w, Err e)
  | Copied rx tx =>
      let m := copy_userspace (Some (rx, tx)) (metric_inc (STREAM_PROXY_PATH_TOTAL "userspace") (w_metrics w)) in
      (guard_drop (Some (pd_name p)) (with_metrics w m), Ok tt)
  | TransferError =>
      let m := copy_userspace None (metric_inc (STREAM_PROXY_PATH_TOTAL "userspace") (w_metrics w)) in
      (guard_drop (Some (pd_name p)) (with_metrics w m), Ok tt)
  end.

(** The whole handler, uninterrupted. *)
Definition handle_connection (now_ms : N) (client_addr : SocketAddr) (peek : result StreamError bytes)
    (o : ConnectOutcome) (t : Transfer) (w : World) : option (World * result StreamError unit) :=
  match hc_route now_ms peek w with
  | None => None
  | Some (w, inl e) => Some (w, Err e)
  | Some (w, inr p) =>
      match hc_connected now_ms client_addr p o w with
      | (w, Err e) => Some (w, Err e)
      | (w, Ok _) => Some (hc_finish p t w)
      end
  end.

(** ** Accounting *)

(** The error series a connection counts, by where it ends. *)
Definition error_series (now_ms : N) (peek : result StreamError bytes) (o : ConnectOutcome)
    (t : Transfer) (w : World) : option string :=
  match peek, hc_route now_ms peek w with
  | Ok _, Some (_, inl _) => Some "routing"
  | Ok _, Some (_, inr _) =>
      match o, t with
      | ConnectFailed _, _ => Some "connect"
      | ConnectTimeout, _ => Some "connect_timeout"
      | Connected, TransferError => Some "transfer"
      | Connected, _ => None
      end
  | _, _ => None
  end.

(** A series that routing, reporting and connecting leave alone. *)
Definition other_series (k : list string) : Prop :=
  ∀ a b c r, STREAM_SNI_EXTRACTIONS_TOTAL a ≠ k ∧ STREAM_UPSTREAM_HEALTH a b ≠ k ∧
    STREAM_HEALTH_TRANSITIONS a b c ≠ k ∧ STREAM_CONNECT_DURATION a ≠ k ∧ STREAM_CONNECTIONS_TOTAL a ≠ k ∧
    STREAM_CONNECTION_DURATION a ≠ k ∧ STREAM_BYTES_TOTAL a ≠ k ∧ STREAM_PROXY_PATH_TOTAL r ≠ k.

Lemma other_series_errors k : other_series (STREAM_CONNECTION_ERRORS_TOTAL k).
Proof. by repeat split. Qed.
Lemma other_series_active : other_series STREAM_CONNECTIONS_ACTIVE.
Proof. by repeat split. Qed.

Lemma health_metrics_other u e b m k : other_series k → metric (health_metrics u e b m) k = metric m k.
Proof.
  intros Hk. unfold health_metrics. destruct (find_first _ _) as [h|]; [|done].
  destruct (Bool.eqb _ _); [done|]. unfold metric_inc.
  rewrite metric_add_other, metric_set_other; [done|apply (Hk _ _ "" "")|apply (Hk _ _ _ "")].
Qed.

Lemma report_metrics now b id e w k :
  other_series k → metric (w_metrics (report now b id e w)) k = metric (w_metrics w) k.
Proof.
  intros Hk. unfold report. destruct (w_heap w !! id); [|done]. cbn. by apply health_metrics_other.
Qed.

Lemma take_source_ip_metrics b w ip w' : take_source_ip b w = Some (ip, w') → w_metrics w' = w_metrics w.
Proof.
  unfold take_source_ip. destruct b, (sp_source_ip_pool (w_proxy w)) as [pool|]; cbn; try (intros [= <- <-]; done).
  destruct (next_ip pool) as [[ip' pool']|]; cbn; [|done]. by intros [= <- <-].
Qed.

Lemma hc_route_metrics now peek w w' r k :
  hc_route now peek w = Some (w', r) → other_series k →
  metric (w_metrics w') k =
    (metric (w_metrics w) k
     + (match r with inr _ => if bool_decide (k = STREAM_CONNECTIONS_ACTIVE) then 1 else 0 | inl _ => 0 end)
     + (match r, peek with
        | inl _, Ok _ => if bool_decide (k = STREAM_CONNECTION_ERRORS_TOTAL "routing") then 1 else 0
        | _, _ => 0
        end))%Z.
Proof.
  unfold hc_route. intros H Hk.
  assert (∀ r, metric_inc (STREAM_SNI_EXTRACTIONS_TOTAL r) = metric_add (STREAM_SNI_EXTRACTIONS_TOTAL r) 1) as He by done.
  destruct peek as [peeked|e]; [|simplify_eq; cbn; unfold metric_inc, metric_dec;
    rewrite !metric_add_eq; repeat case_bool_decide; simplify_eq; lia].
  set (res := sni_result peeked (extract_sni peeked)) in *.
  assert (STREAM_SNI_EXTRACTIONS_TOTAL res ≠ k) as Hne by apply (Hk res "" "" "").
  destruct (match_sni _ _) as [name|].
  - cbn in H. destruct (sp_upstreams (w_proxy w) !! name) as [id|].
    + run_bind H. destruct (next_server now u) as [[b u']|]; cbn in H; [|done].
      destruct (take_source_ip _ _) as [[ip w2]|] eqn:Et; cbn in H; [|done]. simplify_eq.
      rewrite (take_source_ip_metrics _ _ _ _ Et). cbn. unfold metric_inc.
      rewrite metric_add_other by done. rewrite metric_add_eq. repeat case_bool_decide; simplify_eq; lia.
    + unfold fail_connection in H. simplify_eq. cbn. unfold metric_inc, metric_dec. rewrite !metric_add_eq.
      repeat case_bool_decide; simplify_eq; lia.
  - unfold fail_connection in H. simplify_eq. cbn. unfold metric_inc, metric_dec. rewrite !metric_add_eq.
    repeat case_bool_decide; simplify_eq; lia.
Qed.

Lemma error_series_eq s t :
  bool_decide (STREAM_CONNECTION_ERRORS_TOTAL s = STREAM_CONNECTION_ERRORS_TOTAL t)
  = bool_decide (Some t = Some s).
Proof. apply bool_decide_ext. split; [by intros [= ->]|by intros [= ->]]. Qed.

Lemma error_series_active s :
  bool_decide (STREAM_CONNECTION_ERRORS_TOTAL s = STREAM_CONNECTIONS_ACTIVE) = false.
Proof. by apply bool_decide_eq_false. Qed.

Ltac account Ha He :=
  cbn [guard_drop w_metrics with_metrics]; unfold metric_inc, metric_dec;
  repeat first
    [ rewrite metric_add_same | rewrite metric_add_other by done | rewrite Ha | rewrite He
    | rewrite metric_add_eq | rewrite error_series_eq ];
  repeat case_bool_decide; try done; try lia.

(** Whatever the network does (an unreadable client, no route, a refused or
    timed-out backend, a failed header write, a transfer error), handling a
    connection leaves the active-connections gauge as it found it, and counts the
    connection in exactly the error series of the point where it ended, if any. *)
Theorem handle_connection_accounting now client peek o t w w' r :
  handle_connection now client peek o t w = Some (w', r) →
  metric (w_metrics w') STREAM_CONNECTIONS_ACTIVE = metric (w_metrics w) STREAM_CONNECTIONS_ACTIVE ∧
  ∀ s, metric (w_metrics w') (STREAM_CONNECTION_ERRORS_TOTAL s) =
       (metric (w_metrics w) (STREAM_CONNECTION_ERRORS_TOTAL s)
        + if bool_decide (error_series now peek o t w = Some s) then 1 else 0)%Z.
Proof.
  unfold handle_connection, error_series.
  destruct (hc_route now peek w) as [[w1 [e|p]]|] eqn:Hr; [| |done].
  - intros [= <- <-]. split.
    + rewrite (hc_route_metrics _ _ _ _ _ _ Hr other_series_active). destruct peek; solve_metrics.
    + intros s. rewrite (hc_route_metrics _ _ _ _ _ _ Hr (other_series_errors s)).
      destruct peek; rewrite ?Hr, ?error_series_eq; [lia|]. case_bool_decide; [done|lia].
  - assert (∃ b, peek = Ok b) as [b ->].
    { destruct peek; [eauto|]. by unfold hc_route in Hr. }
    pose proof (hc_route_metrics _ _ _ _ _ _ Hr other_series_active) as Ha. cbn in Ha.
    pose proof (λ s, hc_route_metrics _ _ _ _ _ _ Hr (other_series_errors s)) as He.
    rewrite Hr. clear Hr.
    assert (∀ id e b, metric (w_metrics (report now b id e w1)) STREAM_CONNECTIONS_ACTIVE
              = (metric (w_metrics w) STREAM_CONNECTIONS_ACTIVE + 1)%Z) as Ha'.
    { intros. rewrite report_metrics, Ha, bool_decide_eq_true_2 by (done || apply other_series_active). lia. }
    assert (∀ id e b s, metric (w_metrics (report now b id e w1)) (STREAM_CONNECTION_ERRORS_TOTAL s)
              = metric (w_metrics w) (STREAM_CONNECTION_ERRORS_TOTAL s)) as He'.
    { intros. rewrite report_metrics, He, error_series_active by apply other_series_errors. lia. }
    clear Ha He.
    destruct o as [|e|]; cbn [hc_connected fst fail_connection]; [|intros [= <- <-]..].
    { destruct t; cbn [hc_finish]; intros [= <- <-]; (split; [|intros s]); account Ha' He'. }
    all: split; [|intros s]; account Ha' He'.
Qed.

(** ** The invariant of the running proxy *)

Record World_wf (w : World) : Prop := {
  ww_heap id u : w_heap w !! id = Some u → Upstream_wf u ∧ u_servers u ≠ [] ∧ id < w_next w;
  ww_table name id : sp_upstreams (w_proxy w) !! name = Some id → is_Some (w_heap w !! id);
  ww_routes sni name : match_sni (sp_router (w_proxy w)) sni = Some name →
    is_Some (sp_upstreams (w_proxy w) !! name);
  ww_pool pool : sp_source_ip_pool (w_proxy w) = Some pool → pool_ips pool ≠ []
}.

(** What a proxy does between two looks at it: connections are routed, connect,
    end; valid configurations are reloaded. *)
Inductive world_step : World → World → Prop :=
| world_route now peek w w' r : hc_route now peek w = Some (w', r) → world_step w w'
| world_connected now client p o w w' r : hc_connected now client p o w = (w', r) → world_step w w'
| world_finish p t w w' r : hc_finish p t w = (w', r) → world_step w w'
| world_reload routes config w w' r :
    routes ≡ₚ map_to_list (st_sni_routes config) → validate_stream config = Ok tt →
    stream_reload routes config w = (w', r) → world_step w w'.

Lemma alloc_upstreams_spec l heap next table heap' next' table' :
  alloc_upstreams l heap next table = (heap', next', table') →
  next ≤ next' ∧
  (∀ id, id < next → heap' !! id = heap !! id) ∧
  (∀ id u, heap' !! id = Some u → heap !! id = Some u ∨ (next ≤ id < next' ∧ ∃ name, (name, u) ∈ l)) ∧
  (∀ name id, table' !! name = Some id →
     table !! name = Some id ∨ (next ≤ id < next' ∧ ∃ u, heap' !! id = Some u ∧ (name, u) ∈ l)) ∧
  (∀ name, is_Some (table !! name) ∨ name ∈ l.*1 → is_Some (table' !! name)).
Proof.
  revert heap next table. induction l as [|[n u] l IH]; intros heap next table; cbn [alloc_upstreams].
  { intros [= -> -> ->]. do 2 (split; [done|]). do 2 (split; [by left|]).
    intros name [?|?]; [done|set_solver]. }
  intros H. destruct (IH _ _ _ H) as (Hle&Hold&Hheap&Htab&Hdom). clear IH.
  split; [lia|]. split; [|split; [|split]].
  - intros id Hid. rewrite Hold by lia. apply lookup_insert_ne. lia.
  - intros id v Hv. apply Hheap in Hv as [Hv|(?&name&?)]; [|right; split; [lia|]; exists name; set_solver].
    apply lookup_insert_Some in Hv as [[<- <-]|[_ Hv]]; [|by left].
    right. split; [lia|]. exists n. set_solver.
  - intros name id Hid. apply Htab in Hid as [Hid|(?&v&?&?)]; [|right; split; [lia|]; exists v; set_solver].
    apply lookup_insert_Some in Hid as [[<- <-]|[_ Hid]]; [|by left]. right. split; [lia|].
    exists u. split; [|set_solver]. rewrite Hold by lia. apply lookup_insert_eq.
  - intros name Hname. apply Hdom. rewrite lookup_insert_is_Some'. cbn in Hname. set_solver.
Qed.

Lemma parse_upstreams_Ok config ups :
  parse_upstreams config = Ok ups →
  ups.*1 = su_name <$> st_upstreams config ∧
  ∀ name u, (name, u) ∈ ups → Upstream_wf u ∧ u_counter u = 0%N ∧
    Forall (λ h, bh_healthy h = true) (u_health u) ∧
    ∃ c, c ∈ st_upstreams config ∧ length (u_servers u) = length (su_servers c).
Proof.
  unfold parse_upstreams. rewrite try_map_Ok. intros H. split.
  - induction H as [|c [n u] cs us Hc _ IH]; [done|]. csimpl. rewrite IH.
    destruct (parse_backend_endpoints (su_servers c)); cbn in Hc; by simplify_eq.
  - intros name u Hin. apply list_elem_of_lookup in Hin as [i Hi].
    destruct (Forall2_lookup_r _ _ _ _ _ H Hi) as (c&Hc&He).
    destruct (parse_backend_endpoints (su_servers c)) as [servers|] eqn:Es; cbn in He; simplify_eq.
    split; [apply Upstream_with_cooldown_wf|]. split; [done|]. split.
    + cbn. rewrite Forall_fmap. by apply Forall_true.
    + exists c. split; [by eapply list_elem_of_lookup_2|]. cbn.
      unfold parse_backend_endpoints in Es. apply try_map_Ok, Forall2_length in Es. done.
Qed.

Lemma match_sni_range routes d sni name :
  match_sni (SniRouter_new routes d) sni = Some name → (∃ p, (p, name) ∈ routes) ∨ d = Some name.
Proof.
  unfold match_sni. destruct sni as [h|]; [|by right].
  destruct (find_first _ _) as [[p u]|] eqn:Hf; [|by right]. intros [= ->]. left.
  apply find_first_Some_elem in Hf as [Hin _]. cbn in Hin.
  rewrite (elem_of_sort_by route_cmp), list_elem_of_fmap in Hin. destruct Hin as ([k v]&[= -> ->]&Hin). eauto.
Qed.

(** The tables of a valid configuration: every route has an upstream with servers. *)
Lemma built_routes config ups routes heap next table heap' next' table' sni name :
  validate_stream config = Ok tt → parse_upstreams config = Ok ups →
  routes ≡ₚ map_to_list (st_sni_routes config) →
  alloc_upstreams ups heap next table = (heap', next', table') →
  match_sni (SniRouter_new routes (st_default_upstream config)) sni = Some name →
  is_Some (table' !! name).
Proof.
  intros (Hd&Hs&_)%validate_stream_Ok Hp Hr Ha Hm.
  destruct (alloc_upstreams_spec _ _ _ _ _ _ _ Ha) as (_&_&_&_&Hdom). apply Hdom. right.
  rewrite (proj1 (parse_upstreams_Ok _ _ Hp)).
  apply match_sni_range in Hm as [[p Hm]|Hm]; [|by apply Hd].
  rewrite Hr in Hm. apply elem_of_map_to_list in Hm. by eapply Hs.
Qed.

Lemma built_heap config ups heap next table heap' next' table' :
  validate_stream config = Ok tt → parse_upstreams config = Ok ups →
  alloc_upstreams ups heap next table = (heap', next', table') →
  (∀ id u, heap !! id = Some u → Upstream_wf u ∧ u_servers u ≠ [] ∧ id < next) →
  ∀ id u, heap' !! id = Some u → Upstream_wf u ∧ u_servers u ≠ [] ∧ id < next'.
Proof.
  intros Hv Hp Ha Hh id u Hu.
  destruct (alloc_upstreams_spec _ _ _ _ _ _ _ Ha) as (Hle&_&Hheap&_).
  apply Hheap in Hu as [Hu|(?&name&Hin)]; [apply Hh in Hu; naive_solver lia|].
  destruct (proj2 (parse_upstreams_Ok _ _ Hp) name u Hin) as (Hwf&_&_&c&Hc&Hl).
  split; [done|]. split; [|lia]. apply validate_stream_Ok in Hv as (_&_&_&Hs).
  specialize (Hs c Hc). intros Hz. rewrite Hz in Hl. by destruct (su_servers c).
Qed.

Lemma from_config_wf routes config m w :
  routes ≡ₚ map_to_list (st_sni_routes config) → validate_stream config = Ok tt →
  from_config routes config m = Ok w → World_wf w.
Proof.
  intros Hr Hv. unfold from_config. destruct (parse_upstreams config) as [ups|] eqn:Hp; cbn; [|done].
  destruct (parse_socket_addr (st_listen config)) as [a|]; cbn; [|done].
  destruct (alloc_upstreams ups ∅ 0 ∅) as [[heap next] table] eqn:Ha. intros [= <-]. split; cbn.
  - eapply built_heap; [done|done|done|]. intros id u Hu. by rewrite lookup_empty in Hu.
  - intros name id Hid. destruct (alloc_upstreams_spec _ _ _ _ _ _ _ Ha) as (_&_&_&Ht&_).
    apply Ht in Hid as [Hid|(_&u&Hu&_)]; [by rewrite lookup_empty in Hid|eauto].
  - intros sni name. by eapply built_routes.
  - intros pool. unfold SourceIpPool_new. destruct (st_source_ips config) as [|ip ips]; [done|].
    cbn. by intros [= <-].
Qed.

Lemma with_upstream_wf w id u u' :
  World_wf w → w_heap w !! id = Some u → Upstream_wf u' → u_servers u' = u_servers u →
  World_wf (with_upstream w id u').
Proof.
  intros [H1 H2 H3 H4] Hu Hwf Hs. split; cbn; [|intros name i Hi|done|done].
  - intros i v [[<- <-]|[_ Hv]]%lookup_insert_Some; [|by apply H1].
    split; [done|]. rewrite Hs. by destruct (H1 _ _ Hu) as (_&?&?).
  - rewrite lookup_insert_is_Some'. right. by eapply H2.
Qed.

Lemma with_metrics_wf w m : World_wf w → World_wf (with_metrics w m).
Proof. intros []. by split. Qed.

Lemma report_wf now b id e w : World_wf w → World_wf (report now b id e w).
Proof.
  intros Hw. unfold report. destruct (w_heap w !! id) as [u|] eqn:Hu; [|done].
  apply with_metrics_wf. pose proof (ww_heap w Hw id u Hu) as (Hwf&_).
  eapply with_upstream_wf; [done|done| |by destruct b].
  destruct b; [by apply report_success_wf|by apply report_failure_wf].
Qed.

Lemma take_source_ip_ok b w : World_wf w → ∃ ip w', take_source_ip b w = Some (ip, w') ∧ World_wf w'.
Proof.
  intros Hw. unfold take_source_ip. destruct b; [|eauto].
  destruct (sp_source_ip_pool (w_proxy w)) as [[ips c]|] eqn:Hp; [|eauto].
  pose proof (ww_pool w Hw _ Hp) as Hne. cbn in Hne.
  unfold next_ip. cbn [pool_ips pool_counter].
  assert (0 < length ips) by (destruct ips; [done|cbn; lia]).
  destruct (N.eqb_spec (N.of_nat (length ips)) 0); [lia|].
  pose proof (N.mod_lt c (N.of_nat (length ips)) ltac:(lia)).
  assert (is_Some (ips !! N.to_nat (c mod N.of_nat (length ips)))) as [ip ->]
    by (apply lookup_lt_is_Some; lia).
  cbn. eexists _, _. split; [done|]. destruct Hw as [H1 H2 H3 H4]. split; cbn; [done..|].
  by intros pool [= <-].
Qed.

(** Routing in a well-formed world: no panic, and the only routing error is that
    nothing matches. *)
Lemma hc_route_ok now peek w :
  World_wf w →
  ∃ w' r, hc_route now peek w = Some (w', r) ∧ World_wf w' ∧
    match r with
    | inl e => peek = Err e ∨ e = RoutingError "No matching upstream"
    | inr p => ∃ u, w_heap w !! pd_upstream p = Some u ∧ pd_backend p ∈ u_servers u
    end.
Proof.
  intros Hw. unfold hc_route. destruct peek as [peeked|e].
  2: { eexists _, _. split; [done|]. split; [|by left]. by do 2 apply with_metrics_wf. }
  set (w1 := with_metrics _ _). assert (World_wf w1) as Hw1 by (by do 2 apply with_metrics_wf).
  destruct (match_sni (sp_router (w_proxy w1)) (extract_sni peeked)) as [name|] eqn:Hm.
  2: { eexists _, _. split; [done|]. split; [|by right]. by do 2 apply with_metrics_wf. }
  destruct (ww_routes w1 Hw1 _ _ Hm) as [id Hid]. rewrite Hid.
  destruct (ww_table w1 Hw1 _ _ Hid) as [u Hu]. rewrite Hu. cbn [mbind option_bind].
  destruct (ww_heap w1 Hw1 _ _ Hu) as (Huwf&Hne&_).
  destruct (next_server_eq now u Hne) as (i&b&Hn&Hb&_). rewrite Hn. cbn [mbind option_bind].
  assert (World_wf (with_upstream w1 id (with_counter u (wrapping_add_usize (u_counter u) 1)))) as Hw2
    by (by eapply with_upstream_wf).
  destruct (take_source_ip_ok b _ Hw2) as (ip&w3&Ht&Hw3). rewrite Ht. cbn [mbind option_bind].
  eexists _, _. split; [done|]. split; [done|]. cbn. exists u. split; [exact Hu|].
  by eapply list_elem_of_lookup_2.
Qed.

Lemma world_step_wf w w' : world_step w w' → World_wf w → World_wf w'.
Proof.
  intros Hs Hw. destruct Hs as [now peek w w' r H|now client p o w w' r H|p t w w' r H|routes config w w' r Hr Hv H].
  - destruct (hc_route_ok now peek w Hw) as (w2&r2&H2&Hw2&_). by simplify_eq.
  - destruct o; cbn in H; simplify_eq; repeat apply with_metrics_wf; by apply report_wf.
  - destruct t; cbn in H; simplify_eq; by repeat apply with_metrics_wf.
  - unfold stream_reload in H. destruct (parse_upstreams config) as [ups|] eqn:Hp; [|by simplify_eq].
    destruct (alloc_upstreams ups (w_heap w) (w_next w) ∅) as [[heap next] table] eqn:Ha. simplify_eq.
    destruct Hw as [H1 H2 H3 H4]. split; cbn.
    + by eapply built_heap.
    + intros name id Hid. destruct (alloc_upstreams_spec _ _ _ _ _ _ _ Ha) as (_&_&_&Ht&_).
      apply Ht in Hid as [Hid|(_&u&Hu&_)]; [by rewrite lookup_empty in Hid|eauto].
    + intros sni name. by eapply built_routes.
    + done.
Qed.

(** C17: a proxy built from a validated stream configuration, after any
    connections, failures and reloads of validated configurations, routes every
    client without a panic: the matched name always has an upstream, the upstream
    always has a server, and the only routing failure is that nothing matches. *)
Theorem stream_routing_never_panics routes config m w0 w now peek :
  routes ≡ₚ map_to_list (st_sni_routes config) → validate_stream config = Ok tt →
  from_config routes config m = Ok w0 → rtc world_step w0 w →
  ∃ w' r, hc_route now peek w = Some (w', r) ∧
    match r with
    | inl e => peek = Err e ∨ e = RoutingError "No matching upstream"
    | inr p => ∃ u, w_heap w !! pd_upstream p = Some u ∧ pd_backend p ∈ u_servers u
    end.
Proof.
  intros Hr Hv Hf Hsteps. assert (World_wf w) as Hw.
  { apply from_config_wf in Hf; [|done..]. induction Hsteps as [|w1 w2 w3 Hs _ IH]; [done|].
    apply IH. by eapply world_step_wf. }
  destruct (hc_route_ok now peek w Hw) as (w'&r&H1&_&H2). eauto.
Qed.

(** A reload that fails leaves the proxy as it was; one that succeeds gives it
    new upstreams, all healthy with their counters at zero, and outcomes reported
    later by connections routed before the reload do not touch them. *)
Theorem reload_isolates routes config w w' r :
  World_wf w → stream_reload routes config w = (w', r) →
  match r with
  | Err _ => w' = w
  | Ok _ =>
      (∀ name id, sp_upstreams (w_proxy w') !! name = Some id → ∃ u, w_heap w' !! id = Some u ∧
         u_counter u = 0%N ∧ Forall (λ h, bh_healthy h = true) (u_health u)) ∧
      (∀ now client p o name id, is_Some (w_heap w !! pd_upstream p) →
         sp_upstreams (w_proxy w') !! name = Some id →
         w_heap (hc_connected now client p o w').1 !! id = w_heap w' !! id)
  end.
Proof.
  intros Hw H. unfold stream_reload in H. destruct (parse_upstreams config) as [ups|] eqn:Hp; [|by simplify_eq].
  destruct (alloc_upstreams ups (w_heap w) (w_next w) ∅) as [[heap next] table] eqn:Ha. simplify_eq. cbn.
  destruct (alloc_upstreams_spec _ _ _ _ _ _ _ Ha) as (_&_&_&Ht&_). split.
  - intros name id Hid. apply Ht in Hid as [Hid|(_&u&Hu&Hin)]; [by rewrite lookup_empty in Hid|].
    exists u. split; [done|]. destruct (proj2 (parse_upstreams_Ok _ _ Hp) name u Hin) as (_&?&?&_). done.
  - intros now client p o name id [u Hu] Hid.
    apply Ht in Hid as [Hid|(Hge&_)]; [by rewrite lookup_empty in Hid|].
    apply (ww_heap w Hw) in Hu as (_&_&Hlt).
    assert (∀ b w, w_heap (report now b (pd_upstream p) (pd_backend p) w) !! id = w_heap w !! id) as Hrep.
    { intros b w2. unfold report. destruct (w_heap w2 !! pd_upstream p); [|done]. cbn.
      apply lookup_insert_ne. lia. }
    destruct o; cbn; by rewrite Hrep.
Qed.

(** ** The accept loop

    [run] between two polls: the permits left, the tasks that hold one (or none
    when there is no limit), the task counter, and what the loop is doing.  An error of
    the listener is returned at once: the loop ends without a drain. *)

Inductive RunPhase := RunAccepting | RunDraining | RunFailed (e : string).

Record RunState := mkRunState {
  rs_permits : option N;
  rs_tasks : gset nat;
  rs_panicked : N;
  rs_active_tasks : N;
  rs_phase : RunPhase;
  rs_rejected : N
}.

Definition run_init (p : StreamProxy) : RunState := mkRunState (sp_max_permits p) ∅ 0 0 RunAccepting 0.

(** A new connection, as task [id]: rejected without a permit, else spawned. *)
Definition accept (id : nat) (s : RunState) : RunState :=
  match rs_permits s with
  | Some 0%N =>
      mkRunState (rs_permits s) (rs_tasks s) (rs_panicked s) (rs_active_tasks s) (rs_phase s)
        (rs_rejected s + 1)
  | p =>
      mkRunState ((λ n, (n - 1)%N) <$> p) ({[id]} ∪ rs_tasks s) (rs_panicked s)
        (rs_active_tasks s + 1) (rs_phase s) (rs_rejected s)
  end.

(** The counter of rejected connections. *)
Definition accept_metrics (s : RunState) (m : Metrics) : Metrics :=
  match rs_permits s with Some 0%N => metric_inc STREAM_CONNECTIONS_REJECTED_TOTAL m | _ => m end.

(** A task that ends gives its permit back; one that panics does not reach the
    decrement of the counter. *)
Definition task_done (id : nat) (panicked : bool) (s : RunState) : RunState :=
  mkRunState ((λ n, (n + 1)%N) <$> rs_permits s) (rs_tasks s ∖ {[id]})
    (if panicked then rs_panicked s + 1 else rs_panicked s)%N
    (if panicked then rs_active_tasks s else rs_active_tasks s - 1)%N
    (rs_phase s) (rs_rejected s).

Definition shutdown (s : RunState) : RunState :=
  mkRunState (rs_permits s) (rs_tasks s) (rs_panicked s) (rs_active_tasks s) RunDraining (rs_rejected s).
Definition accept_failed (e : string) (s : RunState) : RunState :=
  mkRunState (rs_permits s) (rs_tasks s) (rs_panicked s) (rs_active_tasks s) (RunFailed e) (rs_rejected s).

Inductive run_step : RunState → RunState → Prop :=
| run_accept id s : rs_phase s = RunAccepting → id ∉ rs_tasks s → run_step s (accept id s)
| run_accept_failed e s : rs_phase s = RunAccepting → run_step s (accept_failed e s)
| run_task_done id panicked s : id ∈ rs_tasks s → run_step s (task_done id panicked s)
| run_shutdown s : rs_phase s = RunAccepting → run_step s (shutdown s).

(** Permits left and permits held add up to the limit; the counter counts the live
    tasks and those that panicked. *)
Definition run_inv (limit : option N) (s : RunState) : Prop :=
  match limit, rs_permits s with
  | Some max, Some n => (n + N.of_nat (size (rs_tasks s)) = max)%N
  | None, None => True
  | _, _ => False
  end ∧
  rs_active_tasks s = (N.of_nat (size (rs_tasks s)) + rs_panicked s)%N.

Lemma run_inv_init p : run_inv (sp_max_permits p) (run_init p).
Proof. split; cbn; [|by rewrite size_empty]. destruct (sp_max_permits p); [|done]. rewrite size_empty. lia. Qed.

Lemma size_remove (X : gset nat) id : id ∈ X → N.of_nat (size X) = (N.of_nat (size (X ∖ {[id]})) + 1)%N.
Proof.
  intros H. rewrite size_difference by set_solver. rewrite size_singleton.
  assert (size X ≠ 0); [|lia]. intros Hz. apply size_empty_inv in Hz. set_solver.
Qed.

Lemma size_add (X : gset nat) id : id ∉ X → N.of_nat (size ({[id]} ∪ X)) = (N.of_nat (size X) + 1)%N.
Proof. intros H. rewrite size_union by set_solver. rewrite size_singleton. lia. Qed.

Lemma run_step_inv limit s s' : run_step s s' → run_inv limit s → run_inv limit s'.
Proof.
  intros Hs [H1 H2]. destruct Hs as [id s Ha Hid|e s Ha|id b s Hid|s Ha]; [|done| |done].
  - unfold accept. pose proof (size_add _ _ Hid) as Hsz.
    destruct limit as [max|], (rs_permits s) as [[|n]|] eqn:Hp; try done;
      split; cbn; rewrite ?Hp, ?Hsz; try done; lia.
  - pose proof (size_remove _ _ Hid) as Hsz. split; cbn.
    + destruct limit, (rs_permits s); cbn; try done. lia.
    + destruct b; lia.
Qed.

(** C35: the connection limit, in every reachable state of the accept loop of a proxy
    built from a configuration.  With [max_connections] above zero the live connections
    never exceed it, and a new client is turned away exactly when that many are live;
    with zero, which means no limit, none is turned away.  The counter the drain waits
    for is the number of live connections plus the number of tasks that panicked. *)
Theorem connection_limit_invariant routes config m w s id :
  from_config routes config m = Ok w → rtc run_step (run_init (w_proxy w)) s →
  ((0 < st_max_connections config)%N →
     (N.of_nat (size (rs_tasks s)) ≤ st_max_connections config)%N ∧
     (id ∉ rs_tasks s → id ∉ rs_tasks (accept id s) ↔ N.of_nat (size (rs_tasks s)) = st_max_connections config)) ∧
  (st_max_connections config = 0%N → id ∈ rs_tasks (accept id s)) ∧
  rs_active_tasks s = (N.of_nat (size (rs_tasks s)) + rs_panicked s)%N.
Proof.
  intros Hf Hr. assert (sp_max_permits (w_proxy w) = semaphore (st_max_connections config)) as Hsem.
  { unfold from_config in Hf. destruct (parse_upstreams config); cbn in Hf; [|done].
    destruct (ok_or _ _); cbn in Hf; [|done]. destruct (alloc_upstreams _ _ _ _) as [[??]?]. by simplify_eq. }
  assert (run_inv (sp_max_permits (w_proxy w)) s) as [H1 H2].
  { pose proof (run_inv_init (w_proxy w)) as Hi. induction Hr as [|s1 s2 s3 Hs _ IH]; [done|].
    apply IH. by eapply run_step_inv. }
  rewrite Hsem in H1. unfold semaphore in H1. split_and!; [| |done].
  - intros Hm. destruct (N.ltb_spec 0 (st_max_connections config)); [|lia]. destruct (rs_permits s) as [n|] eqn:Hp; [|done].
    split; [lia|]. intros Hid. unfold accept. rewrite Hp. destruct n as [|n]; cbn.
    + split; [lia|done].
    + split; [set_solver|lia].
  - intros Hm. rewrite Hm in H1. destruct (rs_permits s) as [n|] eqn:Hp; [done|].
    unfold accept. rewrite Hp. cbn. set_solver.
Qed.

(** One failed [accept] ends a stream.  Whatever the error of the listener was, from
    then on the loop is over although nobody asked it to shut down: no later connection is
    accepted or even rejected, and the connections that live only end, undrained. *)
Theorem accept_error_ends_stream e s s' :
  rtc run_step (accept_failed e s) s' →
  rs_phase s' = RunFailed e ∧ rs_tasks s' ⊆ rs_tasks s ∧ rs_rejected s' = rs_rejected s.
Proof.
  intros Hr. assert (∀ s1, rtc run_step s1 s' → rs_phase s1 = RunFailed e →
    rs_phase s' = RunFailed e ∧ rs_tasks s' ⊆ rs_tasks s1 ∧ rs_rejected s' = rs_rejected s1) as H; [|exact (H _ Hr eq_refl)].
  clear. induction 1 as [s1|s1 s2 s3 Hs _ IH]; intros Hp; [done|].
  destruct Hs as [id s Ha Hid|e' s Ha|id b s Hid|s Ha]; try congruence. destruct (IH Hp) as (H1&H2&H3). cbn in H2, H3. set_solver.
Qed.

(** ** The drain loop

    [remaining i] and [elapsed i] are what the [i]-th round reads from the task
    counter and the clock. *)

Inductive DrainOutcome := Drained | DrainTimedOut (remaining : N).

Fixpoint drain_loop (remaining elapsed : nat → N) (timeout_ms : N) (fuel i : nat) : option DrainOutcome :=
  match fuel with
  | O => None
  | S fuel' =>
      if (remaining i =? 0)%N then Some Drained
      else if (timeout_ms <=? elapsed i)%N then Some (DrainTimedOut (remaining i))
      else drain_loop remaining elapsed timeout_ms fuel' (S i)
  end.

(** With a clock that advances by the 100 ms the loop sleeps, draining ends
    within one round per 100 ms of the timeout, plus one; it reports success only
    when no connection is left, and gives up only once the timeout has passed. *)
Theorem drain_loop_bounded remaining elapsed timeout_ms :
  (∀ i, (elapsed i + 100 ≤ elapsed (S i))%N) →
  ∃ out i, drain_loop remaining elapsed timeout_ms (S (N.to_nat (timeout_ms / 100) + 1)) 0 = Some out ∧
    i ≤ N.to_nat (timeout_ms / 100) + 1 ∧
    match out with
    | Drained => remaining i = 0%N
    | DrainTimedOut n => n = remaining i ∧ (0 < n)%N ∧ (timeout_ms ≤ elapsed i)%N
    end.
Proof.
  intros Hclock. assert (∀ i, (100 * N.of_nat i ≤ elapsed i)%N) as Hel.
  { induction i as [|i IH]; [lia|]. specialize (Hclock i). lia. }
  assert (∀ fuel i, (timeout_ms ≤ 100 * N.of_nat (i + fuel))%N →
    ∃ out j, drain_loop remaining elapsed timeout_ms (S fuel) i = Some out ∧ i ≤ j ≤ i + fuel ∧
      match out with
      | Drained => remaining j = 0%N
      | DrainTimedOut n => n = remaining j ∧ (0 < n)%N ∧ (timeout_ms ≤ elapsed j)%N
      end) as H.
  { induction fuel as [|fuel IH]; intros i Hf; cbn [drain_loop].
    - destruct (N.eqb_spec (remaining i) 0); [exists Drained, i; split; [done|split; [lia|done]]|].
      destruct (N.leb_spec timeout_ms (elapsed i)) as [|Hlt];
        [exists (DrainTimedOut (remaining i)), i; split; [done|split; [lia|split; [done|lia]]]|].
      specialize (Hel i). rewrite Nat.add_0_r in Hf. lia.
    - destruct (N.eqb_spec (remaining i) 0); [exists Drained, i; split; [done|split; [lia|done]]|].
      destruct (N.leb_spec timeout_ms (elapsed i)) as [|Hlt];
        [exists (DrainTimedOut (remaining i)), i; split; [done|split; [lia|split; [done|lia]]]|].
      destruct (IH (S i)) as (out&j&Ho&Hj&Hp); [rewrite <-Nat.add_succ_comm in Hf; lia|].
      exists out, j. split; [exact Ho|]. split; [lia|done]. }
  destruct (H (N.to_nat (timeout_ms / 100) + 1) 0) as (out&j&Ho&Hj&Hp).
  - pose proof (N.div_mod timeout_ms 100). pose proof (N.mod_lt timeout_ms 100). lia.
  - exists out, j. split; [done|]. split; [lia|done].
Qed.

(** ** Witnesses *)

Definition ex_stream : StreamConfig :=
  mkStreamConfig "tls" "0.0.0.0:443" 8000 true PPC_V2 [] (Some "web")
    {["api.example.com" := "api"]}
    [mkStreamUpstreamConfig "web" ["10.0.0.1:443"]; mkStreamUpstreamConfig "api" ["10.0.0.2:443"; "unix:/run/api"]]
    30 5000 2 30.

Definition ex_world : World :=
  match from_config (map_to_list (st_sni_routes ex_stream)) ex_stream ∅ with
  | Ok w => w
  | Err _ => mkWorld ∅ 0 (mkStreamProxy "" (SniRouter_new [] None) ∅ None None (socket_v4 0 0 0 0 0) 0 None 0) ∅
  end.

Lemma ex_world_from_config : from_config (map_to_list (st_sni_routes ex_stream)) ex_stream ∅ = Ok ex_world.
Proof. vm_compute. reflexivity. Qed.

Definition ex_handled : World * result StreamError unit :=
  unwrap_or (ex_world, Ok tt) (handle_connection 7 ex_client (Ok []) ConnectTimeout TransferError ex_world).

Lemma ex_handled_eq :
  handle_connection 7 ex_client (Ok []) ConnectTimeout TransferError ex_world
  = Some (ex_handled.1, ex_handled.2).
Proof.
  unfold ex_handled. assert (is_some (handle_connection 7 ex_client (Ok []) ConnectTimeout TransferError ex_world)
    = true) as H by (vm_compute; reflexivity).
  revert H. generalize (handle_connection 7 ex_client (Ok []) ConnectTimeout TransferError ex_world).
  by intros [[]|].
Qed.

Lemma handle_connection_accounting_witness :
  metric (w_metrics ex_handled.1) STREAM_CONNECTIONS_ACTIVE
  = metric (w_metrics ex_world) STREAM_CONNECTIONS_ACTIVE.
Proof.
  exact (proj1 (handle_connection_accounting 7 ex_client (Ok []) ConnectTimeout TransferError ex_world
                  ex_handled.1 ex_handled.2 ex_handled_eq)).
Defined.

Lemma stream_routing_never_panics_witness : ∃ w' r, hc_route 7 (Ok [x16]) ex_world = Some (w', r).
Proof.
  destruct (stream_routing_never_panics (map_to_list (st_sni_routes ex_stream)) ex_stream ∅ ex_world ex_world
              7 (Ok [x16])) as (w'&r&H&_).
  - reflexivity.
  - vm_compute. reflexivity.
  - exact ex_world_from_config.
  - apply rtc_refl.
  - exists w', r. exact H.
Defined.

Lemma reload_isolates_witness :
  ∃ id u, sp_upstreams (w_proxy (stream_reload [] ex_stream ex_world).1) !! "api" = Some id ∧
    w_heap (stream_reload [] ex_stream ex_world).1 !! id = Some u ∧
    u_counter u = 0%N ∧ Forall (λ h, bh_healthy h = true) (u_health u).
Proof.
  assert (is_Some (sp_upstreams (w_proxy (stream_reload [] ex_stream ex_world).1) !! "api")) as [id Hid]
    by (vm_compute; eauto).
  exists id. destruct (reload_isolates [] ex_stream ex_world (stream_reload [] ex_stream ex_world).1 (Ok tt)) as [Hnew _].
  - apply (from_config_wf (map_to_list (st_sni_routes ex_stream)) ex_stream ∅);
      [reflexivity|vm_compute; reflexivity|exact ex_world_from_config].
  - vm_compute. reflexivity.
  - destruct (Hnew "api" id Hid) as (u&Hu). exists u. split; [exact Hid|exact Hu].
Defined.

Lemma connection_limit_invariant_witness :
  let s := accept 1 (run_init (w_proxy ex_world)) in
  rs_active_tasks s = (N.of_nat (size (rs_tasks s)) + rs_panicked s)%N ∧ (N.of_nat (size (rs_tasks s)) ≤ 2)%N.
Proof.
  intros s.
  destruct (connection_limit_invariant (map_to_list (st_sni_routes ex_stream)) ex_stream ∅ ex_world s 5) as (H1&_&H2).
  - exact ex_world_from_config.
  - apply rtc_once, run_accept; [vm_compute; reflexivity|set_solver].
  - split; [exact H2|]. apply H1. reflexivity.
Defined.

Lemma accept_error_ends_stream_witness :
  let s := accept 1 (run_init (w_proxy ex_world)) in
  let s' := task_done 1 false (accept_failed "Too many open files" s) in
  rs_phase s' = RunFailed "Too many open files" ∧ rs_tasks s' ⊆ rs_tasks s ∧ rs_rejected s' = rs_rejected s.
Proof.
  apply (accept_error_ends_stream "Too many open files").
  apply rtc_once, run_task_done. cbn. set_solver.
Defined.

Lemma drain_loop_bounded_witness :
  ∃ out i, drain_loop (λ _, 1%N) (λ i, (100 * N.of_nat i)%N) 250 4 0 = Some out ∧ i ≤ 3.
Proof.
  destruct (drain_loop_bounded (λ _, 1%N) (λ i, (100 * N.of_nat i)%N) 250) as (out&i&H1&H2&_); [lia|].
  exists out, i. split; [exact H1|exact H2].
Defined.
