(* ===== verification/Sockets.v ===== *)
(** * Sockets of the stream proxy (crates/wicket-stream/src/listener.rs, pool.rs, and the
      connects of proxy.rs)

    The system calls behind a listener and behind the connection to a backend, with the
    kernel's answers as a parameter; what is proved relies on one documented answer, that
    a socket cannot be bound to an address of the other family. *)

From S2P Require Import Prelude Str Num Bytes Net Metrics Config StreamUpstream StreamProxy.

Record ListenerConfig := mkListenerConfig { lc_addr : SocketAddr; lc_backlog : N; lc_reuseport : bool }.

Definition ListenerConfig_default : ListenerConfig := mkListenerConfig (socket_v4 0 0 0 0 443) 8000 true.

Inductive Domain := DomainV4 | DomainV6.
#[global] Instance Domain_eq_dec : EqDecision Domain.
Proof. solve_decision. Defined.

Definition domain_of (ip : IpAddr) : Domain := match ip with IpV4 _ => DomainV4 | IpV6 _ => DomainV6 end.

(** [as i32]. *)
Definition u32_as_i32 (n : N) : Z := ((Z.of_N n + 2147483648) mod 4294967296 - 2147483648)%Z.

Inductive ConnectAnswer := ConnectedNow | InProgress | ConnectRefused (e : string).

(** How the kernel answers: [Some] is an error. *)
Record Kernel := mkKernel {
  k_socket : Domain → option string;
  k_reuse_address : option string;
  k_reuse_port : option string;
  k_bind_no_port : Domain → option string;
  k_bind : Domain → IpAddr → N → option string;
  k_listen : Z → option string;
  k_nonblocking : option string;
  k_connect : SocketAddr → ConnectAnswer;
  k_from_std : option string;
  k_writable : option string;
  k_take_error : result string (option string);
  k_tcp_connect : SocketAddr → option string;
  k_unix_connect : string → option string
}.

Definition io_check (e : option string) : result string unit := match e with Some e => Err e | None => Ok tt end.

Section kernel.
Context (k : Kernel).

(** The listener that is returned, as what was asked of the kernel. *)
Definition create_listener (config : ListenerConfig) : result string (Domain * SocketAddr * Z) :=
  let addr := lc_addr config in
  let domain := domain_of (sock_ip addr) in
  io_check (k_socket k domain) ≫= λ _,
  io_check (k_reuse_address k) ≫= λ _,
  (if lc_reuseport config then io_check (k_reuse_port k) else Ok tt) ≫= λ _,
  io_check (k_bind k domain (sock_ip addr) (sock_port addr)) ≫= λ _,
  io_check (k_listen k (u32_as_i32 (lc_backlog config))) ≫= λ _,
  io_check (k_nonblocking k) ≫= λ _,
  Ok (domain, addr, u32_as_i32 (lc_backlog config)).

Definition into_tokio_listener {A} (listener : A) : result string A := io_check (k_from_std k) ≫= λ _, Ok listener.

(** Linux: the port is chosen when the socket connects. *)
Definition configure_outbound_socket (domain : Domain) (source_ip : IpAddr) : result string unit :=
  io_check (k_bind_no_port k domain) ≫= λ _, io_check (k_bind k domain source_ip 0).

(** With the source address the pool gave, if there is a pool. *)
Definition connect_tcp_backend (source_ip : option IpAddr) (addr : SocketAddr) : result string unit :=
  match source_ip with
  | Some ip =>
      let domain := domain_of (sock_ip addr) in
      io_check (k_socket k domain) ≫= λ _,
      configure_outbound_socket domain ip ≫= λ _,
      io_check (k_nonblocking k) ≫= λ _,
      match k_connect k addr with ConnectedNow | InProgress => Ok tt | ConnectRefused e => Err e end ≫= λ _,
      io_check (k_from_std k) ≫= λ _,
      io_check (k_writable k) ≫= λ _,
      k_take_error k ≫= io_check
  | None => io_check (k_tcp_connect k addr)
  end.

(** [StreamError]'s text of an I/O error. *)
Definition io_error_text (e : string) : string := "IO error: " +:+ e.

Definition connect_unix_backend (endpoint : StreamBackendAddr) (path : string) : result StreamError unit :=
  map_err (λ e, ConnectionError ("failed to connect Unix stream backend '" +:+ show_backend endpoint +:+ "': " +:+ e))
    (io_check (k_unix_connect k path)).

Definition connect_backend (source_ip : option IpAddr) (endpoint : StreamBackendAddr) : result StreamError unit :=
  match endpoint with
  | Backend_Tcp addr =>
      map_err (λ e, ConnectionError ("failed to connect TCP stream backend '" +:+ show_backend endpoint +:+ "': " +:+ io_error_text e))
        (connect_tcp_backend source_ip addr)
  | Backend_Unix path => connect_unix_backend endpoint path
  end.

Definition connect_outcome (source_ip : option IpAddr) (endpoint : StreamBackendAddr) : ConnectOutcome :=
  match connect_backend source_ip endpoint with Ok _ => Connected | Err e => ConnectFailed e end.

(** ** Facts *)

Lemma io_check_Ok e : io_check e = Ok tt ↔ e = None.
Proof. by destruct e. Qed.
Lemma io_check_cases e : (∃ m, io_check e = Err m) ∨ io_check e = Ok tt.
Proof. destruct e; [left; by eexists|by right]. Qed.

(** A backlog is passed on as it is exactly when it fits an i32; a larger one
    reaches the kernel as a negative number. *)
Theorem listen_backlog_exact addr backlog reuseport d a b :
  (backlog ≤ u32_max)%N → create_listener (mkListenerConfig addr backlog reuseport) = Ok (d, a, b) →
  a = addr ∧ d = domain_of (sock_ip addr) ∧ k_listen k b = None ∧
  (b = Z.of_N backlog ↔ (backlog ≤ i32_max)%N) ∧ ((i32_max < backlog)%N → (b < 0)%Z).
Proof.
  intros Hb. unfold create_listener, u32_max, i32_max in *. cbn [lc_addr lc_backlog lc_reuseport].
  destruct (k_socket k _), (k_reuse_address k), reuseport, (k_reuse_port k), (k_bind k _ _ _); cbn; try done.
  all: destruct (k_listen k (u32_as_i32 backlog)) eqn:El; cbn; [done|]; destruct (k_nonblocking k); cbn; [done|].
  all: intros [= <- <- <-]; split_and!; try done; unfold u32_as_i32.
  all: try (split; [intros H|]); intros; Z.div_mod_to_equations; lia.
Qed.

(** A pool of source addresses of the other family makes every connect fail.  A
    socket of the backend's family cannot be bound to a source address of the other one,
    so whenever the pool's turn gives such an address the connection fails, the backend
    is counted as failed, and after the handler's report it is unhealthy, however well
    it is. *)
Theorem source_family_mismatch_fails (s : World) p now_ms client_addr addr ip u :
  (∀ d a port, d ≠ domain_of a → k_bind k d a port ≠ None) →
  pd_backend p = Backend_Tcp addr → pd_source_ip p = Some ip → domain_of ip ≠ domain_of (sock_ip addr) →
  w_heap s !! pd_upstream p = Some u →
  ∃ e, connect_outcome (pd_source_ip p) (pd_backend p) = ConnectFailed e ∧
    (hc_connected now_ms client_addr p (connect_outcome (pd_source_ip p) (pd_backend p)) s).2 = Err e ∧
    w_heap (hc_connected now_ms client_addr p (connect_outcome (pd_source_ip p) (pd_backend p)) s).1 !! pd_upstream p =
      Some (report_failure now_ms (pd_backend p) u).
Proof.
  intros Hbind Hb Hip Hd Hu.
  assert (∃ e, connect_outcome (pd_source_ip p) (pd_backend p) = ConnectFailed e) as [e He].
  { rewrite Hip, Hb. unfold connect_outcome, connect_backend, connect_tcp_backend, configure_outbound_socket.
    destruct (k_socket k _); cbn; [by eexists|]. destruct (k_bind_no_port k _); cbn; [by eexists|].
    destruct (k_bind k _ ip 0) eqn:E; cbn; [by eexists|]. destruct (Hbind (domain_of (sock_ip addr)) ip 0%N); [|done]. by apply not_eq_sym. }
  exists e. rewrite He. split_and!; [done..|]. cbn. unfold report. rewrite Hu. cbn. by rewrite lookup_insert_eq.
Qed.
End kernel.

(** ** Runs *)

Module Demo.
Definition kernel : Kernel :=
  mkKernel (λ _, None) None None (λ _, None)
    (λ d ip _, if bool_decide (d = domain_of ip) then None else Some "Invalid argument (os error 22)")
    (λ _, None) None (λ _, InProgress) None None (Ok None) (λ _, None) (λ _, None).
Definition backend : SocketAddr := SocketAddrV6 (mkIpv6 [8193; 3512; 0; 0; 0; 0; 0; 1]%N) 443 0.
Definition source : IpAddr := sock_ip (socket_v4 10 0 0 9 0).
Definition upstream : Upstream := Upstream_with_cooldown "web" [Backend_Tcp backend] 30.
Definition world : World := mkWorld {[0 := upstream]} 1 (w_proxy ex_world) ∅.
Definition pending : Pending := mkPending 0 "web" (Backend_Tcp backend) (Some source).
End Demo.

Lemma listen_backlog_exact_witness :
  let '(addr, backlog) := (socket_v4 0 0 0 0 443, 4294967295%N) in
  ∃ b, create_listener Demo.kernel (mkListenerConfig addr backlog true) = Ok (DomainV4, addr, b) ∧ (b < 0)%Z.
Proof.
  eexists. split; [reflexivity|].
  by apply (listen_backlog_exact Demo.kernel (socket_v4 0 0 0 0 443) 4294967295 true DomainV4 (socket_v4 0 0 0 0 443)).
Defined.

Lemma source_family_mismatch_fails_witness :
  ∃ e, connect_outcome Demo.kernel (Some Demo.source) (Backend_Tcp Demo.backend) = ConnectFailed e ∧
    (hc_connected 7 (socket_v4 10 0 0 1 5000) Demo.pending (ConnectFailed e) Demo.world).2 = Err e.
Proof.
  destruct (source_family_mismatch_fails Demo.kernel Demo.world Demo.pending 7 (socket_v4 10 0 0 1 5000) Demo.backend Demo.source Demo.upstream)
    as (e&He&Hr&_).
  - intros d a port Hd. cbn. by rewrite bool_decide_eq_false_2.
  - reflexivity.
  - reflexivity.
  - discriminate.
  - reflexivity.
  - exists e. split; [exact He|]. rewrite <-Hr. by rewrite He.
Defined.
