(* ===== verification/SockMap.v ===== *)
(** * Socket-map acceleration (crates/wicket-sockmap, and its uses in the proxies)

    The crate keeps a kernel hash map from socket keys to sockets; a BPF program that runs
    when a socket of the map sends looks the swapped key up and redirects the message
    ([sockmap_redir] of bpf/sockmap.bpf.c).  The stream proxy registers the client's and
    the backend's socket and then only waits; the HTTP proxy registers them next to its
    own copying.  The map operations of libbpf are a class with what they document; the
    addresses of a descriptor are arguments.  Words are little-endian, as on the platforms
    the proxy is built for. *)

From S2P Require Import Prelude Str Num Bytes Net Metrics StreamUpstream StreamProxy.

(** ** Keys *)

Record SockKey := mkSockKey {
  sk_local_ip : N;
  sk_remote_ip : N;
  sk_local_port : N;
  sk_remote_port : N;
  sk_family : N
}.

#[global] Instance SockKey_eq_dec : EqDecision SockKey.
Proof. solve_decision. Defined.
#[global] Program Instance SockKey_countable : Countable SockKey :=
  inj_countable (λ k, (sk_local_ip k, sk_remote_ip k, sk_local_port k, sk_remote_port k, sk_family k))
    (λ '(a, b, c, d, e), Some (mkSockKey a b c d e)) _.
Next Obligation. by intros []. Qed.

Definition AF_INET : N := 2.

(** [u16::to_be], [htons]. *)
Definition bswap16 (n : N) : N := (n mod 256 * 256 + n / 256 mod 256)%N.

(** [struct sockaddr_in]. *)
Record sockaddr_in := mkSockaddrIn { sin_port : N; s_addr : N }.

Definition ipv4_word (a : Ipv4Addr) : N :=
  (u8 (oct1 a) + 256 * u8 (oct2 a) + 65536 * u8 (oct3 a) + 16777216 * u8 (oct4 a))%N.

(** What [getsockname] and [getpeername] leave in a [sockaddr_in]: of a [sockaddr_in6]
    the first sixteen bytes, whose second word is the flow label, which is 0 unless the
    socket asked for one. *)
Definition as_sockaddr_in (a : SocketAddr) : sockaddr_in :=
  match a with
  | SocketAddrV4 ip port => mkSockaddrIn (bswap16 port) (ipv4_word ip)
  | SocketAddrV6 _ port _ => mkSockaddrIn (bswap16 port) 0
  end.

(** The two addresses of a descriptor, or the errors of the two calls. *)
Record Fds := mkFds {
  getsockname : Z → result string SocketAddr;
  getpeername : Z → result string SocketAddr
}.

Inductive SockMapError := Load_ (e : string) | Attach (e : string) | Register_ (e : string) | Unregister (e : string).

Definition SockMapError_fmt (e : SockMapError) : string :=
  match e with
  | Load_ e => "BPF load failed: " +:+ e
  | Attach e => "BPF attach failed: " +:+ e
  | Register_ e => "sockmap register_pair failed: " +:+ e
  | Unregister e => "sockmap unregister_pair failed: " +:+ e
  end.

Definition sock_key (local remote : sockaddr_in) : SockKey :=
  mkSockKey (s_addr local) (s_addr remote) (sin_port local) (sin_port remote) AF_INET.

Definition sock_key_from_fd (fds : Fds) (fd : Z) : result SockMapError SockKey :=
  map_err (λ e, Register_ ("getsockname failed: " +:+ e)) (getsockname fds fd) ≫= λ local_addr,
  map_err (λ e, Register_ ("getpeername failed: " +:+ e)) (getpeername fds fd) ≫= λ remote_addr,
  Ok (sock_key (as_sockaddr_in local_addr) (as_sockaddr_in remote_addr)).

(** [i32::to_ne_bytes]. *)
Definition fd_bytes (fd : Z) : bytes :=
  let n := Z.to_N (fd mod 4294967296) in
  [as_u8 n; as_u8 (n / 256); as_u8 (n / 65536); as_u8 (n / 16777216)].

(** ** The map *)

Notation SockHash := (gmap SockKey bytes).

(** [__type(value, __u64)] of the map's definition. *)
Definition SOCK_HASH_VALUE_SIZE : nat := 8.

(** libbpf's operations on the map: a successful update inserts, a successful delete
    removes; either can fail and then changes nothing. *)
Class SockHashOps := {
  sh_update : SockKey → bytes → SockHash → option string;
  sh_delete : SockKey → SockHash → option string
}.

(** libbpf-rs refuses a value that does not have the size of the map's values. *)
Class ChecksValueSize (ops : SockHashOps) :=
  value_size_checked k v m : length v ≠ SOCK_HASH_VALUE_SIZE → is_Some (sh_update k v m).

Record SocketMapConfig := mkSocketMapConfig {
  sm_bpf_object_path : option string;
  sm_max_connections : N;
  sm_verbose : bool
}.

(** Opening, loading and attaching the program can fail; of the configuration only
    [verbose] is passed on, to the library's logging. *)
Definition SocketMap_load (open load : option string) (config : SocketMapConfig) : result SockMapError SockHash :=
  match open, load with
  | Some e, _ => Err (Load_ ("open: " +:+ e))
  | None, Some e => Err (Load_ ("load: " +:+ e))
  | None, None => Ok ∅
  end.

Definition SocketMap_attach (attach_sockmap : option string) : result SockMapError unit :=
  match attach_sockmap with Some e => Err (Attach ("attach_sockmap: " +:+ e)) | None => Ok tt end.

Section ops.
  Context `{SockHashOps}.

Definition map_update (what : string) (k : SockKey) (v : bytes) (m : SockHash) : result SockMapError SockHash :=
  match sh_update k v m with
  | Some e => Err (Register_ (what +:+ e))
  | None => Ok (<[k := v]> m)
  end.

Definition map_delete (k : SockKey) (m : SockHash) : SockHash :=
  match sh_delete k m with Some _ => m | None => delete k m end.

Definition register_pair (fds : Fds) (client_fd backend_fd : Z) (m : SockHash) : SockHash * result SockMapError unit :=
  match sock_key_from_fd fds client_fd with
  | Err e => (m, Err e)
  | Ok client_key =>
      match sock_key_from_fd fds backend_fd with
      | Err e => (m, Err e)
      | Ok backend_key =>
          match map_update "insert client: " client_key (fd_bytes client_fd) m with
          | Err e => (m, Err e)
          | Ok m =>
              match map_update "insert backend: " backend_key (fd_bytes backend_fd) m with
              | Err e => (m, Err e)
              | Ok m => (m, Ok tt)
              end
          end
      end
  end.

Definition unregister_pair (fds : Fds) (client_fd backend_fd : Z) (m : SockHash) : SockHash :=
  match sock_key_from_fd fds client_fd with
  | Err _ => m
  | Ok client_key =>
      match sock_key_from_fd fds backend_fd with
      | Err _ => m
      | Ok backend_key => map_delete backend_key (map_delete client_key m)
      end
  end.

(** ** The stream proxy *)

Inductive BackendConnection := BackendTcp (fd : Z) | BackendUnix.

(** Who moves the bytes of a connection; in the kernel's case the handler returns as soon
    as one of the sockets is readable. *)
Inductive Forwarding := InKernel | InUserspace.

(** [before] and [after] are the addresses when the pair is registered and when it is
    unregistered; [poisoned] is the state of the mutex. *)
Definition forward (poisoned : bool) (before after : Fds) (client_fd : Z) (backend : BackendConnection)
    (copied : option (N * N)) (st : option SockHash * Metrics) : option SockHash * Metrics * Forwarding :=
  let '(sockmap, mt) := st in
  let userspace sockmap mt :=
    (sockmap, copy_userspace copied (metric_inc (STREAM_PROXY_PATH_TOTAL "userspace") mt), InUserspace) in
  match sockmap with
  | None => userspace None mt
  | Some sm =>
      match backend with
      | BackendUnix => userspace (Some sm) mt
      | BackendTcp backend_fd =>
          let '(sm, r) := if poisoned then (sm, Err (Register_ "")) else register_pair before client_fd backend_fd sm in
          match r with
          | Ok _ =>
              (Some (unregister_pair after client_fd backend_fd sm), metric_inc (STREAM_PROXY_PATH_TOTAL "ebpf") mt, InKernel)
          | Err _ => userspace (Some sm) (metric_inc (STREAM_PROXY_PATH_TOTAL "ebpf_fallback") mt)
          end
      end
  end.

(** ** The HTTP proxy *)

(** The fields of a request's context. *)
Record EbpfCtx := mkEbpfCtx { ebpf_registered : bool; ec_client_fd : option Z; ec_upstream_fd : option Z }.

Definition EbpfCtx_new : EbpfCtx := mkEbpfCtx false None None.

(** [client_fd] is there for HTTP/1 only. *)
Definition connected_to_upstream (poisoned : bool) (fds : Fds) (client_fd : option Z) (upstream_fd : Z)
    (st : option SockHash * EbpfCtx) : option SockHash * EbpfCtx :=
  let '(sockmap, ctx) := st in
  match sockmap, client_fd with
  | Some sm, Some client_fd =>
      if poisoned then st
      else
        let '(sm, r) := register_pair fds client_fd upstream_fd sm in
        (Some sm, match r with Ok _ => mkEbpfCtx true (Some client_fd) (Some upstream_fd) | Err _ => ctx end)
  | _, _ => st
  end.

(** What [logging] does first. *)
Definition unregister_request (poisoned : bool) (fds : Fds) (sockmap : option SockHash) (ctx : EbpfCtx) : option SockHash :=
  if ebpf_registered ctx then
    match ec_client_fd ctx, ec_upstream_fd ctx, sockmap with
    | Some client_fd, Some upstream_fd, Some sm =>
        if poisoned then sockmap else Some (unregister_pair fds client_fd upstream_fd sm)
    | _, _, _ => sockmap
    end
  else sockmap.

End ops.

(** ** The program in the kernel *)

(** The fields of [struct sk_msg_md] it reads. *)
Record sk_msg_md := mkSkMsgMd { local_ip4 : N; remote_ip4 : N; md_local_port : N; md_remote_port : N; md_size : N }.

Record sockmap_stats := mkSockmapStats {
  msgs_received : N;
  msgs_redirected : N;
  msgs_dropped : N;
  bytes_forwarded : N;
  lookup_failures : N
}.

Definition wrapping_add_u64 (a b : N) : N := ((a + b) mod 18446744073709551616)%N.

Definition make_peer_key (key : SockKey) : SockKey :=
  mkSockKey (sk_remote_ip key) (sk_local_ip key) (sk_remote_port key) (sk_local_port key) (sk_family key).

(** The key of the sending socket; a port is stored in 16 bits. *)
Definition msg_key (msg : sk_msg_md) : SockKey :=
  mkSockKey (local_ip4 msg) (remote_ip4 msg) (bswap16 (md_local_port msg)) (md_remote_port msg mod 65536) 2.

(** The socket the message is redirected to, if any, and the statistics of the
    processor, which may be missing. *)
Definition sockmap_redir (m : SockHash) (msg : sk_msg_md) (st : option sockmap_stats) : option bytes * option sockmap_stats :=
  let st := (λ s, mkSockmapStats (wrapping_add_u64 (msgs_received s) 1) (msgs_redirected s) (msgs_dropped s)
                    (wrapping_add_u64 (bytes_forwarded s) (md_size msg)) (lookup_failures s)) <$> st in
  match m !! make_peer_key (msg_key msg) with
  | Some fd =>
      (Some fd, (λ s, mkSockmapStats (msgs_received s) (wrapping_add_u64 (msgs_redirected s) 1) (msgs_dropped s)
                        (bytes_forwarded s) (lookup_failures s)) <$> st)
  | None =>
      (None, (λ s, mkSockmapStats (msgs_received s) (msgs_redirected s) (msgs_dropped s)
                     (bytes_forwarded s) (wrapping_add_u64 (lookup_failures s) 1)) <$> st)
  end.

(** What the kernel documents of a message sent on a socket with these addresses: the
    addresses as [getsockname] and [getpeername] give them, the local port in host byte
    order.  The layout of the remote port is left open. *)
Definition describes (msg : sk_msg_md) (local remote : SocketAddr) : Prop :=
  local_ip4 msg = s_addr (as_sockaddr_in local) ∧ remote_ip4 msg = s_addr (as_sockaddr_in remote) ∧
  md_local_port msg = sock_port local.

(** ** Facts *)

Definition ipv4_addr (a : SocketAddr) : Prop := ∃ ip port, a = SocketAddrV4 ip port ∧ (port ≤ u16_max)%N.

Lemma ipv4_word_inj a b : ipv4_word a = ipv4_word b → a = b.
Proof.
  unfold ipv4_word. destruct a as [a1 a2 a3 a4], b as [b1 b2 b3 b4]. cbn.
  pose proof (u8_bound a1). pose proof (u8_bound a2). pose proof (u8_bound a3). pose proof (u8_bound a4).
  pose proof (u8_bound b1). pose proof (u8_bound b2). pose proof (u8_bound b3). pose proof (u8_bound b4).
  intros E. f_equal; apply u8_inj; lia.
Qed.

Lemma bswap16_inj a b : (a ≤ u16_max)%N → (b ≤ u16_max)%N → bswap16 a = bswap16 b → a = b.
Proof.
  unfold bswap16, u16_max. intros Ha Hb E.
  pose proof (N.div_mod a 256). pose proof (N.div_mod b 256).
  pose proof (N.mod_lt a 256). pose proof (N.mod_lt b 256).
  assert (a / 256 < 256)%N by (apply N.Div0.div_lt_upper_bound; lia).
  assert (b / 256 < 256)%N by (apply N.Div0.div_lt_upper_bound; lia).
  rewrite !(N.mod_small (_ / 256)) in E by done. nia.
Qed.

(** A message is redirected to a socket only if that socket's remote end is the sender's
    local end and its local IP the sender's remote IP. *)
Lemma peer_key_hits msg l r l' r' :
  ipv4_addr l → ipv4_addr r → ipv4_addr l' → ipv4_addr r' → describes msg l r →
  make_peer_key (msg_key msg) = sock_key (as_sockaddr_in l') (as_sockaddr_in r') → r' = l ∧ sock_ip l' = sock_ip r.
Proof.
  intros (ipl&pl&->&Hl) (ipr&pr&->&Hr) (ipl'&pl'&->&Hl') (ipr'&pr'&->&Hr') (E1&E2&E3).
  unfold make_peer_key, msg_key, sock_key. cbn in *. rewrite E1, E2, E3. intros [= F1 F2 F3 F4].
  apply ipv4_word_inj in F1 as ->. apply ipv4_word_inj in F2 as ->. by apply bswap16_inj in F4 as ->.
Qed.

Lemma sock_key_from_fd_ok fds fd l r :
  getsockname fds fd = Ok l → getpeername fds fd = Ok r →
  sock_key_from_fd fds fd = Ok (sock_key (as_sockaddr_in l) (as_sockaddr_in r)).
Proof. intros E1 E2. unfold sock_key_from_fd. by rewrite E1, E2. Qed.

Section facts.
  Context `{ops : SockHashOps}.

Lemma register_pair_ok fds c b m m' kc kb :
  sock_key_from_fd fds c = Ok kc → sock_key_from_fd fds b = Ok kb →
  register_pair fds c b m = (m', Ok tt) → m' = <[kb := fd_bytes b]> (<[kc := fd_bytes c]> m).
Proof.
  intros Ec Eb. unfold register_pair. rewrite Ec, Eb. unfold map_update.
  destruct (sh_update kc _ m); [done|]. destruct (sh_update kb _ _); [done|]. by intros [= <-].
Qed.

(** In the kernel nothing would be forwarded, had the registration succeeded, which with
    a library that checks the size of values it does not.  Register the client's and the
    backend's socket of an IPv4 connection whose backend is not the proxy's own listening
    address and whose client is not the proxy's own outgoing address: a message sent on
    either of them is redirected nowhere, whatever the layout of the remote port, unless
    another registered socket is the other end of the same connection.  The program looks
    up the other end of the sender's connection and not the socket it was paired with. *)
Theorem kernel_path_forwards_nothing fds c b lc rc lb rb m m' msg st :
  getsockname fds c = Ok lc → getpeername fds c = Ok rc → getsockname fds b = Ok lb → getpeername fds b = Ok rb →
  ipv4_addr lc → ipv4_addr rc → ipv4_addr lb → ipv4_addr rb →
  rb ≠ lc → rc ≠ lb → rc ≠ lc → rb ≠ lb →
  register_pair fds c b m = (m', Ok tt) →
  describes msg lc rc ∨ describes msg lb rb →
  m !! make_peer_key (msg_key msg) = None →
  (sockmap_redir m' msg st).1 = None.
Proof.
  intros Elc Erc Elb Erb Hlc Hrc Hlb Hrb N1 N2 N3 N4 Hreg Hmsg Hm.
  apply (register_pair_ok _ _ _ _ _ _ _ (sock_key_from_fd_ok _ _ _ _ Elc Erc) (sock_key_from_fd_ok _ _ _ _ Elb Erb)) in Hreg as ->.
  unfold sockmap_redir. rewrite !lookup_insert_ne, Hm; [done|..];
    intros E; symmetry in E; destruct Hmsg as [D|D].
  - apply (peer_key_hits msg lc rc lc rc) in E as [E _]; by auto.
  - apply (peer_key_hits msg lb rb lc rc) in E as [E _]; by auto.
  - apply (peer_key_hits msg lc rc lb rb) in E as [E _]; by auto.
  - apply (peer_key_hits msg lb rb lb rb) in E as [E _]; by auto.
Qed.

(** Registering and unregistering a pair restores the map.  If neither socket was in
    the map, both keep their addresses and the kernel performs the deletions, the map
    after unregistering is the map before registering. *)
Theorem register_unregister_roundtrip fds c b kc kb m m' :
  sock_key_from_fd fds c = Ok kc → sock_key_from_fd fds b = Ok kb →
  m !! kc = None → m !! kb = None → (∀ k m, sh_delete k m = None) →
  register_pair fds c b m = (m', Ok tt) → unregister_pair fds c b m' = m.
Proof.
  intros Ec Eb Hc Hb Hdel Hreg. rewrite (register_pair_ok _ _ _ _ _ _ _ Ec Eb Hreg).
  unfold unregister_pair, map_delete. rewrite Ec, Eb, !Hdel.
  apply map_eq. intros k. destruct (decide (k = kb)) as [->|]; [by rewrite lookup_delete_eq|].
  rewrite lookup_delete_ne by done. destruct (decide (k = kc)) as [->|]; [by rewrite lookup_delete_eq|].
  by rewrite lookup_delete_ne, !lookup_insert_ne.
Qed.

(** A library that checks the size of values refuses the four bytes of a descriptor. *)
Lemma register_pair_refused `{!ChecksValueSize ops} fds c b m : ∃ e, register_pair fds c b m = (m, Err e).
Proof.
  unfold register_pair. destruct (sock_key_from_fd fds c) as [kc|e]; [|eauto]. destruct (sock_key_from_fd fds b) as [kb|e]; [|eauto].
  unfold map_update. destruct (value_size_checked kc (fd_bytes c) m) as [e ->]; [done|]. eauto.
Qed.

(** C36: with a library that checks the size of values, as libbpf-rs does, the
    acceleration is never used.  The proxy writes the four bytes of a descriptor into a
    map of eight-byte values, so no pair is ever registered.  A stream connection to a TCP
    backend leaves the map as it was and is copied in user space, counted both as a
    fallback and as a user-space connection; however often an HTTP request connects to
    upstreams, the map stays as it was, the request never counts as registered, and
    logging unregisters nothing. *)
Theorem acceleration_never_used `{!ChecksValueSize ops} poisoned before after c b copied sm mt client upstreams :
  forward poisoned before after c (BackendTcp b) copied (Some sm, mt) =
  (Some sm,
   copy_userspace copied
     (metric_inc (STREAM_PROXY_PATH_TOTAL "userspace") (metric_inc (STREAM_PROXY_PATH_TOTAL "ebpf_fallback") mt)),
   InUserspace) ∧
  let '(map, ctx) := foldl (λ st u, connected_to_upstream poisoned before client u st) (Some sm, EbpfCtx_new) upstreams in
  map = Some sm ∧ ctx = EbpfCtx_new ∧ unregister_request poisoned after map ctx = Some sm.
Proof.
  split.
  - unfold forward. destruct poisoned; [done|]. by destruct (register_pair_refused before c b sm) as [e ->].
  - assert (foldl (λ st u, connected_to_upstream poisoned before client u st) (Some sm, EbpfCtx_new) upstreams = (Some sm, EbpfCtx_new)) as ->; [|done].
    induction upstreams as [|u us IH]; [done|]. cbn [foldl]. rewrite <-IH at 2. f_equal. unfold connected_to_upstream.
    destruct client as [cfd|]; [|done]. destruct poisoned; [done|]. by destruct (register_pair_refused before cfd u sm) as [e ->].
Qed.

(** Two IPv6 connections with equal ports share an entry.  The key keeps of an IPv6
    address only its flow label: when the client sockets of two clients that use the same
    port are registered, the later one replaces the earlier one, and once its connection
    ends the earlier one has no entry either. *)
Theorem ipv6_connections_collide fds c1 c2 b1 b2 kb ip1 ip2 a1 a2 p q s1 s2 t1 t2 m m1 m2 :
  getsockname fds c1 = Ok (SocketAddrV6 ip1 p s1) → getpeername fds c1 = Ok (SocketAddrV6 a1 q t1) →
  getsockname fds c2 = Ok (SocketAddrV6 ip2 p s2) → getpeername fds c2 = Ok (SocketAddrV6 a2 q t2) →
  sock_key_from_fd fds b2 = Ok kb → sock_key_from_fd fds c1 ≠ Ok kb →
  register_pair fds c1 b1 m = (m1, Ok tt) → register_pair fds c2 b2 m1 = (m2, Ok tt) → (∀ k m, sh_delete k m = None) →
  ∃ k, sock_key_from_fd fds c1 = Ok k ∧ m2 !! k = Some (fd_bytes c2) ∧ unregister_pair fds c2 b2 m2 !! k = None.
Proof.
  intros E1 E2 E3 E4 Eb Hne Hr1 Hr2 Hdel.
  pose proof (sock_key_from_fd_ok _ _ _ _ E1 E2) as K1. pose proof (sock_key_from_fd_ok _ _ _ _ E3 E4) as K2.
  cbn [as_sockaddr_in] in K1, K2. set (k := sock_key _ _) in *. exists k.
  assert (kb ≠ k) by congruence. rewrite (register_pair_ok _ _ _ _ _ _ _ K2 Eb Hr2). split_and!; [done|..].
  - by rewrite lookup_insert_ne, lookup_insert_eq.
  - unfold unregister_pair, map_delete. rewrite K2, Eb, !Hdel. by rewrite lookup_delete_ne, lookup_delete_eq.
Qed.

(** After a retry only the last upstream is unregistered.  A request that connects to
    two upstreams registers both and remembers the second; when it is logged, the entry
    of the first upstream's socket stays in the map. *)
Theorem retried_request_keeps_entry fds c u1 u2 k1 k2 kc sm m1 m2 :
  sock_key_from_fd fds c = Ok kc → sock_key_from_fd fds u1 = Ok k1 → sock_key_from_fd fds u2 = Ok k2 →
  k1 ≠ kc → k1 ≠ k2 →
  register_pair fds c u1 sm = (m1, Ok tt) → register_pair fds c u2 m1 = (m2, Ok tt) →
  let '(map, ctx) := connected_to_upstream false fds (Some c) u2
                       (connected_to_upstream false fds (Some c) u1 (Some sm, EbpfCtx_new)) in
  (unregister_request false fds map ctx ≫= λ m, m !! k1) = Some (fd_bytes u1).
Proof.
  intros Ec E1 E2 N1 N2 Hr1 Hr2. unfold connected_to_upstream. rewrite Hr1, Hr2.
  rewrite (register_pair_ok _ _ _ _ _ _ _ Ec E2 Hr2), (register_pair_ok _ _ _ _ _ _ _ Ec E1 Hr1).
  cbn. unfold unregister_pair, map_delete. rewrite Ec, E2.
  destruct (sh_delete kc _), (sh_delete k2 _); rewrite ?lookup_delete_ne, ?lookup_insert_ne by done;
    rewrite ?lookup_delete_ne, ?lookup_insert_ne by done; apply lookup_insert_eq.
Qed.

End facts.

(** ** Examples *)

Module Demo.

(** A hypothetical library that accepts every value, as if the map held values of four
    bytes; libbpf-rs does not. *)
Definition lenient : SockHashOps := {| sh_update _ _ _ := None; sh_delete _ _ := None |}.

(** A library that checks the size of values. *)
Definition strict : SockHashOps :=
  {| sh_update _ v _ := if Nat.eqb (length v) SOCK_HASH_VALUE_SIZE then None else Some "invalid data"; sh_delete _ _ := None |}.

Lemma strict_checks : ChecksValueSize strict.
Proof. intros k v m Hv. cbn. apply Nat.eqb_neq in Hv. rewrite Hv. eauto. Qed.

(** A client 198.51.100.9:50000 of the listener 192.0.2.1:443, whose connection goes from
    192.0.2.1:40000 to the backend 10.0.0.20:8443 and then to 10.0.0.21:8443. *)
Definition listener := socket_v4 192 0 2 1 443.
Definition client := socket_v4 198 51 100 9 50000.
Definition outgoing := socket_v4 192 0 2 1 40000.
Definition backend := socket_v4 10 0 0 20 8443.
Definition backend2 := socket_v4 10 0 0 21 8443.

Definition v6 (n p : N) : SocketAddr := SocketAddrV6 (mkIpv6 [0; 0; 0; 0; 0; 0; 0; n]%N) p 0.

(** Descriptors 3, 4 and 5 are these sockets, 6 and 7 two IPv6 clients. *)
Definition fds : Fds := mkFds
  (λ fd, match fd with
         | 3 => Ok listener | 4 => Ok outgoing | 5 => Ok outgoing | 6 => Ok (v6 1 443) | 7 => Ok (v6 1 443) | _ => Err "EBADF"
         end%Z)
  (λ fd, match fd with
         | 3 => Ok client | 4 => Ok backend | 5 => Ok backend2 | 6 => Ok (v6 10 50000) | 7 => Ok (v6 11 50000) | _ => Err "EBADF"
         end%Z).

Definition key_of (fd : Z) : SockKey :=
  match sock_key_from_fd fds fd with Ok k => k | Err _ => mkSockKey 0 0 0 0 0 end.

Definition hello : sk_msg_md := mkSkMsgMd (ipv4_word (mkIpv4 xc0 x00 x02 x01)) (ipv4_word (mkIpv4 xc6 x33 x64 x09)) 443 (bswap16 50000) 517.

End Demo.

Lemma kernel_path_forwards_nothing_witness :
  (sockmap_redir (@register_pair Demo.lenient Demo.fds 3 4 ∅).1 Demo.hello None).1 = None.
Proof.
  assert (∀ a b c d p, (p ≤ u16_max)%N → ipv4_addr (socket_v4 a b c d p)) as Hv4.
  { intros a b c d p Hp. unfold ipv4_addr, socket_v4. eauto. }
  apply (@kernel_path_forwards_nothing Demo.lenient Demo.fds 3 4 Demo.listener Demo.client Demo.outgoing Demo.backend ∅);
    try reflexivity; try (by apply Hv4); try (vm_compute; congruence).
  left. split_and!; vm_compute; reflexivity.
Defined.

Lemma register_unregister_roundtrip_witness :
  @unregister_pair Demo.lenient Demo.fds 3 4 (@register_pair Demo.lenient Demo.fds 3 4 ∅).1 = ∅.
Proof.
  apply (@register_unregister_roundtrip Demo.lenient Demo.fds 3 4 (Demo.key_of 3) (Demo.key_of 4)); reflexivity.
Defined.

Lemma acceleration_never_used_witness :
  (@forward Demo.strict false Demo.fds Demo.fds 3 (BackendTcp 4) (Some (5, 7)%N) (Some ∅, ∅)).2 = InUserspace ∧
  @connected_to_upstream Demo.strict false Demo.fds (Some 3%Z) 5
    (@connected_to_upstream Demo.strict false Demo.fds (Some 3%Z) 4 (Some ∅, EbpfCtx_new)) = (Some ∅, EbpfCtx_new).
Proof.
  destruct (@acceleration_never_used Demo.strict Demo.strict_checks false Demo.fds Demo.fds 3 4 (Some (5, 7)%N) ∅ ∅ (Some 3%Z) [4; 5]%Z) as [-> H].
  split; [reflexivity|]. cbn [foldl] in H.
  destruct (connected_to_upstream _ _ _ _ (connected_to_upstream _ _ _ _ _)) as [map ctx]. destruct H as (->&->&_). reflexivity.
Defined.

Lemma ipv6_connections_collide_witness :
  ∃ k, sock_key_from_fd Demo.fds 6 = Ok k ∧
    (@register_pair Demo.lenient Demo.fds 7 5 (@register_pair Demo.lenient Demo.fds 6 4 ∅).1).1 !! k = Some (fd_bytes 7).
Proof.
  destruct (@ipv6_connections_collide Demo.lenient Demo.fds 6 7 4 5 (Demo.key_of 5) (mkIpv6 [0; 0; 0; 0; 0; 0; 0; 1]%N) (mkIpv6 [0; 0; 0; 0; 0; 0; 0; 1]%N)
    (mkIpv6 [0; 0; 0; 0; 0; 0; 0; 10]%N) (mkIpv6 [0; 0; 0; 0; 0; 0; 0; 11]%N) 443 50000 0 0 0 0 ∅
    (@register_pair Demo.lenient Demo.fds 6 4 ∅).1
    (@register_pair Demo.lenient Demo.fds 7 5 (@register_pair Demo.lenient Demo.fds 6 4 ∅).1).1) as (k&Hk&Hm&_);
    try reflexivity; [vm_compute; discriminate|]. by exists k.
Defined.

Lemma retried_request_keeps_entry_witness :
  let '(map, ctx) := @connected_to_upstream Demo.lenient false Demo.fds (Some 3%Z) 5
                       (@connected_to_upstream Demo.lenient false Demo.fds (Some 3%Z) 4 (Some ∅, EbpfCtx_new)) in
  (@unregister_request Demo.lenient false Demo.fds map ctx ≫= λ m, m !! Demo.key_of 4) = Some (fd_bytes 4).
Proof.
  apply (@retried_request_keeps_entry Demo.lenient Demo.fds 3 4 5 (Demo.key_of 4) (Demo.key_of 5) (Demo.key_of 3) ∅
    (@register_pair Demo.lenient Demo.fds 3 4 ∅).1 (@register_pair Demo.lenient Demo.fds 3 5 (@register_pair Demo.lenient Demo.fds 3 4 ∅).1).1);
    try reflexivity; vm_compute; discriminate.
Defined.
