(* ===== verification/CertStore.v ===== *)
(** * Certificates by server name (crates/wicket-tls/src/cert_store.rs,
      cert_manager.rs, metrics.rs)

    The store of a TLS listener: exact names, wildcard parents and a default; a
    manager swaps whole stores.  Certificates are an abstract type.  The
    specification looks at the history of insertions instead of the maps. *)

From S2P Require Import Prelude Str Metrics.
From Stdlib Require Import Ascii.

(** ** Metrics of certificates *)

Inductive CertReloadStatus := CertReload_Success | CertReload_Failure.
Definition CertReloadStatus_as_label (s : CertReloadStatus) : string :=
  match s with CertReload_Success => "success" | CertReload_Failure => "failure" end.

Inductive AcmeRenewalStatus := AcmeRenewal_Success | AcmeRenewal_Failure | AcmeRenewal_Skipped.
Definition AcmeRenewalStatus_as_label (s : AcmeRenewalStatus) : string :=
  match s with AcmeRenewal_Success => "success" | AcmeRenewal_Failure => "failure" | AcmeRenewal_Skipped => "skipped" end.

Definition inc_cert_reload (s : CertReloadStatus) : Metrics → Metrics :=
  metric_inc ["wicket_cert_reload_total"; CertReloadStatus_as_label s].
Definition inc_acme_renewal (s : AcmeRenewalStatus) : Metrics → Metrics :=
  metric_inc ["wicket_acme_renewal_total"; AcmeRenewalStatus_as_label s].
Definition inc_acme_renewal_failure (domain reason : string) : Metrics → Metrics :=
  metric_inc ["wicket_acme_renewal_failures_total"; domain; reason].
Definition set_acme_last_attempt (domain : string) (t : Z) : Metrics → Metrics :=
  metric_set ["wicket_acme_last_renewal_attempt_timestamp_seconds"; domain] t.
Definition set_acme_last_success (domain : string) (t : Z) : Metrics → Metrics :=
  metric_set ["wicket_acme_last_renewal_success_timestamp_seconds"; domain] t.
Definition set_cert_expiry (domain : string) (t : Z) : Metrics → Metrics :=
  metric_set ["wicket_tls_certificate_expiry_timestamp_seconds"; domain] t.

(** ** The store *)

Section store.
Context {Cert : Type}.

Record CertStore := mkCertStore {
  cs_exact : gmap string Cert;
  cs_wildcard : gmap string Cert;
  cs_default : option Cert
}.

Inductive CertResolutionOutcome :=
| Outcome_Exact | Outcome_Wildcard | Outcome_Default | Outcome_Miss | Outcome_NoSni.

Definition CertStore_new : CertStore := mkCertStore ∅ ∅ None.

(** The body of the loop of [insert]. *)
Definition insert_domain (cert : Cert) (s : CertStore) (domain : string) : CertStore :=
  let domain_lower := to_lowercase domain in
  match strip_prefix "*." domain_lower with
  | Some base => mkCertStore (cs_exact s) (<[base := cert]> (cs_wildcard s)) (cs_default s)
  | None => mkCertStore (<[domain_lower := cert]> (cs_exact s)) (cs_wildcard s) (cs_default s)
  end.

Definition CertStore_insert (domains : list string) (cert : Cert) (s : CertStore) : CertStore :=
  foldl (insert_domain cert) s domains.

Definition set_default (cert : Cert) (s : CertStore) : CertStore :=
  mkCertStore (cs_exact s) (cs_wildcard s) (Some cert).

Definition resolve_with_outcome (s : CertStore) (sni : string) : option Cert * CertResolutionOutcome :=
  let sni_lower := to_lowercase sni in
  match cs_exact s !! sni_lower with
  | Some cert => (Some cert, Outcome_Exact)
  | None =>
      match split_once "." sni_lower ≫= (λ '(_, rest), cs_wildcard s !! rest) with
      | Some cert => (Some cert, Outcome_Wildcard)
      | None => match cs_default s with
                | Some cert => (Some cert, Outcome_Default)
                | None => (None, Outcome_Miss)
                end
      end
  end.

Definition resolve (s : CertStore) (sni : string) : option Cert := (resolve_with_outcome s sni).1.

Definition CertStore_is_empty (s : CertStore) : bool :=
  bool_decide (cs_exact s = ∅) && bool_decide (cs_wildcard s = ∅) && is_none (cs_default s).

Definition CertStore_len (s : CertStore) : nat := size (cs_exact s) + size (cs_wildcard s).

(** ** The manager *)

Record CertManager := mkCertManager { cm_store : CertStore }.

Definition CertManager_reload (s : CertStore) (m : CertManager) : CertManager := mkCertManager s.

Definition outcome_label (o : CertResolutionOutcome) : string :=
  match o with
  | Outcome_Exact => "exact"
  | Outcome_Wildcard => "wildcard"
  | Outcome_Default => "default"
  | Outcome_Miss => "miss"
  | Outcome_NoSni => "no_sni"
  end.

Definition CERT_RESOLUTIONS (o : CertResolutionOutcome) : list string :=
  ["wicket_tls_cert_resolution_total"; outcome_label o].

(** [ResolvesServerCert::resolve]: one resolution counted per handshake. *)
Definition manager_resolve (m : CertManager) (server_name : option string) (ms : Metrics)
    : option Cert * Metrics :=
  match server_name with
  | None => (None, metric_inc (CERT_RESOLUTIONS Outcome_NoSni) ms)
  | Some sni =>
      let '(cert, outcome) := resolve_with_outcome (cm_store m) sni in
      (cert, metric_inc (CERT_RESOLUTIONS outcome) ms)
  end.

(** ** Specification: the history *)

Inductive CertOp := InsertCert (domains : list string) (cert : Cert) | SetDefault (cert : Cert).

Definition apply_op (s : CertStore) (o : CertOp) : CertStore :=
  match o with
  | InsertCert domains cert => CertStore_insert domains cert s
  | SetDefault cert => set_default cert s
  end.

(** Is [domain] the exact name [n], or the wildcard of the parent [n]? *)
Definition names_exact (n domain : string) : bool :=
  is_none (strip_prefix "*." (to_lowercase domain)) && String.eqb (to_lowercase domain) n.
Definition names_wildcard (n domain : string) : bool :=
  bool_decide (strip_prefix "*." (to_lowercase domain) = Some n).

(** The certificate last inserted for a domain that satisfies [p]. *)
Definition last_inserted (p : string → bool) (ops : list CertOp) : option Cert :=
  foldl (λ acc o, match o with
                  | InsertCert domains cert => if existsb p domains then Some cert else acc
                  | SetDefault _ => acc
                  end) None ops.

Definition last_default (ops : list CertOp) : option Cert :=
  foldl (λ acc o, match o with SetDefault cert => Some cert | InsertCert _ _ => acc end) None ops.

(** ** Lemmas *)

Lemma insert_lookup (get : CertStore → gmap string Cert) (names : string → string → bool) n domains cert s :
  (∀ s d, get (insert_domain cert s d) !! n = if names n d then Some cert else get s !! n) →
  get (CertStore_insert domains cert s) !! n = if existsb (names n) domains then Some cert else get s !! n.
Proof.
  intros Hget. unfold CertStore_insert. revert s. induction domains as [|d domains IH]; intros s; [done|].
  cbn [foldl existsb]. rewrite IH, Hget. by destruct (existsb (names n) domains), (names n d).
Qed.

Lemma insert_domain_exact cert s d n :
  cs_exact (insert_domain cert s d) !! n = if names_exact n d then Some cert else cs_exact s !! n.
Proof.
  unfold insert_domain, names_exact. destruct (strip_prefix "*." (to_lowercase d)); cbn; [done|].
  destruct (String.eqb_spec (to_lowercase d) n) as [<-|Hne]; [apply lookup_insert_eq|by apply lookup_insert_ne].
Qed.

Lemma insert_domain_wildcard cert s d n :
  cs_wildcard (insert_domain cert s d) !! n = if names_wildcard n d then Some cert else cs_wildcard s !! n.
Proof.
  unfold insert_domain, names_wildcard. destruct (strip_prefix "*." (to_lowercase d)) as [b|]; cbn;
    case_bool_decide; simplify_eq; [apply lookup_insert_eq|apply lookup_insert_ne; congruence|done].
Qed.

Lemma insert_default domains cert s : cs_default (CertStore_insert domains cert s) = cs_default s.
Proof.
  unfold CertStore_insert. revert s. induction domains as [|d domains IH]; intros s; [done|]. cbn.
  rewrite IH. unfold insert_domain. by destruct (strip_prefix "*." (to_lowercase d)).
Qed.

Lemma insert_is_empty domains cert s :
  CertStore_is_empty (CertStore_insert domains cert s) = is_empty domains && CertStore_is_empty s.
Proof.
  unfold CertStore_insert. revert s. induction domains as [|d domains IH]; intros s; cbn; [done|]. rewrite IH.
  enough (CertStore_is_empty (insert_domain cert s d) = false) as -> by apply andb_false_r.
  unfold CertStore_is_empty, insert_domain. destruct (strip_prefix "*." (to_lowercase d)); cbn.
  all: rewrite (bool_decide_eq_false_2 (<[_ := _]> _ = ∅)) by (apply insert_non_empty). all: by rewrite ?andb_false_r.
Qed.

Lemma history_maps ops s :
  (∀ n, cs_exact (foldl apply_op s ops) !! n =
        foldl (λ acc o, match o with
                        | InsertCert domains cert => if existsb (names_exact n) domains then Some cert else acc
                        | SetDefault _ => acc
                        end) (cs_exact s !! n) ops) ∧
  (∀ n, cs_wildcard (foldl apply_op s ops) !! n =
        foldl (λ acc o, match o with
                        | InsertCert domains cert => if existsb (names_wildcard n) domains then Some cert else acc
                        | SetDefault _ => acc
                        end) (cs_wildcard s !! n) ops) ∧
  cs_default (foldl apply_op s ops) =
    foldl (λ acc o, match o with SetDefault cert => Some cert | InsertCert _ _ => acc end) (cs_default s) ops.
Proof.
  revert s. induction ops as [|o ops IH]; intros s; [done|]. cbn [foldl].
  destruct (IH (apply_op s o)) as (H1&H2&H3). split; [|split].
  - intros n. rewrite H1. f_equal. destruct o; cbn; [|done].
    apply (insert_lookup cs_exact names_exact). intros. apply insert_domain_exact.
  - intros n. rewrite H2. f_equal. destruct o; cbn; [|done].
    apply (insert_lookup cs_wildcard names_wildcard). intros. apply insert_domain_wildcard.
  - rewrite H3. f_equal. destruct o; cbn; [apply insert_default|done].
Qed.

(** Does a certificate for [domain] answer the server name? *)
Definition covers_name (sni domain : string) : bool :=
  names_exact (to_lowercase sni) domain ||
  match split_once "." (to_lowercase sni) with Some (_, parent) => names_wildcard parent domain | None => false end.

Lemma covers_self domain : covers_name domain domain = true.
Proof.
  unfold covers_name, names_exact, names_wildcard. destruct (strip_prefix "*." (to_lowercase domain)) as [base|] eqn:Eb; cbn.
  - apply strip_prefix_Some in Eb as Hb. rewrite Hb. cbn. by rewrite bool_decide_eq_true_2 by done.
  - by rewrite String.eqb_refl.
Qed.

(** A name is answered after an insertion exactly when it was, or the insertion covers
    it. *)
Lemma insert_resolve_iff domains cert s sni :
  is_Some (resolve (CertStore_insert domains cert s) sni) ↔ existsb (covers_name sni) domains = true ∨ is_Some (resolve s sni).
Proof.
  assert (existsb (covers_name sni) domains = existsb (names_exact (to_lowercase sni)) domains ||
    match split_once "." (to_lowercase sni) with Some (_, parent) => existsb (names_wildcard parent) domains | None => false end) as ->.
  { unfold covers_name. induction domains as [|d domains IH]; cbn; [by destruct (split_once _ _) as [[]|]|]. rewrite IH.
    destruct (names_exact _ d), (existsb (names_exact _) domains), (split_once _ _) as [[]|]; cbn; try done. by rewrite orb_true_r. }
  unfold resolve, resolve_with_outcome. rewrite insert_default.
  rewrite (insert_lookup cs_exact names_exact) by (intros; apply insert_domain_exact).
  destruct (existsb (names_exact _) domains); cbn; [split; [by left|by eexists]|]. destruct (cs_exact s !! _) as [k|]; cbn; [split; [by right|by eexists]|].
  destruct (split_once _ _) as [[a rest]|]; cbn; [|naive_solver].
  rewrite (insert_lookup cs_wildcard names_wildcard) by (intros; apply insert_domain_wildcard).
  destruct (existsb (names_wildcard _) domains); cbn; [split; [by left|by eexists]|naive_solver].
Qed.

(** For a store built by any sequence of insertions and default settings, a
    server name gets the certificate last inserted for exactly that name, else the
    one last inserted for the wildcard of its parent domain, else the last default,
    else none; the outcome says which, and case never matters. *)
Theorem resolve_by_history ops sni :
  let h := to_lowercase sni in
  resolve_with_outcome (foldl apply_op CertStore_new ops) sni =
  match last_inserted (names_exact h) ops with
  | Some cert => (Some cert, Outcome_Exact)
  | None =>
      match split_once "." h ≫= (λ '(_, parent), last_inserted (names_wildcard parent) ops) with
      | Some cert => (Some cert, Outcome_Wildcard)
      | None => match last_default ops with
                | Some cert => (Some cert, Outcome_Default)
                | None => (None, Outcome_Miss)
                end
      end
  end.
Proof.
  cbn zeta. destruct (history_maps ops CertStore_new) as (H1&H2&H3). unfold resolve_with_outcome.
  rewrite H1, H3. change (cs_exact CertStore_new !! ?k) with (@None Cert).
  destruct (split_once "." (to_lowercase sni)) as [[l p]|]; cbn [mbind option_bind]; [|done].
  rewrite H2. done.
Qed.
End store.
Arguments CertStore : clear implicits.
Arguments CertOp : clear implicits.
Arguments CertManager : clear implicits.
