(* ===== verification/Files.v ===== *)
(** * Files and PEM material (crates/wicket-tls/src/pem.rs)

    The file system as a map from paths to contents and modes, the operations of the
    standard library the code uses on it with their faults, and the loading of
    certificates and keys.  What rustls and rustls-pemfile make of a file's bytes is a
    parameter. *)

From S2P Require Import Prelude Str.
From Stdlib Require Import Ascii.

(** [Path::join] with a relative path. *)
Definition path_join (dir file : string) : string :=
  if is_empty_str dir || ends_with "/" dir then dir +:+ file else dir +:+ "/" +:+ file.

Fixpoint split_slash (s : string) : list string :=
  match s with
  | EmptyString => [EmptyString]
  | String c s' =>
      match split_slash s' with
      | l :: ls => if Ascii.eqb c "/" then EmptyString :: l :: ls else String c l :: ls
      | [] => [String c EmptyString]
      end
  end.

(** [Path::components], which equality of paths compares: whether it is absolute, and
    the names; repeated slashes and inner dots do not count. *)
Definition path_components (p : string) : bool * list string :=
  let parts := split_slash p in
  let keep (l : list string) := filter (λ c, c ≠ "" ∧ c ≠ ".") l in
  (starts_with "/" p, match parts with "." :: parts' => "." :: keep parts' | _ => keep parts end).

(** [Path::parent]. *)
Definition path_parent (p : string) : option (bool * list string) :=
  let '(absolute, names) := path_components p in
  match names with [] => None | _ => Some (absolute, removelast names) end.

(** ** Files *)

Record File := mkFile { f_data : string; f_mode : N }.
Notation Files := (gmap string File).

(** A directory that cannot be created: a permission error or a read-only file system
    (both of which the code accepts), or anything else. *)
Inductive DirFault := DirNotWritable | DirFailed (e : string).

(** The faults of the file system: a failed write may leave anything behind. *)
Record FsFaults := mkFsFaults {
  ff_create_dir : option DirFault;
  ff_write : string → option (string * option File);
  ff_set_permissions : string → option string;
  ff_rename : string → option string;
  ff_open : string → option string;
  ff_remove : string → bool
}.

(** [tokio::fs::write]: an existing file keeps its mode. *)
Definition fs_write (default_mode : N) (ff : FsFaults) (path data : string) (fs : Files) : result string Files * Files :=
  match ff_write ff path with
  | Some (e, rest) => (Err e, partial_alter (λ _, rest) path fs)
  | None =>
      let fs := <[path := mkFile data (match fs !! path with Some f => f_mode f | None => default_mode end)]> fs in
      (Ok fs, fs)
  end.
Definition fs_set_permissions (ff : FsFaults) (path : string) (mode : N) (fs : Files) : result string Files :=
  match ff_set_permissions ff path with
  | Some e => Err e
  | None => match fs !! path with Some f => Ok (<[path := mkFile (f_data f) mode]> fs) | None => Err "No such file or directory" end
  end.
Definition fs_rename (ff : FsFaults) (from to : string) (fs : Files) : result string Files :=
  match ff_rename ff from with
  | Some e => Err e
  | None => match fs !! from with Some f => Ok (<[to := f]> (delete from fs)) | None => Err "No such file or directory" end
  end.
Definition fs_remove (ff : FsFaults) (path : string) (fs : Files) : Files := if ff_remove ff path then fs else delete path fs.

(** ** PEM files *)

Inductive PemError :=
| ReadFile (path source : string)
| NoCertificates (path : string)
| NoPrivateKey (path : string)
| ParseKey (e : string)
| UnsupportedKeyType.

Definition PemError_fmt (e : PemError) : string :=
  match e with
  | ReadFile path source => "failed to read file " +:+ path +:+ ": " +:+ source
  | NoCertificates path => "no certificates found in " +:+ path
  | NoPrivateKey path => "no private key found in " +:+ path
  | ParseKey e => "failed to parse private key: " +:+ e
  | UnsupportedKeyType => "unsupported key type"
  end.

Definition fs_open (ff : FsFaults) (path : string) (fs : Files) : result PemError string :=
  match ff_open ff path with
  | Some e => Err (ReadFile path e)
  | None => match fs !! path with Some f => Ok (f_data f) | None => Err (ReadFile path "No such file or directory (os error 2)") end
  end.

Section pem.
(** rustls-pemfile and rustls: the items of a PEM file that parse, its first private
    key, and whether a signer supports the key. *)
Context (pem_certs : string → list (result string string)) (pem_private_key : string → result string (option string)).
Context (any_supported_type : string → bool).

Definition load_certs (ff : FsFaults) (fs : Files) (path : string) : result PemError (list string) :=
  fs_open ff path fs ≫= λ data,
  let certs := omap ok (pem_certs data) in
  if is_empty certs then Err (NoCertificates path) else Ok certs.

Definition load_private_key (ff : FsFaults) (fs : Files) (path : string) : result PemError string :=
  fs_open ff path fs ≫= λ data,
  map_err ParseKey (pem_private_key data) ≫= λ k, ok_or (NoPrivateKey path) k.

Definition load_certified_key (ff : FsFaults) (fs : Files) (cert_path key_path : string) : result PemError (list string * string) :=
  load_certs ff fs cert_path ≫= λ certs,
  load_private_key ff fs key_path ≫= λ k,
  if any_supported_type k then Ok (certs, k) else Err UnsupportedKeyType.

End pem.

(** ** Paths *)

Lemma path_join_eq dir : ∃ d, (d = dir ∨ d = dir +:+ "/") ∧ ∀ file, path_join dir file = d +:+ file.
Proof.
  unfold path_join. destruct (is_empty_str dir || ends_with "/" dir); [by exists dir; auto|].
  exists (dir +:+ "/"). split; [by right|]. intros file. by rewrite app_str_assoc.
Qed.

(** Components without a slash can be read back from a path. *)
Lemma component_inj a b x y :
  contains_char "/" a = false → contains_char "/" b = false → a +:+ "/" +:+ x = b +:+ "/" +:+ y → a = b ∧ x = y.
Proof.
  revert b. induction a as [|c a IH]; intros [|c' b]; cbn.
  - intros _ _ [= ->]. done.
  - intros _ Hb [= <- _]. done.
  - intros Ha _ [= -> _]. done.
  - intros Ha Hb [= <- H]. apply orb_false_iff in Ha as [_ Ha], Hb as [_ Hb]. by destruct (IH b Ha Hb H) as [-> ->].
Qed.

Lemma ends_with_slash_app a b : b ≠ "" → ends_with "/" (a +:+ b) = ends_with "/" b.
Proof.
  intros Hb. apply eq_true_iff_eq. rewrite !ends_with_true. split; [|intros [p ->]; exists (a +:+ p); by rewrite app_str_assoc].
  induction a as [|c a IH]; cbn; [done|]. intros [[|c' p] H]; cbn in H; [|injection H as _ H; apply IH; by exists p].
  injection H as _ H. by destruct a, b.
Qed.

Lemma path_join_nested a b c : b ≠ "" → ends_with "/" b = false → path_join (path_join a b) c = path_join a b +:+ "/" +:+ c.
Proof.
  intros Hb Hs. destruct (path_join_eq a) as (d&_&Hd). rewrite Hd. unfold path_join at 1.
  rewrite ends_with_slash_app, Hs by done. destruct (d +:+ b) eqn:E; [by destruct d, b|done].
Qed.

Lemma no_slash_end s : contains_char "/" s = false → ends_with "/" s = false.
Proof.
  intros Hs. apply not_true_iff_false. rewrite ends_with_true. intros [p ->]. rewrite contains_char_app in Hs. cbn in Hs.
  by rewrite orb_true_r in Hs.
Qed.
