(* ===== verification/FileWatcher.v ===== *)
(** * File-based certificates (crates/wicket-tls/src/file_watcher.rs, pem.rs)

    Loading the configured certificate files into a store, and the watcher that reloads
    them: the served certificates, the metrics and the debounce deadline are its state;
    file events and the passing of time are its inputs.  What rustls, rustls-pemfile and
    x509-parser make of bytes is a parameter, as is the operating system's watching of
    directories. *)

From S2P Require Import Prelude Str Metrics TlsConfig CertStore Files.

Inductive FileWatcherError := FwNotify (e : string) | NoCertificatesLoaded.

Definition FileWatcherError_fmt (e : FileWatcherError) : string :=
  match e with FwNotify e => "notify error: " +:+ e | NoCertificatesLoaded => "no certificates loaded" end.

Section watcher.
Context (pem_certs : string → list (result string string)) (pem_private_key : string → result string (option string)).
Context (any_supported_type : string → bool).
(** The NotAfter of a certificate in DER, in seconds. *)
Context (x509_der_not_after : string → option Z).

Notation CertifiedKey := (list string * string)%type.
Notation Certs := (CertStore CertifiedKey).
Notation load ff fs c := (load_certified_key pem_certs pem_private_key any_supported_type ff fs (fc_cert c) (fc_key c)).

(** ** Loading *)

Definition extract_cert_expiry (cert_der : string) : option Z := x509_der_not_after cert_der.

(** [end_entity_cert] is the first certificate of the chain. *)
Definition emit_expiry (c : FileCertConfig) (key : CertifiedKey) (m : Metrics) : Metrics :=
  match head key.1 ≫= extract_cert_expiry with
  | Some t => foldl (λ m domain, set_cert_expiry domain t m) m (fc_domains c)
  | None => m
  end.

(** A certificate that does not load is skipped. *)
Definition build_step (ff : FsFaults) (fs : Files) (st : Certs * Metrics) (c : FileCertConfig) : Certs * Metrics :=
  match load ff fs c with
  | Ok key => (CertStore_insert (fc_domains c) key st.1, emit_expiry c key st.2)
  | Err _ => st
  end.

Definition build_store (config : FileConfig) (ff : FsFaults) (fs : Files) (m : Metrics) : result FileWatcherError Certs * Metrics :=
  let '(store, m) := foldl (build_step ff fs) (CertStore_new, m) (file_certs config) in
  (if CertStore_is_empty store then Err NoCertificatesLoaded else Ok store, m).

Definition load_all (config : FileConfig) (ff : FsFaults) (fs : Files) (manager : CertManager CertifiedKey) (m : Metrics)
    : result FileWatcherError unit * CertManager CertifiedKey * Metrics :=
  match build_store config ff fs m with
  | (Ok store, m) => (Ok tt, CertManager_reload store manager, m)
  | (Err e, m) => (Err e, manager, m)
  end.

(** ** Watching *)

Record WatchState := mkWatchState {
  ws_manager : CertManager CertifiedKey;
  ws_metrics : Metrics;
  ws_deadline : option N
}.

Definition debounce_ms : N := 500.

Definition reload_certs (config : FileConfig) (ff : FsFaults) (fs : Files) (s : WatchState) : WatchState :=
  match build_store config ff fs (ws_metrics s) with
  | (Ok store, m) => mkWatchState (CertManager_reload store (ws_manager s)) (inc_cert_reload CertReload_Success m) (ws_deadline s)
  | (Err _, m) => mkWatchState (ws_manager s) (inc_cert_reload CertReload_Failure m) (ws_deadline s)
  end.

Definition path_eqb (a b : string) : bool := bool_decide (path_components a = path_components b).

Definition is_relevant_event (config : FileConfig) (paths : list string) : bool :=
  existsb (λ path, existsb (λ c, path_eqb path (fc_cert c) || path_eqb path (fc_key c)) (file_certs config)) paths.

(** The directories of the files. *)
Definition watch_dirs (config : FileConfig) : gset (bool * list string) :=
  list_to_set (flat_map (λ c, option_list (path_parent (fc_cert c)) ++ option_list (path_parent (fc_key c))) (file_certs config)).

(** Setting up: creating the watcher and watching every directory, in some order. *)
Definition watch_setup (create : option string) (watch : bool * list string → option string) (dirs : list (bool * list string))
    : result FileWatcherError unit :=
  match create with
  | Some e => Err (FwNotify e)
  | None => for_each (λ d, match watch d with Some e => Err (FwNotify e) | None => Ok tt end) dirs
  end.

(** What wakes the loop: an event (the paths, or an error) at a time, or the deadline,
    at which the files are what they are then. *)
Inductive WatchInput :=
| FileEvent (now : N) (event : result string (list string))
| DeadlineReached (ff : FsFaults) (fs : Files).

Definition watch_step (config : FileConfig) (i : WatchInput) (s : WatchState) : WatchState :=
  match i with
  | FileEvent now (Ok paths) =>
      if is_relevant_event config paths then mkWatchState (ws_manager s) (ws_metrics s) (Some (now + debounce_ms)%N) else s
  | FileEvent now (Err _) => s
  | DeadlineReached ff fs => reload_certs config ff fs (mkWatchState (ws_manager s) (ws_metrics s) None)
  end.

(** The inputs over a stretch of time; the timer fires only when a deadline is set and
    has passed, and an event may come first even then. *)
Inductive watch_run (config : FileConfig) : N → WatchState → list WatchInput → N → WatchState → Prop :=
| watch_done t s : watch_run config t s [] t s
| watch_event t s inputs t1 s1 t2 event :
    watch_run config t s inputs t1 s1 → (t1 ≤ t2)%N →
    watch_run config t s (inputs ++ [FileEvent t2 event]) t2 (watch_step config (FileEvent t2 event) s1)
| watch_timer t s inputs t1 s1 t2 d ff fs :
    watch_run config t s inputs t1 s1 → (t1 ≤ t2)%N → ws_deadline s1 = Some d → (d ≤ t2)%N →
    watch_run config t s (inputs ++ [DeadlineReached ff fs]) t2 (watch_step config (DeadlineReached ff fs) s1).

(** ** What is served after a reload *)

Definition loads (ff : FsFaults) (fs : Files) (c : FileCertConfig) : Prop := ∃ key, load ff fs c = Ok key.

Lemma build_store_serves ff fs certs st sni :
  is_Some (resolve (foldl (build_step ff fs) st certs).1 sni) ↔
  is_Some (resolve st.1 sni) ∨ ∃ c, c ∈ certs ∧ loads ff fs c ∧ ∃ d, d ∈ fc_domains c ∧ covers_name sni d = true.
Proof.
  revert st. induction certs as [|c certs IH]; intros st; cbn [foldl].
  { split; [by left|]. intros [H|(c&?%elem_of_nil&_)]; done. }
  rewrite IH. unfold build_step at 1. setoid_rewrite elem_of_cons. destruct (load ff fs c) as [key|e] eqn:E.
  - cbn [fst]. rewrite insert_resolve_iff, existsb_true. split.
    + intros [[(d&Hd&Hc)|H]|(c'&Hc'&H)]; [right; exists c|by left|right; exists c'; by auto].
      split; [by left|]. split; [by exists key|by exists d].
    + intros [H|(c'&[->|Hc']&Hl&d&Hd&Hc)]; [by auto|left; left; by eauto|right; exists c'; by eauto 6].
  - split; [intros [H|(c'&Hc'&H)]; [by left|right; exists c'; by auto]|].
    intros [H|(c'&[->|Hc']&[key Hl]&H)]; [by left|congruence|right; exists c'; split; [done|]; split; [by exists key|done]].
Qed.

Lemma build_store_empty ff fs certs st :
  CertStore_is_empty (foldl (build_step ff fs) st certs).1 = false ↔
  CertStore_is_empty st.1 = false ∨ ∃ c, c ∈ certs ∧ loads ff fs c ∧ fc_domains c ≠ [].
Proof.
  revert st. induction certs as [|c certs IH]; intros st; cbn [foldl].
  { split; [by left|]. intros [H|(c&?%elem_of_nil&_)]; done. }
  rewrite IH. unfold build_step at 1. setoid_rewrite elem_of_cons. destruct (load ff fs c) as [key|e] eqn:E.
  - cbn [fst]. rewrite insert_is_empty, andb_false_iff. split.
    + intros [[H|H]|(c'&Hc'&H)]; [right; exists c|by left|right; exists c'; by auto].
      split; [by left|]. split; [by exists key|]. intros Hd. by rewrite Hd in H.
    + intros [H|(c'&[->|Hc']&Hl&H)]; [by auto|left; left; by destruct (fc_domains c)|right; exists c'; by eauto 6].
  - split; [intros [H|(c'&Hc'&H)]; [by left|right; exists c'; by auto]|].
    intros [H|(c'&[->|Hc']&[key Hl]&H)]; [by left|congruence|right; exists c'; split; [done|]; split; [by exists key|done]].
Qed.

(** What a reload serves.  When some certificate with a domain loads, a name is
    answered afterwards exactly when a configured certificate whose files load NOW
    covers it, so one broken file takes its domains out of service although the old
    certificate was good; when none loads, the served certificates stay. *)
Theorem reload_serves_loadable config ff fs s :
  let s' := reload_certs config ff fs s in
  ((∃ c, c ∈ file_certs config ∧ loads ff fs c ∧ fc_domains c ≠ []) →
   ∀ sni, is_Some (resolve (cm_store (ws_manager s')) sni) ↔
          ∃ c, c ∈ file_certs config ∧ loads ff fs c ∧ ∃ d, d ∈ fc_domains c ∧ covers_name sni d = true) ∧
  (¬ (∃ c, c ∈ file_certs config ∧ loads ff fs c ∧ fc_domains c ≠ []) → ws_manager s' = ws_manager s) ∧
  ws_deadline s' = ws_deadline s.
Proof.
  cbn zeta. unfold reload_certs, build_store.
  pose proof (build_store_serves ff fs (file_certs config) (CertStore_new, ws_metrics s)) as Hs.
  pose proof (build_store_empty ff fs (file_certs config) (CertStore_new, ws_metrics s)) as He.
  destruct (foldl _ _ _) as [store m]. cbn [fst] in *.
  assert (∀ sni, ¬ is_Some (resolve (CertStore_new : Certs) sni)) as Hnew.
  { intros sni. unfold resolve, resolve_with_outcome. cbn. destruct (split_once _ _) as [[]|]; cbn; by intros []. }
  destruct (CertStore_is_empty store) eqn:E; cbn; split_and!; [|done|done| | |done].
  - intros Hc. assert (true = false) as [=]. apply He. by right.
  - intros _ sni. rewrite Hs. split; [by intros [?%Hnew|H]|by right].
  - intros Hn. destruct Hn. by destruct (proj1 He eq_refl).
Qed.

(** ** When a reload happens *)

(** The time of the last relevant event that no reload has followed. *)
Definition pending (config : FileConfig) (inputs : list WatchInput) : option N :=
  foldl (λ acc i, match i with
                  | FileEvent now (Ok paths) => if is_relevant_event config paths then Some now else acc
                  | FileEvent _ (Err _) => acc
                  | DeadlineReached _ _ => None
                  end) None inputs.

Lemma reload_certs_deadline config ff fs s : ws_deadline (reload_certs config ff fs s) = ws_deadline s.
Proof. unfold reload_certs. by destruct (build_store _ _ _ _) as [[]]. Qed.

Lemma watch_run_deadline config t s inputs t' s' :
  watch_run config t s inputs t' s' → ws_deadline s = None → ws_deadline s' = (λ now, (now + debounce_ms)%N) <$> pending config inputs.
Proof.
  induction 1 as [t s|t s inputs t1 s1 t2 event _ IH _|t s inputs t1 s1 t2 d ff fs _ IH _ _ _]; intros Hn; [done|..];
    specialize (IH Hn); unfold pending; rewrite foldl_app; fold (pending config inputs); cbn [foldl watch_step].
  - destruct event as [paths|e]; [|done]. by destruct (is_relevant_event config paths).
  - by rewrite reload_certs_deadline.
Qed.

(** The watcher reloads exactly after changes that have settled.  In every run that
    starts without a deadline, a reload happens only when some event named a certificate
    or key file since the last one, and at least 500 ms after the last such event; a
    deadline is set exactly while such an event is pending. *)
Theorem reload_debounced config t s inputs ff fs t' s' :
  ws_deadline s = None → watch_run config t s (inputs ++ [DeadlineReached ff fs]) t' s' →
  ∃ now, pending config inputs = Some now ∧ (now + 500 ≤ t')%N ∧ ws_deadline s' = None.
Proof.
  intros Hn H. remember (inputs ++ [DeadlineReached ff fs]) as l eqn:E.
  destruct H as [t s|t s ins t1 s1 t2 event H1 _|t s ins t1 s1 t2 d ff' fs' H1 _ Hd Hle]; [by destruct inputs|by apply app_inj_tail in E as [_ [=]]|].
  apply app_inj_tail in E as [-> _]. apply watch_run_deadline in H1; [|done]. rewrite Hd in H1. symmetry in H1.
  apply fmap_Some in H1 as (now&Hp&->). exists now. split_and!; [done|exact Hle|]. cbn. by rewrite reload_certs_deadline.
Qed.

(** ** Updates that are not seen *)

(** The last name of the path starts with two dots. *)
Definition dotted (p : string) : bool := match last (path_components p).2 with Some f => starts_with ".." f | None => false end.
Definition dotted_event (i : WatchInput) : Prop :=
  match i with FileEvent _ (Ok paths) => Forall (λ p, dotted p = true) paths | _ => True end.

Lemma dotted_irrelevant config paths :
  (∀ c, c ∈ file_certs config → dotted (fc_cert c) = false ∧ dotted (fc_key c) = false) →
  Forall (λ p, dotted p = true) paths → is_relevant_event config paths = false.
Proof.
  intros Hc Hp. apply not_true_iff_false. unfold is_relevant_event. rewrite existsb_true.
  intros (p&Hin&(c&Hcin&H)%existsb_true). rewrite Forall_forall in Hp. specialize (Hp p Hin). destruct (Hc c Hcin) as [H1 H2].
  apply orb_true_iff in H as [H|H]; apply bool_decide_eq_true in H; unfold dotted in Hp; rewrite H in Hp; unfold dotted in *; congruence.
Qed.

(** An update of a mounted Secret is not noticed.  The kubelet replaces the
    directory behind the files by renaming the link ..data, so the events it causes name
    only entries that start with two dots, never the certificate files; whatever is in
    the files afterwards, a watcher that gets only such events never reloads. *)
Theorem secret_volume_update_unseen config t s inputs t' s' :
  (∀ c, c ∈ file_certs config → dotted (fc_cert c) = false ∧ dotted (fc_key c) = false) →
  ws_deadline s = None → watch_run config t s inputs t' s' → Forall dotted_event inputs → s' = s.
Proof.
  intros Hc Hn H. induction H as [t s|t s inputs t1 s1 t2 event _ IH _|t s inputs t1 s1 t2 d ff fs _ IH _ Hd _];
    [done|rewrite Forall_app, Forall_singleton; intros [Hi He]; rewrite (IH Hn Hi)..].
  - destruct event as [paths|e]; [|done]. cbn [watch_step]. by rewrite dotted_irrelevant.
  - specialize (IH Hn Hi). subst. congruence.
Qed.
End watcher.

(** ** A run *)

Module Demo.
Definition cert (n : string) : FileCertConfig := mkFileCertConfig n ("/tls/" +:+ n +:+ "/tls.crt") ("/tls/" +:+ n +:+ "/tls.key") [n].
Definition config : FileConfig := mkFileConfig true 30 [cert "a.com"; cert "b.com"].
Definition no_faults : FsFaults := mkFsFaults None (λ _, None) (λ _, None) (λ _, None) (λ _, None) (λ _, false).
(** Only the files of a.com are there. *)
Definition files : Files := {[ "/tls/a.com/tls.crt" := mkFile "C" 420; "/tls/a.com/tls.key" := mkFile "K" 384 ]}.
Definition state : WatchState := mkWatchState (mkCertManager CertStore_new) ∅ None.
Definition pem_certs (data : string) : list (result string string) := [Ok data].
Definition pem_private_key (data : string) : result string (option string) := Ok (Some data).
Notation step := (watch_step pem_certs pem_private_key (λ _, true) (λ _, None) config).
Notation run := (watch_run pem_certs pem_private_key (λ _, true) (λ _, None) config).
End Demo.

Lemma reload_serves_loadable_witness :
  let s' := reload_certs Demo.pem_certs Demo.pem_private_key (λ _, true) (λ _, None) Demo.config Demo.no_faults Demo.files Demo.state in
  is_Some (resolve (cm_store (ws_manager s')) "a.com") ∧ ¬ is_Some (resolve (cm_store (ws_manager s')) "b.com").
Proof.
  destruct (reload_serves_loadable Demo.pem_certs Demo.pem_private_key (λ _, true) (λ _, None) Demo.config Demo.no_faults Demo.files Demo.state)
    as (H&_&_).
  assert (∃ c, c ∈ file_certs Demo.config ∧
    loads Demo.pem_certs Demo.pem_private_key (λ _, true) Demo.no_faults Demo.files c ∧ fc_domains c ≠ []) as Hc.
  { exists (Demo.cert "a.com"). split; [left|]. split; [by eexists|done]. }
  specialize (H Hc). split; [|vm_compute; by intros []].
  apply H. exists (Demo.cert "a.com"). split; [left|]. split; [by eexists|]. exists "a.com". split; [left|reflexivity].
Defined.

Lemma reload_debounced_witness :
  let e1 := FileEvent 100 (Ok ["/tls/a.com/tls.crt"]) in
  let e2 := FileEvent 300 (Ok ["/tls//a.com/tls.key"]) in
  ∃ s', Demo.run 0 Demo.state [e1; e2; DeadlineReached Demo.no_faults Demo.files] 800 s' ∧
    ∃ now, pending Demo.config [e1; e2] = Some now ∧ (now + 500 ≤ 800)%N ∧ ws_deadline s' = None.
Proof.
  eassert (Demo.run 0 Demo.state ([FileEvent 100 (Ok ["/tls/a.com/tls.crt"]); FileEvent 300 (Ok ["/tls//a.com/tls.key"])] ++
    [DeadlineReached Demo.no_faults Demo.files]) 800 _) as H.
  { eapply watch_timer; [eapply (watch_event _ _ _ _ _ _ _ [_]); [eapply (watch_event _ _ _ _ _ _ _ []); [constructor|done]|done]|done|reflexivity|done]. }
  eexists. split; [exact H|]. exact (reload_debounced _ _ _ _ Demo.config 0 Demo.state _ _ _ 800 _ eq_refl H).
Defined.

Lemma secret_volume_update_unseen_witness :
  let e := FileEvent 100 (Ok ["/tls/a.com/..data_tmp"; "/tls/a.com/..data"]) in
  ∃ s', Demo.run 0 Demo.state [e] 100 s' ∧ s' = Demo.state.
Proof.
  eassert (Demo.run 0 Demo.state [FileEvent 100 (Ok ["/tls/a.com/..data_tmp"; "/tls/a.com/..data"])] 100 _) as H.
  { eapply (watch_event _ _ _ _ _ _ _ []); [constructor|done]. }
  eexists. split; [exact H|]. eapply (secret_volume_update_unseen _ _ _ _ Demo.config 0 Demo.state _ 100 _); [|reflexivity|exact H|].
  - intros c Hc. repeat (apply elem_of_cons in Hc as [->|Hc]); [done..|by apply elem_of_nil in Hc].
  - repeat constructor.
Defined.
