(* ===== verification/AcmeStorage.v ===== *)
(** * Storage of accounts and certificates (crates/wicket-tls/src/acme/storage.rs)

    Account credentials and certificates under a base directory.  The disk is a map of
    files and a count of the operations so far; [fault] says which operations fail, so
    a theorem that quantifies over it covers every moment a fault may strike.  The
    JSON of the metadata, and the clock, are parameters. *)

From S2P Require Import Prelude Str Bytes Num Files.
From Stdlib Require Import Ascii.

Inductive StorageError := SIo (e : string) | SJson (e : string) | CertNotFound (domain : string).

(** Times are nanoseconds since the epoch. *)
Record StoredCert := mkStoredCert {
  sc_cert_pem : string;
  sc_key_pem : string;
  sc_expiry : Z;
  sc_domains : list string
}.

Record CertMeta := mkCertMeta { cmeta_expiry : Z; cmeta_domains : list string; cmeta_created_at : Z }.

Record AcmeStorage := mkAcmeStorage { as_base_path : string; as_staging : bool }.

Record Disk := mkDisk { d_files : Files; d_ops : nat }.

(** ** Paths *)

Definition env_name (s : AcmeStorage) : string := if as_staging s then "staging" else "production".

Definition account_file (s : AcmeStorage) : string := "account." +:+ env_name s +:+ ".json".

Definition safe_char (c : ascii) : ascii :=
  if Ascii.eqb c "/" || Ascii.eqb c "092" || Ascii.eqb c "000" then "_"%char else c.
Definition safe_domain (domain : string) : string := map_string safe_char domain.

Definition cert_path (s : AcmeStorage) (domain : string) : string :=
  path_join (path_join (path_join (as_base_path s) "certs") (env_name s)) (safe_domain domain).

(** ** Operations of the disk *)

Section disk.
Context (fault : nat → option string) (partial : nat → nat) (now : nat → Z) (default_mode : N).
Context (meta_to_json : CertMeta → result string string) (meta_from_json : string → result string CertMeta).

Notation storage := (io Disk StorageError).

Definition op_count : storage nat := λ d, (Done (d_ops d), mkDisk (d_files d) (S (d_ops d))).
(** An operation of the operating system: counted, and it may fail. *)
Definition os_op : storage unit :=
  op_count ≫= λ n, match fault n with Some e => io_fail (SIo e) | None => mret tt end.
Definition get_files : storage Files := λ d, (Done (d_files d), d).
Definition set_files (f : Files → Files) : storage unit := io_modify (λ d, mkDisk (f (d_files d)) (d_ops d)).

Definition create_dir_all (path : string) : storage unit := os_op.

(** [File::create]: an existing file is truncated and keeps its mode. *)
Definition file_create (path : string) : storage unit :=
  os_op ≫= λ _, set_files (λ fs, <[path := mkFile "" (match fs !! path with Some f => f_mode f | None => default_mode end)]> fs).

Definition file_set_permissions (path : string) (mode : N) : storage unit :=
  os_op ≫= λ _, set_files (alter (λ f, mkFile (f_data f) mode) path).

(** Writing and flushing: a failure leaves a prefix behind. *)
Definition file_write (path data : string) : storage unit :=
  op_count ≫= λ n,
  let put (data : string) := set_files (alter (λ f, mkFile data (f_mode f)) path) in
  match fault n with
  | Some e => put (slice_to (partial n) data) ≫= λ _, io_fail (SIo e)
  | None => put data
  end.

Definition file_rename (from to : string) : storage unit :=
  os_op ≫= λ _, get_files ≫= λ fs,
  match fs !! from with
  | Some f => set_files (λ fs, <[to := f]> (delete from fs))
  | None => io_fail (SIo "No such file or directory (os error 2)")
  end.

(** [Path::exists] is false on any error. *)
Definition path_exists (path : string) : storage bool :=
  op_count ≫= λ n, get_files ≫= λ fs,
  mret (match fault n with Some _ => false | None => bool_decide (is_Some (fs !! path)) end).

Definition read_to_string (path : string) : storage string :=
  os_op ≫= λ _, get_files ≫= λ fs,
  match fs !! path with
  | None => io_fail (SIo "No such file or directory (os error 2)")
  | Some f => if utf8_valid (as_bytes (f_data f)) then mret (f_data f) else io_fail (SIo "stream did not contain valid UTF-8")
  end.

(** [File::open] and [serde_json::from_reader]. *)
Definition read_meta (path : string) : storage CertMeta :=
  os_op ≫= λ _, get_files ≫= λ fs,
  match fs !! path with
  | None => io_fail (SIo "No such file or directory (os error 2)")
  | Some f =>
      op_count ≫= λ n,
      match fault n with
      | Some e => io_fail (SJson e)
      | None => match meta_from_json (f_data f) with Err e => io_fail (SJson e) | Ok meta => mret meta end
      end
  end.

(** [Utc::now()]. *)
Definition utc_now : storage Z := op_count ≫= λ n, mret (now n).

(** ** The storage *)

Definition AcmeStorage_new (base_path : string) (staging : bool) : storage AcmeStorage :=
  create_dir_all base_path ≫= λ _,
  create_dir_all (path_join (path_join base_path "certs") "staging") ≫= λ _,
  create_dir_all (path_join (path_join base_path "certs") "production") ≫= λ _,
  mret (mkAcmeStorage base_path staging).

Definition temp_name (file_name : string) : string := "." +:+ file_name +:+ ".tmp".

(** The path is given as its parent and its file name. *)
Definition atomic_write (dir file_name data : string) (mode : N) : storage unit :=
  let temp_path := path_join dir (temp_name file_name) in
  file_create temp_path ≫= λ _,
  file_set_permissions temp_path mode ≫= λ _,
  file_write temp_path data ≫= λ _,
  file_rename temp_path (path_join dir file_name).

(** [0o600] and [0o644]. *)
Definition private_mode : N := 384.
Definition public_mode : N := 420.

Definition load_account (s : AcmeStorage) : storage (option string) :=
  let path := path_join (as_base_path s) (account_file s) in
  path_exists path ≫= λ found,
  if negb found then mret None else read_to_string path ≫= λ creds, mret (Some creds).

Definition save_account (s : AcmeStorage) (credentials_json : string) : storage unit :=
  atomic_write (as_base_path s) (account_file s) credentials_json private_mode.

(** [!a.exists() || !b.exists() || !c.exists()], from left to right. *)
Definition all_exist (a b c : string) : storage bool :=
  path_exists a ≫= λ fa, if negb fa then mret false else
  path_exists b ≫= λ fb, if negb fb then mret false else path_exists c.

Definition load_cert (s : AcmeStorage) (primary_domain : string) : storage (option StoredCert) :=
  let cert_dir := cert_path s primary_domain in
  let cert_path := path_join cert_dir "cert.pem" in
  let key_path := path_join cert_dir "key.pem" in
  let meta_path := path_join cert_dir "meta.json" in
  all_exist cert_path key_path meta_path ≫= λ found,
  if negb found then mret None else
  read_to_string cert_path ≫= λ cert_pem,
  read_to_string key_path ≫= λ key_pem,
  read_meta meta_path ≫= λ meta,
  mret (Some (mkStoredCert cert_pem key_pem (cmeta_expiry meta) (cmeta_domains meta))).

Definition save_cert (s : AcmeStorage) (primary_domain : string) (cert : StoredCert) : storage unit :=
  let cert_dir := cert_path s primary_domain in
  create_dir_all cert_dir ≫= λ _,
  atomic_write cert_dir "cert.pem" (sc_cert_pem cert) public_mode ≫= λ _,
  atomic_write cert_dir "key.pem" (sc_key_pem cert) private_mode ≫= λ _,
  utc_now ≫= λ created_at,
  match meta_to_json (mkCertMeta (sc_expiry cert) (sc_domains cert) created_at) with
  | Err e => io_fail (SJson e)
  | Ok meta_json => atomic_write cert_dir "meta.json" meta_json public_mode
  end.

(** [chrono::Duration::days]. *)
Definition days (n : N) : Z := Z.of_N n * 86400000000000.

Definition needs_renewal (s : AcmeStorage) (primary_domain : string) (days_before : N) : storage bool :=
  load_cert s primary_domain ≫= λ stored,
  match stored with
  | None => mret true
  | Some cert => utc_now ≫= λ t, mret (sc_expiry cert <? t + days days_before)%Z
  end.

(** ** Writing a file *)

Lemma temp_name_ne dir file : path_join dir (temp_name file) ≠ path_join dir file.
Proof.
  destruct (path_join_eq dir) as (d&_&Hd). rewrite !Hd. intros H%app_str_inj_l. apply (f_equal String.length) in H.
  unfold temp_name in H. rewrite !length_app_str in H. cbn in H. lia.
Qed.

(** Only the temporary file changes until the rename, which installs exactly the data
    under the mode. *)
Lemma atomic_write_spec dir file data mode d r d' :
  atomic_write dir file data mode d = (r, d') →
  let path := path_join dir file in
  let temp := path_join dir (temp_name file) in
  match r with
  | Done _ => d_files d' = <[path := mkFile data mode]> (delete temp (d_files d)) ∧ d_ops d' = 4 + d_ops d
  | Failed _ => ∀ p, p ≠ temp → d_files d' !! p = d_files d !! p
  | Panicked => False
  end.
Proof.
  intros H path temp. revert H. unfold atomic_write. fold path temp.
  unfold file_create, file_set_permissions, file_write, file_rename, os_op, op_count, set_files, get_files, io_modify, io_fail,
    mbind, io_bind, mret, io_ret. cbn.
  destruct (fault (d_ops d)); [intros [= <- <-]; by cbn|cbn].
  destruct (fault (S (d_ops d))); [intros [= <- <-] p Hp; cbn; by rewrite lookup_insert_ne|cbn].
  destruct (fault (S (S (d_ops d)))); [intros [= <- <-] p Hp; cbn; by rewrite !lookup_alter_ne, lookup_insert_ne by done|cbn].
  destruct (fault (S (S (S (d_ops d))))); [intros [= <- <-] p Hp; cbn; by rewrite !lookup_alter_ne, lookup_insert_ne by done|cbn].
  rewrite !lookup_alter_eq, lookup_insert_eq. cbn. intros [= <- <-]. cbn. split; [|done]. f_equal.
  apply map_eq. intros p. destruct (decide (p = temp)) as [->|Hp]; [by rewrite !lookup_delete_eq|].
  by rewrite !lookup_delete_ne, !lookup_alter_ne, lookup_insert_ne by done.
Qed.

(** ** Where certificates are *)

Lemma safe_domain_no_slash domain : contains_char "/" (safe_domain domain) = false.
Proof.
  unfold safe_domain. induction domain as [|c s IH]; [done|]. cbn [map_string contains_char]. rewrite IH, orb_false_r.
  unfold safe_char. destruct (Ascii.eqb c "/") eqn:E; [done|]. by destruct (Ascii.eqb c "092"), (Ascii.eqb c "000").
Qed.

Lemma safe_domain_nonempty domain : domain ≠ "" → safe_domain domain ≠ "".
Proof. by destruct domain. Qed.

Definition cert_root (s : AcmeStorage) : string := path_join (path_join (as_base_path s) "certs") (env_name s).

Lemma cert_file_eq s domain file :
  domain ≠ "" → path_join (cert_path s domain) file = cert_root s +:+ "/" +:+ safe_domain domain +:+ "/" +:+ file.
Proof.
  intros Hd. unfold cert_path. fold (cert_root s). pose proof (safe_domain_no_slash domain) as Hs.
  rewrite path_join_nested by (by auto using safe_domain_nonempty, no_slash_end).
  unfold cert_root at 1. rewrite path_join_nested; [by rewrite !app_str_assoc|..]; unfold env_name; by destruct (as_staging s).
Qed.

Lemma cert_file_inj s domain domain' file file' :
  domain ≠ "" → domain' ≠ "" → path_join (cert_path s domain) file = path_join (cert_path s domain') file' →
  safe_domain domain = safe_domain domain' ∧ file = file'.
Proof.
  intros Hd Hd'. rewrite !cert_file_eq by done. intros H%app_str_inj_l%app_str_inj_l.
  apply component_inj in H; auto using safe_domain_no_slash.
Qed.

Lemma file_in_dir_inj dir file file' : path_join dir file = path_join dir file' → file = file'.
Proof. destruct (path_join_eq dir) as (d&_&Hd). rewrite !Hd. apply app_str_inj_l. Qed.

(** ** Saving and loading *)

(** The operations from here on succeed. *)
Definition quiet (d : Disk) : Prop := ∀ n, d_ops d ≤ n → fault n = None.

(** The files of a stored certificate. *)
Definition stored_files (s : AcmeStorage) (domain : string) (cert : StoredCert) (fs : Files) : Prop :=
  ∃ cm km mm json meta,
    fs !! path_join (cert_path s domain) "cert.pem" = Some (mkFile (sc_cert_pem cert) cm) ∧
    fs !! path_join (cert_path s domain) "key.pem" = Some (mkFile (sc_key_pem cert) km) ∧
    fs !! path_join (cert_path s domain) "meta.json" = Some (mkFile json mm) ∧
    utf8_valid (as_bytes (sc_cert_pem cert)) = true ∧ utf8_valid (as_bytes (sc_key_pem cert)) = true ∧
    meta_from_json json = Ok meta ∧ cmeta_expiry meta = sc_expiry cert ∧ cmeta_domains meta = sc_domains cert.

Definition after (n : nat) (d : Disk) : Disk := mkDisk (d_files d) (n + d_ops d).
Lemma quiet_after n d : quiet d → quiet (after n d).
Proof. intros H k Hk. apply H. cbn in Hk. lia. Qed.

Lemma path_exists_quiet p f d : quiet d → d_files d !! p = Some f → path_exists p d = (Done true, after 1 d).
Proof.
  intros Hq Hf. unfold path_exists, op_count, get_files, mbind, io_bind, mret, io_ret. cbn. rewrite (Hq (d_ops d)), Hf by lia.
  by rewrite bool_decide_eq_true_2 by done.
Qed.

Lemma read_to_string_quiet p data m d :
  quiet d → d_files d !! p = Some (mkFile data m) → utf8_valid (as_bytes data) = true → read_to_string p d = (Done data, after 1 d).
Proof.
  intros Hq Hf Hu. unfold read_to_string, os_op, op_count, get_files, mbind, io_bind, mret, io_ret. cbn.
  rewrite (Hq (d_ops d)) by lia. cbn [d_files]. rewrite Hf. cbn [f_data]. by rewrite Hu.
Qed.

Lemma read_meta_quiet p json m meta d :
  quiet d → d_files d !! p = Some (mkFile json m) → meta_from_json json = Ok meta → read_meta p d = (Done meta, after 2 d).
Proof.
  intros Hq Hf Hm. unfold read_meta, os_op, op_count, get_files, mbind, io_bind, mret, io_ret. cbn.
  rewrite (Hq (d_ops d)) by lia. cbn. rewrite Hf. cbn. rewrite (Hq (S (d_ops d))) by lia. cbn. by rewrite Hm.
Qed.

Lemma load_cert_quiet s domain cert d :
  quiet d → stored_files s domain cert (d_files d) → load_cert s domain d = (Done (Some cert), after 7 d).
Proof.
  intros Hq (cm&km&mm&json&meta&Hc&Hk&Hm&Uc&Uk&Hj&He&Hds). unfold load_cert, all_exist.
  erewrite io_bind_step.
  2:{ erewrite io_bind_step by (by eapply path_exists_quiet). cbn [negb].
      erewrite io_bind_step by (eapply path_exists_quiet; [by apply quiet_after|done]). cbn [negb].
      eapply path_exists_quiet; [by do 2 apply quiet_after|done]. }
  cbn [negb]. erewrite io_bind_step by (eapply read_to_string_quiet; [by do 3 apply quiet_after|done..]).
  erewrite io_bind_step by (eapply read_to_string_quiet; [by do 4 apply quiet_after|done..]).
  erewrite io_bind_step by (eapply read_meta_quiet; [by do 5 apply quiet_after|done..]).
  rewrite He, Hds. by destruct cert.
Qed.

Lemma save_cert_files s domain cert d d1 :
  save_cert s domain cert d = (Done tt, d1) →
  ∃ json created, meta_to_json (mkCertMeta (sc_expiry cert) (sc_domains cert) created) = Ok json ∧
    let put file data mode fs :=
      <[path_join (cert_path s domain) file := mkFile data mode]> (delete (path_join (cert_path s domain) (temp_name file)) fs) in
    d_files d1 = put "meta.json" json public_mode (put "key.pem" (sc_key_pem cert) private_mode
                   (put "cert.pem" (sc_cert_pem cert) public_mode (d_files d))).
Proof.
  unfold save_cert. intros (?&d0&H0&H)%io_bind_Done.
  assert (d_files d0 = d_files d) as Hf0.
  { revert H0. unfold create_dir_all, os_op, op_count, mbind, io_bind. destruct (fault _); [done|]. by intros [= <- <-]. }
  apply io_bind_Done in H as ([]&d2&H2&H). apply io_bind_Done in H as ([]&d3&H3&H). apply io_bind_Done in H as (created&d4&H4&H).
  apply atomic_write_spec in H2 as [H2 _], H3 as [H3 _].
  assert (d_files d4 = d_files d3) as H4' by (injection H4 as _ <-; done).
  destruct (meta_to_json _) as [json|e] eqn:Ej; [|done]. apply atomic_write_spec in H as [H _].
  exists json, created. split; [done|]. cbn zeta. by rewrite H, H4', H3, H2, Hf0.
Qed.

(** C24: what is saved is what is loaded, and nothing else changes.  After a save that
    succeeds, a load without faults gives back the certificate, the key is readable by
    its owner only, and no file of another domain, or outside the domain's directory,
    has changed. *)
Theorem save_load_roundtrip s domain cert d d1 d2 :
  (∀ m json, meta_to_json m = Ok json → meta_from_json json = Ok m) →
  utf8_valid (as_bytes (sc_cert_pem cert)) = true → utf8_valid (as_bytes (sc_key_pem cert)) = true →
  save_cert s domain cert d = (Done tt, d1) → d_files d2 = d_files d1 → quiet d2 →
  (load_cert s domain d2).1 = Done (Some cert) ∧
  f_mode <$> d_files d1 !! path_join (cert_path s domain) "key.pem" = Some private_mode ∧
  (∀ p, (∀ file, p ≠ path_join (cert_path s domain) file) → d_files d1 !! p = d_files d !! p) ∧
  (∀ domain' file, domain ≠ "" → domain' ≠ "" → safe_domain domain' ≠ safe_domain domain →
     d_files d1 !! path_join (cert_path s domain') file = d_files d !! path_join (cert_path s domain') file).
Proof.
  intros Hjson Uc Uk Hs Hf Hq. destruct (save_cert_files _ _ _ _ _ Hs) as (json&created&Hj&Hfs). cbn zeta in Hfs.
  set (dir := cert_path s domain) in *.
  assert (∀ file file', file ≠ file' → path_join dir file ≠ path_join dir file') as Hne.
  { intros file file' H ?%file_in_dir_inj. done. }
  assert (∀ p, (∀ file, p ≠ path_join dir file) → d_files d1 !! p = d_files d !! p) as Hout.
  { intros p Hp. rewrite Hfs. by rewrite !lookup_insert_ne, !lookup_delete_ne,
      !lookup_insert_ne, !lookup_delete_ne, lookup_insert_ne, lookup_delete_ne by (by apply not_eq_sym). }
  split_and!; [|rewrite Hfs|done|].
  - erewrite load_cert_quiet; [done|done|]. rewrite Hf, Hfs. unfold stored_files. fold dir.
    do 5 eexists. split_and!; [..|done|done|by apply Hjson|done|done].
    + by rewrite !lookup_insert_ne, !lookup_delete_ne, lookup_insert_ne, lookup_delete_ne, lookup_insert_eq by (by apply Hne).
    + by rewrite lookup_insert_ne, lookup_delete_ne, lookup_insert_eq by (by apply Hne).
    + by rewrite lookup_insert_eq.
  - by rewrite lookup_insert_ne, lookup_delete_ne, lookup_insert_eq by (by apply Hne).
  - intros domain' file Hd Hd' Hsafe. apply Hout. intros file' H. apply cert_file_inj in H as [H _]; done.
Qed.

(** ** A save that fails half way *)

Lemma atomic_write_succeeds dir file data mode d :
  (∀ i, i < 4 → fault (i + d_ops d) = None) → ∃ d', atomic_write dir file data mode d = (Done tt, d').
Proof.
  intros Hf. unfold atomic_write, file_create, file_set_permissions, file_write, file_rename, os_op, op_count, set_files, get_files,
    io_modify, mbind, io_bind, mret, io_ret. cbn.
  rewrite (Hf 0 : _ → fault (d_ops d) = None) by lia. cbn. rewrite (Hf 1 : _ → fault (S (d_ops d)) = None) by lia. cbn. rewrite (Hf 2 : _ → fault (S (S (d_ops d))) = None) by lia. cbn. rewrite (Hf 3 : _ → fault (S (S (S (d_ops d)))) = None) by lia. cbn.
  rewrite !lookup_alter_eq, lookup_insert_eq. by eexists.
Qed.

Lemma atomic_write_fails dir file data mode d i e :
  i < 4 → (∀ j, j < i → fault (j + d_ops d) = None) → fault (i + d_ops d) = Some e →
  ∃ d', atomic_write dir file data mode d = (Failed (SIo e), d').
Proof.
  intros Hi Hf He. unfold atomic_write, file_create, file_set_permissions, file_write, file_rename, os_op, op_count, set_files, get_files,
    io_modify, io_fail, mbind, io_bind, mret, io_ret. cbn.
  destruct i as [|i]; cbn in He; [rewrite He; by eexists|]. rewrite (Hf 0 : _ → fault (d_ops d) = None) by lia. cbn.
  destruct i as [|i]; cbn in He; [rewrite He; by eexists|]. rewrite (Hf 1 : _ → fault (S (d_ops d)) = None) by lia. cbn.
  destruct i as [|i]; cbn in He; [rewrite He; by eexists|]. rewrite (Hf 2 : _ → fault (S (S (d_ops d))) = None) by lia. cbn.
  destruct i as [|i]; cbn in He; [rewrite He; by eexists|lia].
Qed.

(** A save is not atomic.  The three files are replaced one after the other: when
    writing the key fails at any of its steps, the save reports the failure, and the
    next load returns the new certificate with the old private key and the old
    expiry. *)
Theorem torn_save s domain old cert d k e :
  stored_files s domain old (d_files d) → utf8_valid (as_bytes (sc_cert_pem cert)) = true →
  5 ≤ k < 9 → (∀ i, i < k → fault (i + d_ops d) = None) → fault (k + d_ops d) = Some e →
  ∃ d1, save_cert s domain cert d = (Failed (SIo e), d1) ∧
    ∀ d2, d_files d2 = d_files d1 → quiet d2 →
      (load_cert s domain d2).1 = Done (Some (mkStoredCert (sc_cert_pem cert) (sc_key_pem old) (sc_expiry old) (sc_domains old))).
Proof.
  intros (cm&km&mm&json&meta&_&Hk&Hm&_&Uk&Hj&He&Hds) Uc Hk5 Hf Hfe. set (dir := cert_path s domain) in *.
  assert (∀ file file', file ≠ file' → path_join dir file ≠ path_join dir file') as Hne by (intros file file' H ?%file_in_dir_inj; done).
  unfold save_cert. fold dir. rewrite (io_bind_step _ _ _ tt (after 1 d)).
  2:{ unfold create_dir_all, os_op, op_count, mbind, io_bind. by rewrite (Hf 0 : _ → fault (d_ops d) = None) by lia. }
  destruct (atomic_write_succeeds dir "cert.pem" (sc_cert_pem cert) public_mode (after 1 d)) as [d1 H1].
  { intros i Hi. cbn. rewrite <-(Hf (S i)) by lia. f_equal. lia. }
  rewrite (io_bind_step _ _ _ _ _ H1). apply atomic_write_spec in H1 as [Hf1 Ho1].
  destruct (atomic_write_fails dir "key.pem" (sc_key_pem cert) private_mode d1 (k - 5) e) as [d2 H2]; rewrite ?Ho1; cbn [after d_ops].
  { lia. }
  { intros j Hj'. rewrite <-(Hf (5 + j)) by lia. f_equal. lia. }
  { rewrite <-Hfe. f_equal. lia. }
  exists d2. split; [unfold mbind, io_bind; by rewrite H2|]. apply atomic_write_spec in H2. cbn in H2. fold dir in H2.
  intros d3 Hd3 Hq. erewrite load_cert_quiet; [done|done|]. unfold stored_files. rewrite Hd3. fold dir.
  do 5 eexists. split_and!; [..|exact Uc|exact Uk|exact Hj|done|done];
    rewrite H2, Hf1 by (by apply Hne); cbn [after d_files].
  - by rewrite lookup_insert_eq.
  - rewrite lookup_insert_ne, lookup_delete_ne by (by apply Hne). exact Hk.
  - rewrite lookup_insert_ne, lookup_delete_ne by (by apply Hne). exact Hm.
Qed.

End disk.

(** ** A run *)

Module Demo.
Definition storage : AcmeStorage := mkAcmeStorage "/acme" true.
Definition old : StoredCert := mkStoredCert "C1" "K1" 7 ["a.com"].
Definition renewed : StoredCert := mkStoredCert "C2" "K2" 8 ["a.com"].
Definition meta_to_json (m : CertMeta) : result string string :=
  if bool_decide (cmeta_domains m = ["a.com"] ∧ cmeta_created_at m = 0%Z) then
    if (cmeta_expiry m =? 7)%Z then Ok "seven" else if (cmeta_expiry m =? 8)%Z then Ok "eight" else Err "unsupported"
  else Err "unsupported".
Definition meta_from_json (json : string) : result string CertMeta :=
  if String.eqb json "seven" then Ok (mkCertMeta 7 ["a.com"] 0)
  else if String.eqb json "eight" then Ok (mkCertMeta 8 ["a.com"] 0) else Err "invalid".
Definition disk : Disk :=
  let dir := cert_path storage "a.com" in
  mkDisk {[ path_join dir "cert.pem" := mkFile "C1" public_mode; path_join dir "key.pem" := mkFile "K1" private_mode;
            path_join dir "meta.json" := mkFile "seven" public_mode ]} 0.
Definition save (fault : nat → option string) (cert : StoredCert) : exec StorageError unit * Disk :=
  save_cert fault (λ _, 0) (λ _, 0%Z) 420 meta_to_json storage "a.com" cert disk.
Definition fault_at (k n : nat) : option string := if n =? k then Some "No space left on device" else None.

Lemma json_inverse m json : meta_to_json m = Ok json → meta_from_json json = Ok m.
Proof.
  unfold meta_to_json. destruct m as [e ds c]. cbn. case_bool_decide as H; [|done]. destruct H as [-> ->].
  destruct (Z.eqb_spec e 7) as [->|]; [by intros [= <-]|]. destruct (Z.eqb_spec e 8) as [->|]; [by intros [= <-]|done].
Qed.
End Demo.

Lemma save_load_roundtrip_witness :
  let '(r, d1) := Demo.save (λ _, None) Demo.renewed in
  r = Done tt ∧ (load_cert (λ _, None) Demo.meta_from_json Demo.storage "a.com" d1).1 = Done (Some Demo.renewed).
Proof.
  destruct (Demo.save (λ _, None) Demo.renewed) as [r d1] eqn:H.
  assert (r = Done tt) as -> by (apply (f_equal fst) in H; cbn [fst] in H; rewrite <-H; vm_compute; reflexivity).
  split; [reflexivity|].
  exact (proj1 (save_load_roundtrip (λ _, None) (λ _, 0) (λ _, 0%Z) 420 Demo.meta_to_json Demo.meta_from_json Demo.storage "a.com"
    Demo.renewed Demo.disk d1 d1 Demo.json_inverse eq_refl eq_refl H eq_refl (λ _ _, eq_refl))).
Defined.

(** The disk is full when the key is written. *)
Lemma torn_save_witness :
  ∃ d1, Demo.save (Demo.fault_at 7) Demo.renewed = (Failed (SIo "No space left on device"), d1) ∧
    ∀ d2, d_files d2 = d_files d1 → quiet (Demo.fault_at 7) d2 →
      (load_cert (Demo.fault_at 7) Demo.meta_from_json Demo.storage "a.com" d2).1 = Done (Some (mkStoredCert "C2" "K1" 7 ["a.com"])).
Proof.
  apply (torn_save (Demo.fault_at 7) (λ _, 0) (λ _, 0%Z) 420 Demo.meta_to_json Demo.meta_from_json Demo.storage "a.com" Demo.old Demo.renewed
    Demo.disk 7).
  - exists public_mode, private_mode, public_mode, "seven", (mkCertMeta 7 ["a.com"] 0). split_and!; vm_compute; reflexivity.
  - vm_compute; reflexivity.
  - lia.
  - intros i Hi. cbn. unfold Demo.fault_at. by rewrite (proj2 (Nat.eqb_neq _ _)) by lia.
  - reflexivity.
Defined.
