(* ===== verification/Cloudflare.v ===== *)
(** * The Cloudflare DNS client (crates/wicket-tls/src/acme/cloudflare.rs)

    The client of the DNS provider used for DNS-01 challenges.  Cloudflare is outside
    the repository: its state and its answer to a request are parameters, as are the
    decoding of JSON answers and the characters an HTTP header may hold.  What the
    theorems need of the service is the class [CloudflareService]: the documented
    effect of listing, creating and deleting TXT records. *)

From S2P Require Import Prelude Str Num.
From Stdlib Require Import Ascii.

Inductive CloudflareError :=
| CfRequest (e : string)
| CfApi (code : Z) (message : string)
| ZoneNotFound (domain : string)
| UnexpectedResponse
| InvalidApiToken
| TokenFileRead (e : string).

Definition CF_API_BASE : string := "https://api.cloudflare.com/client/v4".

Record CreateRecordRequest := mkCreateRecordRequest {
  crr_record_type : string;
  crr_name : string;
  crr_content : string;
  crr_ttl : N
}.

Inductive HttpRequest :=
| HttpGet (url : string)
| HttpPost (url : string) (body : CreateRecordRequest)
| HttpDelete (url : string).

(** Status and body; reading the body may fail. *)
Record HttpResponse := mkHttpResponse { resp_status : N; resp_text : result string string }.

Record CloudflareClient := mkCloudflareClient { cf_auth_header : string }.

(** [StatusCode::is_success]. *)
Definition is_success (status : N) : bool := ((200 <=? status) && (status <? 300))%N.

Section client.
Context {Srv : Type} (send : string → HttpRequest → Srv → result string HttpResponse * Srv).
Context (decode_ids : string → option (list string)) (decode_id : string → option string).
Context (decode_errors : string → option (list (Z * string))).
Context (header_value_ok : string → bool).

Notation cf := (io Srv CloudflareError).

(** ** Construction *)

Definition CloudflareClient_new (api_token : string) : result CloudflareError CloudflareClient :=
  let header := "Bearer " +:+ trim api_token in
  if header_value_ok header then Ok (mkCloudflareClient header) else Err InvalidApiToken.

Section environment.
Context (read_to_string : string → result string string) (env_var : string → option string).

Definition from_token_file (path : string) : result CloudflareError CloudflareClient :=
  map_err (λ e, TokenFileRead (path +:+ ": " +:+ e)) (read_to_string path) ≫= CloudflareClient_new.
Definition from_env : result CloudflareError CloudflareClient :=
  ok_or (TokenFileRead "CF_API_TOKEN environment variable not set") (env_var "CF_API_TOKEN") ≫= CloudflareClient_new.
Definition from_env_or_file : result CloudflareError CloudflareClient :=
  match env_var "CF_API_TOKEN_FILE" with Some token_file => from_token_file token_file | None => from_env end.
End environment.

(** ** Requests *)

Definition handle_response {A} (decode : string → option A) (resp : HttpResponse) : result CloudflareError A :=
  map_err CfRequest (resp_text resp) ≫= λ text,
  if negb (is_success (resp_status resp)) then
    match decode_errors text with
    | Some ((code, message) :: _) => Err (CfApi code message)
    | _ => Err (CfApi (Z.of_N (resp_status resp)) text)
    end
  else ok_or UnexpectedResponse (decode text).

Definition send_request (c : CloudflareClient) (req : HttpRequest) : cf HttpResponse := λ s,
  match send (cf_auth_header c) req s with
  | (Ok resp, s') => (Done resp, s')
  | (Err e, s') => (Failed (CfRequest e), s')
  end.

Definition cf_get {A} (decode : string → option A) (c : CloudflareClient) (url : string) : cf A :=
  send_request c (HttpGet url) ≫= λ resp, io_exec (of_result (handle_response decode resp)).

Definition cf_post {A} (decode : string → option A) (c : CloudflareClient) (url : string) (body : CreateRecordRequest) : cf A :=
  send_request c (HttpPost url body) ≫= λ resp, io_exec (of_result (handle_response decode resp)).

(** A refusal without an error entry counts as done. *)
Definition cf_delete (c : CloudflareClient) (url : string) : cf unit :=
  send_request c (HttpDelete url) ≫= λ resp,
  if negb (is_success (resp_status resp)) then
    io_exec (of_result (map_err CfRequest (resp_text resp))) ≫= λ text,
    match decode_errors text with
    | None => io_fail (CfRequest "error decoding response body")
    | Some ((code, message) :: _) => io_fail (CfApi code message)
    | Some [] => mret tt
    end
  else mret tt.

(** ** The operations *)

Definition zone_url (zone_name : string) : string := CF_API_BASE +:+ "/zones?name=" +:+ zone_name.
Definition records_url (zone_id : string) : string := CF_API_BASE +:+ "/zones/" +:+ zone_id +:+ "/dns_records".
Definition list_url (zone_id name : string) : string := records_url zone_id +:+ "?type=TXT&name=" +:+ name.
Definition record_url (zone_id record_id : string) : string := records_url zone_id +:+ "/" +:+ record_id.

(** [parts[i..].join(".")] for every [i] that leaves at least two labels. *)
Fixpoint zone_names (parts : list string) : list string :=
  match parts with
  | [] => []
  | _ :: [] => []
  | _ :: parts' => join_dots parts :: zone_names parts'
  end.

Fixpoint first_zone (c : CloudflareClient) (domain : string) (names : list string) : cf string :=
  match names with
  | [] => io_fail (ZoneNotFound domain)
  | zone_name :: names' =>
      cf_get decode_ids c (zone_url zone_name) ≫= λ ids,
      match ids with id :: _ => mret id | [] => first_zone c domain names' end
  end.

Definition get_zone_id (c : CloudflareClient) (domain : string) : cf string :=
  first_zone c domain (zone_names (split_labels domain)).

Definition list_txt_records (c : CloudflareClient) (zone_id name : string) : cf (list string) :=
  cf_get decode_ids c (list_url zone_id name).

Definition create_txt_record (c : CloudflareClient) (zone_id name content : string) : cf string :=
  cf_post decode_id c (records_url zone_id) (mkCreateRecordRequest "TXT" name content 60).

Definition delete_txt_record (c : CloudflareClient) (zone_id record_id : string) : cf unit :=
  cf_delete c (record_url zone_id record_id).

(** ** What the service promises *)

(** For one zone: its TXT records by their id, name and content; and which zones there
    are.  This is the service at its best: it accepts the client's credentials, answers
    every call, lists all records of a name on one page, creates every record it is
    asked for and deletes every id.  The real service may refuse any of these, and
    deleting an id that does not exist is an error there; [send] and its failures are
    unrestricted wherever this class is not assumed. *)
Class CloudflareService (zone : string) := {
  txt_records : Srv → gmap string (string * string);
  zone_of : string → option string;
  service_zone auth s name :
    ∃ text ids, send auth (HttpGet (zone_url name)) s = (Ok (mkHttpResponse 200 (Ok text)), s) ∧ decode_ids text = Some ids ∧
      head ids = zone_of name;
  service_list auth s name :
    ∃ text ids, send auth (HttpGet (list_url zone name)) s = (Ok (mkHttpResponse 200 (Ok text)), s) ∧ decode_ids text = Some ids ∧
      ∀ id, id ∈ ids ↔ fst <$> txt_records s !! id = Some name;
  service_create auth s name content :
    ∃ text id s', send auth (HttpPost (records_url zone) (mkCreateRecordRequest "TXT" name content 60)) s =
        (Ok (mkHttpResponse 200 (Ok text)), s') ∧ decode_id text = Some id ∧ txt_records s !! id = None ∧
      txt_records s' = <[id := (name, content)]> (txt_records s);
  service_delete auth s id :
    ∃ resp s', send auth (HttpDelete (record_url zone id)) s = (Ok resp, s') ∧ is_success (resp_status resp) = true ∧
      txt_records s' = delete id (txt_records s)
}.

Context {zone : string} {Service : CloudflareService zone}.

Lemma list_txt_records_spec c name s :
  ∃ ids, list_txt_records c zone name s = (Done ids, s) ∧ ∀ id, id ∈ ids ↔ fst <$> txt_records s !! id = Some name.
Proof.
  destruct (service_list (cf_auth_header c) s name) as (text&ids&Hs&Hd&Hi). exists ids. split; [|done].
  unfold list_txt_records, cf_get, send_request, mbind, io_bind. rewrite Hs. cbn. by rewrite Hd.
Qed.

Lemma create_txt_record_spec c name content s :
  ∃ id s', create_txt_record c zone name content s = (Done id, s') ∧ txt_records s !! id = None ∧
    txt_records s' = <[id := (name, content)]> (txt_records s).
Proof.
  destruct (service_create (cf_auth_header c) s name content) as (text&id&s'&Hs&Hd&Hn&Hr). exists id, s'. split; [|done].
  unfold create_txt_record, cf_post, send_request, mbind, io_bind. rewrite Hs. cbn. by rewrite Hd.
Qed.

Lemma delete_txt_record_spec c id s :
  ∃ s', delete_txt_record c zone id s = (Done tt, s') ∧ txt_records s' = delete id (txt_records s).
Proof.
  destruct (service_delete (cf_auth_header c) s id) as (resp&s'&Hs&Ho&Hr). exists s'. split; [|done].
  unfold delete_txt_record, cf_delete, send_request, mbind, io_bind. rewrite Hs. cbn. by rewrite Ho.
Qed.

(** The zone of a domain is the longest suffix of at least two labels that the service
    knows, and the domain has none exactly when there is no such suffix. *)
Lemma get_zone_id_spec c domain s :
  get_zone_id c domain s =
  (match find_first (λ n, is_some (zone_of n)) (zone_names (split_labels domain)) ≫= zone_of with
   | Some id => Done id
   | None => Failed (ZoneNotFound domain)
   end, s).
Proof.
  unfold get_zone_id. induction (zone_names _) as [|n ns IH]; [done|]. cbn [first_zone find_first].
  destruct (service_zone (cf_auth_header c) s n) as (text&ids&Hs&Hd&Hh).
  rewrite (io_bind_step _ _ _ ids s).
  2:{ unfold cf_get, send_request, mbind, io_bind. rewrite Hs. cbn. by rewrite Hd. }
  rewrite <-Hh. destruct ids as [|id ids]; cbn; [apply IH|]. cbn in Hh. by rewrite <-Hh.
Qed.

End client.
