(* ===== verification/Acme.v ===== *)
(** * The ACME provider (crates/wicket-tls/src/acme/mod.rs)

    Obtaining certificates by DNS-01 challenges, the start-up and the daily renewal.
    The state is the disk, the DNS service, the metrics, the served certificates and a
    count of the calls to the ACME server; the server's answers (instant-acme), CSR
    generation (rcgen), base64 and X.509 decoding are parameters, indexed by the count
    where they may change from call to call.  Waiting is not modelled. *)

From S2P Require Import Prelude Str Bytes Num Metrics TlsConfig CertStore Files AcmeStorage Cloudflare.
From Stdlib Require Import Ascii.

(** ** Data *)

Inductive AcmeError :=
| AStorage (e : StorageError)
| ACloudflare (e : CloudflareError)
| AAcme (e : string)
| AJson (e : string)
| AIo (e : string)
| APem (e : PemError)
| ARcgen (e : string)
| ABase64 (e : string)
| AConfig (e : string)
| ANoChallenge
| AOrderFailed (e : string)
| ANoCertificates.

Definition acme_failure_reason (e : AcmeError) : string :=
  match e with
  | AStorage _ => "storage"
  | ACloudflare _ => "dns"
  | AAcme _ => "acme_api"
  | AJson _ => "json"
  | AIo _ => "io"
  | APem _ => "pem"
  | ARcgen _ => "csr"
  | ABase64 _ => "base64"
  | AConfig _ => "config"
  | ANoChallenge => "no_challenge"
  | AOrderFailed _ => "order_failed"
  | ANoCertificates => "no_certificates"
  end.

(** An identifier of an order: a DNS name, or something else with its debug text. *)
Inductive Identifier := IdDns (d : string) | IdOther (debug : string).

(** What the code reads of an authorization: whether it is valid, its identifier, and
    the TXT value of its DNS-01 challenge if it has one. *)
Record Authorization := mkAuthorization {
  az_valid : bool;
  az_identifier : Identifier;
  az_dns_value : option string
}.

(** The refreshed state of an authorization, as the texts of its parts: the identifier,
    the status, and type, status and error of the challenges. *)
Record AuthorizationState := mkAuthorizationState {
  azs_identifier : string;
  azs_status : string;
  azs_challenges : list (string * string * option string)
}.

Inductive OrderStatus := OPending | OReady | OProcessing | OValid | OInvalid.

(** A chain and a key. *)
Notation CertifiedKey := (list string * string)%type.

Record AcmeProvider := mkAcmeProvider {
  ap_config : AcmeConfig;
  ap_storage : AcmeStorage;
  ap_auto_tls_domains : list AutoTlsDomain
}.

(** ** Encodings *)

Definition TokenError_fmt (e : TokenError) : string :=
  match e with
  | TokenReadFailed path cause => "Failed to read token from " +:+ path +:+ ": " +:+ cause
  | TokenNotConfigured => "No api_token or api_token_file configured"
  | TokenEnvNotSet v => "Environment variable " +:+ v +:+ " not set"
  end.

Section pem_to_der.
Context (base64_decode : string → result string string).

Fixpoint pem_block (in_block : bool) (lines : list string) : result AcmeError string :=
  match lines with
  | [] => Ok ""
  | line :: lines' =>
      if contains_str "-----BEGIN" line then pem_block true lines'
      else if contains_str "-----END" line then Ok ""
      else if in_block then
        map_err ABase64 (base64_decode line) ≫= λ bytes, pem_block in_block lines' ≫= λ rest, Ok (bytes +:+ rest)
      else pem_block in_block lines'
  end.

Definition pem_to_der (pem : string) : result AcmeError string := pem_block false (str_lines pem).
End pem_to_der.

(** The world outside, by the number of the operation where its answers may change. *)
Record AcmeEnv (Srv : Type) := mkAcmeEnv {
  (* the disk *)
  env_fault : nat → option string;
  env_partial : nat → nat;
  env_now : nat → Z;
  env_default_mode : N;
  env_meta_to_json : CertMeta → result string string;
  env_meta_from_json : string → result string CertMeta;
  (* Cloudflare *)
  env_send : string → HttpRequest → Srv → result string HttpResponse * Srv;
  env_decode_ids : string → option (list string);
  env_decode_id : string → option string;
  env_decode_errors : string → option (list (Z * string));
  env_header_value_ok : string → bool;
  (* tokens *)
  env_token_file : string → result string string;
  env_env_var : string → option string;
  (* the ACME server: credentials, the order, its authorizations and the certificate *)
  env_from_credentials : nat → string → result string unit;
  env_credentials_ok : string → result string unit;
  env_create_account : nat → list string → string → result string string;
  env_credentials_json : string → result string string;
  env_new_order : nat → list string → option string;
  env_authorizations : nat → list (result string Authorization);
  env_authorization_states : nat → list (result string AuthorizationState);
  env_set_ready : nat → option string;
  env_poll_ready : nat → result string OrderStatus;
  env_finalize_csr : nat → string → option string;
  env_poll_certificate : nat → result string string;
  (* rcgen (key and CSR in PEM), base64, X.509 (seconds), rustls, temporary files *)
  env_generate_key_and_csr : nat → list string → result string (string * string);
  env_base64_decode : string → result string string;
  env_x509_not_after : string → option Z;
  env_pem_certs : string → list (result string string);
  env_pem_private_key : string → result string (option string);
  env_any_supported_type : string → bool;
  env_tempfile : nat → string
}.
Arguments env_fault {Srv} _.
Arguments env_partial {Srv} _.
Arguments env_now {Srv} _.
Arguments env_default_mode {Srv} _.
Arguments env_meta_to_json {Srv} _.
Arguments env_meta_from_json {Srv} _.
Arguments env_send {Srv} _.
Arguments env_decode_ids {Srv} _.
Arguments env_decode_id {Srv} _.
Arguments env_decode_errors {Srv} _.
Arguments env_header_value_ok {Srv} _.
Arguments env_token_file {Srv} _.
Arguments env_env_var {Srv} _.
Arguments env_from_credentials {Srv} _.
Arguments env_credentials_ok {Srv} _.
Arguments env_create_account {Srv} _.
Arguments env_credentials_json {Srv} _.
Arguments env_new_order {Srv} _.
Arguments env_authorizations {Srv} _.
Arguments env_authorization_states {Srv} _.
Arguments env_set_ready {Srv} _.
Arguments env_poll_ready {Srv} _.
Arguments env_finalize_csr {Srv} _.
Arguments env_poll_certificate {Srv} _.
Arguments env_generate_key_and_csr {Srv} _.
Arguments env_base64_decode {Srv} _.
Arguments env_x509_not_after {Srv} _.
Arguments env_pem_certs {Srv} _.
Arguments env_pem_private_key {Srv} _.
Arguments env_any_supported_type {Srv} _.
Arguments env_tempfile {Srv} _.

(** ** The provider *)

Section acme.
Context {Srv : Type}.

Record World := mkWorld {
  w_disk : Disk;
  w_srv : Srv;
  w_metrics : Metrics;
  w_manager : CertManager CertifiedKey;
  w_calls : nat
}.

Notation acme := (io World AcmeError).
Notation Certs := (CertStore CertifiedKey).

Context (env : AcmeEnv Srv).
Notation fault := (env_fault env).
Notation partial := (env_partial env).
Notation now := (env_now env).
Notation default_mode := (env_default_mode env).
Notation meta_to_json := (env_meta_to_json env).
Notation meta_from_json := (env_meta_from_json env).
Notation send := (env_send env).
Notation decode_ids := (env_decode_ids env).
Notation decode_id := (env_decode_id env).
Notation decode_errors := (env_decode_errors env).
Notation header_value_ok := (env_header_value_ok env).
Notation token_file := (env_token_file env).
Notation env_var := (env_env_var env).
Notation from_credentials := (env_from_credentials env).
Notation credentials_ok := (env_credentials_ok env).
Notation create_account := (env_create_account env).
Notation credentials_json := (env_credentials_json env).
Notation new_order := (env_new_order env).
Notation authorizations := (env_authorizations env).
Notation authorization_states := (env_authorization_states env).
Notation set_ready := (env_set_ready env).
Notation poll_ready := (env_poll_ready env).
Notation finalize_csr := (env_finalize_csr env).
Notation poll_certificate := (env_poll_certificate env).
Notation generate_key_and_csr := (env_generate_key_and_csr env).
Notation base64_decode := (env_base64_decode env).
Notation x509_not_after := (env_x509_not_after env).
Notation pem_certs := (env_pem_certs env).
Notation pem_private_key := (env_pem_private_key env).
Notation any_supported_type := (env_any_supported_type env).
Notation tempfile := (env_tempfile env).

(** *** Parts of the state *)

Definition on_disk {A} (m : io Disk StorageError A) : acme A := λ w,
  let '(r, d) := m (w_disk w) in
  (match r with Done a => Done a | Failed e => Failed (AStorage e) | Panicked => Panicked end,
   mkWorld d (w_srv w) (w_metrics w) (w_manager w) (w_calls w)).

Definition on_srv {A} (m : io Srv CloudflareError A) : acme A := λ w,
  let '(r, s) := m (w_srv w) in
  (match r with Done a => Done a | Failed e => Failed (ACloudflare e) | Panicked => Panicked end,
   mkWorld (w_disk w) s (w_metrics w) (w_manager w) (w_calls w)).

(** The number of the next call to the ACME server. *)
Definition call : acme nat := λ w,
  (Done (w_calls w), mkWorld (w_disk w) (w_srv w) (w_metrics w) (w_manager w) (S (w_calls w))).
Definition check (e : option string) : acme unit := match e with Some e => io_fail (AAcme e) | None => mret tt end.
Definition lift {A} (r : result AcmeError A) : acme A := io_exec (of_result r).
Definition on_metrics (f : Metrics → Metrics) : acme unit :=
  io_modify (λ w, mkWorld (w_disk w) (w_srv w) (f (w_metrics w)) (w_manager w) (w_calls w)).
(** A computation whose errors are only logged. *)
Definition ignore_error (m : acme unit) : acme unit := λ w,
  match m w with (Failed _, w') => (Done tt, w') | r => r end.

(** [Utc::now()]; a disk operation count stands for the moment. *)
Definition acme_now : acme Z := on_disk (utc_now now).

(** *** Metrics *)

Definition nanoseconds : Z := 1000000000.
Definition timestamp (t : Z) : Z := (t / nanoseconds)%Z.

Definition emit_acme_cert_metrics (stored : StoredCert) : acme unit :=
  on_metrics (λ m, foldl (λ m domain, set_cert_expiry domain (timestamp (sc_expiry stored)) m) m (sc_domains stored)).

(** *** Challenges *)

Definition dns_identifier (i : Identifier) : result AcmeError string :=
  match i with
  | IdDns d => Ok d
  | IdOther debug => Err (AConfig ("unsupported ACME identifier: " +:+ debug))
  end.

Definition challenge_name (domain : string) : string := "_acme-challenge." +:+ domain.

(** Deletes the records of earlier attempts; nothing here is an error. *)
Definition delete_stale (c : CloudflareClient) (zone_id txt_name : string) : acme unit := λ w,
  match on_srv (list_txt_records send decode_ids decode_errors c zone_id txt_name) w with
  | (Done stale_ids, w') =>
      (foldr (λ id rest, ignore_error (on_srv (delete_txt_record send decode_errors c zone_id id)) ≫= λ _, rest) (mret tt) stale_ids) w'
  | (Failed _, w') => (Done tt, w')
  | (Panicked, w') => (Panicked, w')
  end.

(** [record_ids] is filled also when the loop fails: it is part of the result. *)
Fixpoint create_dns_challenge_records (c : CloudflareClient) (zone_id : string) (azs : list (result string Authorization))
    (record_ids : list (string * string)) (w : World) : exec AcmeError unit * list (string * string) * World :=
  match azs with
  | [] => (Done tt, record_ids, w)
  | Err e :: _ => (Failed (AAcme e), record_ids, w)
  | Ok authz :: azs' =>
      if az_valid authz then create_dns_challenge_records c zone_id azs' record_ids w
      else
        match dns_identifier (az_identifier authz) with
        | Err e => (Failed e, record_ids, w)
        | Ok domain_str =>
            let txt_name := challenge_name domain_str in
            match az_dns_value authz with
            | None => (Failed ANoChallenge, record_ids, w)
            | Some txt_value =>
                match (delete_stale c zone_id txt_name ≫= λ _,
                       on_srv (create_txt_record send decode_id decode_errors c zone_id txt_name txt_value)) w with
                | (Done record_id, w') => create_dns_challenge_records c zone_id azs' (record_ids ++ [(txt_name, record_id)]) w'
                | (Failed e, w') => (Failed e, record_ids, w')
                | (Panicked, w') => (Panicked, record_ids, w')
                end
            end
        end
  end.

Fixpoint notify_dns_challenges_ready (azs : list (result string Authorization)) : acme unit :=
  match azs with
  | [] => mret tt
  | Err e :: _ => io_fail (AAcme e)
  | Ok authz :: azs' =>
      if az_valid authz then notify_dns_challenges_ready azs'
      else
        lift (dns_identifier (az_identifier authz)) ≫= λ _,
        match az_dns_value authz with
        | None => io_fail ANoChallenge
        | Some _ => call ≫= λ n, check (set_ready n) ≫= λ _, notify_dns_challenges_ready azs'
        end
  end.

Definition cleanup_dns_records (c : CloudflareClient) (zone_id : string) (record_ids : list (string * string)) : acme unit :=
  foldr (λ r rest, ignore_error (on_srv (delete_txt_record send decode_errors c zone_id r.2)) ≫= λ _, rest) (mret tt) record_ids.

Fixpoint join_with (sep : string) (l : list string) : string :=
  match l with
  | [] => ""
  | [x] => x
  | x :: l' => x +:+ sep +:+ join_with sep l'
  end.

Definition summarize_state (s : AuthorizationState) : string :=
  let challenges := join_with "|" ((λ '(ty, status, error),
    ty +:+ ":" +:+ status +:+ match error with Some e => ", error=" +:+ e | None => "" end) <$> azs_challenges s) in
  azs_identifier s +:+ ": authz=" +:+ azs_status s +:+ ", challenges=[" +:+ challenges +:+ "]".

Definition summarize_authorizations (states : list (result string AuthorizationState)) : result string string :=
  join_with "; " <$> try_map (λ r, summarize_state <$> r) states.

(** *** Account, CSR and certificate *)

Definition letsencrypt_url (staging : bool) : string :=
  if staging then "https://acme-staging-v02.api.letsencrypt.org/directory" else "https://acme-v02.api.letsencrypt.org/directory".

Definition get_or_create_account (p : AcmeProvider) : acme unit :=
  on_disk (load_account fault (ap_storage p)) ≫= λ stored,
  match stored with
  | Some creds_json =>
      lift (map_err AJson (credentials_ok creds_json)) ≫= λ _,
      call ≫= λ n, lift (map_err AAcme (from_credentials n creds_json))
  | None =>
      let contact := if is_empty_str (acme_email (ap_config p)) then [] else ["mailto:" +:+ acme_email (ap_config p)] in
      call ≫= λ n,
      lift (map_err AAcme (create_account n contact (letsencrypt_url (acme_staging (ap_config p))))) ≫= λ creds,
      lift (map_err AJson (credentials_json creds)) ≫= λ creds_json,
      on_disk (save_account fault partial default_mode (ap_storage p) creds_json)
  end.

Definition generate_csr (domains : list string) : acme (string * string) :=
  call ≫= λ n,
  lift (map_err ARcgen (generate_key_and_csr n domains)) ≫= λ '(key_pem, csr_pem),
  lift (pem_to_der base64_decode csr_pem) ≫= λ csr_der, mret (key_pem, csr_der).

Definition parse_certificate_expiry (cert_pem : string) : option Z := (λ s, (s * nanoseconds)%Z) <$> x509_not_after cert_pem.

(** [?] on an [std::io::Error] outside the storage. *)
Definition as_io {A} (m : acme A) : acme A :=
  λ w, match m w with (Failed (AStorage (SIo e)), w') => (Failed (AIo e), w') | r => r end.

(** Both files are written to temporary files and loaded from there. *)
Definition load_stored_cert (stored : StoredCert) : acme CertifiedKey :=
  let op := as_io (on_disk (os_op fault ≫= λ _, op_count)) in
  op ≫= λ n1, op ≫= λ _, op ≫= λ n2, op ≫= λ _, on_disk op_count ≫= λ n3, on_disk op_count ≫= λ n4,
  let cert_file := tempfile n1 in
  let key_file := tempfile n2 in
  let files := <[key_file := mkFile (sc_key_pem stored) private_mode]> (<[cert_file := mkFile (sc_cert_pem stored) private_mode]> ∅) in
  let open_fault path := if bool_decide (path = cert_file) then fault n3 else fault n4 in
  lift (map_err APem (load_certified_key pem_certs pem_private_key any_supported_type
          (mkFsFaults None (λ _, None) (λ _, None) (λ _, None) open_fault (λ _, false)) files cert_file key_file)).

Definition dns_client (cert_config : AcmeCertConfig) : acme CloudflareClient :=
  io_exec (or_panic (resolve_api_token token_file env_var (ac_dns cert_config))) ≫= λ token,
  lift (map_err (AConfig ∘ TokenError_fmt) token) ≫= λ api_token,
  lift (map_err ACloudflare (CloudflareClient_new header_value_ok api_token)).

(** The challenge phase: the records created, and how it ended. *)
Definition challenge_phase (c : CloudflareClient) (zone_id : string) (w : World) : exec AcmeError unit * list (string * string) * World :=
  match call w with
  | (Done n, w1) =>
      match create_dns_challenge_records c zone_id (authorizations n) [] w1 with
      | (Done _, record_ids, w2) =>
          let '(r, w3) := (call ≫= λ n, notify_dns_challenges_ready (authorizations n)) w2 in (r, record_ids, w3)
      | r => r
      end
  | (Failed e, w1) => (Failed e, [], w1)
  | (Panicked, w1) => (Panicked, [], w1)
  end.

(** From the end of the challenge phase to the certificate in PEM and its key. *)
Definition issue (c : CloudflareClient) (zone_id : string) (domains : list string) (record_ids : list (string * string))
    : acme (string * string) :=
  call ≫= λ n, lift (map_err AAcme (poll_ready n)) ≫= λ status,
  match status with
  | OInvalid =>
      call ≫= λ n,
      let details := match summarize_authorizations (authorization_states n) with
                     | Ok d => d
                     | Err e => "failed to fetch authorization details: " +:+ e
                     end in
      cleanup_dns_records c zone_id record_ids ≫= λ _, io_fail (AOrderFailed ("Invalid: " +:+ details))
  | _ =>
      generate_csr domains ≫= λ '(private_key_pem, csr_der),
      call ≫= λ n, check (finalize_csr n csr_der) ≫= λ _,
      call ≫= λ n, lift (map_err AAcme (poll_certificate n)) ≫= λ cert_pem,
      cleanup_dns_records c zone_id record_ids ≫= λ _, mret (cert_pem, private_key_pem)
  end.

(** From the order on. *)
Definition complete_order (p : AcmeProvider) (cert_config : AcmeCertConfig) (primary_domain : string) (c : CloudflareClient)
    (zone_id : string) : acme StoredCert := λ w,
  match challenge_phase c zone_id w with
  | (Panicked, _, w') => (Panicked, w')
  | (Failed e, record_ids, w') => (cleanup_dns_records c zone_id record_ids ≫= λ _, io_fail e) w'
  | (Done _, record_ids, w') =>
      (issue c zone_id (ac_domains cert_config) record_ids ≫= λ '(cert_pem, private_key_pem),
       acme_now ≫= λ t,
       let expiry := unwrap_or (t + days 90)%Z (parse_certificate_expiry cert_pem) in
       let stored := mkStoredCert cert_pem private_key_pem expiry (ac_domains cert_config) in
       on_disk (save_cert fault partial now default_mode meta_to_json (ap_storage p) primary_domain stored) ≫= λ _,
       mret stored) w'
  end.

Definition obtain_cert (p : AcmeProvider) (cert_config : AcmeCertConfig) : acme StoredCert :=
  lift (ok_or (AConfig "no domains specified") (head (ac_domains cert_config))) ≫= λ primary_domain,
  get_or_create_account p ≫= λ _,
  dns_client cert_config ≫= λ c,
  match dp_zone_id (ac_dns cert_config) with
  | Some id => mret id
  | None => on_srv (get_zone_id send decode_ids decode_errors c primary_domain)
  end ≫= λ zone_id,
  call ≫= λ n, check (new_order n (ac_domains cert_config)) ≫= λ _, complete_order p cert_config primary_domain c zone_id.

(** *** Start-up and renewal *)

(** The builder: the storage's directories are created first. *)
Definition AcmeProviderBuilder_build (config : AcmeConfig) (auto_tls_domains : list AutoTlsDomain) : acme AcmeProvider :=
  on_disk (AcmeStorage_new fault (acme_storage config) (acme_staging config)) ≫= λ storage,
  mret (mkAcmeProvider config storage auto_tls_domains).

Notation load_cert' p domain := (load_cert fault meta_from_json (ap_storage p) domain).

Definition reload (store : Certs) : acme unit :=
  io_modify (λ w, mkWorld (w_disk w) (w_srv w) (w_metrics w) (CertManager_reload store (w_manager w)) (w_calls w)).

Definition provider_certs (p : AcmeProvider) : list AcmeCertConfig := all_certs_with_providers (ap_config p) (ap_auto_tls_domains p).

(** [if let Ok(Some(stored)) = self.storage.load_cert(..)]: an error counts as none. *)
Definition load_cert_ok (p : AcmeProvider) (domain : string) : acme (option StoredCert) := λ w,
  match on_disk (load_cert' p domain) w with
  | (Failed _, w') => (Done None, w')
  | r => r
  end.

(** A stored certificate goes into the store under the configured domains. *)
Definition insert_stored (cert_config : AcmeCertConfig) (stored : StoredCert) (store : Certs) : acme Certs :=
  load_stored_cert stored ≫= λ k, mret (CertStore_insert (ac_domains cert_config) k store).

Definition obtained_metrics (primary_domain : string) (stored : StoredCert) : acme unit :=
  emit_acme_cert_metrics stored ≫= λ _, acme_now ≫= λ t, on_metrics (set_acme_last_success primary_domain (timestamp t)).

Definition initialize_obtain (p : AcmeProvider) (cert_config : AcmeCertConfig) (primary_domain : string) (store : Certs)
    : acme Certs := λ w,
  match obtain_cert p cert_config w with
  | (Done stored, w') => (obtained_metrics primary_domain stored ≫= λ _, insert_stored cert_config stored store) w'
  | (Failed e, w') =>
      (load_cert_ok p primary_domain ≫= λ fallback,
       match fallback with
       | Some stored => emit_acme_cert_metrics stored ≫= λ _, insert_stored cert_config stored store
       | None => io_fail e
       end) w'
  | (Panicked, w') => (Panicked, w')
  end.

Definition initialize_cert (p : AcmeProvider) (cert_config : AcmeCertConfig) (store : Certs) : acme Certs :=
  lift (ok_or (AConfig "cert config has no domains") (head (ac_domains cert_config))) ≫= λ primary_domain,
  on_disk (needs_renewal fault now meta_from_json (ap_storage p) primary_domain (acme_renew_before_days (ap_config p))) ≫= λ due,
  if negb due then
    on_disk (load_cert' p primary_domain) ≫= λ stored,
    match stored with
    | Some stored => insert_stored cert_config stored store
    | None => initialize_obtain p cert_config primary_domain store
    end
  else initialize_obtain p cert_config primary_domain store.

Fixpoint initialize_loop (p : AcmeProvider) (certs : list AcmeCertConfig) (store : Certs) : acme Certs :=
  match certs with
  | [] => mret store
  | c :: certs' => initialize_cert p c store ≫= λ store', initialize_loop p certs' store'
  end.

Definition initialize (p : AcmeProvider) : acme unit :=
  if is_empty (provider_certs p) then mret tt
  else
    initialize_loop p (provider_certs p) CertStore_new ≫= λ store,
    if CertStore_is_empty store then io_fail ANoCertificates else reload store.

(** What a renewal that is due does; the state so far is the store and whether some
    certificate was renewed. *)
Definition renew_due (p : AcmeProvider) (cert_config : AcmeCertConfig) (primary_domain : string) (st : Certs * bool)
    : acme (Certs * bool) := λ w,
  let '(store, any_renewed) := st in
  match obtain_cert p cert_config w with
  | (Done stored, w') =>
      (obtained_metrics primary_domain stored ≫= λ _,
       insert_stored cert_config stored store ≫= λ store',
       on_metrics (inc_acme_renewal AcmeRenewal_Success) ≫= λ _, mret (store', true)) w'
  | (Failed e, w') =>
      (on_metrics (λ m, inc_acme_renewal_failure primary_domain (acme_failure_reason e) (inc_acme_renewal AcmeRenewal_Failure m)) ≫= λ _,
       load_cert_ok p primary_domain ≫= λ fallback,
       match fallback with
       | Some stored =>
           emit_acme_cert_metrics stored ≫= λ _,
           insert_stored cert_config stored store ≫= λ store', mret (store', any_renewed)
       | None => mret (store, any_renewed)
       end) w'
  | (Panicked, w') => (Panicked, w')
  end.

Definition renew_cert (p : AcmeProvider) (cert_config : AcmeCertConfig) (st : Certs * bool) : acme (Certs * bool) :=
  lift (ok_or (AConfig "cert config has no domains") (head (ac_domains cert_config))) ≫= λ primary_domain,
  on_disk (needs_renewal fault now meta_from_json (ap_storage p) primary_domain (acme_renew_before_days (ap_config p))) ≫= λ due,
  if (due : bool) then
    acme_now ≫= λ t, on_metrics (set_acme_last_attempt primary_domain (timestamp t)) ≫= λ _,
    renew_due p cert_config primary_domain st
  else
    on_disk (load_cert' p primary_domain) ≫= λ stored,
    match stored with
    | Some stored =>
        emit_acme_cert_metrics stored ≫= λ _, on_metrics (inc_acme_renewal AcmeRenewal_Skipped) ≫= λ _,
        insert_stored cert_config stored st.1 ≫= λ store', mret (store', st.2)
    | None => mret st
    end.

Fixpoint renew_loop (p : AcmeProvider) (certs : list AcmeCertConfig) (st : Certs * bool) : acme (Certs * bool) :=
  match certs with
  | [] => mret st
  | c :: certs' => renew_cert p c st ≫= λ st', renew_loop p certs' st'
  end.

Definition check_and_renew (p : AcmeProvider) : acme unit :=
  renew_loop p (provider_certs p) (CertStore_new, false) ≫= λ '(store, any_renewed),
  if any_renewed && negb (CertStore_is_empty store) then reload store else mret tt.

(** The first [n] rounds of the renewal loop. *)
Fixpoint renewal_loop (p : AcmeProvider) (n : nat) : acme unit :=
  match n with
  | 0 => mret tt
  | S n => ignore_error (check_and_renew p) ≫= λ _, renewal_loop p n
  end.

(** ** What leaves the served certificates and the DNS service alone *)

Lemma on_disk_manager {A} (m : io Disk StorageError A) : preserves w_manager (on_disk m).
Proof. intros w. unfold on_disk. by destruct (m (w_disk w)). Qed.
Lemma on_disk_srv {A} (m : io Disk StorageError A) : preserves w_srv (on_disk m).
Proof. intros w. unfold on_disk. by destruct (m (w_disk w)). Qed.
Lemma on_srv_manager {A} (m : io Srv CloudflareError A) : preserves w_manager (on_srv m).
Proof. intros w. unfold on_srv. by destruct (m (w_srv w)). Qed.
Lemma call_manager : preserves w_manager call.
Proof. done. Qed.
Lemma call_srv : preserves w_srv call.
Proof. done. Qed.
Lemma on_metrics_manager f : preserves w_manager (on_metrics f).
Proof. done. Qed.
Lemma on_metrics_srv f : preserves w_srv (on_metrics f).
Proof. done. Qed.
Lemma lift_preserves {A X} (f : World → X) (r : result AcmeError A) : preserves f (lift r).
Proof. done. Qed.
Lemma check_preserves {X} (f : World → X) e : preserves f (check e).
Proof. by destruct e. Qed.
Lemma ignore_error_preserves {X} (f : World → X) m : preserves f m → preserves f (ignore_error m).
Proof. intros H w. specialize (H w). unfold ignore_error. by destruct (m w) as [[] ?]. Qed.
#[local] Hint Resolve on_disk_manager on_disk_srv on_srv_manager call_manager call_srv on_metrics_manager on_metrics_srv lift_preserves
  check_preserves ignore_error_preserves : preserves.

Lemma foldr_preserves {X B} (f : World → X) (g : B → acme unit) l :
  (∀ b, preserves f (g b)) → preserves f (foldr (λ b rest, g b ≫= λ _, rest) (mret tt) l).
Proof. intros Hg. induction l; cbn [foldr]; solve_preserves. Qed.

Lemma as_io_preserves {A X} (f : World → X) (m : acme A) : preserves f m → preserves f (as_io m).
Proof. intros H w. specialize (H w). unfold as_io. destruct (m w) as [[|[[]| | | | | | | | | | |]|] ?]; exact H. Qed.
#[local] Hint Resolve as_io_preserves : preserves.

(** Obtaining and loading certificates leaves what only the caller changes alone. *)
Section observer.
Context {X : Type} (f : World → X).
Context (Hdisk : ∀ A (m : io Disk StorageError A), preserves f (on_disk m)).
Context (Hsrv : ∀ A (m : io Srv CloudflareError A), preserves f (on_srv m)) (Hcall : preserves f call).
#[local] Hint Resolve Hdisk Hsrv Hcall : preserves.

Lemma delete_stale_preserves c zone name : preserves f (delete_stale c zone name).
Proof.
  intros w. unfold delete_stale. pose proof (Hsrv _ (list_txt_records send decode_ids decode_errors c zone name) w) as H.
  destruct (on_srv _ w) as [[|e|ids] w1]; cbn in *; [done..|]. rewrite foldr_preserves; [done|]. intros id. solve_preserves.
Qed.
#[local] Hint Resolve delete_stale_preserves : preserves.

Lemma create_records_preserves c zone azs ids w : f (create_dns_challenge_records c zone azs ids w).2 = f w.
Proof.
  revert ids w. induction azs as [|[authz|e] azs IH]; intros ids w; cbn [create_dns_challenge_records]; [done| |done].
  destruct (az_valid authz); [apply IH|]. destruct (dns_identifier _) as [d|e]; [|done]. destruct (az_dns_value authz) as [v|]; [|done].
  assert (preserves f (delete_stale c zone (challenge_name d) ≫= λ _,
    on_srv (create_txt_record send decode_id decode_errors c zone (challenge_name d) v))) as Hp by solve_preserves.
  specialize (Hp w). destruct ((delete_stale _ _ _ ≫= _) w) as [[|e|id] w1]; cbn in *; [done..|]. by rewrite IH.
Qed.

Lemma notify_preserves azs : preserves f (notify_dns_challenges_ready azs).
Proof. induction azs as [|[authz|e] azs IH]; cbn [notify_dns_challenges_ready]; solve_preserves. Qed.
#[local] Hint Resolve notify_preserves : preserves.

Lemma cleanup_preserves c zone ids : preserves f (cleanup_dns_records c zone ids).
Proof. apply foldr_preserves. intros r. solve_preserves. Qed.
#[local] Hint Resolve cleanup_preserves : preserves.

Lemma challenge_phase_preserves c zone w : f (challenge_phase c zone w).2 = f w.
Proof.
  unfold challenge_phase. pose proof (Hcall w) as Hw. cbn in Hw |- *. pose proof (create_records_preserves c zone (authorizations (w_calls w)) [] (call w).2) as Hc. cbn in Hc.
  destruct (create_dns_challenge_records _ _ _ _ _) as [[[|e|u] ids] w1]; cbn in *; [congruence..|].
  assert (preserves f (call ≫= λ n, notify_dns_challenges_ready (authorizations n))) as Hp by solve_preserves.
  specialize (Hp w1). destruct ((call ≫= _) w1) as [r w2]. cbn in *. congruence.
Qed.

Lemma issue_preserves c zone domains ids : preserves f (issue c zone domains ids).
Proof. unfold issue, generate_csr. solve_preserves. Qed.
#[local] Hint Resolve issue_preserves : preserves.

Lemma complete_order_preserves p cfg d c zone : preserves f (complete_order p cfg d c zone).
Proof.
  intros w. unfold complete_order. pose proof (challenge_phase_preserves c zone w) as Hc.
  destruct (challenge_phase c zone w) as [[[|e|u] ids] w1]; cbn in Hc; [done|..]; rewrite <-Hc; revert w1 Hc.
  - intros w1 _. apply (preserves_bind f); solve_preserves.
  - intros w1 _. apply (preserves_bind f); unfold acme_now; solve_preserves.
Qed.
#[local] Hint Resolve complete_order_preserves : preserves.

Lemma obtain_cert_preserves p cfg : preserves f (obtain_cert p cfg).
Proof. unfold obtain_cert, get_or_create_account, dns_client. solve_preserves. Qed.

Lemma insert_stored_preserves cfg stored store : preserves f (insert_stored cfg stored store).
Proof.
  unfold insert_stored, load_stored_cert. cbn zeta. solve_preserves.
Qed.
Lemma load_cert_ok_preserves p d : preserves f (load_cert_ok p d).
Proof. intros w. unfold load_cert_ok. pose proof (Hdisk _ (load_cert' p d) w) as H. by destruct (on_disk _ w) as [[] ?]. Qed.
End observer.

Lemma obtain_cert_manager p cfg : preserves w_manager (obtain_cert p cfg).
Proof. apply obtain_cert_preserves; intros; auto with preserves. Qed.
Lemma insert_stored_manager cfg stored store : preserves w_manager (insert_stored cfg stored store).
Proof. apply insert_stored_preserves; intros; auto with preserves. Qed.
Lemma load_cert_ok_manager p d : preserves w_manager (load_cert_ok p d).
Proof. apply load_cert_ok_preserves; intros; auto with preserves. Qed.
Lemma notify_srv azs : preserves w_srv (notify_dns_challenges_ready azs).
Proof. apply notify_preserves, call_srv. Qed.
#[local] Hint Resolve obtain_cert_manager insert_stored_manager load_cert_ok_manager notify_srv : preserves.

Lemma obtained_metrics_manager d stored : preserves w_manager (obtained_metrics d stored).
Proof. unfold obtained_metrics, emit_acme_cert_metrics, acme_now. solve_preserves. Qed.
Lemma emit_manager stored : preserves w_manager (emit_acme_cert_metrics stored).
Proof. unfold emit_acme_cert_metrics. solve_preserves. Qed.
#[local] Hint Resolve obtained_metrics_manager emit_manager : preserves.

Lemma renew_due_manager p cfg d st : preserves w_manager (renew_due p cfg d st).
Proof.
  intros w. unfold renew_due. destruct st as [store any]. pose proof (obtain_cert_manager p cfg w) as H.
  destruct (obtain_cert p cfg w) as [[|e|stored] w1]; cbn [snd] in H; [done|..]; rewrite <-H; revert w1 H; intros w1 _;
    apply (preserves_bind w_manager); solve_preserves.
Qed.
Lemma initialize_obtain_manager p cfg d store : preserves w_manager (initialize_obtain p cfg d store).
Proof.
  intros w. unfold initialize_obtain. pose proof (obtain_cert_manager p cfg w) as H.
  destruct (obtain_cert p cfg w) as [[|e|stored] w1]; cbn [snd] in H; [done|..]; rewrite <-H; revert w1 H; intros w1 _;
    apply (preserves_bind w_manager); solve_preserves.
Qed.
#[local] Hint Resolve renew_due_manager initialize_obtain_manager : preserves.

Lemma renew_loop_manager p certs st : preserves w_manager (renew_loop p certs st).
Proof.
  revert st. induction certs as [|c certs IH]; intros st; cbn [renew_loop]; unfold renew_cert, acme_now; solve_preserves.
Qed.
Lemma initialize_loop_manager p certs store : preserves w_manager (initialize_loop p certs store).
Proof.
  revert store. induction certs as [|c certs IH]; intros store; cbn [initialize_loop]; unfold initialize_cert; solve_preserves.
Qed.

(** ** Start-up *)

Notation serves w domain := (is_Some (resolve (cm_store (w_manager w)) domain)).

(** The name is one of the group's, or matched by a wildcard of it. *)
Definition group_covers (cfg : AcmeCertConfig) (sni : string) : Prop := existsb (covers_name sni) (ac_domains cfg) = true.
(** A group that ends well adds its domains to the store and nothing else. *)
Definition adds (cfg : AcmeCertConfig) (store store' : Certs) : Prop :=
  ∀ sni, is_Some (resolve store' sni) ↔ group_covers cfg sni ∨ is_Some (resolve store sni).

Lemma insert_stored_adds cfg stored store w store' w' : insert_stored cfg stored store w = (Done store', w') → adds cfg store store'.
Proof. intros (k&w1&_&[= <- <-])%io_bind_Done sni. apply insert_resolve_iff. Qed.

Lemma initialize_obtain_adds p cfg d store w store' w' :
  initialize_obtain p cfg d store w = (Done store', w') → adds cfg store store'.
Proof.
  unfold initialize_obtain. destruct (obtain_cert p cfg w) as [[|e|stored] w1]; [done|..].
  - intros (fallback&w2&_&H)%io_bind_Done. destruct fallback as [stored|]; [|done].
    apply io_bind_Done in H as (?&w3&_&H). by eapply insert_stored_adds.
  - intros (?&w2&_&H)%io_bind_Done. by eapply insert_stored_adds.
Qed.

Lemma initialize_cert_adds p cfg store w store' w' : initialize_cert p cfg store w = (Done store', w') → adds cfg store store'.
Proof.
  unfold initialize_cert. intros (d&w1&_&H)%io_bind_Done. apply io_bind_Done in H as (due&w2&_&H).
  destruct due; cbn [negb] in H; [by eapply initialize_obtain_adds|].
  apply io_bind_Done in H as ([stored|]&w3&_&H); [by eapply insert_stored_adds|by eapply initialize_obtain_adds].
Qed.

Lemma initialize_loop_adds p certs store w store' w' sni :
  initialize_loop p certs store w = (Done store', w') →
  is_Some (resolve store' sni) ↔ (∃ cfg, cfg ∈ certs ∧ group_covers cfg sni) ∨ is_Some (resolve store sni).
Proof.
  revert store w. induction certs as [|c certs IH]; intros store w; cbn [initialize_loop].
  - intros [= <- <-]. split; [by right|]. by intros [(cfg&?%elem_of_nil&_)|H].
  - intros (s1&w1&H1&H2)%io_bind_Done. apply initialize_cert_adds in H1. rewrite (IH _ _ H2), (H1 sni).
    setoid_rewrite elem_of_cons. naive_solver.
Qed.

Lemma new_store_empty sni : ¬ is_Some (resolve (CertStore_new : Certs) sni).
Proof. unfold resolve, resolve_with_outcome. cbn. destruct (split_once _ _) as [[]|]; cbn; by intros []. Qed.

Lemma initialize_outcome p w w' r :
  initialize p w = (r, w') →
  match r with
  | Done _ => provider_certs p ≠ [] → ∀ sni, serves w' sni ↔ ∃ cfg, cfg ∈ provider_certs p ∧ group_covers cfg sni
  | _ => w_manager w' = w_manager w
  end ∧ (provider_certs p = [] → r = Done tt ∧ w' = w).
Proof.
  unfold initialize. destruct (provider_certs p) as [|c certs] eqn:Ec; cbn [is_empty].
  { intros [= <- <-]. done. }
  intros H. split; [|done]. rewrite <-Ec in *. clear Ec c certs.
  destruct (initialize_loop p (provider_certs p) CertStore_new w) as [rl wl] eqn:El.
  assert (w_manager wl = w_manager w) as Hm.
  { by rewrite <-(initialize_loop_manager p (provider_certs p) CertStore_new w), El. }
  unfold mbind, io_bind in H. rewrite El in H. destruct rl as [|e|store]; [by injection H as <- <-..|].
  destruct (CertStore_is_empty store); injection H as <- <-; [done|]. intros _ sni. cbn.
  rewrite (initialize_loop_adds _ _ _ _ _ _ sni El). split; [by intros [H|?%new_store_empty]|by left].
Qed.

(** C22: start-up serves every configured domain or reports an error.  When it
    succeeds and there are certificate groups, those of auto-TLS routes included, the
    names served are exactly those the groups cover; when it does not, or there is no
    group, the served certificates are what they were. *)
Theorem initialize_serves_all p w w' r :
  initialize p w = (r, w') →
  match r with
  | Done _ => provider_certs p ≠ [] →
              (∀ cfg d, cfg ∈ provider_certs p → d ∈ ac_domains cfg → serves w' d) ∧
              (∀ sni, serves w' sni → ∃ cfg, cfg ∈ provider_certs p ∧ group_covers cfg sni)
  | _ => w_manager w' = w_manager w
  end ∧ (provider_certs p = [] → r = Done tt ∧ w' = w).
Proof.
  intros [H1 H2]%initialize_outcome. split; [|done]. destruct r as [|e|u]; [done..|]. intros Hne. specialize (H1 Hne).
  split; [|intros sni; apply H1]. intros cfg d Hcfg Hd. apply H1. exists cfg. split; [done|].
  apply existsb_true. exists d. split; [done|apply covers_self].
Qed.

(** ** Challenges, with a DNS service that works *)

Section healthy_dns.
Context {zone : string} {Service : CloudflareService send decode_ids decode_id zone}.
Notation records w := (txt_records send decode_ids decode_id (zone := zone) (w_srv w)).

Lemma on_srv_step {A} (m : io Srv CloudflareError A) w a s' :
  m (w_srv w) = (Done a, s') → on_srv m w = (Done a, mkWorld (w_disk w) s' (w_metrics w) (w_manager w) (w_calls w)).
Proof. intros H. unfold on_srv. by rewrite H. Qed.

(** Deleting records by their ids. *)
Lemma delete_all_spec {B} (c : CloudflareClient) (g : B → string) l w :
  ∃ w', (foldr (λ b rest, ignore_error (on_srv (delete_txt_record send decode_errors c zone (g b))) ≫= λ _, rest) (mret tt) l) w = (Done tt, w') ∧
    w_calls w' = w_calls w ∧ w_disk w' = w_disk w ∧ records w' = filter (λ kv, kv.1 ∉ g <$> l) (records w).
Proof.
  revert w. induction l as [|b l IH]; intros w; cbn [foldr].
  { exists w. split_and!; [done..|]. symmetry. apply map_filter_id. intros. by apply not_elem_of_nil. }
  destruct (delete_txt_record_spec send decode_ids decode_id decode_errors c (g b) (w_srv w)) as (s'&Hd&Hr).
  erewrite io_bind_step by (unfold ignore_error; by rewrite (on_srv_step _ _ _ _ Hd)).
  destruct (IH (mkWorld (w_disk w) s' (w_metrics w) (w_manager w) (w_calls w))) as (w'&Hf&Hc&Hdk&Hrec).
  exists w'. split_and!; [done..|]. rewrite Hrec. cbn [w_srv]. rewrite Hr. apply map_eq. intros id.
  apply option_eq. intros x. rewrite !map_lookup_filter_Some, lookup_delete_Some, fmap_cons, not_elem_of_cons. cbn. naive_solver.
Qed.

Lemma delete_stale_spec c name w :
  ∃ w', delete_stale c zone name w = (Done tt, w') ∧ w_calls w' = w_calls w ∧ w_disk w' = w_disk w ∧
    records w' = filter (λ kv, kv.2.1 ≠ name) (records w).
Proof.
  destruct (list_txt_records_spec send decode_ids decode_id decode_errors c name (w_srv w)) as (ids&Hl&Hids).
  unfold delete_stale. rewrite (on_srv_step _ _ _ _ Hl).
  destruct (delete_all_spec c (λ id, id) ids (mkWorld (w_disk w) (w_srv w) (w_metrics w) (w_manager w) (w_calls w))) as (w'&Hd&Hc&Hk&Hr).
  exists w'. split_and!; [done..|]. rewrite Hr. cbn [w_srv]. apply map_eq. intros id. apply option_eq. intros [n v].
  rewrite !map_lookup_filter_Some, list_fmap_id, Hids. cbn. split; intros [H1 H2]; (split; [done|]); rewrite H1 in *; cbn in *; congruence.
Qed.

(** What the challenges still to be met publish: names and values. *)
Definition wanted (azs : list Authorization) : list (string * string) :=
  omap (λ a, if az_valid a then None
             else match az_identifier a, az_dns_value a with IdDns d, Some v => Some (challenge_name d, v) | _, _ => None end) azs.
Definition answerable (a : Authorization) : Prop :=
  az_valid a = false → (∃ d, az_identifier a = IdDns d) ∧ is_Some (az_dns_value a).
(** The value of a name is that of the last authorization for it. *)
Fixpoint last_value (l : list (string * string)) (name : string) : option string :=
  match l with
  | [] => None
  | (n, v) :: l' => match last_value l' name with Some v' => Some v' | None => if bool_decide (n = name) then Some v else None end
  end.

Definition unstale (name : string) (r : gmap string (string * string)) : gmap string (string * string) :=
  filter (λ kv, kv.2.1 ≠ name) r.
Definition publish (nv : string * string) (id : string) (r : gmap string (string * string)) : gmap string (string * string) :=
  <[id := nv]> (unstale nv.1 r).

Lemma create_one c nv w :
  ∃ id w', (delete_stale c zone nv.1 ≫= λ _, on_srv (create_txt_record send decode_id decode_errors c zone nv.1 nv.2)) w = (Done id, w') ∧
    w_calls w' = w_calls w ∧ w_disk w' = w_disk w ∧ unstale nv.1 (records w) !! id = None ∧
    records w' = publish nv id (records w).
Proof.
  destruct (delete_stale_spec c nv.1 w) as (w1&H1&Hc1&Hd1&Hr1). rewrite (io_bind_step _ _ _ _ _ H1).
  destruct (create_txt_record_spec send decode_ids decode_id decode_errors c nv.1 nv.2 (w_srv w1)) as (id&s'&H2&Hn&Hr2).
  exists id. eexists. split; [by apply on_srv_step|]. split_and!; [done..|by unfold unstale; rewrite <-Hr1|]. cbn [w_srv]. rewrite Hr2, Hr1. by destruct nv.
Qed.

(** The loop is a sequence of publications. *)
Inductive publishes : list (string * string) → list (string * string) → relation (gmap string (string * string)) :=
| publishes_nil r : publishes [] [] r r
| publishes_cons nv l id ids r r' : unstale nv.1 r !! id = None → publishes l ids (publish nv id r) r' → publishes (nv :: l) ((nv.1, id) :: ids) r r'.

Lemma create_records_publishes c azs ids w :
  Forall answerable azs →
  ∃ new w', create_dns_challenge_records c zone (Ok <$> azs) ids w = (Done tt, ids ++ new, w') ∧
    w_calls w' = w_calls w ∧ w_disk w' = w_disk w ∧ publishes (wanted azs) new (records w) (records w').
Proof.
  revert ids w. induction azs as [|a azs IH]; intros ids w Hok; cbn [create_dns_challenge_records fmap list_fmap].
  { exists [], w. rewrite app_nil_r. split_and!; [done..|constructor]. }
  inversion Hok as [|?? Ha Hazs]; subst. unfold wanted. cbn [omap list_omap]. fold (wanted azs).
  destruct (az_valid a) eqn:Ev; [by apply IH|]. destruct (Ha Ev) as [[d Hd] [v Hv]]. rewrite Hd, Hv. cbn [dns_identifier].
  destruct (create_one c (challenge_name d, v) w) as (id&w1&H1&Hc1&Hd1&Hn&Hr1). cbn [fst snd] in H1. rewrite H1.
  destruct (IH (ids ++ [(challenge_name d, id)]) w1 Hazs) as (new&w2&H2&Hc2&Hd2&Hp).
  exists ((challenge_name d, id) :: new), w2. rewrite <-app_assoc in H2. split_and!; [done|congruence..|].
  change (challenge_name d) with (challenge_name d, v).1 at 2. constructor; [done|]. by rewrite <-Hr1.
Qed.

Lemma unstale_lookup name r id n v : unstale name r !! id = Some (n, v) ↔ r !! id = Some (n, v) ∧ n ≠ name.
Proof. apply map_lookup_filter_Some. Qed.

(** The records of a name: those of its last publication, or what they were. *)
Lemma publish_records nv id0 r name v :
  unstale nv.1 r !! id0 = None →
  (∃ id, publish nv id0 r !! id = Some (name, v)) ↔ if bool_decide (nv.1 = name) then v = nv.2 else ∃ id, r !! id = Some (name, v).
Proof.
  intros Hn. unfold publish. destruct nv as [n v']. cbn [fst snd] in *. case_bool_decide as E.
  - subst. split; [|by intros ->; exists id0; rewrite lookup_insert_eq]. intros [id [[-> [= <-]]|[_ [_ ?]%unstale_lookup]]%lookup_insert_Some]; done.
  - split; intros [id H].
    + apply lookup_insert_Some in H as [[-> [= <- <-]]|[_ [H _]%unstale_lookup]]; [done|by exists id].
    + exists id. assert (unstale n r !! id = Some (name, v)) as Hu by (by apply unstale_lookup). rewrite lookup_insert_ne; [done|congruence].
Qed.

Lemma publishes_records l ids r r' name v :
  publishes l ids r r' →
  (∃ id, r' !! id = Some (name, v)) ↔
  match last_value l name with Some v' => v = v' | None => ∃ id, r !! id = Some (name, v) end.
Proof.
  induction 1 as [|[n v1] l id ids r r' Hn _ IH]; [done|]. cbn [last_value]. rewrite IH.
  destruct (last_value l name); [done|]. rewrite publish_records by done. cbn [fst snd]. by case_bool_decide.
Qed.

Lemma publishes_other l ids r r' id n v :
  publishes l ids r r' → last_value l n = None → r' !! id = Some (n, v) ↔ r !! id = Some (n, v).
Proof.
  induction 1 as [|[n1 v1] l id1 ids r r' Hn _ IH]; [done|]. cbn [last_value]. destruct (last_value l n); [done|].
  case_bool_decide as E; [done|]. intros _. rewrite IH by done. unfold publish. cbn [fst snd] in *.
  rewrite lookup_insert_Some, unstale_lookup. split; [naive_solver congruence|]. intros H. right. split; [|by split].
  intros ->. assert (unstale n1 r !! id = Some (n, v)) by (by apply unstale_lookup). congruence.
Qed.

(** What is there was there, or was created and is listed. *)
Lemma publishes_new l ids r r' id x : publishes l ids r r' → r' !! id = Some x → r !! id = Some x ∨ id ∈ ids.*2.
Proof.
  induction 1 as [|[n1 v1] l id1 ids r r' Hn _ IH]; [by left|]. intros [H|H]%IH; [|right; rewrite fmap_cons; by right].
  unfold publish in H. apply lookup_insert_Some in H as [[-> _]|[_ H]]; [right; rewrite fmap_cons; by left|].
  destruct x. apply unstale_lookup in H as [H _]. by left.
Qed.

(** C23: what the challenges publish.  With a DNS service that works and authorizations
    that offer a DNS-01 challenge, every challenge record is created: each challenge
    name carries exactly one value, that of the LAST authorization for the name, and no
    other record changes.  A certificate for a domain and its wildcard has two
    authorizations of one name, so the first one's value is deleted as stale before the
    server can see it. *)
Theorem challenge_records_exact c azs w :
  Forall answerable azs →
  ∃ ids w', create_dns_challenge_records c zone (Ok <$> azs) [] w = (Done tt, ids, w') ∧
    ∀ name, match last_value (wanted azs) name with
            | Some v => ∀ v', (∃ id, records w' !! id = Some (name, v')) ↔ v' = v
            | None => ∀ id v', records w' !! id = Some (name, v') ↔ records w !! id = Some (name, v')
            end.
Proof.
  intros Hok. destruct (create_records_publishes c azs [] w Hok) as (ids&w'&H&_&_&Hp). exists ids, w'. split; [done|].
  intros name. destruct (last_value (wanted azs) name) as [v|] eqn:E.
  - intros v'. rewrite (publishes_records _ _ _ _ name v' Hp). by rewrite E.
  - intros id v'. by apply (publishes_other _ _ _ _ id name v' Hp).
Qed.

(** *** Cleaning up *)

Lemma create_records_new c azs ids w r ids' w' :
  create_dns_challenge_records c zone azs ids w = (r, ids', w') →
  r ≠ Panicked ∧ ids ⊆ ids' ∧ ∀ id x, records w' !! id = Some x → records w !! id = Some x ∨ id ∈ ids'.*2.
Proof.
  revert ids w. induction azs as [|[a|e] azs IH]; intros ids w; cbn [create_dns_challenge_records];
    [intros [= <- <- <-]; by auto| |intros [= <- <- <-]; by auto].
  destruct (az_valid a); [by apply IH|]. destruct (dns_identifier _) as [d|]; [|intros [= <- <- <-]; by auto].
  destruct (az_dns_value a) as [v|]; [|intros [= <- <- <-]; by auto].
  destruct (create_one c (challenge_name d, v) w) as (id&w1&H1&_&_&_&Hr). cbn [fst snd] in *. rewrite H1.
  intros (Hp&Hs&Hn)%IH. split_and!; [done|set_solver|]. intros id' x [H|H]%Hn; [|by right]. rewrite Hr in H.
  unfold publish in H. apply lookup_insert_Some in H as [[<- _]|[_ H]].
  - right. apply list_elem_of_fmap. exists (challenge_name d, id). split; [done|]. apply Hs. set_solver.
  - destruct x. apply unstale_lookup in H as [H _]. by left.
Qed.

Lemma challenge_phase_new c w r ids w' :
  challenge_phase c zone w = (r, ids, w') → ∀ id x, records w' !! id = Some x → records w !! id = Some x ∨ id ∈ ids.*2.
Proof.
  unfold challenge_phase. change (call w) with (Done (w_calls w) : exec AcmeError nat, (call w).2). cbn iota.
  destruct (create_dns_challenge_records _ _ _ _ _) as [[r1 ids1] w1] eqn:E.
  apply create_records_new in E as (_&_&Hn). destruct r1 as [|e|u]; [by intros [= <- <- <-]..|].
  assert (preserves w_srv (call ≫= λ n, notify_dns_challenges_ready (authorizations n))) as Hp by solve_preserves.
  specialize (Hp w1). destruct ((call ≫= _) w1) as [r2 w2]. cbn [snd] in Hp. intros [= <- <- <-]. by rewrite Hp.
Qed.

Lemma cleanup_spec c ids w :
  ∃ w', cleanup_dns_records c zone ids w = (Done tt, w') ∧ records w' = filter (λ kv, kv.1 ∉ ids.*2) (records w).
Proof. destruct (delete_all_spec c snd ids w) as (w'&H&_&_&Hr). by exists w'. Qed.

Lemma cleanup_subset (r r1 : gmap string (string * string)) (ids : list (string * string)) :
  (∀ id x, r1 !! id = Some x → r !! id = Some x ∨ id ∈ ids.*2) → filter (λ kv, kv.1 ∉ ids.*2) r1 ⊆ r.
Proof. intros H. apply map_subseteq_spec. intros id x [Hx Hid]%map_lookup_filter_Some. by destruct (H id x Hx). Qed.

(** The errors of the steps between the challenges and the certificate (and a panic). *)
Definition order_step_error {A} (r : exec AcmeError A) : bool :=
  match r with Failed (AAcme _) | Failed (ARcgen _) | Failed (ABase64 _) | Panicked => true | _ => false end.

Lemma pem_block_error b lines e : pem_block base64_decode b lines = Err e → ∃ e', e = ABase64 e'.
Proof.
  revert b. induction lines as [|line lines IH]; intros b; cbn [pem_block]; [done|]. repeat case_match; [by eauto|done| |by eauto].
  destruct (base64_decode line) as [x|e']; cbn; [|intros [= <-]; by eexists].
  destruct (pem_block base64_decode true lines) as [y|e''] eqn:E; cbn; [done|]. intros [= <-]. by eapply IH.
Qed.

Lemma generate_csr_error domains w r w' :
  generate_csr domains w = (r, w') → match r with Done _ => True | _ => order_step_error r = true end.
Proof.
  unfold generate_csr, lift, pem_to_der. intros [(n&w1&_&H)|[(e&[=]&_)|([=]&_)]]%io_bind_cases.
  destruct (generate_key_and_csr n domains) as [[k csr]|e]; cbn in H; [|by injection H as <- <-].
  unfold mbind, io_bind in H. cbn in H. destruct (pem_block _ _ _) as [der|e] eqn:E; cbn in H; [by injection H as <- <-|].
  apply pem_block_error in E as [e' ->]. by injection H as <- <-.
Qed.

Lemma cleanup_then {A} c ids (k : acme A) w r w' :
  (cleanup_dns_records c zone ids ≫= λ _, k) w = (r, w') → preserves w_srv k →
  records w' = filter (λ kv, kv.1 ∉ ids.*2) (records w).
Proof.
  intros H Hk. destruct (cleanup_spec c ids w) as (w1&Hc&Hr). rewrite (io_bind_step _ _ _ _ _ Hc) in H.
  specialize (Hk w1). rewrite H in Hk. cbn in Hk. by rewrite Hk.
Qed.

(** A step that leaves the DNS service alone, and whose errors are order errors. *)
Lemma order_step {A B} (m : acme A) (k : A → acme B) w r w' :
  (m ≫= k) w = (r, w') → order_step_error r = false → preserves w_srv m →
  (∀ r1 w1, m w = (r1, w1) → match r1 with Done _ => True | _ => order_step_error r1 = true end) →
  ∃ a w1, k a w1 = (r, w') ∧ w_srv w1 = w_srv w.
Proof.
  intros H He Hp Hm. specialize (Hp w). destruct (m w) as [r1 w1] eqn:E. specialize (Hm r1 w1 eq_refl). cbn in Hp.
  apply io_bind_cases in H as [(a&w2&H1&H)|[(e&H1&->)|(H1&->)]].
  - exists a, w2. split; [done|]. congruence.
  - rewrite E in H1. injection H1 as -> ->. by destruct e.
  - rewrite E in H1. by injection H1 as -> ->.
Qed.

Lemma lift_acme_error {A} (x : result string A) w r1 w1 :
  lift (map_err AAcme x) w = (r1, w1) → match r1 with Done _ => True | _ => order_step_error r1 = true end.
Proof. destruct x; by intros [= <- <-]. Qed.
Lemma check_error e w r1 w1 : check e w = (r1, w1) → match r1 with Done _ => True | _ => order_step_error r1 = true end.
Proof. destruct e; by intros [= <- <-]. Qed.
Lemma call_error w r1 w1 : call w = (r1, w1) → match r1 with Done _ => True | _ => order_step_error r1 = true end.
Proof. by intros [= <- <-]. Qed.
Lemma generate_csr_srv domains : preserves w_srv (generate_csr domains).
Proof. unfold generate_csr. solve_preserves. Qed.

(** Once the challenges are answered, the records go unless one of the steps up to the
    certificate fails. *)
Lemma issue_cleans c domains ids w r w' :
  issue c zone domains ids w = (r, w') → order_step_error r = false →
  records w' = filter (λ kv, kv.1 ∉ ids.*2) (records w).
Proof.
  intros H He. unfold issue in H.
  apply order_step in H as (n&w1&H&<-); [|done|solve_preserves|apply call_error].
  apply order_step in H as (status&w2&H&<-); [|done|solve_preserves|apply lift_acme_error].
  assert (status = OInvalid ∨ status ≠ OInvalid) as [->|Hs] by (destruct status; auto).
  { apply order_step in H as (m&w3&H&<-); [|done|solve_preserves|apply call_error]. eapply cleanup_then; [exact H|]. solve_preserves. }
  assert ((generate_csr domains ≫= λ '(key, der), call ≫= λ n, check (finalize_csr n der) ≫= λ _,
    call ≫= λ n, lift (map_err AAcme (poll_certificate n)) ≫= λ cert, cleanup_dns_records c zone ids ≫= λ _, mret (cert, key)) w2 = (r, w'))
    as H' by (by destruct status). clear H. rename H' into H.
  apply order_step in H as ([key der]&w3&H&<-); [|done|apply generate_csr_srv|apply generate_csr_error].
  apply order_step in H as (m&w4&H&<-); [|done|solve_preserves|apply call_error].
  apply order_step in H as (u&w5&H&<-); [|done|solve_preserves|apply check_error].
  apply order_step in H as (m'&w6&H&<-); [|done|solve_preserves|apply call_error].
  apply order_step in H as (cert&w7&H&<-); [|done|solve_preserves|apply lift_acme_error].
  eapply cleanup_then; [exact H|]. solve_preserves.
Qed.

Lemma complete_order_cleans p cfg d c w r w' :
  complete_order p cfg d c zone w = (r, w') → order_step_error r = false → records w' ⊆ records w.
Proof.
  unfold complete_order. destruct (challenge_phase c zone w) as [[rc ids] w1] eqn:Ec.
  pose proof (challenge_phase_new _ _ _ _ _ Ec) as Hn. destruct rc as [|e|u]; [by intros [= <- <-]|..]; intros H He.
  - rewrite (cleanup_then c ids _ _ _ _ H); [by apply cleanup_subset|solve_preserves].
  - destruct (issue c zone (ac_domains cfg) ids w1) as [ri w2] eqn:Ei.
    assert (order_step_error ri = false) as Hi.
    { apply io_bind_cases in H as [(a&w3&H1&_)|[(e&H1&->)|(H1&->)]]; rewrite Ei in H1; by injection H1 as -> ->. }
    rewrite <-(cleanup_subset _ _ _ Hn), <-(issue_cleans _ _ _ _ _ _ Ei Hi).
    assert (w_srv w' = w_srv w2) as ->; [|done].
    apply io_bind_cases in H as [([cert key]&w3&H1&H)|[(e&H1&->)|(H1&->)]]; rewrite Ei in H1; injection H1 as -> ->; [|done..].
    assert (∀ k, preserves w_srv k → k w3 = (r, w') → w_srv w' = w_srv w3) as Hk by (intros k Hk Hkw; by rewrite <-(Hk w3), Hkw).
    eapply Hk, H. unfold acme_now. solve_preserves.
Qed.

(** Leaves no new record, unless it ends with one of those errors. *)
Definition clean {A} (m : acme A) : Prop :=
  ∀ w r w', m w = (r, w') → order_step_error r = false → records w' ⊆ records w.

Lemma clean_preserves {A} (m : acme A) : preserves w_srv m → clean m.
Proof. intros Hp w r w' H _. specialize (Hp w). rewrite H in Hp. cbn in Hp. by rewrite Hp. Qed.
Lemma clean_bind {A B} (m : acme A) (k : A → acme B) : preserves w_srv m → (∀ a, clean (k a)) → clean (m ≫= k).
Proof.
  intros Hp Hk w r w' H He. specialize (Hp w). apply io_bind_cases in H as [(a&w1&H1&H)|[(e&H1&->)|(H1&->)]]; rewrite H1 in Hp; cbn in Hp.
  - rewrite <-Hp. by apply (Hk a w1 r).
  - by rewrite Hp.
  - by rewrite Hp.
Qed.

(** Obtaining a certificate cleans up after itself.  With a configured zone and a
    DNS service that works, no challenge record is left behind when the certificate is
    obtained, when the order turns out invalid, when no DNS-01 challenge is offered and
    on every other error but those of the ACME server and of the CSR. *)
Theorem obtain_cleans_up p cfg w r w' :
  dp_zone_id (ac_dns cfg) = Some zone → obtain_cert p cfg w = (r, w') → order_step_error r = false →
  records w' ⊆ records w.
Proof.
  intros Hz. enough (clean (obtain_cert p cfg)) as Hc by apply Hc. unfold obtain_cert. rewrite Hz.
  apply clean_bind; [solve_preserves|]. intros d. apply clean_bind; [unfold get_or_create_account; solve_preserves|]. intros _.
  apply clean_bind; [unfold dns_client; solve_preserves|]. intros c.
  enough (clean (call ≫= λ n, check (new_order n (ac_domains cfg)) ≫= λ _, complete_order p cfg d c zone)) as Hc by apply Hc.
  apply clean_bind; [solve_preserves|]. intros n. apply clean_bind; [solve_preserves|]. intros _. exact (complete_order_cleans p cfg d c).
Qed.

Lemma notify_all_ready azs w :
  Forall answerable azs → (∀ n, set_ready n = None) →
  ∃ w', notify_dns_challenges_ready (Ok <$> azs) w = (Done tt, w') ∧ w_srv w' = w_srv w.
Proof.
  intros Ha Hr. pose proof (notify_srv (Ok <$> azs) w) as Hs. enough ((notify_dns_challenges_ready (Ok <$> azs) w).1 = Done tt) as H.
  { destruct (notify_dns_challenges_ready _ w) as [r w']. cbn in *. subst. by exists w'. }
  clear Hs. revert w. induction Ha as [|a azs Ha _ IH]; intros w; cbn [notify_dns_challenges_ready fmap list_fmap]; [done|].
  destruct (az_valid a) eqn:Ev; [apply IH|]. destruct (Ha Ev) as [[d Hd] [v Hv]]. rewrite Hd, Hv.
  unfold lift, mbind, io_bind. cbn. rewrite Hr. cbn. apply IH.
Qed.

(** An order that cannot be polled leaves its challenge records behind.  When the
    challenges were published and the server then fails to say whether the order is
    ready, the error is returned at once: every published value is still in the zone,
    and stays until another attempt for the same name. *)
Theorem failed_poll_leaks_records p cfg d c azs e w :
  (∀ n, authorizations n = Ok <$> azs) → Forall answerable azs → (∀ n, set_ready n = None) → (∀ n, poll_ready n = Err e) →
  ∃ w', complete_order p cfg d c zone w = (Failed (AAcme e), w') ∧
    ∀ name v, last_value (wanted azs) name = Some v → ∃ id, records w' !! id = Some (name, v).
Proof.
  intros Haz Hok Hready Hpoll. unfold complete_order, challenge_phase.
  change (call w) with (Done (w_calls w) : exec AcmeError nat, (call w).2). cbn iota. rewrite Haz.
  destruct (create_records_publishes c azs [] (call w).2 Hok) as (ids&w1&H1&_&_&Hp). rewrite H1. cbn [app].
  destruct (notify_all_ready azs (call w1).2 Hok Hready) as (w2&H2&Hs).
  assert ((call ≫= λ n, notify_dns_challenges_ready (authorizations n)) w1 = (Done tt, w2)) as H3.
  { unfold mbind, io_bind. cbn. by rewrite Haz. }
  rewrite H3. exists (call w2).2. split.
  - unfold issue, mbind, io_bind. cbn. by rewrite Hpoll.
  - intros name v Hl. change (w_srv (call w2).2) with (w_srv w2). rewrite Hs. change (w_srv (call w1).2) with (w_srv w1).
    apply (publishes_records _ _ _ _ name v Hp). by rewrite Hl.
Qed.

End healthy_dns.
(** ** Rounds in which nothing is due

    The moments at which the clock is read are numbered by the disk operations. *)

(** The stored certificate of a group is not due at any moment from [lo] up to [hi]. *)
Definition not_due (p : AcmeProvider) (fs : Files) (lo hi : nat) (cfg : AcmeCertConfig) : Prop :=
  ∃ d rest cert, ac_domains cfg = d :: rest ∧ stored_files meta_from_json (ap_storage p) d cert fs ∧
    ∀ n, lo ≤ n < hi → (now n + days (acme_renew_before_days (ap_config p)) ≤ sc_expiry cert)%Z.

(** How many moments the check of one group that is not due takes: eight to see that it is
    not due, seven to load the certificate and ten to make it a key through two temporary
    files. *)
Definition group_ops : nat := 25.

(** Only metrics and the count of disk operations differ, this by at most [k]. *)
Definition idle (k : nat) (w w' : World) : Prop :=
  w_manager w' = w_manager w ∧ w_srv w' = w_srv w ∧ w_calls w' = w_calls w ∧ d_files (w_disk w') = d_files (w_disk w) ∧
  d_ops (w_disk w) ≤ d_ops (w_disk w') ≤ k + d_ops (w_disk w).

Lemma idle_refl k w : idle k w w.
Proof. repeat split; lia. Qed.
Lemma idle_trans k1 k2 w1 w2 w3 : idle k1 w1 w2 → idle k2 w2 w3 → idle (k1 + k2) w1 w3.
Proof. intros (?&?&?&?&?) (?&?&?&?&?). repeat split; try congruence; lia. Qed.
Lemma idle_weaken k1 k2 w1 w2 : idle k1 w1 w2 → k1 ≤ k2 → idle k2 w1 w2.
Proof. intros (?&?&?&?&?) ?. repeat split; try congruence; lia. Qed.

Lemma idle_bind {A B} k1 k2 (m : acme A) (f : A → acme B) w :
  idle k1 w (m w).2 → (∀ a w1, idle k2 w1 (f a w1).2) → idle (k1 + k2) w ((m ≫= f) w).2.
Proof.
  intros H1 H2. unfold mbind, io_bind. destruct (m w) as [[|e|a] w1]; cbn [snd] in *; [eapply idle_weaken; [done|lia]..|].
  eapply idle_trans; [exact H1|apply H2].
Qed.

Lemma idle_quiet k w w' : idle k w w' → quiet fault (w_disk w) → quiet fault (w_disk w').
Proof. intros (_&_&_&_&Ho) Hq n Hn. apply Hq. lia. Qed.

Lemma idle_op w : idle 1 w (on_disk op_count w).2 ∧ idle 2 w (on_disk (os_op fault ≫= λ _, op_count) w).2.
Proof.
  split; unfold on_disk, os_op, op_count, mbind, io_bind; cbn; [|destruct (fault _)]; cbn; repeat split; cbn; lia.
Qed.

Lemma idle_insert_stored cfg stored store w : idle 10 w (insert_stored cfg stored store w).2.
Proof.
  assert (∀ w, idle 2 w (as_io (on_disk (os_op fault ≫= λ _, op_count)) w).2) as Hop.
  { intros w1. pose proof (proj2 (idle_op w1)) as H. unfold as_io. destruct (on_disk _ w1) as [[|[[]| | | | | | | | | | |]|] ?]; exact H. }
  unfold insert_stored. apply (idle_bind 10 0); [|intros; apply idle_refl]. unfold load_stored_cert. cbn zeta.
  apply (idle_bind 2 8); [apply Hop|]. intros ? ?. apply (idle_bind 2 6); [apply Hop|]. intros ? ?.
  apply (idle_bind 2 4); [apply Hop|]. intros ? ?. apply (idle_bind 2 2); [apply Hop|]. intros ? ?.
  apply (idle_bind 1 1); [apply idle_op|]. intros ? ?. apply (idle_bind 1 0); [apply idle_op|]. intros. apply idle_refl.
Qed.

Lemma on_disk_after {A} (m : io Disk StorageError A) w a n :
  m (w_disk w) = (Done a, after n (w_disk w)) → ∃ w', on_disk m w = (Done a, w') ∧ idle n w w'.
Proof. intros H. unfold on_disk. rewrite H. eexists. split; [done|]. repeat split; cbn; lia. Qed.

Section window.
Context (p : AcmeProvider) (fs : Files) (lo hi : nat).

(** A state between two checks of the window. *)
Definition in_window (k : nat) (w : World) : Prop :=
  d_files (w_disk w) = fs ∧ quiet fault (w_disk w) ∧ lo ≤ d_ops (w_disk w) ∧ k + d_ops (w_disk w) ≤ hi.

Lemma in_window_idle k1 k2 w w' : idle k1 w w' → in_window (k1 + k2) w → in_window k2 w'.
Proof.
  intros Hi (Hf&Hq&Hlo&Hhi). pose proof (idle_quiet _ _ _ Hi Hq). destruct Hi as (_&_&_&Hf'&Ho). split_and!; [congruence|done|lia..].
Qed.

Lemma needs_renewal_fresh cfg w :
  not_due p fs lo hi cfg → in_window 8 w →
  ∃ d rest cert, ac_domains cfg = d :: rest ∧
    needs_renewal fault now meta_from_json (ap_storage p) d (acme_renew_before_days (ap_config p)) (w_disk w) =
      (Done false, after 8 (w_disk w)) ∧
    load_cert' p d (w_disk w) = (Done (Some cert), after 7 (w_disk w)).
Proof.
  intros (d&rest&cert&Hd&Hs&Hf) (<-&Hq&Hlo&Hhi). exists d, rest, cert. pose proof (load_cert_quiet fault meta_from_json _ _ _ _ Hq Hs) as Hl.
  split_and!; [done| |done]. unfold needs_renewal. rewrite (io_bind_step _ _ _ _ _ Hl). unfold utc_now, op_count, mbind, io_bind. cbn.
  specialize (Hf (7 + d_ops (w_disk w)) ltac:(lia)).
  assert ((sc_expiry cert <? now (7 + d_ops (w_disk w)) + days (acme_renew_before_days (ap_config p)))%Z = false) as Hlt by lia.
  cbn in Hlt. by rewrite Hlt.
Qed.

Lemma renew_cert_fresh cfg st w r w' :
  not_due p fs lo hi cfg → in_window group_ops w → renew_cert p cfg st w = (r, w') →
  idle group_ops w w' ∧ (∀ st', r = Done st' → st'.2 = st.2).
Proof.
  intros Hf Hw H. destruct (needs_renewal_fresh cfg w Hf) as (d&rest&cert&Hd&Hn&_).
  { destruct Hw as (?&?&?&?). unfold group_ops in *. split_and!; [done..|lia]. }
  destruct (on_disk_after _ _ _ _ Hn) as (w1&H1&Hi1). pose proof (in_window_idle 8 17 _ _ Hi1 Hw) as Hw1.
  destruct (needs_renewal_fresh cfg w1 Hf) as (d'&rest'&cert'&Hd'&_&Hl).
  { destruct Hw1 as (?&?&?&?). split_and!; [done..|lia]. }
  assert (d' = d) as -> by congruence. destruct (on_disk_after _ _ _ _ Hl) as (w2&H2&Hi2).
  unfold renew_cert in H. rewrite Hd in H. rewrite (io_bind_step _ _ w d w) in H by done.
  rewrite (io_bind_step _ _ _ _ _ H1), (io_bind_step _ _ _ _ _ H2) in H. clear H1 H2 Hn Hl.
  apply io_bind_cases in H as [(?&w3&[= _ <-]&H)|[(?&[=]&_)|([=]&_)]].
  apply io_bind_cases in H as [(?&w4&[= _ <-]&H)|[(?&[=]&_)|([=]&_)]].
  match type of H with ((_ ≫= _) ?w3) = _ => set (wm := w3) in H; assert (idle 15 w wm) as Hi by exact (idle_trans _ _ _ _ _ Hi1 Hi2) end.
  pose proof (idle_insert_stored cfg cert' st.1 wm) as Hs.
  apply io_bind_cases in H as [(store&w5&H5&[= <- <-])|[(e&H5&->)|(H5&->)]]; rewrite H5 in Hs;
    (split; [exact (idle_trans _ _ _ _ _ Hi Hs)|]); [by intros ? [= <-]|done..].
Qed.

Lemma renew_loop_fresh certs st w r w' :
  Forall (not_due p fs lo hi) certs → in_window (length certs * group_ops) w → renew_loop p certs st w = (r, w') →
  idle (length certs * group_ops) w w' ∧ (∀ st', r = Done st' → st'.2 = st.2).
Proof.
  intros Hc. revert st w. induction Hc as [|cfg certs Hf _ IH]; intros st w Hw; cbn [renew_loop length].
  { intros [= <- <-]. split; [apply idle_refl|]. by intros ? [= <-]. }
  assert (in_window group_ops w) as Hg by (destruct Hw as (?&?&?&?); cbn [length Nat.mul] in *; split_and!; [done..|lia]).
  intros [(st1&w1&H1&H)|[(e&H1&->)|(H1&->)]]%io_bind_cases;
    destruct (renew_cert_fresh cfg _ _ _ _ Hf Hg H1) as [Hi Hs]; [|split; [eapply idle_weaken; [done|lia]|done]..].
  apply IH in H as [Hi2 Hs2]; [|by eapply in_window_idle]. split; [exact (idle_trans _ _ _ _ _ Hi Hi2)|].
  intros st' Hr. by rewrite (Hs2 st' Hr), (Hs st1).
Qed.

Notation round_ops := (length (provider_certs p) * group_ops).

Lemma check_fresh w :
  Forall (not_due p fs lo hi) (provider_certs p) → in_window round_ops w → idle round_ops w (ignore_error (check_and_renew p) w).2.
Proof.
  intros Hf Hw. assert (idle round_ops w (check_and_renew p w).2) as Hi.
  { unfold check_and_renew. destruct (renew_loop p (provider_certs p) (CertStore_new, false) w) as [r w1] eqn:E.
    apply (renew_loop_fresh _ _ _ _ _ Hf Hw) in E as E'. destruct E' as [Hi Hs]. unfold mbind, io_bind. rewrite E.
    destruct r as [|e|[store any]]; [done..|]. specialize (Hs (store, any) eq_refl). cbn in Hs. by subst. }
  unfold ignore_error. by destruct (check_and_renew p w) as [[] ?].
Qed.

Lemma rounds_fresh n w :
  Forall (not_due p fs lo hi) (provider_certs p) → in_window (n * round_ops) w → idle (n * round_ops) w (renewal_loop p n w).2.
Proof.
  intros Hf. revert w. induction n as [|n IH]; intros w Hw; cbn [renewal_loop]; [apply idle_refl|].
  assert (idle round_ops w (ignore_error (check_and_renew p) w).2) as Hi.
  { apply check_fresh; [done|]. destruct Hw as (?&?&?&?). cbn [Nat.mul] in *. split_and!; [done..|lia]. }
  unfold mbind, io_bind. destruct (ignore_error (check_and_renew p) w) as [[|e'|u] w3]; cbn [snd] in *;
    [eapply idle_weaken; [done|cbn [Nat.mul]; lia]..|].
  eapply (idle_trans round_ops); [done|]. apply IH. by eapply in_window_idle.
Qed.

End window.

(** C25: a check that fails half way forgets what it renewed.  A check that ends in an
    error leaves the served certificates what they were, although it may already have
    renewed certificates on disk.  In the rounds after it, for as long as no group of the
    configuration comes due (each has a stored certificate outside its renewal window at
    every moment of these rounds) and the disk works, nothing is reloaded: after any
    number of such rounds the served certificates are still the old ones, and the files
    are those the failed check left. *)
Theorem renewed_certificates_forgotten p w e w1 n :
  check_and_renew p w = (Failed e, w1) → quiet fault (w_disk w1) →
  let start := d_ops (w_disk w1) in
  Forall (not_due p (d_files (w_disk w1)) start (start + n * (length (provider_certs p) * group_ops))) (provider_certs p) →
  w_manager (renewal_loop p n w1).2 = w_manager w ∧ d_files (w_disk (renewal_loop p n w1).2) = d_files (w_disk w1).
Proof.
  intros H Hq start Hf.
  assert (w_manager w1 = w_manager w) as <-.
  { unfold check_and_renew in H. pose proof (renew_loop_manager p (provider_certs p) (CertStore_new, false) w) as Hm.
    apply io_bind_cases in H as [([store any]&w2&H2&H)|[(?&H2&_)|(_&[=])]]; [|by rewrite H2 in Hm].
    destruct (any && negb (CertStore_is_empty store)); done. }
  destruct (rounds_fresh p _ start _ n w1 Hf) as (Hm&_&_&Hfs&_); [|done]. split_and!; [done..|]. unfold start. lia.
Qed.

End acme.

(** ** A DNS service and an ACME server on which everything can be run *)

Module Demo.

(** A list of ids as a text, and back: a 1 before every character and a 0 at the end. *)
Fixpoint encode_id (s : string) : string :=
  match s with EmptyString => "0" | String c s' => String "1" (String c (encode_id s')) end.
Fixpoint encode_ids (l : list string) : string := match l with [] => "" | id :: l' => encode_id id +:+ encode_ids l' end.
Fixpoint decode_ids (text : string) : option (list string) :=
  match text with
  | EmptyString => Some []
  | String a text' =>
      if Ascii.eqb a "0" then cons "" <$> decode_ids text'
      else match text' with
           | String c text'' =>
               decode_ids text'' ≫= λ l, match l with id :: l' => Some (String c id :: l') | [] => None end
           | EmptyString => None
           end
  end.

Lemma decode_encode_ids l : decode_ids (encode_ids l) = Some l.
Proof. induction l as [|id l IH]; [done|]. cbn. induction id as [|c id IHid]; cbn; [by rewrite IH|]. by rewrite IHid. Qed.

Notation Service := (gmap string (string * string)).
Definition zone : string := "z".


(** The records of one zone; the service knows no zone by name. *)
Definition send (auth : string) (req : HttpRequest) (s : Service) : result string HttpResponse * Service :=
  match req with
  | HttpGet url =>
      let ids := match strip_prefix (list_url zone "") url with
                 | Some name => fst <$> filter (λ kv, kv.2.1 = name) (map_to_list s)
                 | None => []
                 end in
      (Ok (mkHttpResponse 200 (Ok (encode_ids ids))), s)
  | HttpPost url body =>
      let id := fresh (elements (dom s)) in
      (Ok (mkHttpResponse 200 (Ok id)), <[id := (crr_name body, crr_content body)]> s)
  | HttpDelete url =>
      (Ok (mkHttpResponse 200 (Ok "")), match strip_prefix (record_url zone "") url with Some id => delete id s | None => s end)
  end.

#[export] Instance service : CloudflareService send decode_ids Some zone.
Proof.
  refine {| txt_records := λ s, s; zone_of := λ _, None |}.
  - intros auth s name. exists "", []. done.
  - intros auth s name. eexists _, _. split; [reflexivity|]. split; [apply decode_encode_ids|].
    change (list_url zone name) with (list_url zone "" +:+ name). rewrite strip_prefix_app. intros id.
    rewrite list_elem_of_fmap. split.
    + intros ([id' [n v]]&->&[Hn H]%list_elem_of_filter). apply elem_of_map_to_list in H. cbn in *. rewrite H. cbn. congruence.
    + destruct (s !! id) as [[n v]|] eqn:E; cbn; [|done]. intros [= ->]. exists (id, (name, v)). split; [done|].
      apply list_elem_of_filter. split; [done|]. by apply elem_of_map_to_list.
  - intros auth s name content. eexists _, _, _. split; [reflexivity|]. split; [reflexivity|]. split; [|done].
    apply not_elem_of_dom. rewrite <-elem_of_elements. apply infinite_is_fresh.
  - intros auth s id. eexists _, _. split; [reflexivity|]. split; [done|].
    change (record_url zone id) with (record_url zone "" +:+ id). by rewrite strip_prefix_app.
Defined.

(** Certificates C and keys K; the metadata of one day. *)
Definition year : Z := days 365.
Definition meta (domains : list string) : CertMeta := mkCertMeta year domains 0.
Definition meta_json (m : CertMeta) : result string string :=
  if bool_decide (cmeta_expiry m = year ∧ cmeta_created_at m = 0%Z) then Ok (encode_ids (cmeta_domains m)) else Err "unsupported".
Definition json_meta (json : string) : result string CertMeta := ok_or "invalid" (meta <$> decode_ids json).

Section env.
Context (fault : nat → option string) (azs : list Authorization) (poll : result string OrderStatus).

Definition env : AcmeEnv Service := {|
  env_fault := fault; env_partial := λ _, 0; env_now := λ _, 0%Z; env_default_mode := 420;
  env_meta_to_json := meta_json; env_meta_from_json := json_meta;
  env_send := send; env_decode_ids := decode_ids; env_decode_id := Some; env_decode_errors := λ _, None;
  env_header_value_ok := λ _, true; env_token_file := λ _, Err "none"; env_env_var := λ _, None;
  env_from_credentials := λ _ _, Ok tt; env_credentials_ok := λ _, Ok tt; env_create_account := λ _ _ _, Ok "creds";
  env_credentials_json := Ok; env_new_order := λ _ _, None; env_authorizations := λ _, Ok <$> azs;
  env_authorization_states := λ _, []; env_set_ready := λ _, None; env_poll_ready := λ _, poll;
  env_finalize_csr := λ _ _, None; env_poll_certificate := λ _, Ok "C"; env_generate_key_and_csr := λ _ _, Ok ("K", "csr");
  env_base64_decode := Ok; env_x509_not_after := λ _, Some (year / nanoseconds)%Z; env_pem_certs := λ s, [Ok s];
  env_pem_private_key := λ s, Ok (Some s); env_any_supported_type := λ _, true;
  env_tempfile := λ n, "/tmp/" +:+ Nat.iter n (String "x") EmptyString
|}.
End env.

Definition dns : DnsProviderConfig := mkDnsProviderConfig "cloudflare" "token" None (Some zone).
Definition group (d : string) : AcmeCertConfig := mkAcmeCertConfig [d] dns.
Definition provider (groups : list string) : AcmeProvider :=
  mkAcmeProvider (mkAcmeConfig "" true "/acme" 30 (group <$> groups) None ∅) (mkAcmeStorage "/acme" true) [].
Definition authz (d value : string) : Authorization := mkAuthorization false (IdDns d) (Some value).

(** A disk with a certificate of a domain. *)
Definition stored (d : string) : Files :=
  let dir := cert_path (mkAcmeStorage "/acme" true) d in
  list_to_map [(path_join dir "cert.pem", mkFile "C" public_mode); (path_join dir "key.pem", mkFile "K" private_mode);
               (path_join dir "meta.json", mkFile (encode_ids [d]) public_mode)].
Definition world (files : Files) : World := mkWorld (mkDisk files 0) (∅ : Service) ∅ (mkCertManager CertStore_new) 0.
Definition no_fault (n : nat) : option string := None.
Definition fault_at (k n : nat) : option string := if n =? k then Some "I/O error" else None.
End Demo.

Import Demo.

Lemma initialize_serves_all_witness :
  let e := env no_fault [authz "a.com" "v"] (Ok OReady) in
  let p := provider ["a.com"] in
  let '(r, w') := initialize e p (world ∅) in
  r = Done tt ∧ (∀ cfg d, cfg ∈ provider_certs p → d ∈ ac_domains cfg → is_Some (resolve (cm_store (w_manager w')) d)).
Proof.
  cbn zeta. destruct (initialize _ _ (world ∅)) as [r w'] eqn:H.
  assert (r = Done tt) as -> by (apply (f_equal fst) in H; vm_compute in H; by rewrite <-H).
  split; [done|].
  refine (proj1 (proj1 (initialize_serves_all (env no_fault [authz "a.com" "v"] (Ok OReady)) (provider ["a.com"]) _ _ _ H) _)). done.
Defined.

(** A domain and its wildcard: only the second value is published. *)
Lemma challenge_records_exact_witness :
  let e := env no_fault [] (Ok OReady) in
  let azs := [authz "a.com" "v1"; authz "a.com" "v2"] in
  last_value (wanted azs) "_acme-challenge.a.com" = Some "v2" ∧
  ∃ ids w', create_dns_challenge_records e (mkCloudflareClient "t") zone (Ok <$> azs) [] (world ∅) = (Done tt, ids, w') ∧
    ∀ v', (∃ id, txt_records send decode_ids Some (w_srv w') !! id = Some ("_acme-challenge.a.com", v')) ↔ v' = "v2".
Proof.
  split; [reflexivity|].
  destruct (challenge_records_exact (env no_fault [] (Ok OReady)) (Service := service) (mkCloudflareClient "t")
    [authz "a.com" "v1"; authz "a.com" "v2"] (world ∅)) as (ids&w'&H&Hn).
  { by repeat constructor; eexists. }
  exists ids, w'. split; [exact H|]. exact (Hn "_acme-challenge.a.com").
Defined.

Lemma obtain_cleans_up_witness :
  let e := env no_fault [authz "a.com" "v"] (Ok OInvalid) in
  let '(r, w') := obtain_cert e (provider ["a.com"]) (group "a.com") (world ∅) in
  order_step_error r = false ∧ txt_records send decode_ids Some (w_srv w') ⊆ ∅.
Proof.
  cbn zeta. destruct (obtain_cert _ _ _ _) as [r w'] eqn:H.
  assert (order_step_error r = false) as He by (apply (f_equal fst) in H; vm_compute in H; by rewrite <-H).
  split; [done|].
  exact (obtain_cleans_up (env no_fault [authz "a.com" "v"] (Ok OInvalid)) (Service := service) (provider ["a.com"]) (group "a.com") (world ∅)
    r w' eq_refl H He).
Defined.

Lemma failed_poll_leaks_records_witness :
  let e := env no_fault [authz "a.com" "v"] (Err "timeout") in
  ∃ w', complete_order e (provider ["a.com"]) (group "a.com") "a.com" (mkCloudflareClient "t") zone (world ∅) = (Failed (AAcme "timeout"), w') ∧
    ∃ id, txt_records send decode_ids Some (w_srv w') !! id = Some ("_acme-challenge.a.com", "v").
Proof.
  destruct (failed_poll_leaks_records (env no_fault [authz "a.com" "v"] (Err "timeout")) (Service := service) (provider ["a.com"]) (group "a.com")
    "a.com" (mkCloudflareClient "t") [authz "a.com" "v"] "timeout" (world ∅)) as (w'&H&Hl); [done|by repeat constructor; eexists|done..|].
  exists w'. split; [exact H|]. by apply Hl.
Defined.

Lemma stored_demo d fs :
  let dir := cert_path (mkAcmeStorage "/acme" true) d in
  fs !! path_join dir "cert.pem" = Some (mkFile "C" public_mode) → fs !! path_join dir "key.pem" = Some (mkFile "K" private_mode) →
  fs !! path_join dir "meta.json" = Some (mkFile (encode_ids [d]) public_mode) →
  stored_files json_meta (mkAcmeStorage "/acme" true) d (mkStoredCert "C" "K" year [d]) fs.
Proof.
  intros dir H1 H2 H3. exists public_mode, private_mode, public_mode, (encode_ids [d]), (meta [d]).
  split_and!; [exact H1|exact H2|exact H3|vm_compute; reflexivity..| |reflexivity|reflexivity].
  unfold json_meta. rewrite decode_encode_ids. reflexivity.
Qed.

(** The certificate of one domain is renewed, reading that of the other fails. *)
Lemma renewed_certificates_forgotten_witness :
  let e := env (fault_at 36) [authz "a.com" "v"] (Ok OReady) in
  let p := provider ["a.com"; "b.com"] in
  let '(r, w1) := check_and_renew e p (world (stored "b.com")) in
  (∃ err, r = Failed err) ∧ d_files (w_disk w1) !! "/acme/certs/staging/a.com/cert.pem" = Some (mkFile "C" public_mode) ∧
  ∀ n, w_manager (renewal_loop e p n w1).2 = mkCertManager CertStore_new.
Proof.
  cbn zeta. set (e := env (fault_at 36) [authz "a.com" "v"] (Ok OReady)).
  destruct (check_and_renew e (provider ["a.com"; "b.com"]) (world (stored "b.com"))) as [r w1] eqn:H.
  assert (r = Failed (AStorage (SIo "I/O error"))) as -> by (apply (f_equal fst) in H; vm_compute in H; by rewrite <-H).
  assert (d_ops (w_disk w1) = 37) as Ho by (apply (f_equal (d_ops ∘ w_disk ∘ snd)) in H; cbn [compose snd] in H; rewrite <-H; vm_compute; reflexivity).
  assert (d_files (w_disk w1) = d_files (w_disk (check_and_renew e (provider ["a.com"; "b.com"]) (world (stored "b.com"))).2)) as Hf by (by rewrite H).
  split; [by eexists|]. split; [rewrite Hf; vm_compute; reflexivity|].
  intros n. apply (renewed_certificates_forgotten e (provider ["a.com"; "b.com"]) (world (stored "b.com")) _ w1 n H).
  - intros m Hm. rewrite Ho in Hm. unfold e. cbn. unfold fault_at. by rewrite (proj2 (Nat.eqb_neq _ _)) by lia.
  - rewrite Hf. repeat constructor; [exists "a.com"|exists "b.com"]; eexists [], (mkStoredCert "C" "K" year [_]);
      (split; [reflexivity|]); (split; [apply stored_demo; vm_compute; reflexivity|intros m _; vm_compute; discriminate]).
Defined.
