(* ===== verification/ProxyProcess.v ===== *)
(** * The proxy process (crates/wicket/src/main.rs: arguments, logging, PID file,
      service notification, HTTPS address)

    What the binary does around the servers: which log level and format are in force,
    the PID file with its guard, the notification of systemd and the HTTPS address that
    goes with an HTTP address.  The disk is that of [AcmeStorage]; sending a datagram is
    a parameter. *)

From S2P Require Import Prelude Str Num Bytes Net Config Files AcmeStorage.
From Stdlib Require Import Ascii.

(** ** Arguments and logging *)

(** The path of the PID file is given as its parent and its file name. *)
Record Args := mkArgs {
  args_config : string;
  args_validate : bool;
  args_log_level : option string;
  args_json_logs : bool;
  args_dump_config : bool;
  args_dump_schema : bool;
  args_metrics_addr : string;
  args_upgrade : bool;
  args_pid_dir : string;
  args_pid_name : string;
  args_upgrade_sock : string
}.

Definition effective_log_level (args : Args) (config : Config) : string :=
  match args_log_level args with
  | Some l => l
  | None => unwrap_or (server_log_level (cfg_server config)) (log_level (cfg_logging config))
  end.

Definition effective_json_logs (args : Args) (config : Config) : bool :=
  args_json_logs args ||
  match log_format (cfg_logging config) with
  | Some LogFormat_Json => true
  | Some LogFormat_Text => false
  | None => server_json_logs (cfg_server config)
  end.

Definition tracing_filter_level (level : string) : string :=
  let l := to_lowercase level in
  if String.eqb l "trace" then "trace"
  else if String.eqb l "debug" then "debug"
  else if String.eqb l "info" then "info"
  else if String.eqb l "warn" || String.eqb l "warning" then "warn"
  else if String.eqb l "error" then "error"
  else "info".

Definition default_tracing_filter (level : string) : string :=
  let level := tracing_filter_level level in
  if String.eqb level "trace" || String.eqb level "debug" then
    "info,wicket=" +:+ level +:+ ",wicket_tls=" +:+ level +:+ ",wicket_core=" +:+ level +:+ ",wicket_config=" +:+ level +:+
    ",wicket_stream=" +:+ level
  else level.

Definition acme_tracing_filter (level : string) : string :=
  let level := tracing_filter_level level in "wicket_tls::acme=" +:+ level +:+ ",wicket_tls::acme::cloudflare=" +:+ level.

Inductive Level := Level_Trace | Level_Debug | Level_Info | Level_Warning | Level_Error.

Definition parse_verbosity (level : string) : Level :=
  let l := to_lowercase level in
  if String.eqb l "trace" then Level_Trace
  else if String.eqb l "debug" then Level_Debug
  else if String.eqb l "info" then Level_Info
  else if String.eqb l "warn" || String.eqb l "warning" then Level_Warning
  else if String.eqb l "error" then Level_Error
  else Level_Info.

(** The layers of the subscriber: where they write and what they let through. *)
Inductive LogSink := Stderr | LogFile (directory file : string).
Record LogLayer := mkLogLayer { ll_sink : LogSink; ll_json : bool; ll_filter : string }.

Definition init_logging (rust_log : option string) (create_dir_all : string → option string) (config : Config) (level : string) (json : bool)
    : result string (list LogLayer) :=
  let filter := unwrap_or (default_tracing_filter level) rust_log in
  let files := log_files (cfg_logging config) in
  let stderr := mkLogLayer Stderr json filter in
  if lf_enabled files then
    match create_dir_all (lf_directory files) with
    | Some e => Err e
    | None => Ok [stderr; mkLogLayer (LogFile (lf_directory files) (lf_error files)) json filter;
                  mkLogLayer (LogFile (lf_directory files) (lf_acme files)) json (acme_tracing_filter level)]
    end
  else Ok [stderr].

(** ** The HTTPS address *)

(** [SocketAddr::new]. *)
Definition SocketAddr_new (ip : IpAddr) (port : N) : SocketAddr :=
  match ip with IpV4 a => SocketAddrV4 a port | IpV6 a => SocketAddrV6 a port 0 end.

(** [u16::saturating_add]. *)
Definition saturating_add_u16 (a b : N) : N := N.min (a + b) u16_max.

Definition compute_https_addr (http_addr : SocketAddr) : SocketAddr :=
  let https_port := if (sock_port http_addr =? 80)%N then 443%N else saturating_add_u16 (sock_port http_addr) (443 - 80) in
  SocketAddr_new (sock_ip http_addr) https_port.

(** ** The PID file *)

Record PidFileGuard := mkPidFileGuard { pg_dir : string; pg_name : string; pg_pid : N }.

Section disk.
Context (fault : nat → option string) (partial : nat → nat) (default_mode : N).
Notation storage := (io Disk StorageError).

Definition newline_str : string := String "010" EmptyString.
(** [0o640]. *)
Definition pid_file_mode : N := 416.

Definition pid_temp_name (file_name : string) (pid : N) : string := "." +:+ file_name +:+ "." +:+ show_N pid +:+ ".tmp".

Definition write_pid_file (dir file_name : string) (pid : N) : storage unit :=
  let tmp_path := path_join dir (pid_temp_name file_name pid) in
  file_create fault default_mode tmp_path ≫= λ _,
  file_set_permissions fault tmp_path pid_file_mode ≫= λ _,
  file_write fault partial tmp_path (show_N pid +:+ newline_str) ≫= λ _,
  file_rename fault tmp_path (path_join dir file_name).

Definition PidFileGuard_install (dir file_name : string) (pid : N) : storage PidFileGuard :=
  create_dir_all fault dir ≫= λ _, write_pid_file dir file_name pid ≫= λ _, mret (mkPidFileGuard dir file_name pid).

Definition pid_file_matches_pid (path : string) (pid : N) : storage bool :=
  os_op fault ≫= λ _, get_files ≫= λ fs,
  match fs !! path with
  | None => mret false
  | Some f =>
      if utf8_valid (as_bytes (f_data f)) then mret (bool_decide (parse_uint u32_max (trim (f_data f)) = Some pid))
      else io_fail (SIo "stream did not contain valid UTF-8")
  end.

(** [remove_file]. *)
Definition file_remove (path : string) : storage unit :=
  os_op fault ≫= λ _, get_files ≫= λ fs,
  if is_some (fs !! path) then set_files (delete path) else io_fail (SIo "No such file or directory (os error 2)").

(** Dropping the guard: every error is ignored. *)
Definition PidFileGuard_drop (g : PidFileGuard) (d : Disk) : Disk :=
  let path := path_join (pg_dir g) (pg_name g) in
  match pid_file_matches_pid path (pg_pid g) d with
  | (Done true, d') => (file_remove path d').2
  | (_, d') => d'
  end.
End disk.

(** ** Notifying systemd *)

Fixpoint join_lines (l : list string) : string :=
  match l with
  | [] => ""
  | [x] => x
  | x :: l' => x +:+ newline_str +:+ join_lines l'
  end.

Definition notify_payload (fields : list (string * string)) : string := join_lines ((λ '(k, v), k +:+ "=" +:+ v) <$> fields).

(** [sizeof(sockaddr_un)]: a family of two bytes and a path of 108. *)
Definition sun_path_len : nat := 108.
Definition sockaddr_un_size : nat := 2 + sun_path_len.

(** The path of the address (its first byte is zero), filled as far as it goes, and the
    address length passed to [sendto]. *)
Definition abstract_address (name : bytes) : result string (bytes * nat) :=
  if sockaddr_un_size <? length name + 2 then Err "abstract notify socket path is too long"
  else
    let slots := sun_path_len - 1 in
    Ok (Byte.x00 :: take slots name ++ replicate (slots - length name) Byte.x00, 2 + 1 + length name).

Inductive NotifyTarget := NotifyPath (path : string) | NotifyAbstract (sun_path : bytes) (addr_len : nat).

Definition systemd_notify (send : NotifyTarget → bytes → option string) (socket : string) (fields : list (string * string))
    : result string unit :=
  let payload := as_bytes (notify_payload fields) in
  let deliver target := match send target payload with Some e => Err e | None => Ok tt end in
  match socket with
  | String "@" name => abstract_address (as_bytes name) ≫= λ '(sun_path, addr_len), deliver (NotifyAbstract sun_path addr_len)
  | _ => deliver (NotifyPath socket)
  end.

Definition systemd_notify_ready (send : NotifyTarget → bytes → option string) (notify_socket : option string) (pid : N) (status : string)
    : result string unit :=
  match notify_socket with
  | None => Ok tt
  | Some socket => systemd_notify send socket [("READY", "1"); ("MAINPID", show_N pid); ("STATUS", status)]
  end.

(** ** Facts *)

(** The HTTPS address that goes with an HTTP address.  It has the same IP address
    and a port that fits sixteen bits, 443 for 80 and 363 higher otherwise, up to 65535;
    it is another port than the HTTP one, unless that is 65535, where both are equal and
    the two listeners contend for it. *)
Theorem https_addr_bounds a :
  (sock_port a ≤ u16_max)%N →
  sock_ip (compute_https_addr a) = sock_ip a ∧ (sock_port (compute_https_addr a) ≤ u16_max)%N ∧
  (sock_port a = 80%N → sock_port (compute_https_addr a) = 443%N) ∧
  (sock_port a ≠ 80%N → (sock_port a + 363 ≤ u16_max)%N → sock_port (compute_https_addr a) = (sock_port a + 363)%N) ∧
  (sock_port (compute_https_addr a) = sock_port a ↔ sock_port a = u16_max).
Proof.
  intros Ha. unfold compute_https_addr, saturating_add_u16, u16_max in *.
  assert (∀ ip p, sock_port (SocketAddr_new ip p) = p ∧ sock_ip (SocketAddr_new ip p) = ip) as Hn by (by intros []).
  destruct (Hn (sock_ip a) (if (sock_port a =? 80)%N then 443%N else N.min (sock_port a + (443 - 80)) 65535)) as [-> ->].
  destruct (N.eqb_spec (sock_port a) 80); split_and!; try done; lia.
Qed.

Lemma https_addr_bounds_witness :
  sock_port (compute_https_addr (socket_v4 0 0 0 0 8080)) = 8443%N ∧
  sock_port (compute_https_addr (socket_v4 0 0 0 0 65535)) = sock_port (socket_v4 0 0 0 0 65535).
Proof.
  split.
  - by apply (https_addr_bounds (socket_v4 0 0 0 0 8080)).
  - by apply (https_addr_bounds (socket_v4 0 0 0 0 65535)).
Defined.

(** *** The PID file *)

(** Texts of digits only. *)
Definition digits (s : string) : Prop := ∀ c, digit_val c = None → contains_char c s = false.

Lemma digits_cons a s : digits (String a s) → (∃ d, digit_val a = Some d) ∧ digits s.
Proof.
  intros H. split.
  - destruct (digit_val a) as [d|] eqn:E; [by exists d|]. specialize (H a E). cbn in H. by rewrite Ascii.eqb_refl in H.
  - intros c Hc. specialize (H c Hc). cbn in H. by apply orb_false_iff in H as [_ H].
Qed.

(** A digit is neither white space nor outside ASCII. *)
Lemma digit_class a d : digit_val a = Some d → is_ascii_whitespace a = false ∧ in_range 0 127 (byte_of_ascii a) = true.
Proof. destruct a as [[] [] [] [] [] [] [] []]; vm_compute; try discriminate; by intros _. Qed.

Lemma trim_digits s : digits s → trim (s +:+ newline_str) = s.
Proof.
  intros H. assert (trim_end (s +:+ newline_str) = s) as He.
  { induction s as [|a s IH]; [reflexivity|]. apply digits_cons in H as [[d Hd%digit_class] H]. cbn [String.append trim_end]. rewrite (IH H).
    destruct s; [|done]. by rewrite (proj1 Hd). }
  destruct s as [|a s]; [reflexivity|]. apply digits_cons in H as [[d Hd%digit_class] _]. unfold trim. cbn [String.append trim_start].
  by rewrite (proj1 Hd).
Qed.

Lemma digits_utf8 s : digits s → utf8_valid (as_bytes (s +:+ newline_str)) = true.
Proof.
  intros H. apply utf8_valid_ascii. induction s as [|a s IH]; [reflexivity|]. apply digits_cons in H as [[d Hd%digit_class] H].
  cbn [String.append]. rewrite as_bytes_cons. cbn [forallb]. by rewrite (IH H), (proj2 Hd).
Qed.

Section pid.
Context (fault : nat → option string) (partial : nat → nat) (default_mode : N).

Lemma pid_temp_ne dir name pid : path_join dir (pid_temp_name name pid) ≠ path_join dir name.
Proof.
  destruct (path_join_eq dir) as (d&_&Hd). rewrite !Hd. intros H%app_str_inj_l. apply (f_equal String.length) in H.
  unfold pid_temp_name in H. rewrite !length_app_str in H. cbn in H. lia.
Qed.

Lemma write_pid_file_files dir name pid d d1 :
  write_pid_file fault partial default_mode dir name pid d = (Done tt, d1) →
  d_files d1 = <[path_join dir name := mkFile (show_N pid +:+ newline_str) pid_file_mode]>
                 (delete (path_join dir (pid_temp_name name pid)) (d_files d)).
Proof.
  unfold write_pid_file, file_create, file_set_permissions, file_write, file_rename, os_op, op_count, set_files, get_files,
    io_modify, mbind, io_bind, mret, io_ret. cbn.
  repeat (destruct (fault _); [done|]; cbn). rewrite !lookup_alter_eq, lookup_insert_eq. cbn. intros [= <-]. cbn. f_equal.
  apply map_eq. intros p. destruct (decide (p = path_join dir (pid_temp_name name pid))) as [->|Hne]; [by rewrite !lookup_delete_eq|].
  by rewrite !lookup_delete_ne, !lookup_alter_ne, lookup_insert_ne by done.
Qed.

Lemma install_file dir name pid d g d1 :
  PidFileGuard_install fault partial default_mode dir name pid d = (Done g, d1) →
  d_files d1 !! path_join dir name = Some (mkFile (show_N pid +:+ newline_str) pid_file_mode).
Proof.
  intros (?&d0&_&H)%io_bind_Done. apply io_bind_Done in H as ([]&d3&H&[= <- <-]). apply write_pid_file_files in H.
  by rewrite H, lookup_insert_eq.
Qed.

(** The PID file and its guard.  After a process has installed its guard the file
    holds its PID, readable by owner and group; dropping a guard, without faults,
    removes the file exactly when it still holds the PID of the guard's own process, so
    that a process that was replaced by an upgrade leaves its successor's file alone. *)
Theorem pid_file_guard dir name pid d g d1 d2 dir' name' pid' :
  PidFileGuard_install fault partial default_mode dir name pid d = (Done g, d1) → (pid ≤ u32_max)%N →
  d_files d2 = d_files d1 → quiet fault d2 → path_join dir' name' = path_join dir name →
  d_files d1 !! path_join dir name = Some (mkFile (show_N pid +:+ newline_str) pid_file_mode) ∧
  d_files (PidFileGuard_drop fault (mkPidFileGuard dir' name' pid') d2) =
    if bool_decide (pid' = pid) then delete (path_join dir name) (d_files d2) else d_files d2.
Proof.
  intros Hf%install_file Hpid Hfs Hq Hpath. split; [done|]. unfold PidFileGuard_drop. cbn [pg_dir pg_name pg_pid]. rewrite Hpath.
  assert (digits (show_N pid)) as Hd by (intros c; apply show_N_digits).
  assert (pid_file_matches_pid fault (path_join dir name) pid' d2 = (Done (bool_decide (pid' = pid)), after 1 d2)) as ->.
  { unfold pid_file_matches_pid, os_op, op_count, get_files, mbind, io_bind, mret, io_ret. cbn [d_files].
    rewrite (Hq (d_ops d2)) by lia. cbn [d_files]. rewrite Hfs, Hf. cbn [f_data]. rewrite digits_utf8, trim_digits, parse_uint_show by done.
    rewrite (bool_decide_ext (Some pid = Some pid') (pid' = pid)) by naive_solver. unfold after. by rewrite Hfs. }
  case_bool_decide; [|done]. unfold file_remove, os_op, op_count, get_files, set_files, io_modify, mbind, io_bind. cbn.
  rewrite (Hq (S (d_ops d2))) by lia. cbn. rewrite Hfs, Hf. done.
Qed.
End pid.

(** An upgrade: the old process (7) goes after the new one (8) has installed its file. *)
Lemma pid_file_guard_witness :
  let d := mkDisk ∅ 0 in
  let '(r, d1) := PidFileGuard_install (λ _, None) (λ _, 0) 420 "/run" "w.pid" 8 d in
  is_Some (match r with Done g => Some g | _ => None end) ∧
  d_files (PidFileGuard_drop (λ _, None) (mkPidFileGuard "/run" "w.pid" 7) d1) = d_files d1.
Proof.
  cbn zeta. destruct (PidFileGuard_install _ _ _ _ _ _ _) as [r d1] eqn:H.
  assert (r = Done (mkPidFileGuard "/run" "w.pid" 8)) as -> by (apply (f_equal fst) in H; cbn [fst] in H; rewrite <-H; vm_compute; reflexivity).
  split; [by eexists|].
  apply (proj2 (pid_file_guard (λ _, None) (λ _, 0) 420 "/run" "w.pid" 8 _ _ _ d1 "/run" "w.pid" 7 H ltac:(done) eq_refl (λ _ _, eq_refl) eq_refl)).
Defined.

(** *** The notification *)

(** The address of an abstract notify socket.  A name of at most 107 bytes is put
    whole behind the leading zero, and the address fits its structure; a name of 108
    bytes passes the check although its last byte is dropped and the address length
    given to the kernel is one more than the structure has; longer names are
    refused. *)
Theorem abstract_address_bounds name :
  match abstract_address name with
  | Err _ => 108 < length name
  | Ok (path, addr_len) =>
      length path = sun_path_len ∧
      if length name <? 108
      then take (length name) (drop 1 path) = name ∧ addr_len ≤ sockaddr_un_size
      else length name = 108 ∧ take (length name) (drop 1 path) = take 107 name ∧ addr_len = S sockaddr_un_size
  end.
Proof.
  unfold abstract_address. destruct (Nat.ltb_spec sockaddr_un_size (length name + 2)) as [H|H]; unfold sockaddr_un_size, sun_path_len in *; [lia|].
  set (slots := 108 - 1). assert (slots = 107) as Hs by done. clearbody slots. cbn [drop].
  split; [cbn [length]; rewrite length_app, length_take, length_replicate; lia|].
  destruct (Nat.ltb_spec (length name) 108).
  - rewrite (take_ge name slots) by lia. rewrite drop_0, take_app_length. split; [done|lia].
  - assert (length name = 108) as Hl by lia. split_and!; [done| |lia]. rewrite Hl.
    replace (slots - 108) with 0 by lia. cbn [replicate]. rewrite app_nil_r, drop_0, take_take, Hs. done.
Qed.
