(* ===== verification/ProxyMain.v ===== *)
(** * Starting and reloading the proxy (crates/wicket/src/main.rs, wicket-core/src/proxy.rs)

    [run_server] up to the point where the servers run: TLS by mode, the HTTP proxy, the
    stream listeners, the PID file and the notification; then the watcher of the
    configuration file and the TLS side of a connection.  The state of the start is that
    of [Acme] (disk, DNS service, metrics, served certificates); the kernel's answers, opening
    the access log and the load balancers of Pingora are parameters. *)

From S2P Require Import Prelude Str Num Bytes Net TlsConfig Config Metrics HttpRouting HttpProxy SniRouter StreamUpstream StreamProxy Sockets.
From S2P Require Import CertStore Files FileWatcher AcmeStorage Acme ProxyProcess.
From Stdlib Require Import Ascii.

Notation StreamWorld := StreamProxy.World.

(** ** Errors and results *)

Inductive NewError := NewReload (e : ReloadError) | NewAccessLog (e : string).

Inductive RunError :=
| CryptoProviderFailed (e : string)
| ConfigLoadFailed (path e : string)
| LoggingFailed (e : string)
| TelemetryFailed (e : string)
| UpgradeWithStreams
| RuntimeFailed (e : string)
| FileCertsFailed (e : FileWatcherError)
| AcmeCreateFailed (e : AcmeError)
| AcmeInitFailed (e : AcmeError)
| EmptyCertificateStore
| ProxyServiceFailed (e : NewError)
| StreamBuildFailed (name : string) (e : StreamError)
| StreamAddressInvalid (name listen : string)
| StreamBindFailed (name e : string)
| PidFileFailed (e : StorageError)
| NotifyFailed (e : string).

(** What TLS leaves running: the file watcher and the renewal loop. *)
Record TlsTasks := mkTlsTasks { tt_watching : bool; tt_renewing : option AcmeProvider }.

Section main.
Context {Srv LB : Type} (env : AcmeEnv Srv).
(** Pingora's load balancers. *)
Context (try_from_iter : LoadBalanceStrategy → list string → option LB) (set_health_check : N → LB → LB).
(** Certificate files: opening them, and the NotAfter of a certificate. *)
Context (ff : FsFaults) (x509_der_not_after : string → option Z).
(** The operating system: the asynchronous runtime, the access log, listening sockets. *)
Context (runtime_new : option string) (access_log_open : string → string → option string) (kernel : Kernel).
(** The order in which the SNI routes of a stream are enumerated. *)
Context (sni_routes : StreamConfig → list (string * string)).
Context (pid : N) (notify_socket : option string) (notify_send : NotifyTarget → bytes → option string).

Notation AcmeWorld := (Acme.World (Srv := Srv)).
Notation run := (io AcmeWorld RunError).

(** *** Parts of the state *)

Definition on_acme {A} (context : AcmeError → RunError) (m : io AcmeWorld AcmeError A) : run A := λ w,
  match m w with
  | (Done a, w') => (Done a, w')
  | (Failed e, w') => (Failed (context e), w')
  | (Panicked, w') => (Panicked, w')
  end.
Definition on_storage {A} (context : StorageError → RunError) (m : io Disk StorageError A) : run A := λ w,
  let '(r, d) := m (w_disk w) in
  (match r with Done a => Done a | Failed e => Failed (context e) | Panicked => Panicked end,
   Acme.mkWorld d (w_srv w) (Acme.w_metrics w) (w_manager w) (w_calls w)).
Definition require {E A} (context : E → RunError) (r : result E A) : run A := io_exec (of_result (map_err context r)).
Definition check_os (context : string → RunError) (e : option string) : run unit :=
  match e with Some e => io_fail (context e) | None => mret tt end.
Definition get_world : run AcmeWorld := λ w, (Done w, w).

(** *** TLS *)

(** A new, empty manager. *)
Definition new_manager : run unit :=
  io_modify (λ w, Acme.mkWorld (w_disk w) (w_srv w) (Acme.w_metrics w) (mkCertManager CertStore_new) (w_calls w)).

(** The file watcher's certificates, from the disk as it is. *)
Definition init_files (file_config : FileConfig) : run bool := λ w,
  match load_all (env_pem_certs env) (env_pem_private_key env) (env_any_supported_type env) x509_der_not_after file_config ff
          (d_files (w_disk w)) (w_manager w) (Acme.w_metrics w) with
  | (Ok _, manager, m) => (Done (file_watch file_config), Acme.mkWorld (w_disk w) (w_srv w) m manager (w_calls w))
  | (Err e, manager, m) => (Failed (FileCertsFailed e), Acme.mkWorld (w_disk w) (w_srv w) m manager (w_calls w))
  end.

Definition init_acme (config : Config) (acme_config : AcmeConfig) : run AcmeProvider :=
  on_acme AcmeCreateFailed (AcmeProviderBuilder_build env acme_config (collect_auto_tls_domains_with_providers config)) ≫= λ provider,
  on_acme AcmeInitFailed (initialize env provider) ≫= λ _,
  mret provider.

Definition init_opt {A B} (o : option A) (f : A → run B) : run (option B) :=
  match o with Some a => f a ≫= λ b, mret (Some b) | None => mret None end.

Definition init_mode (config : Config) (tls : TlsConfig) : run TlsTasks :=
  match tls_mode tls with
  | TlsMode_File => init_opt (tls_file tls) init_files ≫= λ watching, mret (mkTlsTasks (unwrap_or false watching) None)
  | TlsMode_Acme => init_opt (tls_acme tls) (init_acme config) ≫= λ renewing, mret (mkTlsTasks false renewing)
  | TlsMode_Mixed =>
      init_opt (tls_file tls) init_files ≫= λ watching,
      init_opt (tls_acme tls) (init_acme config) ≫= λ renewing,
      mret (mkTlsTasks (unwrap_or false watching) renewing)
  end.

Definition init_tls (config : Config) (tls : TlsConfig) : run TlsTasks :=
  new_manager ≫= λ _, init_mode config tls ≫= λ tasks, get_world ≫= λ w,
  if CertStore_is_empty (cm_store (w_manager w)) then io_fail EmptyCertificateStore else mret tasks.

(** *** The HTTP proxy *)

Definition AccessLogger_from_config (config : Config) : result string (option AccessLogFormat) :=
  let l := cfg_logging config in
  if negb (al_enabled (log_access l)) || negb (lf_enabled (log_files l)) then Ok None
  else match access_log_open (lf_directory (log_files l)) (lf_access (log_files l)) with
       | Some e => Err e
       | None => Ok (Some (al_format (log_access l)))
       end.

Definition WicketProxy_new (config : Config) : result NewError (ProxyState (LB := LB) * option AccessLogFormat) :=
  map_err NewReload (map_err ReloadRouter (Router_build (cfg_routes config))) ≫= λ router,
  map_err NewReload (build_upstreams try_from_iter set_health_check (cfg_upstreams config)) ≫= λ upstreams,
  map_err NewAccessLog (AccessLogger_from_config config) ≫= λ access_logger,
  Ok (mkProxyState router upstreams, access_logger).

(** The addresses of the plain listeners. *)
Definition http_addrs (config : Config) : list SocketAddr :=
  if negb (server_disable_http (cfg_server config)) then http_listen_addrs (cfg_server config) else [].

Definition https_addr (config : Config) : SocketAddr :=
  match server_https_listen (cfg_server config) with
  | Some addr => addr
  | None => compute_https_addr (server_listen (cfg_server config))
  end.

(** *** Streams *)

Fixpoint start_streams (streams : list StreamConfig) (proxies : gmap string StreamWorld) : run (gmap string StreamWorld) :=
  match streams with
  | [] => mret proxies
  | c :: streams' =>
      get_world ≫= λ w,
      require (StreamBuildFailed (st_name c)) (from_config (sni_routes c) c (Acme.w_metrics w)) ≫= λ proxy,
      require (λ _ : unit, StreamAddressInvalid (st_name c) (st_listen c)) (ok_or tt (parse_socket_addr (st_listen c))) ≫= λ addr,
      require (StreamBindFailed (st_name c)) (create_listener kernel (mkListenerConfig addr (st_backlog c) (st_reuseport c))) ≫= λ listener,
      require (StreamBindFailed (st_name c)) (into_tokio_listener kernel listener) ≫= λ _,
      start_streams streams' (<[st_name c := proxy]> proxies)
  end.

(** *** The server *)

Record Server := mkServer {
  sv_tls : option TlsTasks;
  sv_proxy : ProxyState (LB := LB);
  sv_access_log : option AccessLogFormat;
  sv_http : list SocketAddr;
  sv_https : option SocketAddr;
  sv_streams : gmap string StreamWorld;
  sv_threads : option N;
  sv_shutdown_timeout : N;
  sv_guard : PidFileGuard
}.

(** Up to [run_forever]. *)
Definition run_server (config : Config) (args : Args) : run Server :=
  if args_upgrade args && negb (is_empty (cfg_streams config)) then io_fail UpgradeWithStreams
  else
    check_os RuntimeFailed runtime_new ≫= λ _,
    init_opt (cfg_tls config) (init_tls config) ≫= λ tls,
    require ProxyServiceFailed (WicketProxy_new config) ≫= λ '(proxy, access_log),
    start_streams (cfg_streams config) ∅ ≫= λ streams,
    on_storage PidFileFailed (PidFileGuard_install (env_fault env) (env_partial env) (env_default_mode env) (args_pid_dir args) (args_pid_name args) pid)
      ≫= λ guard,
    let status := if args_upgrade args then "HTTP upgrade takeover complete" else "HTTP service ready" in
    require NotifyFailed (systemd_notify_ready notify_send notify_socket pid status) ≫= λ _,
    mret (mkServer tls proxy access_log (http_addrs config) (match tls with Some _ => Some (https_addr config) | None => None end)
            streams (server_workers (cfg_server config)) (server_shutdown_timeout (cfg_server config)) guard).

(** How the process ends its start: something printed, or serving. *)
Inductive Boot := SchemaDumped | ConfigDumped (config : Config) | ConfigValid (path : string) | Serving (layers : list LogLayer) (server : Server).

(** The rustls provider, the configuration file as it loads, the environment's log
    filter, the log directory and the telemetry are what the system gives. *)
Definition bootstrap (crypto_provider : option string) (loaded : result string Config) (rust_log : option string)
    (create_log_dir : string → option string) (telemetry_init : option string) (args : Args) : run Boot :=
  check_os CryptoProviderFailed crypto_provider ≫= λ _,
  if args_dump_schema args then mret SchemaDumped
  else
    require (ConfigLoadFailed (args_config args)) loaded ≫= λ config,
    let level := effective_log_level args config in
    let json := effective_json_logs args config in
    require LoggingFailed (init_logging rust_log create_log_dir config level json) ≫= λ layers,
    check_os TelemetryFailed telemetry_init ≫= λ _,
    if args_dump_config args then mret (ConfigDumped config)
    else if args_validate args then mret (ConfigValid (args_config args))
    else run_server config args ≫= λ server, mret (Serving layers server).

(** ** The watcher of the configuration file *)

Record Watch := mkWatch {
  wt_http : ProxyState (LB := LB);
  wt_streams : gmap string StreamWorld;
  wt_metrics : Metrics;
  wt_last_modified : option N
}.

Definition listener_set_changed (running : gmap string StreamWorld) (new_streams : list StreamConfig) : bool :=
  if negb (size running =? length new_streams) then true
  else existsb (λ stream,
         match running !! st_name stream with
         | None => true
         | Some w => negb (String.eqb (show_socket (sp_local_addr (w_proxy w))) (st_listen stream))
         end) new_streams.

(** One proxy's reload; an error is only logged.  The metrics are the process's. *)
Definition reload_one (st : gmap string StreamWorld * Metrics) (c : StreamConfig) : gmap string StreamWorld * Metrics :=
  match st.1 !! st_name c with
  | Some w => let w' := (stream_reload (sni_routes c) c (with_metrics w st.2)).1 in (<[st_name c := w']> st.1, StreamProxy.w_metrics w')
  | None => st
  end.

(** One round of the loop: the modification time found, and what loading gives. *)
Definition watch_tick (current_modified : option N) (loaded : result string Config) (s : Watch) : Watch :=
  if bool_decide (current_modified = wt_last_modified s) then s
  else
    match loaded with
    | Err _ => s
    | Ok new_config =>
        let http := (apply_reload try_from_iter set_health_check (wt_http s) new_config).1 in
        let '(streams, m) :=
          if listener_set_changed (wt_streams s) (cfg_streams new_config) then (wt_streams s, wt_metrics s)
          else foldl reload_one (wt_streams s, wt_metrics s) (cfg_streams new_config) in
        mkWatch http streams m current_modified
    end.

(** ** TLS at the start *)

Lemma on_acme_Done {A} context (m : io AcmeWorld AcmeError A) w a w' : on_acme context m w = (Done a, w') → m w = (Done a, w').
Proof. unfold on_acme. by destruct (m w) as [[] ?]; intros [= <- <-]. Qed.

Notation serves w sni := (is_Some (resolve (cm_store (w_manager w)) sni)).

Lemma init_acme_serves config acme_config w p w' :
  init_acme config acme_config w = (Done p, w') →
  let groups := all_certs_with_providers acme_config (collect_auto_tls_domains_with_providers config) in
  groups ≠ [] → ∀ sni, serves w' sni ↔ ∃ cfg, cfg ∈ groups ∧ group_covers cfg sni.
Proof.
  intros (provider&w1&H1&H)%io_bind_Done groups Hg. apply io_bind_Done in H as (?&w2&H2&[= <- <-]).
  apply on_acme_Done in H1, H2. apply io_bind_Done in H1 as (storage&w0&_&[= <- <-]).
  apply initialize_outcome in H2 as [H2 _]. by apply H2.
Qed.

(** C34: in mixed mode the certificate files are not served.  When the start succeeds in
    mixed mode with some ACME group, the names served are exactly those the ACME groups
    cover: the ACME provider replaces the whole store, the certificates loaded from files
    just before included. *)
Theorem mixed_mode_serves_acme_only config tls acme_config w tasks w' :
  tls_mode tls = TlsMode_Mixed → tls_acme tls = Some acme_config →
  let groups := all_certs_with_providers acme_config (collect_auto_tls_domains_with_providers config) in
  groups ≠ [] → init_tls config tls w = (Done tasks, w') →
  ∀ sni, serves w' sni ↔ ∃ cfg, cfg ∈ groups ∧ group_covers cfg sni.
Proof.
  intros Hm Ha groups Hg (?&w1&_&H)%io_bind_Done. apply io_bind_Done in H as (tasks'&w2&H2&H).
  apply io_bind_Done in H as (w3&?&[= <- <-]&H).
  assert (w' = w2) as -> by (destruct (CertStore_is_empty _); [done|by injection H]).
  unfold init_mode in H2. rewrite Hm, Ha in H2. apply io_bind_Done in H2 as (watching&w4&_&H2).
  apply io_bind_Done in H2 as (renewing&w5&H5&[= <- <-]). apply io_bind_Done in H5 as (p&w6&H6&[= <- <-]).
  exact (init_acme_serves _ _ _ _ _ H6 Hg).
Qed.

(** ** A server that starts *)

Lemma require_Done {E A} (context : E → RunError) (r : result E A) w a w' : require context r w = (Done a, w') → r = Ok a ∧ w' = w.
Proof. destruct r; by intros [= <- <-]. Qed.

Lemma start_streams_spec streams proxies w proxies' w' :
  start_streams streams proxies w = (Done proxies', w') →
  w' = w ∧ (∀ name, is_Some (proxies' !! name) ↔ is_Some (proxies !! name) ∨ name ∈ st_name <$> streams) ∧
  (∀ name p, proxies' !! name = Some p → proxies !! name = Some p ∨
     ∃ c, c ∈ streams ∧ st_name c = name ∧ from_config (sni_routes c) c (Acme.w_metrics w) = Ok p ∧
          parse_socket_addr (st_listen c) = Some (sp_local_addr (w_proxy p)) ∧
          is_Some (ok (create_listener kernel (mkListenerConfig (sp_local_addr (w_proxy p)) (st_backlog c) (st_reuseport c))))).
Proof.
  revert proxies. induction streams as [|c streams IH]; intros proxies; cbn [start_streams].
  { intros [= <- <-]. split_and!; [done| |by left]. intros name. split; [by left|]. by intros [|?%elem_of_nil]. }
  intros (w0&?&[= <- <-]&H)%io_bind_Done. apply io_bind_Done in H as (proxy&w1&H1&H). apply io_bind_Done in H as (addr&w2&H2&H).
  apply io_bind_Done in H as (listener&w3&H3&H). apply io_bind_Done in H as (?&w4&H4&H). apply require_Done in H3 as [H3 ->], H4 as [_ ->].
  destruct (from_config (sni_routes c) c (Acme.w_metrics w)) as [proxy'|e] eqn:Ef; [|done]. injection H1 as -> <-.
  destruct (parse_socket_addr (st_listen c)) as [addr'|] eqn:Ea; [|done]. injection H2 as -> <-.
  apply IH in H as (->&Hd&Hp). split_and!; [done|..].
  - intros name. rewrite Hd, fmap_cons, elem_of_cons. destruct (decide (name = st_name c)) as [->|Hne].
    + rewrite lookup_insert_eq. naive_solver.
    + rewrite lookup_insert_ne by done. naive_solver.
  - intros name p Hl. apply Hp in Hl as [[[<- <-]|[_ Hl]]%lookup_insert_Some|(c'&Hc'&H')]; [right|by left|right; exists c'; set_solver].
    assert (sp_local_addr (w_proxy proxy) = addr) as Hla.
    { revert Ef. unfold from_config. rewrite Ea. destruct (parse_upstreams c) as [ups|]; [|done]. cbn.
      destruct (alloc_upstreams ups ∅ 0 ∅) as [[heap next] table]. by intros [= <-]. }
    exists c. rewrite Hla, H3. split_and!; [left|done..].
Qed.

Lemma init_tls_nonempty config tls w tasks w' :
  init_tls config tls w = (Done tasks, w') → CertStore_is_empty (cm_store (w_manager w')) = false.
Proof.
  intros (?&w1&_&H)%io_bind_Done. apply io_bind_Done in H as (tasks'&w2&_&H). apply io_bind_Done in H as (?&?&[= <- <-]&H).
  destruct (CertStore_is_empty _) eqn:E; [done|]. by injection H as <- <-.
Qed.


Lemma run_server_streams config args w sv w' :
  run_server config args w = (Done sv, w') → ∃ w0 w1, start_streams (cfg_streams config) ∅ w0 = (Done (sv_streams sv), w1).
Proof.
  unfold run_server. destruct (args_upgrade args && _); [done|].
  intros (?&w1&_&H)%io_bind_Done. apply io_bind_Done in H as (tls&w2&_&H). apply io_bind_Done in H as ([proxy log]&w3&_&H).
  apply io_bind_Done in H as (streams&w4&Hs&H). apply io_bind_Done in H as (guard&w5&_&H). apply io_bind_Done in H as (?&w6&_&[= <- <-]).
  by exists w3, w4.
Qed.

(** What holds once the server is said to be ready.  With TLS configured the
    certificate store is not empty and the HTTPS address is set; every configured stream
    has a proxy, built from its configuration and bound at its parsed address, and there
    is no other; a binary upgrade never has streams; and the PID file holds the PID. *)
Theorem ready_server config args w sv w' :
  run_server config args w = (Done sv, w') →
  (args_upgrade args = true → cfg_streams config = []) ∧
  (cfg_tls config ≠ None → CertStore_is_empty (cm_store (w_manager w')) = false ∧ sv_https sv = Some (https_addr config)) ∧
  (cfg_tls config = None → sv_https sv = None) ∧
  (∀ name, is_Some (sv_streams sv !! name) ↔ name ∈ st_name <$> cfg_streams config) ∧
  (∀ name p, sv_streams sv !! name = Some p → ∃ c, c ∈ cfg_streams config ∧ st_name c = name ∧
     parse_socket_addr (st_listen c) = Some (sp_local_addr (w_proxy p)) ∧
     is_Some (ok (create_listener kernel (mkListenerConfig (sp_local_addr (w_proxy p)) (st_backlog c) (st_reuseport c))))) ∧
  d_files (w_disk w') !! path_join (args_pid_dir args) (args_pid_name args) = Some (mkFile (show_N pid +:+ newline_str) pid_file_mode).
Proof.
  unfold run_server. destruct (args_upgrade args && negb (is_empty (cfg_streams config))) eqn:Eu; [done|].
  intros (?&w1&_&H)%io_bind_Done. apply io_bind_Done in H as (tls&w2&Ht&H). apply io_bind_Done in H as ([proxy log]&w3&H3&H).
  apply require_Done in H3 as [_ ->]. apply io_bind_Done in H as (streams&w4&Hs&H). apply start_streams_spec in Hs as (->&Hd&Hp).
  apply io_bind_Done in H as (guard&w5&Hg&H). apply io_bind_Done in H as (?&w6&H6&[= <- <-]). apply require_Done in H6 as [_ ->].
  unfold on_storage in Hg. destruct (PidFileGuard_install _ _ _ _ _ _ _) as [rg dg] eqn:Eg. destruct rg as [|e|g]; [done..|].
  injection Hg as -> <-. apply install_file in Eg. cbn.
  split_and!; [|..|exact Eg].
  - intros E. rewrite E in Eu. by destruct (cfg_streams config).
  - intros Hn. destruct (cfg_tls config) as [t|]; [|done]. apply io_bind_Done in Ht as (tasks&w0&Ht&[= <- <-]).
    split; [by apply init_tls_nonempty in Ht|done].
  - intros Hn. rewrite Hn in Ht. by injection Ht as <- _.
  - intros name. rewrite Hd, lookup_empty. split; [by intros [[]|]|by right].
  - intros name p [?|(c&?&?&_&?)]%Hp; [done|]. by exists c.
Qed.

(** ** Reloading *)

Lemma running_set (running : gmap string StreamWorld) (l : list StreamConfig) :
  NoDup (st_name <$> l) → size running = length l → (∀ c, c ∈ l → is_Some (running !! st_name c)) →
  ∀ name, is_Some (running !! name) ↔ name ∈ st_name <$> l.
Proof.
  intros Hnd Hs Hin name. rewrite <-elem_of_dom.
  assert ((list_to_set (st_name <$> l) : gset string) = dom running) as <-; [|by rewrite elem_of_list_to_set].
  apply set_subseteq_size_eq.
  - intros n. rewrite elem_of_list_to_set, list_elem_of_fmap, elem_of_dom. intros (c&->&Hc). by apply Hin.
  - rewrite size_dom, size_list_to_set, length_fmap by done. lia.
Qed.

(** The listener set is unchanged exactly when the new streams have the running
    names and each is configured with the canonical text of the address its listener is
    bound to. *)
Theorem listener_set_unchanged_iff running l :
  NoDup (st_name <$> l) →
  listener_set_changed running l = false ↔
  (∀ name, is_Some (running !! name) ↔ name ∈ st_name <$> l) ∧
  (∀ c w, c ∈ l → running !! st_name c = Some w → st_listen c = show_socket (sp_local_addr (w_proxy w))).
Proof.
  intros Hnd. unfold listener_set_changed. destruct (Nat.eqb_spec (size running) (length l)) as [Hs|Hs]; cbn.
  - rewrite existsb_false. split.
    + intros H. assert (∀ c, c ∈ l → is_Some (running !! st_name c)) as Hin.
      { intros c Hc. specialize (H c Hc). by destruct (running !! st_name c). }
      split; [by apply running_set|]. intros c w Hc Hw. specialize (H c Hc). rewrite Hw in H.
      by apply negb_false_iff, String.eqb_eq in H.
    + intros [Hd Hl] c Hc. destruct (running !! st_name c) as [w|] eqn:Ew.
      * rewrite (Hl c w Hc Ew), String.eqb_refl. done.
      * assert (is_Some (running !! st_name c)) as [? ?]; [|congruence]. apply Hd. by apply list_elem_of_fmap_2.
  - split; [done|]. intros [Hd _]. destruct Hs. rewrite <-size_dom, <-(length_fmap st_name l), <-(size_list_to_set (C := gset string) _ Hnd).
    f_equal. apply set_eq. intros name. by rewrite elem_of_dom, elem_of_list_to_set.
Qed.

Lemma find_first_unique (l : list StreamConfig) c :
  NoDup (st_name <$> l) → c ∈ l → find_first (λ c', String.eqb (st_name c') (st_name c)) l = Some c.
Proof.
  induction l as [|c' l IH]; cbn [find_first fmap list_fmap]; [by intros _ ?%elem_of_nil|]. intros [Hn Hnd]%NoDup_cons [->|Hc]%elem_of_cons.
  - by rewrite String.eqb_refl.
  - destruct (String.eqb_spec (st_name c') (st_name c)) as [E|_]; [|by apply IH]. destruct Hn. rewrite E. by apply list_elem_of_fmap_2.
Qed.

(** The proxies after a reload of all streams. *)
Lemma with_metrics_reload routes c w m :
  w_proxy (stream_reload routes c (with_metrics w m)).1 = w_proxy (stream_reload routes c w).1.
Proof. unfold stream_reload. destruct (parse_upstreams c) as [ups|]; [|done]. cbn. by destruct (alloc_upstreams _ _ _ _) as [[]]. Qed.

Lemma reload_all_lookup (l : list StreamConfig) st name :
  NoDup (st_name <$> l) →
  (w_proxy <$> (foldl reload_one st l).1 !! name) =
  match find_first (λ c, String.eqb (st_name c) name) l with
  | Some c => (λ w, w_proxy (stream_reload (sni_routes c) c w).1) <$> st.1 !! name
  | None => w_proxy <$> st.1 !! name
  end.
Proof.
  revert st. induction l as [|c l IH]; intros st; cbn [foldl find_first fmap list_fmap]; [done|]. intros [Hc Hnd]%NoDup_cons.
  rewrite IH by done. unfold reload_one. destruct (String.eqb_spec (st_name c) name) as [<-|Hne].
  - assert (find_first (λ c', String.eqb (st_name c') (st_name c)) l = None) as ->.
    { apply find_first_None. intros c' Hc'. apply String.eqb_neq. intros E. apply Hc. rewrite <-E. by apply list_elem_of_fmap_2. }
    destruct (st.1 !! st_name c) as [w|] eqn:Ew; cbn [fst]; [|by rewrite Ew].
    rewrite lookup_insert_eq. cbn. by rewrite with_metrics_reload.
  - destruct (find_first _ l); destruct (st.1 !! st_name c); cbn [fst]; by rewrite ?lookup_insert_ne.
Qed.

Lemma reload_all_local (l : list StreamConfig) st name :
  sp_local_addr ∘ w_proxy <$> (foldl reload_one st l).1 !! name = sp_local_addr ∘ w_proxy <$> st.1 !! name.
Proof.
  revert st. induction l as [|c l IH]; intros st; cbn [foldl]; [done|]. rewrite IH. unfold reload_one.
  destruct (st.1 !! st_name c) as [w|] eqn:Ew; [|done]. cbn [fst].
  destruct (decide (name = st_name c)) as [->|Hne]; [|by rewrite lookup_insert_ne].
  rewrite lookup_insert_eq, Ew. cbn. rewrite with_metrics_reload. unfold stream_reload.
  destruct (parse_upstreams c) as [ups|]; [|done]. by destruct (alloc_upstreams _ _ _ _) as [[]].
Qed.

(** C33: one round of the configuration watcher, on every branch.  Without a change of
    the file, or when it cannot be loaded, nothing happens, and in the second case the
    next round tries again.  Otherwise the HTTP side is replaced as a whole or not at
    all; the streams keep their listeners, and when the listener set is unchanged each
    stream whose backends parse gets the new routes, while the others keep theirs. *)
Theorem watch_tick_spec current loaded s :
  let s' := watch_tick current loaded s in
  match bool_decide (current = wt_last_modified s), loaded with
  | false, Ok c =>
      wt_last_modified s' = current ∧
      match reload_plan try_from_iter set_health_check c with
      | Ok _ => Ok (ps_router (wt_http s')) = Router_build (cfg_routes c) ∧
                Ok (ps_upstreams (wt_http s')) = build_upstreams try_from_iter set_health_check (cfg_upstreams c)
      | Err _ => wt_http s' = wt_http s
      end ∧
      (∀ name, sp_local_addr ∘ w_proxy <$> wt_streams s' !! name = sp_local_addr ∘ w_proxy <$> wt_streams s !! name) ∧
      (if listener_set_changed (wt_streams s) (cfg_streams c) then wt_streams s' = wt_streams s
       else NoDup (st_name <$> cfg_streams c) → ∀ sc w, sc ∈ cfg_streams c → wt_streams s !! st_name sc = Some w →
            ∃ w', wt_streams s' !! st_name sc = Some w' ∧
              match parse_upstreams sc with
              | Ok _ => sp_router (w_proxy w') = SniRouter_new (sni_routes sc) (st_default_upstream sc)
              | Err _ => w_proxy w' = w_proxy w
              end)
  | _, _ => s' = s
  end.
Proof.
  cbn zeta. unfold watch_tick. case_bool_decide; [done|]. destruct loaded as [c|e]; [|done].
  destruct (if listener_set_changed _ _ then _ else _) as [streams m] eqn:E. cbn [wt_last_modified wt_http wt_streams].
  split_and!; [done|..].
  - unfold apply_reload. destruct (reload_plan _ _ c) as [stores|] eqn:Ep; [|done]. revert Ep. unfold reload_plan.
    destruct (Router_build (cfg_routes c)) as [router|]; [|done]. cbn. destruct (build_upstreams _ _ _) as [ups|]; [|done].
    cbn. by intros [= <-].
  - intros name. destruct (listener_set_changed _ _); [by injection E as <- <-|].
    pose proof (reload_all_local (cfg_streams c) (wt_streams s, wt_metrics s) name) as Hl. by rewrite E in Hl.
  - destruct (listener_set_changed _ _); [by injection E as <- _|]. intros Hnd sc w Hsc Hw.
    pose proof (reload_all_lookup (cfg_streams c) (wt_streams s, wt_metrics s) (st_name sc) Hnd) as Hl. rewrite E in Hl. cbn [fst] in Hl.
    rewrite (find_first_unique _ _ Hnd Hsc), Hw in Hl. cbn in Hl. apply fmap_Some in Hl as (w'&Hw'&Hp). exists w'. split; [done|].
    rewrite <-Hp. unfold stream_reload. destruct (parse_upstreams sc) as [ups|]; [|done].
    by destruct (alloc_upstreams _ _ _ _) as [[]].
Qed.

(** A reload that fails is forgotten.  When the new configuration loads but its
    HTTP side cannot be built (a backend that does not resolve at that moment, say), the
    modification time is recorded all the same: rounds that find the file as it is now
    never try again, whatever loading or building would give, and the old routes stay. *)
Theorem failed_reload_forgotten current c e s loads :
  current ≠ wt_last_modified s → reload_plan try_from_iter set_health_check c = Err e →
  wt_http (foldl (λ s loaded, watch_tick current loaded s) (watch_tick current (Ok c) s) loads) = wt_http s.
Proof.
  intros Hne Hr. set (s1 := watch_tick current (Ok c) s).
  assert (wt_http s1 = wt_http s ∧ wt_last_modified s1 = current) as [<- Hl].
  { unfold s1, watch_tick. rewrite bool_decide_eq_false_2 by done. unfold apply_reload. rewrite Hr.
    by destruct (if listener_set_changed _ _ then _ else _). }
  clearbody s1. induction loads as [|loaded loads IH]; cbn [foldl]; [done|]. unfold watch_tick at 2.
  by rewrite bool_decide_eq_true_2 by done.
Qed.

(** A listen address that is not in canonical form blocks stream reloads.  When a
    stream is configured with an address that parses but is not the text its listener
    prints, no later configuration that keeps that stream as it is changes any stream,
    although its listeners are the running ones. *)
Theorem noncanonical_listen_blocks_reload config args w sv w' sc addr current c s :
  run_server config args w = (Done sv, w') → wt_streams s = sv_streams sv → NoDup (st_name <$> cfg_streams config) →
  sc ∈ cfg_streams config → parse_socket_addr (st_listen sc) = Some addr → st_listen sc ≠ show_socket addr →
  sc ∈ cfg_streams c → wt_streams (watch_tick current (Ok c) s) = wt_streams s.
Proof.
  intros Hrun Hs Hnd Hsc Ha Hcan Hc. apply run_server_streams in Hrun as (w0&w1&Hst). apply start_streams_spec in Hst as (_&Hd&Hp).
  assert (is_Some (wt_streams s !! st_name sc)) as [p Hl].
  { rewrite Hs. apply Hd. right. by apply list_elem_of_fmap_2. }
  assert (sp_local_addr (w_proxy p) = addr) as Hla.
  { rewrite Hs in Hl. destruct (Hp _ _ Hl) as [|(c'&Hc'&Hn&_&Hla&_)]; [done|].
    assert (c' = sc) as -> by (pose proof (find_first_unique _ c' Hnd Hc') as E1; rewrite Hn, (find_first_unique _ sc Hnd Hsc) in E1; congruence).
    congruence. }
  assert (listener_set_changed (wt_streams s) (cfg_streams c) = true) as Hch.
  { unfold listener_set_changed. destruct (negb _); [done|]. apply existsb_true. exists sc. split; [done|]. rewrite Hl, Hla.
    apply negb_true_iff, String.eqb_neq. by apply not_eq_sym. }
  unfold watch_tick. destruct (bool_decide _); [done|]. by rewrite Hch.
Qed.
End main.
(** ** TLS connections *)

Inductive HandshakeOutcome :=
| HandshakeDone (sni version cipher : option string)
| HandshakeFailed
| HandshakeTimedOut.

Definition TLS_HANDSHAKE_DURATION (listener : string) : list string := ["wicket_tls_handshake_duration_seconds"; listener].
Definition TLS_HANDSHAKES_TOTAL (listener version cipher : string) : list string := ["wicket_tls_handshakes_total"; listener; version; cipher].
Definition TLS_HANDSHAKE_ERRORS_TOTAL (listener error_type : string) : list string :=
  ["wicket_tls_handshake_errors_total"; listener; error_type].

Definition record_tls_handshake_success (listener : string) (version cipher : option string) : Metrics → Metrics :=
  metric_inc (TLS_HANDSHAKES_TOTAL listener (unwrap_or "unknown" version) (unwrap_or "unknown" cipher)).

(** What the accept task makes of a handshake: the metrics, and the server name carried
    by the stream if it is served. *)
Definition accept_tls (listener : string) (o : HandshakeOutcome) (m : Metrics) : option (option string) * Metrics :=
  match o with
  | HandshakeDone sni version cipher =>
      (Some sni, record_tls_handshake_success listener version cipher (metric_inc (TLS_HANDSHAKE_DURATION listener) m))
  | HandshakeFailed => (None, metric_inc (TLS_HANDSHAKE_ERRORS_TOTAL listener "failure") m)
  | HandshakeTimedOut => (None, metric_inc (TLS_HANDSHAKE_ERRORS_TOTAL listener "timeout") m)
  end.

(** [AtomicI32::fetch_add(1)]: the id and the counter afterwards. *)
Definition next_stream_id (counter : Z) : Z * Z := (counter, ((counter + 1 + 2147483648) mod 4294967296 - 2147483648)%Z).

Inductive ALPN := ALPN_H1 | ALPN_H2.
Definition selected_alpn_proto (protocol : option string) : option ALPN :=
  match protocol with
  | Some p => if String.eqb p "h2" then Some ALPN_H2 else if String.eqb p "http/1.1" then Some ALPN_H1 else None
  | None => None
  end.

(** ** Runs *)

Module Demo.
Definition stream (listen : string) : StreamConfig :=
  mkStreamConfig "tls" listen 8000 true PPC_None [] (Some "web") ∅ [mkStreamUpstreamConfig "web" ["10.0.0.1:443"]] 30 5000 2 30.
Definition upstreams : gmap string UpstreamConfig := {["web" := mkUpstreamConfig ["10.0.0.1:80"] RoundRobin None]}.
(** A certificate file for b.com, an ACME group for a.com. *)
Definition file_config : FileConfig := mkFileConfig true 30 [mkFileCertConfig "b" "/tls/b.crt" "/tls/b.key" ["b.com"]].
Definition acme_config : AcmeConfig := ap_config (Acme.Demo.provider ["a.com"]).
Definition tls : TlsConfig := mkTlsConfig TlsMode_Mixed (Some acme_config) (Some file_config).
Definition config (t : option TlsConfig) (streams : list StreamConfig) : Config :=
  mkConfig (cfg_server Config_default) upstreams [] t streams LoggingConfig_default.
Definition args : Args := mkArgs "wicket.toml" false None false false false "0.0.0.0:9090" false "/run/wicket" "wicket.pid" "/run/wicket/upgrade.sock".
Definition env : AcmeEnv _ := Acme.Demo.env Acme.Demo.no_fault [Acme.Demo.authz "a.com" "v"] (Ok OReady).
Definition files : Files := {[ "/tls/b.crt" := mkFile "C" 420; "/tls/b.key" := mkFile "K" 384 ]}.
Definition lb (s : LoadBalanceStrategy) (backends : list string) : option (list string) := Some backends.
Definition no_lb (s : LoadBalanceStrategy) (backends : list string) : option (list string) := None.
Definition start (c : Config) :=
  run_server env lb (λ _ x, x) FileWatcher.Demo.no_faults (λ _, None) None (λ _ _, None) Sockets.Demo.kernel (λ sc, map_to_list (st_sni_routes sc))
    8 None (λ _ _, None) c args (Acme.Demo.world files).
Definition is_done {E A} (r : exec E A) : bool := match r with Done _ => true | _ => false end.
Definition watch (http : ProxyState) (streams : gmap string StreamWorld) : Watch (LB := list string) := mkWatch http streams ∅ (Some 1%N).
End Demo.

Lemma mixed_mode_serves_acme_only_witness :
  let init := init_tls Demo.env FileWatcher.Demo.no_faults (λ _, None) (Demo.config (Some Demo.tls) []) Demo.tls (Acme.Demo.world Demo.files) in
  (∃ tasks, init.1 = Done tasks ∧ tt_watching tasks = true) ∧
  ∀ sni, is_Some (resolve (cm_store (w_manager init.2)) sni) ↔
    ∃ cfg, cfg ∈ all_certs_with_providers Demo.acme_config [] ∧ group_covers cfg sni.
Proof.
  cbn zeta. destruct (init_tls _ _ _ _ _ _) as [r w'] eqn:H. cbn [fst snd].
  assert (match r with Done tasks => tt_watching tasks | _ => false end = true) as Hw
    by (apply (f_equal fst) in H; cbn [fst] in H; rewrite <-H; vm_compute; reflexivity).
  destruct r as [|e|tasks]; [discriminate Hw|discriminate Hw|].
  split; [exists tasks; split; [reflexivity|exact Hw]|].
  refine (mixed_mode_serves_acme_only Demo.env FileWatcher.Demo.no_faults (λ _, None) (Demo.config (Some Demo.tls) []) Demo.tls
    Demo.acme_config (Acme.Demo.world Demo.files) tasks w' eq_refl eq_refl _ H). discriminate.
Defined.

Lemma ready_server_witness :
  let '(r, w') := Demo.start (Demo.config (Some Demo.tls) [Demo.stream "127.0.0.1:8443"]) in
  ∃ sv, r = Done sv ∧ CertStore_is_empty (cm_store (w_manager w')) = false ∧ is_Some (sv_streams sv !! "tls").
Proof.
  destruct (Demo.start _) as [r w'] eqn:H.
  assert (Demo.is_done r = true) as Hr by (apply (f_equal fst) in H; cbn [fst] in H; rewrite <-H; vm_compute; reflexivity).
  destruct r as [|e|sv]; [discriminate Hr|discriminate Hr|].
  exists sv. destruct (ready_server _ _ _ _ _ _ _ _ _ _ _ _ _ _ _ _ _ H) as (_&Ht&_&Hs&_).
  split; [reflexivity|]. split; [apply Ht; discriminate|]. apply Hs. left.
Defined.

Lemma listener_set_unchanged_iff_witness :
  listener_set_changed {["tls" := ex_world]} [ex_stream] = false.
Proof.
  apply (listener_set_unchanged_iff {["tls" := ex_world]} [ex_stream]); [apply NoDup_singleton|]. split.
  - intros name. change (st_name <$> [ex_stream]) with ["tls"]. rewrite lookup_singleton_is_Some, list_elem_of_singleton. naive_solver.
  - intros c w ->%list_elem_of_singleton Hw. change (st_name ex_stream) with "tls" in Hw. rewrite lookup_singleton_eq in Hw.
    injection Hw as <-. vm_compute. reflexivity.
Defined.

(** Building the upstreams fails once. *)
Lemma failed_reload_forgotten_witness :
  let s := Demo.watch (mkProxyState (mkRouter []) ∅) ∅ in
  let c := Demo.config None [] in
  let routes := λ sc, map_to_list (st_sni_routes sc) in
  reload_plan Demo.no_lb (λ _ x, x) c = Err (ReloadUpstream "web") ∧
  ∀ loads, wt_http (foldl (λ s loaded, watch_tick Demo.no_lb (λ _ x, x) routes (Some 2%N) loaded s)
                      (watch_tick Demo.no_lb (λ _ x, x) routes (Some 2%N) (Ok c) s) loads) = wt_http s.
Proof.
  cbn zeta. assert (reload_plan Demo.no_lb (λ _ x, x) (Demo.config None []) = Err (ReloadUpstream "web")) as H by (vm_compute; reflexivity).
  split; [exact H|]. intros loads. by apply (failed_reload_forgotten _ _ _ _ _ (ReloadUpstream "web")).
Defined.

(** The port is written with a leading zero. *)
Lemma noncanonical_listen_blocks_reload_witness :
  let sc := Demo.stream "127.0.0.1:08443" in
  ∃ sv w', Demo.start (Demo.config None [sc]) = (Done sv, w') ∧
    ∀ current c s, wt_streams s = sv_streams sv → sc ∈ cfg_streams c →
      wt_streams (watch_tick Demo.lb (λ _ x, x) (λ sc, map_to_list (st_sni_routes sc)) current (Ok c) s) = wt_streams s.
Proof.
  cbn zeta. destruct (Demo.start (Demo.config None [Demo.stream "127.0.0.1:08443"])) as [r w'] eqn:H.
  assert (Demo.is_done r = true) as Hr by (apply (f_equal fst) in H; cbn [fst] in H; rewrite <-H; vm_compute; reflexivity).
  destruct r as [|e|sv]; [discriminate Hr|discriminate Hr|].
  exists sv, w'. split; [reflexivity|]. intros current c s Hs Hc.
  eapply (noncanonical_listen_blocks_reload _ _ _ _ _ _ _ _ _ _ _ _ _ _ _ _ _ (Demo.stream "127.0.0.1:08443") (socket_v4 127 0 0 1 8443));
    [exact H|exact Hs|apply NoDup_singleton|left|vm_compute; reflexivity|vm_compute; discriminate|exact Hc].
Defined.
