(* ===== verification/ProxyLabels.v ===== *)
(** * The labels of the proxy's metrics

    Every update of a metric by the proxy (crates/wicket-core/src/service.rs,
    crates/wicket-stream/src/{proxy,upstream}.rs, crates/wicket-tls/src, the accept loop of
    crates/wicket/src/main.rs) goes to a collector of crates/wicket-*/src/metrics.rs with one
    value per label.  Each component that updates metrics is a step of the shared registry;
    the invariant is proved of every step. *)

From S2P Require Import Prelude Metrics MetricsRegistry Config TlsConfig Files SniRouter.
From S2P Require Import HttpProxy StreamProxy SockMap ProxyMain CertStore FileWatcher Acme Cloudflare AcmeStorage.

(** The collectors that no code updates. *)
Definition unused_proxy_metrics : list string := [
  "wicket_upstream_health"; "wicket_upstream_healthy_backends"; "wicket_health_check_total"; "wicket_route_match_duration_seconds";
  "wicket_config_reloads_total"; "wicket_proxy_config_generation"; "wicket_config_last_reload_timestamp_seconds";
  "wicket_proxy_uptime_seconds"; "wicket_worker_threads"
].
Notation proxy_labelled := (well_labelled (declared (without unused_proxy_metrics proxy_metrics))).

(** ** HTTP *)

Section http.
Import HttpProxy.
Context {LB Peer : Type} (select : LB → string → N → option Peer).

Lemma new_ctx_labelled now random m : proxy_labelled m → proxy_labelled (new_ctx now random m).2.
Proof. intros H. cbn. solve_labels. Qed.

Lemma request_step_labelled c1 m1 n1 c2 m2 n2 : request_step select (c1, m1, n1) (c2, m2, n2) → proxy_labelled m1 → proxy_labelled m2.
Proof.
  intros Hstep Hm. inversion Hstep as [? ? ? ? ? ? ? ? ? _ _ _ Hf|? ? ? ? ? ? ? ? ? _ Hf|? ? ? ? ? ? ? ? ? ? ? ? ? Hf]; subst.
  - unfold request_filter in Hf. repeat case_match; simplify_eq; solve_labels.
  - unfold upstream_peer in Hf. repeat case_match; simplify_eq; solve_labels.
  - unfold logging in Hf. destruct (ctx_metrics_recorded c1); [by simplify_eq|].
    destruct (match ctx_route_match c1 with Some _ => _ | None => _ end). simplify_eq. solve_labels.
Qed.

End http.

(** ** Streams *)

Section stream.
Import StreamProxy.

Lemma guard_drop_labelled u w : proxy_labelled (w_metrics w) → proxy_labelled (w_metrics (guard_drop u w)).
Proof. intros H. unfold guard_drop. solve_labels. Qed.

Lemma fail_labelled series e w : proxy_labelled (w_metrics w) → proxy_labelled (w_metrics (fail_connection series e w).1).
Proof. intros H. apply guard_drop_labelled. solve_labels. Qed.

Lemma copy_labelled copied m : proxy_labelled m → proxy_labelled (copy_userspace copied m).
Proof. intros H. unfold copy_userspace. solve_labels. Qed.

Lemma accept_metrics_labelled s m : proxy_labelled m → proxy_labelled (accept_metrics s m).
Proof. intros H. unfold accept_metrics. destruct (rs_permits s) as [[|n]|]; solve_labels. Qed.

Lemma report_labelled now healthy id e w : proxy_labelled (w_metrics w) → proxy_labelled (w_metrics (report now healthy id e w)).
Proof. intros H. unfold report, health_metrics. solve_labels. Qed.

Lemma take_source_ip_same b w ip w' : take_source_ip b w = Some (ip, w') → w_metrics w' = w_metrics w.
Proof. unfold take_source_ip. intros H. repeat case_match; try by simplify_eq. apply bind_Some in H as ([? ?]&_&?). by simplify_eq. Qed.

Lemma world_step_labelled w w' : world_step w w' → proxy_labelled (w_metrics w) → proxy_labelled (w_metrics w').
Proof.
  intros Hstep Hm.
  destruct Hstep as [now peek w w' r H|now client p o w w' r H|p t w w' r H|routes config w w' r _ _ H].
  - unfold hc_route in H. assert (proxy_labelled (w_metrics (guard_new w))) as Hg by (cbn; solve_labels).
    destruct peek as [peeked|e]; [|simplify_eq; by apply guard_drop_labelled].
    set (w1 := with_metrics _ _) in H. assert (proxy_labelled (w_metrics w1)) as Hw1 by (cbn; solve_labels). clearbody w1.
    destruct (match_sni _ _) as [name|]; [|unfold fail_connection in H; simplify_eq; apply guard_drop_labelled; solve_labels].
    destruct (sp_upstreams _ !! name); [|unfold fail_connection in H; simplify_eq; apply guard_drop_labelled; solve_labels].
    apply bind_Some in H as (u&_&H). apply bind_Some in H as ([b u']&_&H). apply bind_Some in H as ([ip w2]&Ht&H). simplify_eq.
    rewrite (take_source_ip_same _ _ _ _ Ht). exact Hw1.
  - unfold hc_connected in H. destruct o; simplify_eq;
      [|apply fail_labelled; by apply report_labelled..]. cbn.
    pose proof (report_labelled now true (pd_upstream p) (pd_backend p) w Hm). solve_labels.
  - unfold hc_finish in H. destruct t; simplify_eq; apply guard_drop_labelled; [done|..]; cbn;
      repeat apply well_labelled_add; try reflexivity; done.
  - unfold stream_reload in H. destruct (parse_upstreams config); [|by simplify_eq].
    destruct (alloc_upstreams _ _ _ _) as [[? ?] ?]. simplify_eq. cbn. solve_labels.
Qed.

End stream.

(** ** Certificates *)

Section certificates.
Context {Srv : Type} (env : AcmeEnv Srv).
Notation labelled := (λ w : Acme.World (Srv := Srv), proxy_labelled (Acme.w_metrics w)).

Lemma preserves_labelled {A} (m : io _ AcmeError A) : preserves Acme.w_metrics m → upholds labelled m.
Proof. intros H w Hw. by rewrite (H w). Qed.

Lemma on_disk_metrics {A} (m : io Disk StorageError A) : preserves (Acme.w_metrics (Srv := Srv)) (on_disk m).
Proof. intros w. unfold on_disk. by destruct (m (w_disk w)). Qed.
Lemma on_srv_metrics {A} (m : io Srv CloudflareError A) : preserves Acme.w_metrics (on_srv m).
Proof. intros w. unfold on_srv. by destruct (m (w_srv w)). Qed.

Lemma on_disk_labelled {A} (m : io Disk StorageError A) : upholds labelled (on_disk m).
Proof. apply preserves_labelled, on_disk_metrics. Qed.
Lemma lift_labelled {A} (r : result AcmeError A) : upholds labelled (lift r).
Proof. by apply preserves_labelled. Qed.
Lemma on_metrics_labelled f : (∀ m, proxy_labelled m → proxy_labelled (f m)) → upholds labelled (on_metrics f).
Proof. intros Hf w Hw. by apply Hf. Qed.
Lemma reload_labelled store : upholds labelled (Acme.reload store).
Proof. by apply preserves_labelled. Qed.
Lemma obtain_labelled p cfg : upholds labelled (obtain_cert env p cfg).
Proof. apply preserves_labelled, obtain_cert_preserves; [apply @on_disk_metrics|apply @on_srv_metrics|done]. Qed.
Lemma insert_stored_labelled cfg stored store : upholds labelled (insert_stored env cfg stored store).
Proof. apply preserves_labelled, insert_stored_preserves. apply @on_disk_metrics. Qed.
Lemma load_cert_ok_labelled p d : upholds labelled (load_cert_ok env p d).
Proof. apply preserves_labelled, load_cert_ok_preserves. apply @on_disk_metrics. Qed.
Lemma emit_labelled stored : upholds labelled (emit_acme_cert_metrics stored).
Proof. apply on_metrics_labelled. intros m Hm. unfold set_cert_expiry. solve_labels. Qed.
Lemma acme_now_labelled : upholds labelled (acme_now env).
Proof. apply on_disk_labelled. Qed.
#[local] Hint Resolve on_disk_labelled lift_labelled reload_labelled obtain_labelled insert_stored_labelled load_cert_ok_labelled
  emit_labelled acme_now_labelled : upholds.
#[local] Hint Extern 2 (upholds _ (on_metrics _)) => (apply on_metrics_labelled; intros; solve_labels) : upholds.

Lemma obtained_labelled d stored : upholds labelled (obtained_metrics env d stored).
Proof. unfold obtained_metrics. solve_upholds. Qed.
#[local] Hint Resolve obtained_labelled : upholds.

Lemma initialize_obtain_labelled p cfg d store : upholds labelled (initialize_obtain env p cfg d store).
Proof.
  intros w Hw. unfold initialize_obtain. pose proof (obtain_labelled p cfg w Hw) as H.
  destruct (obtain_cert env p cfg w) as [[|e|stored] w1]; cbn [snd] in H; [done|..];
    (apply (upholds_bind labelled); [solve_upholds..|done]).
Qed.
Lemma renew_due_labelled p cfg d st : upholds labelled (renew_due env p cfg d st).
Proof.
  intros w Hw. unfold renew_due. destruct st as [store any]. pose proof (obtain_labelled p cfg w Hw) as H.
  destruct (obtain_cert env p cfg w) as [[|e|stored] w1]; cbn [snd] in H; [done|..];
    (apply (upholds_bind labelled); [solve_upholds..|done]).
Qed.
#[local] Hint Resolve initialize_obtain_labelled renew_due_labelled : upholds.

Lemma initialize_loop_labelled p certs store : upholds labelled (initialize_loop env p certs store).
Proof. revert store. induction certs as [|c certs IH]; intros store; cbn [initialize_loop]; unfold initialize_cert; solve_upholds. Qed.
Lemma renew_loop_labelled p certs st : upholds labelled (renew_loop env p certs st).
Proof. revert st. induction certs as [|c certs IH]; intros st; cbn [renew_loop]; unfold renew_cert; solve_upholds. Qed.
#[local] Hint Resolve initialize_loop_labelled renew_loop_labelled : upholds.

Lemma acme_labelled p w : labelled w → labelled (initialize env p w).2 ∧ labelled (check_and_renew env p w).2.
Proof.
  intros Hw. split; revert w Hw; [change (upholds labelled (initialize env p))|change (upholds labelled (check_and_renew env p))].
  - unfold initialize. solve_upholds.
  - unfold check_and_renew. solve_upholds.
Qed.

End certificates.

Section watcher.
Context (pem_certs : string → list (result string string)) (pem_private_key : string → result string (option string)).
Context (any_supported_type : string → bool) (x509_der_not_after : string → option Z).
Notation build_step := (build_step pem_certs pem_private_key any_supported_type x509_der_not_after).
Notation build_store := (build_store pem_certs pem_private_key any_supported_type x509_der_not_after).

Lemma build_store_labelled config ff fs m : proxy_labelled m → proxy_labelled (build_store config ff fs m).2.
Proof.
  intros Hm. unfold FileWatcher.build_store. assert (∀ st certs, proxy_labelled st.2 → proxy_labelled (foldl (build_step ff fs) st certs).2) as H.
  { intros st certs. revert st. induction certs as [|c certs IH]; intros st Hst; [done|]. apply IH. unfold FileWatcher.build_step, emit_expiry, set_cert_expiry. solve_labels. }
  specialize (H (CertStore_new, m) (file_certs config) Hm). by destruct (foldl _ _ _).
Qed.

Lemma load_all_labelled config ff fs manager m :
  proxy_labelled m → proxy_labelled (load_all pem_certs pem_private_key any_supported_type x509_der_not_after config ff fs manager m).2.
Proof. intros Hm. pose proof (build_store_labelled config ff fs m Hm) as H. unfold load_all. by destruct (build_store _ _ _ _) as [[] ?]. Qed.

Lemma watch_step_labelled config i s :
  proxy_labelled (ws_metrics s) →
  proxy_labelled (ws_metrics (watch_step pem_certs pem_private_key any_supported_type x509_der_not_after config i s)).
Proof.
  intros Hs. destruct i as [now [paths|e]|ff fs]; cbn [watch_step]; [by destruct (is_relevant_event _ _)|done|].
  pose proof (build_store_labelled config ff fs (ws_metrics s) Hs) as H. unfold reload_certs. cbn [ws_metrics].
  destruct (build_store _ _ _ _) as [[] ?]; cbn [ws_metrics]; unfold inc_cert_reload; solve_labels.
Qed.

End watcher.

Lemma resolve_labelled {Cert} (m : CertManager Cert) name ms : proxy_labelled ms → proxy_labelled (manager_resolve m name ms).2.
Proof. intros H. unfold manager_resolve. destruct name; [destruct (resolve_with_outcome _ _)|]; solve_labels. Qed.

Lemma accept_tls_labelled listener o m : proxy_labelled m → proxy_labelled (accept_tls listener o m).2.
Proof. intros H. destruct o; cbn; unfold record_tls_handshake_success; solve_labels. Qed.

Lemma forward_labelled `{SockHashOps} poisoned before after fd backend copied st :
  proxy_labelled st.2 → proxy_labelled (forward poisoned before after fd backend copied st).1.2.
Proof.
  destruct st as [[sm|] mt]; cbn [snd]; intros Hm; unfold forward; [|apply copy_labelled; solve_labels].
  destruct backend as [bfd|]; [|apply copy_labelled; solve_labels].
  destruct (if poisoned then _ else _) as [sm' [u|e]]; [cbn|apply copy_labelled]; solve_labels.
Qed.

(** ** The invariant *)

Section registry.
Context {LB Peer Srv Cert : Type} (select : LB → string → N → option Peer) (env : AcmeEnv Srv) `{SockHashOps}.
Context (pem_certs : string → list (result string string)) (pem_private_key : string → result string (option string)).
Context (any_supported_type : string → bool) (x509_der_not_after : string → option Z).

(** What happens to the registry that the parts of the proxy share: a request starts or
    goes on, a TLS handshake, the resolution of a certificate, a round of the accept loop
    of a stream proxy and a step of its connections,
    the forwarding of a connection, the loading and watching of certificate files, the
    start and the rounds of the ACME provider. *)
Inductive registry_step : Metrics → Metrics → Prop :=
| reg_new_ctx now random m : registry_step m (new_ctx now random m).2
| reg_request ctx m n ctx' m' n' : request_step select (ctx, m, n) (ctx', m', n') → registry_step m m'
| reg_accept listener o m : registry_step m (accept_tls listener o m).2
| reg_resolve (manager : CertManager Cert) name m : registry_step m (manager_resolve manager name m).2
| reg_stream_accept s m : registry_step m (accept_metrics s m)
| reg_stream w w' : world_step w w' → registry_step (StreamProxy.w_metrics w) (StreamProxy.w_metrics w')
| reg_forward poisoned before after fd backend copied sm m :
    registry_step m (forward poisoned before after fd backend copied (sm, m)).1.2
| reg_load_files config ff fs manager m :
    registry_step m (load_all pem_certs pem_private_key any_supported_type x509_der_not_after config ff fs manager m).2
| reg_watch_files config i s :
    registry_step (ws_metrics s) (ws_metrics (watch_step pem_certs pem_private_key any_supported_type x509_der_not_after config i s))
| reg_acme_start p w : registry_step (Acme.w_metrics w) (Acme.w_metrics (initialize env p w).2)
| reg_acme_round p w : registry_step (Acme.w_metrics w) (Acme.w_metrics (check_and_renew env p w).2).

Lemma registry_step_labelled m m' : registry_step m m' → proxy_labelled m → proxy_labelled m'.
Proof.
  destruct 1; intros Hm.
  - by apply new_ctx_labelled.
  - by eapply request_step_labelled.
  - by apply accept_tls_labelled.
  - by apply resolve_labelled.
  - by apply accept_metrics_labelled.
  - by eapply world_step_labelled.
  - by apply forward_labelled.
  - by apply load_all_labelled.
  - by apply watch_step_labelled.
  - by apply acme_labelled.
  - by apply acme_labelled.
Qed.

Lemma registry_run_labelled m m' : rtc registry_step m m' → proxy_labelled m → proxy_labelled m'.
Proof. induction 1 as [|m1 m2 m3 Hstep _ IH]; [done|]. intros H1. by eapply IH, registry_step_labelled. Qed.

(** C28: labels of the proxy's metrics.  However the requests, the connections, the
    certificate watcher and the ACME provider interleave, every series the proxy has ever
    updated belongs to a collector that is declared in one of the three crates and carries
    one value per label of it: [with_label_values], which panics on any other number of
    values, is never called with one.  Nine of the declared collectors are never updated,
    among them those of configuration reloads and of healthy backends. *)
Theorem proxy_series_declared m :
  rtc registry_step ∅ m →
  well_labelled (declared proxy_metrics) m ∧ ∀ name values, name ∈ unused_proxy_metrics → m !! (name :: values) = None.
Proof.
  intros Hrun. pose proof (registry_run_labelled _ _ Hrun (well_labelled_empty _)) as Hm. split.
  - revert Hm. apply well_labelled_mono. intros k Hk. by apply declared_without in Hk as [Hk _].
  - intros name values Hn. revert Hm. apply well_labelled_absent, not_true_iff_false. intros Hk.
    apply declared_without in Hk as [_ Hk]. exact (Hk name eq_refl Hn).
Qed.

End registry.

(** A handshake that fails, one that succeeds, and a request. *)
Lemma proxy_series_declared_witness :
  let m1 := (accept_tls "https" HandshakeTimedOut ∅).2 in
  let m2 := (accept_tls "https" (HandshakeDone (Some "a.com") (Some "TLSv1_3") None) m1).2 in
  let m3 := (new_ctx 0 0 m2).2 in
  well_labelled (declared proxy_metrics) m3 ∧ metric m3 ["wicket_tls_handshakes_total"; "https"; "TLSv1_3"; "unknown"] = 1%Z.
Proof.
  split; [|vm_compute; reflexivity].
  apply (@proxy_series_declared nat nat _ nat (λ _ _ _, None) (Acme.Demo.env Acme.Demo.no_fault [] (Ok OReady)) SockMap.Demo.lenient
    (λ _, []) (λ _, Err "") (λ _, true) (λ _, None)).
  eapply rtc_l; [|eapply rtc_l; [|eapply rtc_l; [|apply rtc_refl]]]; [apply reg_accept|apply reg_accept|apply reg_new_ctx].
Defined.
