(* ===== verification/HttpsService.v ===== *)
(** * HTTPS connections (DynamicTlsService and DynamicTlsStream of crates/wicket/src/main.rs,
    request_tls_sni of crates/wicket-core/src/proxy.rs)

    The accept loop of the HTTPS listener, the handshakes it starts with the certificate
    manager as resolver, and the requests of the resulting streams as the HTTP proxy sees
    them.  rustls is an interface; whether pingora builds a 200 response header is a
    parameter, since the server name reaches the proxy only inside such a response. *)

From S2P Require Import Prelude Metrics CertStore HttpRouting HttpProxy ProxyMain.

(** What the code relies on of rustls: a handshake asks the resolver for the name of the
    client's hello, completes only with a certificate, and reports that name. *)
Class Rustls (Cert : Type) := {
  ClientHello : Type;
  server_name : ClientHello → option string;
  alpn_protocol : ClientHello → option string;
  handshake : ClientHello → option Cert → HandshakeOutcome;
  handshake_needs_cert h sni version cipher : handshake h None ≠ HandshakeDone sni version cipher;
  handshake_reports_name h cert sni version cipher : handshake h cert = HandshakeDone sni version cipher → sni = server_name h
}.

Record DynamicTlsStream := mkDynamicTlsStream {
  ds_id : Z;
  ds_alpn_protocol : option string;
  (** The [TlsSni] in the user data of the proxy digest. *)
  ds_proxy_digest : option string
}.

(** A service: whether its loop still accepts, the counter of stream ids, the metrics and
    the streams handed to the proxy, latest first. *)
Record HttpsService := mkHttpsService {
  hs_accepting : bool;
  hs_next_id : Z;
  hs_metrics : Metrics;
  hs_streams : list DynamicTlsStream
}.

Section https.
Context {Cert : Type} `{Rustls Cert}.
(** [ResponseHeader::build(200, None).is_ok()]. *)
Context (response_builds : bool).
Context (listener : string).

Definition DynamicTlsStream_new (id : Z) (alpn tls_sni : option string) : DynamicTlsStream :=
  mkDynamicTlsStream id alpn (tls_sni ≫= λ sni, if response_builds then Some sni else None).

(** What a client does after connecting: it sends a hello, or the handshake fails or times
    out before one arrives. *)
Inductive Client := SendsHello (h : ClientHello) | SendsGarbage | StaysSilent.

Definition handshake_outcome (manager : CertManager Cert) (c : Client) (m : Metrics) : HandshakeOutcome * Metrics :=
  match c with
  | SendsHello h => let '(cert, m) := manager_resolve manager (server_name h) m in (handshake h cert, m)
  | SendsGarbage => (HandshakeFailed, m)
  | StaysSilent => (HandshakeTimedOut, m)
  end.

Definition client_alpn (c : Client) : option string :=
  match c with SendsHello h => alpn_protocol h | _ => None end.

(** The task of a connection, up to the stream it hands to the proxy. *)
Definition serve_connection (manager : CertManager Cert) (c : Client) (s : HttpsService) : HttpsService :=
  let '(id, next_id) := next_stream_id (hs_next_id s) in
  let '(o, m) := handshake_outcome manager c (hs_metrics s) in
  match accept_tls listener o m with
  | (Some tls_sni, m) =>
      mkHttpsService (hs_accepting s) next_id m (DynamicTlsStream_new id (client_alpn c) tls_sni :: hs_streams s)
  | (None, m) => mkHttpsService (hs_accepting s) next_id m (hs_streams s)
  end.

(** What wakes the loop: the shutdown watch (whether its sender is gone, its value) or the
    listener. *)
Inductive ListenerEvent :=
| ShutdownChanged (sender_gone value : bool)
| AcceptFailed (e : string)
| Accepted (manager : CertManager Cert) (c : Client).

Definition https_step (s : HttpsService) (ev : ListenerEvent) : HttpsService :=
  if negb (hs_accepting s) then s
  else
    match ev with
    | ShutdownChanged sender_gone value =>
        if sender_gone || value then mkHttpsService false (hs_next_id s) (hs_metrics s) (hs_streams s) else s
    | AcceptFailed _ => s
    | Accepted manager c => serve_connection manager c s
    end.

(** [start_service]; [bind] is the error of the bind, which only ends the service. *)
Definition start_service (bind : option string) (next_id : Z) (m : Metrics) (events : list ListenerEvent) : HttpsService :=
  foldl https_step (mkHttpsService (is_none bind) next_id m []) events.

(** The proxy's view of a stream. *)
Definition request_tls_sni (stream : DynamicTlsStream) : option string := ds_proxy_digest stream.
Definition stream_request {LB} (s : ProxyState (LB := LB)) (req : RequestHeader) (stream : DynamicTlsStream) (ctx : WicketCtx) (m : Metrics)
    : WicketCtx * Metrics * result ProxyError bool :=
  request_filter s req (request_tls_sni stream) ctx m.

(** ** The streams handed over *)

(** A stream of a client that was given a certificate for the name it asked for. *)
Definition certified (events : list ListenerEvent) (d : DynamicTlsStream) : Prop :=
  ∃ manager h sni cert, Accepted manager (SendsHello h) ∈ events ∧ server_name h = Some sni ∧
    resolve (cm_store manager) sni = Some cert ∧ ds_alpn_protocol d = alpn_protocol h ∧
    ds_proxy_digest d = if response_builds then Some sni else None.

Lemma serve_connection_streams manager c s d :
  d ∈ hs_streams (serve_connection manager c s) → d ∈ hs_streams s ∨ certified [Accepted manager c] d.
Proof.
  unfold serve_connection. cbn. destruct c as [h| |]; cbn; [|by left..].
  destruct (server_name h) as [sni|] eqn:En; cbn.
  - destruct (resolve_with_outcome (cm_store manager) sni) as [cert outcome] eqn:Er.
    destruct (handshake h cert) as [name v ci| |] eqn:Eh; [|by left..].
    destruct cert as [cert|]; [|by apply handshake_needs_cert in Eh]. apply handshake_reports_name in Eh as ->. cbn.
    intros [->|?]%elem_of_cons; [|by left]. right. exists manager, h, sni, cert.
    unfold resolve. rewrite Er, En. split_and!; [left|done..].
  - destruct (handshake h None) eqn:Eh; [by apply handshake_needs_cert in Eh|by left..].
Qed.

Lemma certified_mono events events' d : events ⊆ events' → certified events d → certified events' d.
Proof. intros Hsub (manager&h&sni&cert&Hin&Hrest). exists manager, h, sni, cert. split; [by apply Hsub|done]. Qed.

Lemma https_run_streams events s d :
  d ∈ hs_streams (foldl https_step s events) → d ∈ hs_streams s ∨ certified events d.
Proof.
  revert s. induction events as [|ev events IH]; intros s; cbn [foldl]; [by left|]. intros [Hd|Hc]%IH.
  - unfold https_step in Hd. destruct (negb _); [by left|]. destruct ev as [gone value|e|manager c].
    + destruct (gone || value); by left.
    + by left.
    + apply serve_connection_streams in Hd as [Hd|Hc]; [by left|]. right. revert Hc. apply certified_mono. set_solver.
  - right. revert Hc. apply certified_mono. set_solver.
Qed.

(** C18: no request crosses certificates.  Provided the proxy can build its 200 header, every
    request that the HTTP proxy accepts on a stream of the HTTPS listener and that names a
    host names, up to case, port and a final dot, the server name of that stream's
    handshake, for which the certificate manager resolved a certificate at the time; any
    other is answered 421.  This holds through reloads of the certificates and of the
    routes and whatever the clients send. *)
Theorem https_request_matches_certificate {LB} bind next_id m0 events d (s : ProxyState (LB := LB)) req host ctx m :
  response_builds = true → d ∈ hs_streams (start_service bind next_id m0 events) → request_host req = Some host →
  ∃ manager h sni cert, Accepted manager (SendsHello h) ∈ events ∧ server_name h = Some sni ∧
    resolve (cm_store manager) sni = Some cert ∧
    let '(ctx', m', r) := stream_request s req d ctx m in
    if bool_decide (normalize_hostname host = normalize_hostname sni) then
      r = Ok false ∧ ctx_route_match ctx' =
        match_request (ps_router s) (Some host) (rq_path req) (rq_method req) (router_headers (rq_headers req))
    else r = Err (HTTPStatus 421) ∧ m' = m ∧ ctx_route_match ctx' = ctx_route_match ctx.
Proof.
  intros Hb [Hd|Hc]%https_run_streams Hhost; [by apply not_elem_of_nil in Hd|].
  destruct Hc as (manager&h&sni&cert&Hin&Hn&Hr&_&Hd). rewrite Hb in Hd. exists manager, h, sni, cert. split_and!; [done..|].
  unfold stream_request, request_tls_sni. rewrite Hd. pose proof (request_filter_cases s req (Some sni) ctx m) as Hcases.
  destruct (request_filter s req (Some sni) ctx m) as [[ctx' m'] r]. rewrite Hhost in Hcases.
  case_bool_decide as E; destruct Hcases as [(n&h'&[= <-]&[= <-]&Hne&Hres)|[Heq (->&_&Hm)]]; [done|done|done|].
  destruct E. by apply Heq.
Qed.

End https.

(** ** Examples *)

Module Demo.

(** A server that completes a handshake whenever it has a certificate; a hello is the name. *)
Definition willing : Rustls nat := {|
  ClientHello := option string;
  server_name h := h;
  alpn_protocol _ := Some "h2";
  handshake h cert := if cert then HandshakeDone h (Some "TLSv1_3") None else HandshakeFailed;
  handshake_needs_cert h sni v ci := ltac:(discriminate);
  handshake_reports_name h cert sni v ci E := ltac:(destruct cert; [by injection E as <-|discriminate E])
|}.

Definition manager : CertManager nat := mkCertManager (CertStore_insert ["a.com"] 7 CertStore_new).
Definition events : list (@ListenerEvent nat willing) :=
  [ Accepted manager (@SendsHello nat willing None);
    AcceptFailed "EMFILE";
    Accepted manager (@SendsHello nat willing (Some "A.com"));
    ShutdownChanged false true;
    Accepted manager (@SendsHello nat willing (Some "a.com")) ].
Definition request (host : string) : RequestHeader := mkRequestHeader "GET" "/" None None "HTTP/2.0" [("host", host)].
Definition state : ProxyState (LB := nat) := mkProxyState (mkRouter []) ∅.
Definition ctx : WicketCtx := (new_ctx 0 0 ∅).1.
Definition service : HttpsService := @start_service nat willing true "443" None 1 ∅ events.
Definition stream : DynamicTlsStream := mkDynamicTlsStream 2 (Some "h2") (Some "A.com").

End Demo.

(** The client that asked for no name got no stream, the one after the shutdown neither. *)
Lemma https_request_matches_certificate_witness :
  hs_streams Demo.service = [Demo.stream] ∧
  (stream_request Demo.state (Demo.request "a.com:443") Demo.stream Demo.ctx ∅).2 = Ok false ∧
  (stream_request Demo.state (Demo.request "b.com") Demo.stream Demo.ctx ∅).2 = Err (HTTPStatus 421).
Proof.
  assert (hs_streams Demo.service = [Demo.stream]) as Hs by (vm_compute; reflexivity). split; [exact Hs|].
  assert (Demo.stream ∈ hs_streams Demo.service) as Hd by (rewrite Hs; left).
  split.
  - destruct (@https_request_matches_certificate nat Demo.willing true "443" nat None 1 ∅ Demo.events Demo.stream Demo.state
      (Demo.request "a.com:443") "a.com:443" Demo.ctx ∅ eq_refl Hd eq_refl) as (mg&h&sni&cert&Hin&Hn&Hr&Hres).
    vm_compute. reflexivity.
  - destruct (@https_request_matches_certificate nat Demo.willing true "443" nat None 1 ∅ Demo.events Demo.stream Demo.state
      (Demo.request "b.com") "b.com" Demo.ctx ∅ eq_refl Hd eq_refl) as (mg&h&sni&cert&Hin&Hn&Hr&Hres).
    vm_compute. reflexivity.
Defined.
