(* ===== verification/Crds.v ===== *)
(** * Gateway API resources (crates/wicket-controller/src/crds)

    The custom resources the controller reads: gateways, HTTP, TCP and TLS routes,
    reference grants, their references and conditions, and the predicates on them.
    [ObjectMeta] keeps the fields of the Kubernetes metadata the controller uses. *)

From S2P Require Import Prelude Str Order Num.
From Stdlib Require Import Ascii.

Definition GATEWAY_API_GROUP : string := "gateway.networking.k8s.io".

Record OwnerReference := mkOwnerReference {
  or_api_version : string;
  or_kind : string;
  or_name : string;
  or_uid : string;
  or_controller : option bool;
  or_block_owner_deletion : option bool
}.

Record ObjectMeta := mkObjectMeta {
  om_name : option string;
  om_namespace : option string;
  om_generation : option Z;
  om_uid : option string;
  om_deletion_timestamp : option string;
  om_labels : option (gmap string string);
  om_annotations : option (gmap string string);
  om_owner_references : option (list OwnerReference)
}.

(** [metadata.namespace.as_deref().unwrap_or("default")] and the like. *)
Definition ns_or_default (m : ObjectMeta) : string := unwrap_or "default" (om_namespace m).
Definition name_or_empty (m : ObjectMeta) : string := unwrap_or "" (om_name m).

(** ** common.rs *)

Record ParentReference := mkParentReference {
  pr_group : string;
  pr_kind : string;
  pr_namespace : option string;
  pr_name : string;
  pr_section_name : option string;
  pr_port : option N
}.

Record BackendRef := mkBackendRef {
  br_group : string;
  br_kind : string;
  br_name : string;
  br_namespace : option string;
  br_port : option N;
  br_weight : N
}.

Record SecretObjectReference := mkSecretObjectReference {
  so_group : string;
  so_kind : string;
  so_name : string;
  so_namespace : option string
}.

Record Condition := mkCondition {
  cond_type : string;
  cond_status : string;
  cond_observed_generation : option Z;
  cond_last_transition_time : string;
  cond_reason : string;
  cond_message : string
}.

Record RouteParentStatus := mkRouteParentStatus {
  rps_parent_ref : ParentReference;
  rps_controller_name : string;
  rps_conditions : list Condition
}.

#[global] Instance ParentReference_eq_dec : EqDecision ParentReference.
Proof. solve_decision. Defined.
#[global] Instance Condition_eq_dec : EqDecision Condition.
Proof. solve_decision. Defined.

(** [now] is the time stamp of [chrono::Utc::now]. *)
Definition Condition_new (now type_ : string) (status : bool) (reason message : string) : Condition :=
  mkCondition type_ (if status then "True" else "False") None now reason message.

Definition with_observed_generation (g : option Z) (c : Condition) : Condition :=
  mkCondition (cond_type c) (cond_status c) g (cond_last_transition_time c) (cond_reason c) (cond_message c).

Definition Condition_accepted (now : string) : Condition :=
  Condition_new now "Accepted" true "Accepted" "Resource has been accepted".
Definition Condition_programmed (now : string) : Condition :=
  Condition_new now "Programmed" true "Programmed" "Resource has been programmed".
Definition Condition_resolved_refs (now : string) : Condition :=
  Condition_new now "ResolvedRefs" true "ResolvedRefs" "All references resolved".
Definition Condition_not_programmed (now : string) : Condition :=
  Condition_new now "Programmed" false "DeploymentNotReady" "Managed runtime Deployment rollout has not converged".
Definition Condition_not_programmed_warming_up (now : string) : Condition :=
  Condition_new now "Programmed" false "ControllerStoreNotReady"
    "Controller store is warming up after restart; status will be updated shortly".
Definition Condition_not_programmed_observation_fault (now detail : string) : Condition :=
  Condition_new now "Programmed" false "ObservationFault"
    ("Failed to observe owned runtime objects: " +:+ detail).
Definition Condition_not_accepted (now : string) : Condition :=
  Condition_new now "Accepted" false "ListenerProtocolConflict" "Listener protocol is not supported".
Definition Condition_invalid (now message : string) : Condition :=
  Condition_new now "Accepted" false "Invalid" message.

(** ** gateway.rs *)

Inductive ProtocolType := HTTP | HTTPS | TLS | TCP | UDP.
#[global] Instance ProtocolType_eq_dec : EqDecision ProtocolType.
Proof. solve_decision. Defined.

Inductive TLSModeType := Terminate | Passthrough.
#[global] Instance TLSModeType_eq_dec : EqDecision TLSModeType.
Proof. solve_decision. Defined.

Record GatewayTLSConfig := mkGatewayTLSConfig {
  gt_mode : TLSModeType;
  gt_certificate_refs : list SecretObjectReference
}.

Record LabelSelectorRequirement := mkLabelSelectorRequirement {
  lr_key : string;
  lr_operator : string;
  lr_values : list string
}.

Record LabelSelector := mkLabelSelector {
  ls_match_labels : option (gmap string string);
  ls_match_expressions : list LabelSelectorRequirement
}.

Inductive FromNamespaces := FromAll | FromSame | FromSelector.

Record RouteNamespaces := mkRouteNamespaces {
  rn_from : FromNamespaces;
  rn_selector : option LabelSelector
}.

Record RouteGroupKind := mkRouteGroupKind { gk_group : string; gk_kind : string }.
#[global] Instance RouteGroupKind_eq_dec : EqDecision RouteGroupKind.
Proof. solve_decision. Defined.

Record AllowedRoutes := mkAllowedRoutes {
  ar_namespaces : option RouteNamespaces;
  ar_kinds : list RouteGroupKind
}.

Record Listener := mkListener {
  li_name : string;
  li_hostname : option string;
  li_port : N;
  li_protocol : ProtocolType;
  li_tls : option GatewayTLSConfig;
  li_allowed_routes : option AllowedRoutes
}.

Inductive AddressType := IPAddress | Hostname | NamedAddress.
#[global] Instance AddressType_eq_dec : EqDecision AddressType.
Proof. solve_decision. Defined.

Record GatewayAddress := mkGatewayAddress { ga_type : AddressType; ga_value : string }.

Record GatewaySpec := mkGatewaySpec {
  gs_gateway_class_name : string;
  gs_listeners : list Listener;
  gs_addresses : list GatewayAddress
}.

Record GatewayStatusAddress := mkGatewayStatusAddress { gsa_type : AddressType; gsa_value : string }.
#[global] Instance GatewayStatusAddress_eq_dec : EqDecision GatewayStatusAddress.
Proof. solve_decision. Defined.

Record ListenerStatus := mkListenerStatus {
  lst_name : string;
  lst_supported_kinds : list RouteGroupKind;
  lst_attached_routes : Z;
  lst_conditions : list Condition
}.

Record GatewayStatus := mkGatewayStatus {
  gws_addresses : list GatewayStatusAddress;
  gws_conditions : list Condition;
  gws_listeners : list ListenerStatus
}.

Record Gateway := mkGateway {
  gw_metadata : ObjectMeta;
  gw_spec : GatewaySpec;
  gw_status : option GatewayStatus
}.

Definition gw_listeners (g : Gateway) : list Listener := gs_listeners (gw_spec g).

Definition http_listeners (g : Gateway) : list Listener :=
  filter (λ l, li_protocol l = HTTP ∨ li_protocol l = HTTPS) (gw_listeners g).
Definition tcp_listeners (g : Gateway) : list Listener :=
  filter (λ l, li_protocol l = TCP ∨ li_protocol l = TLS) (gw_listeners g).
Definition listener_has_tls (g : Gateway) (name : string) : bool :=
  match find_first (λ l, String.eqb (li_name l) name) (gw_listeners g) with
  | Some l => is_some (li_tls l)
  | None => false
  end.

(** ** gateway_class.rs *)

Definition WICKET_CONTROLLER_NAME : string := "wicket.io/gateway-controller".

Record ParametersReference := mkParametersReference {
  pf_group : string;
  pf_kind : string;
  pf_name : string;
  pf_namespace : option string
}.

Record GatewayClassStatus := mkGatewayClassStatus {
  gcs_conditions : list Condition;
  gcs_supported_features : list string
}.

Record GatewayClass := mkGatewayClass {
  gc_metadata : ObjectMeta;
  gc_controller_name : string;
  gc_description : option string;
  gc_parameters_ref : option ParametersReference;
  gc_status : option GatewayClassStatus
}.

Definition is_wicket_managed (gc : GatewayClass) : bool :=
  String.eqb (gc_controller_name gc) WICKET_CONTROLLER_NAME.

(** ** httproute.rs *)

Inductive PathMatchType := PathExact | PathPrefix | PathRegularExpression.
Inductive HeaderMatchType := HeaderExact | HeaderRegularExpression.
Inductive QueryParamMatchType := QueryExact | QueryRegularExpression.
Inductive HTTPMethod := GET | HEAD | POST | PUT | DELETE | CONNECT | OPTIONS | TRACE | PATCH.
Inductive HTTPRouteFilterType :=
| RequestHeaderModifier | ResponseHeaderModifier | RequestMirror | RequestRedirect | URLRewrite | ExtensionRef.
Inductive HTTPPathModifierType := PM_ReplaceFullPath | PM_ReplacePrefixMatch.

Record HTTPPathMatch := mkHTTPPathMatch { pm_type : PathMatchType; pm_value : string }.
Record HTTPHeaderMatch := mkHTTPHeaderMatch { hh_type : HeaderMatchType; hh_name : string; hh_value : string }.
Record HTTPQueryParamMatch := mkHTTPQueryParamMatch { qp_type : QueryParamMatchType; qp_name : string; qp_value : string }.

Record HTTPRouteMatch := mkHTTPRouteMatch {
  hrm_path : option HTTPPathMatch;
  hrm_headers : list HTTPHeaderMatch;
  hrm_query_params : list HTTPQueryParamMatch;
  hrm_method : option HTTPMethod
}.

Record HTTPHeader := mkHTTPHeader { hd_name : string; hd_value : string }.
Record HTTPHeaderFilter := mkHTTPHeaderFilter {
  hf_set : list HTTPHeader;
  hf_add : list HTTPHeader;
  hf_remove : list string
}.
Record HTTPRequestMirrorFilter := mkHTTPRequestMirrorFilter { rmf_backend_ref : BackendRef; rmf_percent : option Z }.
Record HTTPPathModifier := mkHTTPPathModifier {
  hpm_type : HTTPPathModifierType;
  hpm_replace_full_path : option string;
  hpm_replace_prefix_match : option string
}.
Record HTTPRequestRedirectFilter := mkHTTPRequestRedirectFilter {
  rrf_scheme : option string;
  rrf_hostname : option string;
  rrf_path : option HTTPPathModifier;
  rrf_port : option N;
  rrf_status_code : Z
}.
Record HTTPURLRewriteFilter := mkHTTPURLRewriteFilter { urf_hostname : option string; urf_path : option HTTPPathModifier }.
Record LocalObjectReference := mkLocalObjectReference { lo_group : string; lo_kind : string; lo_name : string }.

Record HTTPRouteFilter := mkHTTPRouteFilter {
  hrf_type : HTTPRouteFilterType;
  hrf_request_header_modifier : option HTTPHeaderFilter;
  hrf_response_header_modifier : option HTTPHeaderFilter;
  hrf_request_mirror : option HTTPRequestMirrorFilter;
  hrf_request_redirect : option HTTPRequestRedirectFilter;
  hrf_url_rewrite : option HTTPURLRewriteFilter;
  hrf_extension_ref : option LocalObjectReference
}.

Record HTTPBackendRef := mkHTTPBackendRef { hb_backend_ref : BackendRef; hb_filters : list HTTPRouteFilter }.
Record HTTPRouteTimeouts := mkHTTPRouteTimeouts { to_request : option string; to_backend_request : option string }.

Record HTTPRouteRule := mkHTTPRouteRule {
  hrr_name : option string;
  hrr_matches : list HTTPRouteMatch;
  hrr_filters : list HTTPRouteFilter;
  hrr_backend_refs : list HTTPBackendRef;
  hrr_timeouts : option HTTPRouteTimeouts
}.

Record HTTPRouteSpec := mkHTTPRouteSpec {
  hrs_parent_refs : list ParentReference;
  hrs_hostnames : list string;
  hrs_rules : list HTTPRouteRule
}.

Record HTTPRoute := mkHTTPRoute {
  hr_metadata : ObjectMeta;
  hr_spec : HTTPRouteSpec;
  hr_parents : option (list RouteParentStatus)
}.

Definition HTTPRoute_backend_refs (r : HTTPRoute) : list BackendRef :=
  flat_map (λ rule, hb_backend_ref <$> hrr_backend_refs rule) (hrs_rules (hr_spec r)).

(** [&h[1..]] of a wildcard keeps its dot. *)
Definition hostname_pattern_matches (hostname h : string) : bool :=
  if starts_with "*." h then ends_with (slice_from 1 h) hostname else String.eqb h hostname.

Definition matches_hostname (r : HTTPRoute) (hostname : string) : bool :=
  match hrs_hostnames (hr_spec r) with
  | [] => true
  | hs => existsb (hostname_pattern_matches hostname) hs
  end.

(** ** tcproute.rs, tlsroute.rs *)

Record TCPRouteRule := mkTCPRouteRule { trr_name : option string; trr_backend_refs : list BackendRef }.
Record TCPRouteSpec := mkTCPRouteSpec { trs_parent_refs : list ParentReference; trs_rules : list TCPRouteRule }.
Record TCPRoute := mkTCPRoute {
  tr_metadata : ObjectMeta;
  tr_spec : TCPRouteSpec;
  tr_parents : option (list RouteParentStatus)
}.

Record TLSRouteRule := mkTLSRouteRule { lrr_name : option string; lrr_backend_refs : list BackendRef }.
Record TLSRouteSpec := mkTLSRouteSpec {
  lrs_parent_refs : list ParentReference;
  lrs_hostnames : list string;
  lrs_rules : list TLSRouteRule
}.
Record TLSRoute := mkTLSRoute {
  lr_metadata : ObjectMeta;
  lr_spec : TLSRouteSpec;
  lr_parents : option (list RouteParentStatus)
}.

Definition TCPRoute_backend_refs (r : TCPRoute) : list BackendRef :=
  flat_map trr_backend_refs (trs_rules (tr_spec r)).
Definition TLSRoute_backend_refs (r : TLSRoute) : list BackendRef :=
  flat_map lrr_backend_refs (lrs_rules (lr_spec r)).

Definition matches_sni (r : TLSRoute) (sni : string) : bool :=
  match lrs_hostnames (lr_spec r) with
  | [] => true
  | hs => existsb (hostname_pattern_matches sni) hs
  end.

(** ** referencegrant.rs *)

Record ReferenceGrantFrom := mkReferenceGrantFrom { gf_group : string; gf_kind : string; gf_namespace : string }.
Record ReferenceGrantTo := mkReferenceGrantTo { gto_group : string; gto_kind : string; gto_name : option string }.
Record ReferenceGrant := mkReferenceGrant {
  rg_metadata : ObjectMeta;
  rg_from : list ReferenceGrantFrom;
  rg_to : list ReferenceGrantTo
}.

Definition grant_to_matches (to_group to_kind : string) (to_name : option string) (t : ReferenceGrantTo) : bool :=
  if negb (String.eqb (gto_group t) to_group) || negb (String.eqb (gto_kind t) to_kind) then false
  else match gto_name t, to_name with
       | Some grant_name, Some ref_name => String.eqb grant_name ref_name
       | Some _, None => false
       | None, _ => true
       end.

Definition allows_reference (g : ReferenceGrant) (from_group from_kind from_namespace to_group to_kind : string)
    (to_name : option string) : bool :=
  if negb (existsb (λ f, String.eqb (gf_group f) from_group && String.eqb (gf_kind f) from_kind
                         && String.eqb (gf_namespace f) from_namespace) (rg_from g)) then false
  else existsb (grant_to_matches to_group to_kind to_name) (rg_to g).

Definition allows_tls_secret_reference (g : ReferenceGrant) (gateway_namespace : string) (secret_name : option string) : bool :=
  allows_reference g "gateway.networking.k8s.io" "Gateway" gateway_namespace "" "Secret" secret_name.

Definition allows_service_reference (g : ReferenceGrant) (route_group route_kind route_namespace : string)
    (service_name : option string) : bool :=
  allows_reference g route_group route_kind route_namespace "" "Service" service_name.

(** ** Facts *)

(** What a grant says: some [from] names the referrer and some [to] the target. *)
Definition grants (g : ReferenceGrant) (from_group from_kind from_namespace to_group to_kind name : string) : Prop :=
  (∃ f, f ∈ rg_from g ∧ gf_group f = from_group ∧ gf_kind f = from_kind ∧ gf_namespace f = from_namespace) ∧
  (∃ t, t ∈ rg_to g ∧ gto_group t = to_group ∧ gto_kind t = to_kind ∧
        (gto_name t = None ∨ gto_name t = Some name)).

Lemma allows_reference_true g fg fk fns tg tk name :
  allows_reference g fg fk fns tg tk (Some name) = true ↔ grants g fg fk fns tg tk name.
Proof.
  unfold allows_reference, grants.
  assert ((existsb (λ f, String.eqb (gf_group f) fg && String.eqb (gf_kind f) fk
             && String.eqb (gf_namespace f) fns) (rg_from g) = true) ↔
          ∃ f, f ∈ rg_from g ∧ gf_group f = fg ∧ gf_kind f = fk ∧ gf_namespace f = fns) as Hf.
  { rewrite existsb_true. setoid_rewrite andb_true_iff. setoid_rewrite andb_true_iff.
    setoid_rewrite String.eqb_eq. naive_solver. }
  assert ((existsb (grant_to_matches tg tk (Some name)) (rg_to g) = true) ↔
          ∃ t, t ∈ rg_to g ∧ gto_group t = tg ∧ gto_kind t = tk ∧
               (gto_name t = None ∨ gto_name t = Some name)) as Ht.
  { rewrite existsb_true. split; intros (t&Hin&H); exists t; (split; [done|]).
    - unfold grant_to_matches in H. destruct (String.eqb_spec (gto_group t) tg), (String.eqb_spec (gto_kind t) tk);
        cbn in H; try done. destruct (gto_name t); [apply String.eqb_eq in H; naive_solver|naive_solver].
    - destruct H as (<-&<-&Hn). unfold grant_to_matches. rewrite !String.eqb_refl. cbn.
      destruct Hn as [->| ->]; [done|apply String.eqb_refl]. }
  rewrite <-Hf, <-Ht. destruct (existsb _ (rg_from g)); cbn; naive_solver.
Qed.
