(* ===== verification/Store.v ===== *)
(** * The shared store (reconcilers/store.rs, and the state type of config_generator.rs)

    The controller's in-memory copy of the cluster: the resource maps, the
    bootstrap phase, the service reference index and the reverse index from
    routes, services, secrets and grants to gateways.  A [HashMap] is a [gmap], a
    [HashSet] a [gset]; an iteration over a [HashMap] is a fold over its entries,
    and the theorems say where the iteration order cannot be observed.

    Every writer of [SharedStore] holds the write lock for its whole body and is
    one step, except [replace_all], which releases the write lock before it
    rebuilds the reverse index: it is two steps, and other writers may run between
    them. *)

From S2P Require Import Prelude Str Order Num Crds.

(** ** GatewayState (config_generator.rs) *)

Definition key (namespace name : string) : string := namespace +:+ "/" +:+ name.

Record ServiceEndpoints := mkServiceEndpoints {
  se_namespace : string;
  se_name : string;
  se_endpoints : list string
}.

Record GatewayState := mkGatewayState {
  gst_gateways : gmap string Gateway;
  gst_http_routes : gmap string HTTPRoute;
  gst_tcp_routes : gmap string TCPRoute;
  gst_tls_routes : gmap string TLSRoute;
  gst_service_endpoints : gmap string ServiceEndpoints;
  gst_tls_secrets : gmap string (string * string)
}.

Definition parents_accepted_by_wicket (parents : list RouteParentStatus) : bool :=
  existsb (λ p, String.eqb (rps_controller_name p) WICKET_CONTROLLER_NAME
                && existsb (λ c, String.eqb (cond_type c) "Accepted" && String.eqb (cond_status c) "True")
                     (rps_conditions p)) parents.

Definition http_route_is_accepted (r : HTTPRoute) : bool :=
  match hr_parents r with Some ps => parents_accepted_by_wicket ps | None => false end.
Definition tcp_route_is_accepted (r : TCPRoute) : bool :=
  match tr_parents r with Some ps => parents_accepted_by_wicket ps | None => false end.
Definition tls_route_is_accepted (r : TLSRoute) : bool :=
  match lr_parents r with Some ps => parents_accepted_by_wicket ps | None => false end.

(** [HashMap::values]. *)
Definition values {K V} `{Countable K} (m : gmap K V) : list V := (map_to_list m).*2.

(** ** Parent references *)

Definition parent_is_gateway (p : ParentReference) : bool :=
  (is_empty_str (pr_group p) || String.eqb (pr_group p) GATEWAY_API_GROUP) && String.eqb (pr_kind p) "Gateway".

Definition route_references_gateway (route_namespace : string) (parent_refs : list ParentReference)
    (gateway_namespace gateway_name : string) : bool :=
  existsb (λ p, parent_is_gateway p
                && String.eqb (unwrap_or route_namespace (pr_namespace p)) gateway_namespace
                && String.eqb (pr_name p) gateway_name) parent_refs.

Definition route_parent_gateways (route_namespace : string) (parent_refs : list ParentReference)
    : gset (string * string) :=
  foldl (λ gateways p,
    if negb (parent_is_gateway p) then gateways
    else {[(unwrap_or route_namespace (pr_namespace p), pr_name p)]} ∪ gateways) ∅ parent_refs.

Definition is_core_service_ref (group kind : string) : bool :=
  is_empty_str group && (is_empty_str kind || String.eqb kind "Service").

(** ** The store's state *)

Inductive ResourceClass :=
| GatewayClasses | ReferenceGrants | Gateways | HttpRoutes | TcpRoutes | TlsRoutes | Services | Endpoints | Secrets.
#[global] Instance ResourceClass_eq_dec : EqDecision ResourceClass.
Proof. solve_decision. Defined.

Definition ResourceClass_ALL : list ResourceClass :=
  [GatewayClasses; ReferenceGrants; Gateways; HttpRoutes; TcpRoutes; TlsRoutes; Services; Endpoints; Secrets].

#[global] Program Instance ResourceClass_finite : finite.Finite ResourceClass := {| finite.enum := ResourceClass_ALL |}.
Next Obligation. repeat constructor; set_solver. Qed.
Next Obligation. intros []; set_solver. Qed.

(** [WarmingProgress] is its set [listed]. *)
Inductive StorePhase := Warming (listed : gset ResourceClass) | Ready.

Definition WarmingProgress_is_complete (listed : gset ResourceClass) : bool :=
  forallb (λ rc, bool_decide (rc ∈ listed)) ResourceClass_ALL.

Record StoreInner := mkStoreInner {
  si_gateways : gmap string Gateway;
  si_gateway_classes : gmap string GatewayClass;
  si_http_routes : gmap string HTTPRoute;
  si_tcp_routes : gmap string TCPRoute;
  si_tls_routes : gmap string TLSRoute;
  si_service_endpoints : gmap string ServiceEndpoints;
  si_service_presence : gset string;
  si_tls_secrets : gmap string (string * string);
  si_reference_grants : gmap string ReferenceGrant;
  si_service_ref_index : gset string;
  si_namespace_labels : gmap string (gmap string string);
  si_phase : StorePhase
}.

Definition StoreInner_default : StoreInner :=
  mkStoreInner ∅ ∅ ∅ ∅ ∅ ∅ ∅ ∅ ∅ ∅ ∅ (Warming ∅).

(** Field assignments. *)
Definition set_gateways f (s : StoreInner) : StoreInner :=
  mkStoreInner (f (si_gateways s)) (si_gateway_classes s) (si_http_routes s) (si_tcp_routes s) (si_tls_routes s)
    (si_service_endpoints s) (si_service_presence s) (si_tls_secrets s) (si_reference_grants s)
    (si_service_ref_index s) (si_namespace_labels s) (si_phase s).
Definition set_gateway_classes f (s : StoreInner) : StoreInner :=
  mkStoreInner (si_gateways s) (f (si_gateway_classes s)) (si_http_routes s) (si_tcp_routes s) (si_tls_routes s)
    (si_service_endpoints s) (si_service_presence s) (si_tls_secrets s) (si_reference_grants s)
    (si_service_ref_index s) (si_namespace_labels s) (si_phase s).
Definition set_http_routes f (s : StoreInner) : StoreInner :=
  mkStoreInner (si_gateways s) (si_gateway_classes s) (f (si_http_routes s)) (si_tcp_routes s) (si_tls_routes s)
    (si_service_endpoints s) (si_service_presence s) (si_tls_secrets s) (si_reference_grants s)
    (si_service_ref_index s) (si_namespace_labels s) (si_phase s).
Definition set_tcp_routes f (s : StoreInner) : StoreInner :=
  mkStoreInner (si_gateways s) (si_gateway_classes s) (si_http_routes s) (f (si_tcp_routes s)) (si_tls_routes s)
    (si_service_endpoints s) (si_service_presence s) (si_tls_secrets s) (si_reference_grants s)
    (si_service_ref_index s) (si_namespace_labels s) (si_phase s).
Definition set_tls_routes f (s : StoreInner) : StoreInner :=
  mkStoreInner (si_gateways s) (si_gateway_classes s) (si_http_routes s) (si_tcp_routes s) (f (si_tls_routes s))
    (si_service_endpoints s) (si_service_presence s) (si_tls_secrets s) (si_reference_grants s)
    (si_service_ref_index s) (si_namespace_labels s) (si_phase s).
Definition set_service_endpoints f (s : StoreInner) : StoreInner :=
  mkStoreInner (si_gateways s) (si_gateway_classes s) (si_http_routes s) (si_tcp_routes s) (si_tls_routes s)
    (f (si_service_endpoints s)) (si_service_presence s) (si_tls_secrets s) (si_reference_grants s)
    (si_service_ref_index s) (si_namespace_labels s) (si_phase s).
Definition set_service_presence f (s : StoreInner) : StoreInner :=
  mkStoreInner (si_gateways s) (si_gateway_classes s) (si_http_routes s) (si_tcp_routes s) (si_tls_routes s)
    (si_service_endpoints s) (f (si_service_presence s)) (si_tls_secrets s) (si_reference_grants s)
    (si_service_ref_index s) (si_namespace_labels s) (si_phase s).
Definition set_tls_secrets f (s : StoreInner) : StoreInner :=
  mkStoreInner (si_gateways s) (si_gateway_classes s) (si_http_routes s) (si_tcp_routes s) (si_tls_routes s)
    (si_service_endpoints s) (si_service_presence s) (f (si_tls_secrets s)) (si_reference_grants s)
    (si_service_ref_index s) (si_namespace_labels s) (si_phase s).
Definition set_reference_grants f (s : StoreInner) : StoreInner :=
  mkStoreInner (si_gateways s) (si_gateway_classes s) (si_http_routes s) (si_tcp_routes s) (si_tls_routes s)
    (si_service_endpoints s) (si_service_presence s) (si_tls_secrets s) (f (si_reference_grants s))
    (si_service_ref_index s) (si_namespace_labels s) (si_phase s).
Definition set_service_ref_index f (s : StoreInner) : StoreInner :=
  mkStoreInner (si_gateways s) (si_gateway_classes s) (si_http_routes s) (si_tcp_routes s) (si_tls_routes s)
    (si_service_endpoints s) (si_service_presence s) (si_tls_secrets s) (si_reference_grants s)
    (f (si_service_ref_index s)) (si_namespace_labels s) (si_phase s).
Definition set_namespace_labels f (s : StoreInner) : StoreInner :=
  mkStoreInner (si_gateways s) (si_gateway_classes s) (si_http_routes s) (si_tcp_routes s) (si_tls_routes s)
    (si_service_endpoints s) (si_service_presence s) (si_tls_secrets s) (si_reference_grants s)
    (si_service_ref_index s) (f (si_namespace_labels s)) (si_phase s).
Definition set_phase p (s : StoreInner) : StoreInner :=
  mkStoreInner (si_gateways s) (si_gateway_classes s) (si_http_routes s) (si_tcp_routes s) (si_tls_routes s)
    (si_service_endpoints s) (si_service_presence s) (si_tls_secrets s) (si_reference_grants s)
    (si_service_ref_index s) (si_namespace_labels s) p.

(** One backend reference of a route in namespace [route_ns]. *)
Definition index_service_ref (route_ns : string) (index : gset string) (br : BackendRef) : gset string :=
  if negb (is_core_service_ref (br_group br) (br_kind br)) then index
  else {[key (unwrap_or route_ns (br_namespace br)) (br_name br)]} ∪ index.

Definition rebuild_service_index (s : StoreInner) : StoreInner :=
  let index := ∅ in
  let index := foldl (λ ix r, foldl (index_service_ref (ns_or_default (hr_metadata r))) ix (HTTPRoute_backend_refs r))
                 index (values (si_http_routes s)) in
  let index := foldl (λ ix r, foldl (index_service_ref (ns_or_default (tr_metadata r))) ix (TCPRoute_backend_refs r))
                 index (values (si_tcp_routes s)) in
  let index := foldl (λ ix r, foldl (index_service_ref (ns_or_default (lr_metadata r))) ix (TLSRoute_backend_refs r))
                 index (values (si_tls_routes s)) in
  set_service_ref_index (λ _, index) s.

(** ** The reverse index *)

Notation GatewaysByKey := (gmap (string * string) (gset (string * string))).

Record ReverseIndexInner := mkReverseIndexInner {
  ri_http_route_to_gateways : GatewaysByKey;
  ri_tcp_route_to_gateways : GatewaysByKey;
  ri_tls_route_to_gateways : GatewaysByKey;
  ri_service_to_gateways : GatewaysByKey;
  ri_secret_to_gateways : GatewaysByKey;
  ri_reference_grant_to_gateways : GatewaysByKey
}.

Definition ReverseIndexInner_default : ReverseIndexInner := mkReverseIndexInner ∅ ∅ ∅ ∅ ∅ ∅.

(** [map.entry(k).or_default().extend(gs)]. *)
Definition entry_extend (k : string * string) (gs : gset (string * string)) (m : GatewaysByKey) : GatewaysByKey :=
  <[k := gs ∪ default ∅ (m !! k)]> m.

Definition index_cert_ref (gateway_ns : string) (gateway_key : string * string) (ix : ReverseIndexInner)
    (c : SecretObjectReference) : ReverseIndexInner :=
  let cert_ns := unwrap_or gateway_ns (so_namespace c) in
  mkReverseIndexInner (ri_http_route_to_gateways ix) (ri_tcp_route_to_gateways ix) (ri_tls_route_to_gateways ix)
    (ri_service_to_gateways ix)
    (entry_extend (cert_ns, so_name c) {[gateway_key]} (ri_secret_to_gateways ix))
    (if negb (String.eqb cert_ns gateway_ns)
     then entry_extend (cert_ns, so_name c) {[gateway_key]} (ri_reference_grant_to_gateways ix)
     else ri_reference_grant_to_gateways ix).

Definition listener_certificate_refs (l : Listener) : list SecretObjectReference :=
  match li_tls l with Some tls => gt_certificate_refs tls | None => [] end.

Definition index_gateway (ix : ReverseIndexInner) (g : Gateway) : ReverseIndexInner :=
  let gateway_ns := ns_or_default (gw_metadata g) in
  foldl (λ ix l, foldl (index_cert_ref gateway_ns (gateway_ns, name_or_empty (gw_metadata g))) ix
                   (listener_certificate_refs l)) ix (gw_listeners g).

Definition index_backend_ref (route_ns : string) (gateways : gset (string * string)) (ix : ReverseIndexInner)
    (br : BackendRef) : ReverseIndexInner :=
  if negb (is_core_service_ref (br_group br) (br_kind br)) then ix
  else
    let service_ns := unwrap_or route_ns (br_namespace br) in
    mkReverseIndexInner (ri_http_route_to_gateways ix) (ri_tcp_route_to_gateways ix) (ri_tls_route_to_gateways ix)
      (entry_extend (service_ns, br_name br) gateways (ri_service_to_gateways ix))
      (ri_secret_to_gateways ix)
      (if negb (String.eqb service_ns route_ns)
       then entry_extend (service_ns, br_name br) gateways (ri_reference_grant_to_gateways ix)
       else ri_reference_grant_to_gateways ix).

Definition index_http_route (ix : ReverseIndexInner) (r : HTTPRoute) : ReverseIndexInner :=
  let route_ns := ns_or_default (hr_metadata r) in
  let gateways := route_parent_gateways route_ns (hrs_parent_refs (hr_spec r)) in
  let ix := mkReverseIndexInner
    (<[(route_ns, name_or_empty (hr_metadata r)) := gateways]> (ri_http_route_to_gateways ix))
    (ri_tcp_route_to_gateways ix) (ri_tls_route_to_gateways ix)
    (ri_service_to_gateways ix) (ri_secret_to_gateways ix) (ri_reference_grant_to_gateways ix) in
  foldl (index_backend_ref route_ns gateways) ix (HTTPRoute_backend_refs r).

Definition index_tcp_route (ix : ReverseIndexInner) (r : TCPRoute) : ReverseIndexInner :=
  let route_ns := ns_or_default (tr_metadata r) in
  let gateways := route_parent_gateways route_ns (trs_parent_refs (tr_spec r)) in
  let ix := mkReverseIndexInner (ri_http_route_to_gateways ix)
    (<[(route_ns, name_or_empty (tr_metadata r)) := gateways]> (ri_tcp_route_to_gateways ix))
    (ri_tls_route_to_gateways ix)
    (ri_service_to_gateways ix) (ri_secret_to_gateways ix) (ri_reference_grant_to_gateways ix) in
  foldl (index_backend_ref route_ns gateways) ix (TCPRoute_backend_refs r).

Definition index_tls_route (ix : ReverseIndexInner) (r : TLSRoute) : ReverseIndexInner :=
  let route_ns := ns_or_default (lr_metadata r) in
  let gateways := route_parent_gateways route_ns (lrs_parent_refs (lr_spec r)) in
  let ix := mkReverseIndexInner (ri_http_route_to_gateways ix) (ri_tcp_route_to_gateways ix)
    (<[(route_ns, name_or_empty (lr_metadata r)) := gateways]> (ri_tls_route_to_gateways ix))
    (ri_service_to_gateways ix) (ri_secret_to_gateways ix) (ri_reference_grant_to_gateways ix) in
  foldl (index_backend_ref route_ns gateways) ix (TLSRoute_backend_refs r).

Definition rebuild_from_store (s : StoreInner) : ReverseIndexInner :=
  let ix := ReverseIndexInner_default in
  let ix := foldl index_gateway ix (values (si_gateways s)) in
  let ix := foldl index_http_route ix (values (si_http_routes s)) in
  let ix := foldl index_tcp_route ix (values (si_tcp_routes s)) in
  foldl index_tls_route ix (values (si_tls_routes s)).

Definition gateways_for_key (m : GatewaysByKey) (namespace name : string) : list (string * string) :=
  sort_by (pair_cmp str_cmp str_cmp) (elements (default ∅ (m !! (namespace, name)))).

Definition gateways_for_http_route ix := gateways_for_key (ri_http_route_to_gateways ix).
Definition gateways_for_tcp_route ix := gateways_for_key (ri_tcp_route_to_gateways ix).
Definition gateways_for_tls_route ix := gateways_for_key (ri_tls_route_to_gateways ix).
Definition gateways_for_service ix := gateways_for_key (ri_service_to_gateways ix).
Definition gateways_for_secret ix := gateways_for_key (ri_secret_to_gateways ix).
Definition gateways_for_reference_grant ix := gateways_for_key (ri_reference_grant_to_gateways ix).

(** ** Planner snapshots *)

Inductive SnapshotResult (T : Type) := NotReady | SnapReady (v : T).
Arguments NotReady {T}.
Arguments SnapReady {T} _.

Definition SnapshotResult_is_ready {T} (r : SnapshotResult T) : bool :=
  match r with SnapReady _ => true | NotReady => false end.
Definition into_option {T} (r : SnapshotResult T) : option T :=
  match r with SnapReady v => Some v | NotReady => None end.

Record PlannerSnapshot := mkPlannerSnapshot {
  ps_gateways : gmap string Gateway;
  ps_gateway_classes : gmap string GatewayClass;
  ps_http_routes : gmap string HTTPRoute;
  ps_tcp_routes : gmap string TCPRoute;
  ps_tls_routes : gmap string TLSRoute;
  ps_service_endpoints : gmap string ServiceEndpoints;
  ps_service_presence : gset string;
  ps_tls_secrets : gmap string (string * string);
  ps_reference_grants : gmap string ReferenceGrant;
  ps_service_ref_index : gset string;
  ps_namespace_labels : gmap string (gmap string string)
}.

Definition gateway (p : PlannerSnapshot) (namespace name : string) : option Gateway :=
  ps_gateways p !! key namespace name.
Definition gateway_class (p : PlannerSnapshot) (name : string) : option GatewayClass :=
  ps_gateway_classes p !! name.
Definition tls_secret (p : PlannerSnapshot) (namespace name : string) : option (string * string) :=
  ps_tls_secrets p !! key namespace name.

(** The collected, filtered and sorted values of a map; [l] is the order in
    which the [HashMap] yields them. *)
Definition grants_of_list (namespace : string) (l : list ReferenceGrant) : list ReferenceGrant :=
  sort_by_key (λ g, name_or_empty (rg_metadata g)) str_cmp
    (filter (λ g, ns_or_default (rg_metadata g) = namespace) l).
Definition reference_grants_in_namespace (p : PlannerSnapshot) (namespace : string) : list ReferenceGrant :=
  grants_of_list namespace (values (ps_reference_grants p)).

(** The sort key of the routes. *)
Definition ns_name_key (m : ObjectMeta) : string * string := (unwrap_or "" (om_namespace m), unwrap_or "" (om_name m)).

Definition routes_of_list {R} (meta : R → ObjectMeta) (parent_refs : R → list ParentReference)
    (gateway_namespace gateway_name : string) (l : list R) : list R :=
  sort_by_key (λ r, ns_name_key (meta r)) (pair_cmp str_cmp str_cmp)
    (filter (λ r, route_references_gateway (ns_or_default (meta r)) (parent_refs r) gateway_namespace gateway_name = true) l).

Definition http_routes_for_gateway (p : PlannerSnapshot) (gateway_namespace gateway_name : string) : list HTTPRoute :=
  routes_of_list hr_metadata (λ r, hrs_parent_refs (hr_spec r)) gateway_namespace gateway_name (values (ps_http_routes p)).
Definition tcp_routes_for_gateway (p : PlannerSnapshot) (gateway_namespace gateway_name : string) : list TCPRoute :=
  routes_of_list tr_metadata (λ r, trs_parent_refs (tr_spec r)) gateway_namespace gateway_name (values (ps_tcp_routes p)).
Definition tls_routes_for_gateway (p : PlannerSnapshot) (gateway_namespace gateway_name : string) : list TLSRoute :=
  routes_of_list lr_metadata (λ r, lrs_parent_refs (lr_spec r)) gateway_namespace gateway_name (values (ps_tls_routes p)).

Definition snapshot_is_service_referenced (p : PlannerSnapshot) (namespace name : string) : bool :=
  bool_decide (key namespace name ∈ ps_service_ref_index p).

Definition to_gateway_state (s : StoreInner) : GatewayState :=
  mkGatewayState (si_gateways s) (si_http_routes s) (si_tcp_routes s) (si_tls_routes s)
    (si_service_endpoints s) (si_tls_secrets s).

Definition is_complete (s : StoreInner) : bool :=
  match si_phase s with Ready => true | Warming _ => false end.

Definition to_planner_snapshot (s : StoreInner) : PlannerSnapshot :=
  mkPlannerSnapshot (si_gateways s) (si_gateway_classes s) (si_http_routes s) (si_tcp_routes s) (si_tls_routes s)
    (si_service_endpoints s) (si_service_presence s) (si_tls_secrets s) (si_reference_grants s)
    (si_service_ref_index s) (si_namespace_labels s).

(** ** SharedStore: readers *)

Record SharedStore := mkSharedStore { ss_inner : StoreInner; ss_reverse_index : ReverseIndexInner }.

Definition SharedStore_new : SharedStore := mkSharedStore StoreInner_default ReverseIndexInner_default.

Definition is_ready (s : SharedStore) : bool := is_complete (ss_inner s).

(** [rc] has completed its initial list, as [snapshot] and [get_gateway_class] ask it. *)
Definition class_listed (rc : ResourceClass) (s : StoreInner) : bool :=
  match si_phase s with Ready => true | Warming listed => bool_decide (rc ∈ listed) end.

Definition snapshot (s : SharedStore) : option GatewayState :=
  if negb (class_listed Gateways (ss_inner s)) then None else Some (to_gateway_state (ss_inner s)).

Definition planner_snapshot (s : SharedStore) : SnapshotResult PlannerSnapshot :=
  if negb (is_complete (ss_inner s)) then NotReady else SnapReady (to_planner_snapshot (ss_inner s)).

Definition get_gateway_class (s : SharedStore) (name : string) : option GatewayClass :=
  if negb (class_listed GatewayClasses (ss_inner s)) then None else si_gateway_classes (ss_inner s) !! name.

Definition is_service_referenced (s : SharedStore) (namespace name : string) : option bool :=
  if negb (is_complete (ss_inner s)) then None
  else Some (bool_decide (key namespace name ∈ si_service_ref_index (ss_inner s))).

(** [*counts.entry(k).or_insert(0) += 1] over a list of keys. *)
Definition count_by {K} `{Countable K} (ks : list K) : gmap K Z :=
  foldl (λ counts k, <[k := (default 0 (counts !! k) + 1)%Z]> counts) ∅ ks.

Definition gateway_counts (s : SharedStore) : gmap (string * string) Z :=
  count_by ((λ g, (ns_or_default (gw_metadata g), gs_gateway_class_name (gw_spec g))) <$> values (si_gateways (ss_inner s))).
Definition httproute_counts (s : SharedStore) : gmap string Z :=
  count_by ((λ r, ns_or_default (hr_metadata r)) <$> values (si_http_routes (ss_inner s))).
Definition tcproute_counts (s : SharedStore) : gmap string Z :=
  count_by ((λ r, ns_or_default (tr_metadata r)) <$> values (si_tcp_routes (ss_inner s))).
Definition tlsroute_counts (s : SharedStore) : gmap string Z :=
  count_by ((λ r, ns_or_default (lr_metadata r)) <$> values (si_tls_routes (ss_inner s))).
Definition reference_grant_counts (s : SharedStore) : gmap string Z :=
  count_by ((λ g, ns_or_default (rg_metadata g)) <$> values (si_reference_grants (ss_inner s))).

(** ** SharedStore: writers *)

Definition mark_listed (rc : ResourceClass) (s : SharedStore) : SharedStore :=
  match si_phase (ss_inner s) with
  | Warming listed =>
      let listed := {[rc]} ∪ listed in
      let phase := if WarmingProgress_is_complete listed then Ready else Warming listed in
      mkSharedStore (set_phase phase (ss_inner s)) (ss_reverse_index s)
  | Ready => s
  end.

Definition mark_ready (s : SharedStore) : SharedStore :=
  mkSharedStore (set_phase Ready (ss_inner s)) (ss_reverse_index s).

(** Writers that leave the indexes alone. *)
Definition write (f : StoreInner → StoreInner) (s : SharedStore) : SharedStore :=
  mkSharedStore (f (ss_inner s)) (ss_reverse_index s).
(** [..; self.reverse_index.rebuild_from_store(&inner)]. *)
Definition write_rebuild (f : StoreInner → StoreInner) (s : SharedStore) : SharedStore :=
  let inner := f (ss_inner s) in mkSharedStore inner (rebuild_from_store inner).

Definition upsert_gateway k g := write_rebuild (set_gateways (<[k := g]>)).
Definition remove_gateway k := write_rebuild (set_gateways (delete k)).
Definition upsert_gateway_class k gc := write (set_gateway_classes (<[k := gc]>)).
Definition remove_gateway_class k := write (set_gateway_classes (delete k)).
Definition upsert_http_route k r := write_rebuild (λ i, rebuild_service_index (set_http_routes (<[k := r]>) i)).
Definition remove_http_route k := write_rebuild (λ i, rebuild_service_index (set_http_routes (delete k) i)).
Definition upsert_tcp_route k r := write_rebuild (λ i, rebuild_service_index (set_tcp_routes (<[k := r]>) i)).
Definition remove_tcp_route k := write_rebuild (λ i, rebuild_service_index (set_tcp_routes (delete k) i)).
Definition upsert_tls_route k r := write_rebuild (λ i, rebuild_service_index (set_tls_routes (<[k := r]>) i)).
Definition remove_tls_route k := write_rebuild (λ i, rebuild_service_index (set_tls_routes (delete k) i)).
Definition upsert_endpoints k e := write (set_service_endpoints (<[k := e]>)).
Definition remove_endpoints k := write (set_service_endpoints (delete k)).
Definition upsert_service_presence (k : string) := write (set_service_presence (λ p, {[k]} ∪ p)).
Definition replace_service_presence p := write (set_service_presence (λ _, p)).
Definition remove_service_presence (k : string) := write (set_service_presence (λ p, p ∖ {[k]})).
Definition upsert_tls_secret k cert_path key_path := write (set_tls_secrets (<[k := (cert_path, key_path)]>)).
Definition remove_tls_secret k := write (set_tls_secrets (delete k)).
Definition upsert_reference_grant k g := write (set_reference_grants (<[k := g]>)).
Definition remove_reference_grant k := write (set_reference_grants (delete k)).
Definition upsert_namespace_labels n ls := write (set_namespace_labels (<[n := ls]>)).
Definition remove_namespace_labels n := write (set_namespace_labels (delete n)).

(** [replace_all]: the swap under the write lock, then the rebuild under a read lock. *)
Definition replace_all_swap (new_inner : StoreInner) (s : SharedStore) : SharedStore :=
  write (λ _, rebuild_service_index new_inner) s.
Definition replace_all_rebuild (s : SharedStore) : SharedStore :=
  mkSharedStore (ss_inner s) (rebuild_from_store (ss_inner s)).
Definition replace_all (new_inner : StoreInner) (s : SharedStore) : SharedStore :=
  replace_all_rebuild (replace_all_swap new_inner s).

(** [entry(k).or_insert(v)] for every entry of the state is the left-biased union. *)
Definition ingest_gateway_state (state : GatewayState) : SharedStore → SharedStore :=
  write_rebuild (λ i,
    let i := set_gateways (λ _, gst_gateways state) i in
    let i := set_http_routes (λ _, gst_http_routes state) i in
    let i := set_tcp_routes (λ _, gst_tcp_routes state) i in
    let i := set_tls_routes (λ _, gst_tls_routes state) i in
    let i := set_service_endpoints (λ _, gst_service_endpoints state) i in
    let i := set_tls_secrets (λ m, m ∪ gst_tls_secrets state) i in
    rebuild_service_index i).

(** ** The store as a transition system *)

Inductive StoreOp :=
| OpMarkListed (rc : ResourceClass)
| OpMarkReady
| OpUpsertGateway (k : string) (g : Gateway)
| OpRemoveGateway (k : string)
| OpUpsertGatewayClass (k : string) (gc : GatewayClass)
| OpRemoveGatewayClass (k : string)
| OpUpsertHttpRoute (k : string) (r : HTTPRoute)
| OpRemoveHttpRoute (k : string)
| OpUpsertTcpRoute (k : string) (r : TCPRoute)
| OpRemoveTcpRoute (k : string)
| OpUpsertTlsRoute (k : string) (r : TLSRoute)
| OpRemoveTlsRoute (k : string)
| OpUpsertEndpoints (k : string) (e : ServiceEndpoints)
| OpRemoveEndpoints (k : string)
| OpUpsertServicePresence (k : string)
| OpReplaceServicePresence (p : gset string)
| OpRemoveServicePresence (k : string)
| OpUpsertTlsSecret (k cert_path key_path : string)
| OpRemoveTlsSecret (k : string)
| OpUpsertReferenceGrant (k : string) (g : ReferenceGrant)
| OpRemoveReferenceGrant (k : string)
| OpUpsertNamespaceLabels (n : string) (ls : gmap string string)
| OpRemoveNamespaceLabels (n : string)
| OpIngest (state : GatewayState).

Definition apply_op (op : StoreOp) : SharedStore → SharedStore :=
  match op with
  | OpMarkListed rc => mark_listed rc
  | OpMarkReady => mark_ready
  | OpUpsertGateway k g => upsert_gateway k g
  | OpRemoveGateway k => remove_gateway k
  | OpUpsertGatewayClass k gc => upsert_gateway_class k gc
  | OpRemoveGatewayClass k => remove_gateway_class k
  | OpUpsertHttpRoute k r => upsert_http_route k r
  | OpRemoveHttpRoute k => remove_http_route k
  | OpUpsertTcpRoute k r => upsert_tcp_route k r
  | OpRemoveTcpRoute k => remove_tcp_route k
  | OpUpsertTlsRoute k r => upsert_tls_route k r
  | OpRemoveTlsRoute k => remove_tls_route k
  | OpUpsertEndpoints k e => upsert_endpoints k e
  | OpRemoveEndpoints k => remove_endpoints k
  | OpUpsertServicePresence k => upsert_service_presence k
  | OpReplaceServicePresence p => replace_service_presence p
  | OpRemoveServicePresence k => remove_service_presence k
  | OpUpsertTlsSecret k c p => upsert_tls_secret k c p
  | OpRemoveTlsSecret k => remove_tls_secret k
  | OpUpsertReferenceGrant k g => upsert_reference_grant k g
  | OpRemoveReferenceGrant k => remove_reference_grant k
  | OpUpsertNamespaceLabels n ls => upsert_namespace_labels n ls
  | OpRemoveNamespaceLabels n => remove_namespace_labels n
  | OpIngest state => ingest_gateway_state state
  end.

Definition run_ops (ops : list StoreOp) (s : SharedStore) : SharedStore := foldl (λ s op, apply_op op s) s ops.

(** The writers interleaved; [pending] counts the [replace_all] calls that have
    swapped the contents and not yet rebuilt the reverse index. *)
Inductive store_step : SharedStore * nat → SharedStore * nat → Prop :=
| step_op op s n : store_step (s, n) (apply_op op s, n)
| step_replace_swap new_inner s n : store_step (s, n) (replace_all_swap new_inner s, S n)
| step_replace_rebuild s n : store_step (s, S n) (replace_all_rebuild s, n).

Definition reachable (s : SharedStore) (pending : nat) : Prop := rtc store_step (SharedStore_new, 0) (s, pending).

(** ** Specification of the indexes *)

(** A route of any kind, as the indexes see it. *)
Record RouteView := mkRouteView {
  rv_namespace : string;
  rv_parents : list ParentReference;
  rv_refs : list BackendRef
}.

Definition http_view (r : HTTPRoute) : RouteView :=
  mkRouteView (ns_or_default (hr_metadata r)) (hrs_parent_refs (hr_spec r)) (HTTPRoute_backend_refs r).
Definition tcp_view (r : TCPRoute) : RouteView :=
  mkRouteView (ns_or_default (tr_metadata r)) (trs_parent_refs (tr_spec r)) (TCPRoute_backend_refs r).
Definition tls_view (r : TLSRoute) : RouteView :=
  mkRouteView (ns_or_default (lr_metadata r)) (lrs_parent_refs (lr_spec r)) (TLSRoute_backend_refs r).

Definition has_route (s : StoreInner) (v : RouteView) : Prop :=
  (∃ k r, si_http_routes s !! k = Some r ∧ v = http_view r) ∨
  (∃ k r, si_tcp_routes s !! k = Some r ∧ v = tcp_view r) ∨
  (∃ k r, si_tls_routes s !! k = Some r ∧ v = tls_view r).

(** The route refers to the core service [ns/name]. *)
Definition refs_service (v : RouteView) (ns name : string) : Prop :=
  ∃ br, br ∈ rv_refs v ∧ is_core_service_ref (br_group br) (br_kind br) = true ∧
        unwrap_or (rv_namespace v) (br_namespace br) = ns ∧ br_name br = name.

(** The route names the gateway [gw] as a parent. *)
Definition has_parent (v : RouteView) (gw : string * string) : Prop :=
  ∃ p, p ∈ rv_parents v ∧ parent_is_gateway p = true ∧
       gw = (unwrap_or (rv_namespace v) (pr_namespace p), pr_name p).

Definition gateway_key (g : Gateway) : string * string :=
  (ns_or_default (gw_metadata g), name_or_empty (gw_metadata g)).

(** The gateway refers to the certificate secret [ns/name]. *)
Definition refs_secret (g : Gateway) (ns name : string) : Prop :=
  ∃ l c, l ∈ gw_listeners g ∧ c ∈ listener_certificate_refs l ∧
         unwrap_or (ns_or_default (gw_metadata g)) (so_namespace c) = ns ∧ so_name c = name.

(** ** Facts *)

Lemma count_by_spec {K} `{Countable K} (ks : list K) k :
  count_by ks !! k = if decide (k ∈ ks) then Some (Z.of_nat (length (filter (λ x, x = k) ks))) else None.
Proof.
  assert (∀ acc : gmap K Z, foldl (λ counts k, <[k := (default 0 (counts !! k) + 1)%Z]> counts) acc ks !! k =
    if decide (k ∈ ks) then Some (default 0 (acc !! k) + Z.of_nat (length (filter (λ x, x = k) ks)))%Z else acc !! k) as Hacc.
  { induction ks as [|x ks IH]; intros acc; [by rewrite decide_False by apply not_elem_of_nil|].
    cbn [foldl]. rewrite IH. destruct (decide (x = k)) as [->|Hx].
    - rewrite filter_cons_True, lookup_insert_eq by done. rewrite (decide_True (P:=k ∈ k :: ks)) by left.
      destruct (decide (k ∈ ks)) as [Hk|Hk]; cbn [from_option id length]; [f_equal; lia|].
      replace (filter (λ x, x = k) ks) with (@nil K); [done|]. symmetry. apply elem_of_nil_inv. by intros y [-> Hy]%list_elem_of_filter.
    - rewrite filter_cons_False, lookup_insert_ne by done.
      destruct (decide (k ∈ ks)) as [Hk|Hk]; [rewrite decide_True by (by right); done|].
      rewrite decide_False; [done|]. by intros [?|?]%elem_of_cons. }
  unfold count_by. rewrite Hacc. by rewrite lookup_empty.
Qed.

Lemma elem_of_values {K V} `{Countable K} (m : gmap K V) v : v ∈ values m ↔ ∃ k, m !! k = Some v.
Proof.
  unfold values. rewrite list_elem_of_fmap. split.
  - intros ([k w]&->&Hk). apply elem_of_map_to_list in Hk. eauto.
  - intros [k Hk]. exists (k, v). split; [done|]. by apply elem_of_map_to_list.
Qed.

(** A fold whose steps each add a disjunct. *)
Lemma foldl_or {A B} (P : A → Prop) (Q : B → Prop) (f : A → B → A) l a :
  (∀ a x, P (f a x) ↔ P a ∨ Q x) → P (foldl f a l) ↔ P a ∨ ∃ x, x ∈ l ∧ Q x.
Proof.
  intros Hf. revert a. induction l as [|x l IH]; intros a; simpl; [set_solver|].
  rewrite IH, Hf. set_solver.
Qed.

(** A fold that leaves a projection alone. *)
Lemma foldl_const {A B C} (π : A → C) (f : A → B → A) l a :
  (∀ a x, π (f a x) = π a) → π (foldl f a l) = π a.
Proof. intros Hf. revert a. induction l as [|x l IH]; intros a; simpl; [done|]. by rewrite IH, Hf. Qed.

Lemma elem_of_route_parent_gateways ns ps gw :
  gw ∈ route_parent_gateways ns ps ↔
  ∃ p, p ∈ ps ∧ parent_is_gateway p = true ∧ gw = (unwrap_or ns (pr_namespace p), pr_name p).
Proof.
  unfold route_parent_gateways.
  rewrite (foldl_or (λ s, gw ∈ s) (λ p, parent_is_gateway p = true ∧ gw = (unwrap_or ns (pr_namespace p), pr_name p))).
  - set_solver.
  - intros a p. destruct (parent_is_gateway p); cbn; set_solver.
Qed.

(** A route lists its gateways exactly when one of its parents names them. *)
Lemma route_references_gateway_spec ns ps gns gname :
  route_references_gateway ns ps gns gname = true ↔ (gns, gname) ∈ route_parent_gateways ns ps.
Proof.
  rewrite elem_of_route_parent_gateways. unfold route_references_gateway. rewrite existsb_true.
  split; intros (p&Hp&H); exists p; (split; [done|]).
  - destruct_bools. split; [done|].
    repeat match goal with Hs : String.eqb _ _ = true |- _ => apply String.eqb_eq in Hs end. congruence.
  - destruct H as [-> [= -> ->]]. by rewrite !String.eqb_refl.
Qed.

Lemma has_route_exists (P : RouteView → Prop) s :
  (∃ v, has_route s v ∧ P v) ↔
  (((∃ k r, si_http_routes s !! k = Some r ∧ P (http_view r)) ∨
    (∃ k r, si_tcp_routes s !! k = Some r ∧ P (tcp_view r))) ∨
   (∃ k r, si_tls_routes s !! k = Some r ∧ P (tls_view r))).
Proof.
  unfold has_route. split.
  - intros (v&[H|[H|H]]&HP); destruct H as (k&r&Hk&->); eauto 6.
  - intros [[H|H]|H]; destruct H as (k&r&Hk&HP); eauto 10.
Qed.

Section service_index.
Context (x : string).

Lemma index_service_ref_spec ns refs ix :
  x ∈ foldl (index_service_ref ns) ix refs ↔
  x ∈ ix ∨ ∃ br, br ∈ refs ∧ is_core_service_ref (br_group br) (br_kind br) = true ∧
                 x = key (unwrap_or ns (br_namespace br)) (br_name br).
Proof.
  apply (foldl_or (λ ix, x ∈ ix) (λ br, is_core_service_ref (br_group br) (br_kind br) = true ∧
                     x = key (unwrap_or ns (br_namespace br)) (br_name br))).
  intros a br. unfold index_service_ref. destruct (is_core_service_ref _ _); cbn; set_solver.
Qed.

Lemma index_routes_spec {R} (view : R → RouteView) (m : gmap string R) ix :
  x ∈ foldl (λ ix r, foldl (index_service_ref (rv_namespace (view r))) ix (rv_refs (view r))) ix (values m) ↔
  x ∈ ix ∨ ∃ k r, m !! k = Some r ∧ ∃ ns name, refs_service (view r) ns name ∧ x = key ns name.
Proof.
  rewrite (foldl_or (λ ix, x ∈ ix) (λ r, ∃ ns name, refs_service (view r) ns name ∧ x = key ns name)).
  - setoid_rewrite elem_of_values. naive_solver.
  - intros a r. rewrite index_service_ref_spec. unfold refs_service. naive_solver.
Qed.

Lemma rebuild_service_index_spec s :
  x ∈ si_service_ref_index (rebuild_service_index s) ↔
  ∃ v, has_route s v ∧ ∃ ns name, refs_service v ns name ∧ x = key ns name.
Proof.
  cbn. rewrite (index_routes_spec tls_view), (index_routes_spec tcp_view), (index_routes_spec http_view).
  rewrite has_route_exists. setoid_rewrite elem_of_empty. tauto.
Qed.
End service_index.

(** ** The reverse index *)

Section reverse_index.
Context (k gw : string * string).

Notation In m := (gw ∈@{gset (string * string)} default ∅ (m !! k)).

Lemma entry_extend_spec (k' : string * string) (gs : gset (string * string)) (m : GatewaysByKey) :
  In (entry_extend k' gs m) ↔ In m ∨ (k = k' ∧ gw ∈ gs).
Proof.
  unfold entry_extend. destruct (decide (k = k')) as [<-|Hne].
  - rewrite lookup_insert_eq. cbn. set_solver.
  - rewrite lookup_insert_ne by done. naive_solver.
Qed.

(** What one reference adds to the service, secret and grant maps. *)
Lemma index_backend_refs_service (ns : string) (gs : gset (string * string)) (refs : list BackendRef) (ix : ReverseIndexInner) :
  In (ri_service_to_gateways (foldl (index_backend_ref ns gs) ix refs)) ↔
  In (ri_service_to_gateways ix) ∨
  (∃ br, br ∈ refs ∧ is_core_service_ref (br_group br) (br_kind br) = true ∧
         k = (unwrap_or ns (br_namespace br), br_name br)) ∧ gw ∈ gs.
Proof.
  rewrite (foldl_or (λ ix, In (ri_service_to_gateways ix))
             (λ br, (is_core_service_ref (br_group br) (br_kind br) = true ∧
                     k = (unwrap_or ns (br_namespace br), br_name br)) ∧ gw ∈ gs)).
  - naive_solver.
  - intros a br. unfold index_backend_ref. destruct (is_core_service_ref _ _); cbn; [|naive_solver].
    rewrite entry_extend_spec. naive_solver.
Qed.

Lemma index_backend_refs_grant (ns : string) (gs : gset (string * string)) (refs : list BackendRef) (ix : ReverseIndexInner) :
  In (ri_reference_grant_to_gateways (foldl (index_backend_ref ns gs) ix refs)) ↔
  In (ri_reference_grant_to_gateways ix) ∨
  (∃ br, br ∈ refs ∧ is_core_service_ref (br_group br) (br_kind br) = true ∧
         k = (unwrap_or ns (br_namespace br), br_name br)) ∧ gw ∈ gs ∧ k.1 ≠ ns.
Proof.
  rewrite (foldl_or (λ ix, In (ri_reference_grant_to_gateways ix))
             (λ br, (is_core_service_ref (br_group br) (br_kind br) = true ∧
                     k = (unwrap_or ns (br_namespace br), br_name br)) ∧ gw ∈ gs ∧ k.1 ≠ ns)).
  - naive_solver.
  - intros a br. unfold index_backend_ref. destruct (is_core_service_ref _ _); cbn; [|naive_solver].
    destruct (String.eqb_spec (unwrap_or ns (br_namespace br)) ns) as [Heq|Hne]; cbn.
    + split; [by left|]. intros [?|((?&->)&?&Hk)]; [done|]. cbn in Hk. by rewrite Heq in Hk.
    + rewrite entry_extend_spec. split; [|naive_solver]. intros [?|[-> ?]]; naive_solver.
Qed.

Lemma index_backend_refs_secret ns gs refs ix :
  ri_secret_to_gateways (foldl (index_backend_ref ns gs) ix refs) = ri_secret_to_gateways ix.
Proof. apply (foldl_const ri_secret_to_gateways). intros a br. unfold index_backend_ref. by destruct (is_core_service_ref _ _). Qed.

Lemma index_gateway_service ix g : ri_service_to_gateways (index_gateway ix g) = ri_service_to_gateways ix.
Proof.
  apply (foldl_const ri_service_to_gateways). intros a l. by apply (foldl_const ri_service_to_gateways).
Qed.

Lemma index_gateway_secret (ix : ReverseIndexInner) (g : Gateway) :
  In (ri_secret_to_gateways (index_gateway ix g)) ↔
  In (ri_secret_to_gateways ix) ∨ (refs_secret g k.1 k.2 ∧ gw = gateway_key g).
Proof.
  unfold index_gateway.
  rewrite (foldl_or (λ ix, In (ri_secret_to_gateways ix))
    (λ l, (∃ c, c ∈ listener_certificate_refs l ∧
      unwrap_or (ns_or_default (gw_metadata g)) (so_namespace c) = k.1 ∧ so_name c = k.2) ∧ gw = gateway_key g)).
  - unfold refs_secret. naive_solver.
  - intros a l. rewrite (foldl_or (λ ix, In (ri_secret_to_gateways ix))
      (λ c, (unwrap_or (ns_or_default (gw_metadata g)) (so_namespace c) = k.1 ∧ so_name c = k.2) ∧ gw = gateway_key g));
      [naive_solver|].
    intros b c. cbn. rewrite entry_extend_spec. destruct k as [k1 k2]. cbn. set_solver.
Qed.

Lemma index_gateway_grant (ix : ReverseIndexInner) (g : Gateway) :
  In (ri_reference_grant_to_gateways (index_gateway ix g)) ↔
  In (ri_reference_grant_to_gateways ix) ∨
  (refs_secret g k.1 k.2 ∧ gw = gateway_key g ∧ k.1 ≠ ns_or_default (gw_metadata g)).
Proof.
  unfold index_gateway. set (gns := ns_or_default (gw_metadata g)).
  rewrite (foldl_or (λ ix, In (ri_reference_grant_to_gateways ix))
    (λ l, (∃ c, c ∈ listener_certificate_refs l ∧ unwrap_or gns (so_namespace c) = k.1 ∧ so_name c = k.2) ∧
          gw = gateway_key g ∧ k.1 ≠ gns)).
  - unfold refs_secret. naive_solver.
  - intros a l. rewrite (foldl_or (λ ix, In (ri_reference_grant_to_gateways ix))
      (λ c, (unwrap_or gns (so_namespace c) = k.1 ∧ so_name c = k.2) ∧ gw = gateway_key g ∧ k.1 ≠ gns));
      [naive_solver|].
    intros b c. cbn.
    destruct (String.eqb_spec (unwrap_or gns (so_namespace c)) gns) as [Heq|Hne]; cbn.
    + split; [by left|]. intros [?|((<-&_)&_&Hk)]; [done|]. by rewrite Heq in Hk.
    + rewrite entry_extend_spec. rewrite elem_of_singleton. destruct k as [k1 k2]. cbn. naive_solver.
Qed.
End reverse_index.

(** One kind of route adds its references for the gateways its parents name. *)
Section index_routes.
Context {R : Type} (view : R → RouteView) (index_route : ReverseIndexInner → R → ReverseIndexInner).
Context (start : R → ReverseIndexInner → ReverseIndexInner).
Hypothesis start_service : ∀ r ix, ri_service_to_gateways (start r ix) = ri_service_to_gateways ix.
Hypothesis start_secret : ∀ r ix, ri_secret_to_gateways (start r ix) = ri_secret_to_gateways ix.
Hypothesis start_grant : ∀ r ix, ri_reference_grant_to_gateways (start r ix) = ri_reference_grant_to_gateways ix.
Hypothesis index_route_eq : ∀ ix r, index_route ix r =
  foldl (index_backend_ref (rv_namespace (view r)) (route_parent_gateways (rv_namespace (view r)) (rv_parents (view r))))
    (start r ix) (rv_refs (view r)).

Lemma index_route_list_service (k gw : string * string) (m : gmap string R) (ix : ReverseIndexInner) :
  gw ∈ default ∅ (ri_service_to_gateways (foldl index_route ix (values m)) !! k) ↔
  gw ∈ default ∅ (ri_service_to_gateways ix !! k) ∨
  ∃ sk r, m !! sk = Some r ∧ refs_service (view r) k.1 k.2 ∧ has_parent (view r) gw.
Proof using start_service index_route_eq.
  rewrite (foldl_or (λ ix, gw ∈ default ∅ (ri_service_to_gateways ix !! k))
             (λ r, refs_service (view r) k.1 k.2 ∧ has_parent (view r) gw)).
  - setoid_rewrite elem_of_values. naive_solver.
  - intros a r. rewrite index_route_eq, index_backend_refs_service, start_service, elem_of_route_parent_gateways.
    unfold refs_service, has_parent. destruct k as [k1 k2]; cbn.
    split; (intros [?|((br&?&?&?)&?)]; [by left|right; split; [exists br|done]; naive_solver]).
Qed.

Lemma index_route_list_grant (k gw : string * string) (m : gmap string R) (ix : ReverseIndexInner) :
  gw ∈ default ∅ (ri_reference_grant_to_gateways (foldl index_route ix (values m)) !! k) ↔
  gw ∈ default ∅ (ri_reference_grant_to_gateways ix !! k) ∨
  ∃ sk r, m !! sk = Some r ∧ refs_service (view r) k.1 k.2 ∧ has_parent (view r) gw ∧ k.1 ≠ rv_namespace (view r).
Proof using start_grant index_route_eq.
  rewrite (foldl_or (λ ix, gw ∈ default ∅ (ri_reference_grant_to_gateways ix !! k))
             (λ r, refs_service (view r) k.1 k.2 ∧ has_parent (view r) gw ∧ k.1 ≠ rv_namespace (view r))).
  - setoid_rewrite elem_of_values. naive_solver.
  - intros a r. rewrite index_route_eq, index_backend_refs_grant, start_grant, elem_of_route_parent_gateways.
    unfold refs_service, has_parent. destruct k as [k1 k2]; cbn.
    split; (intros [?|((br&?&?&?)&?)]; [by left|right; split; [exists br|done]; naive_solver]).
Qed.

Lemma index_route_list_secret (m : gmap string R) ix :
  ri_secret_to_gateways (foldl index_route ix (values m)) = ri_secret_to_gateways ix.
Proof using start_secret index_route_eq.
  apply (foldl_const ri_secret_to_gateways). intros a r.
  by rewrite index_route_eq, index_backend_refs_secret, start_secret.
Qed.
End index_routes.

(** The insertion of a route's own entry, by kind. *)
Definition start_http (r : HTTPRoute) (ix : ReverseIndexInner) : ReverseIndexInner :=
  mkReverseIndexInner
    (<[(ns_or_default (hr_metadata r), name_or_empty (hr_metadata r)) :=
       route_parent_gateways (ns_or_default (hr_metadata r)) (hrs_parent_refs (hr_spec r))]> (ri_http_route_to_gateways ix))
    (ri_tcp_route_to_gateways ix) (ri_tls_route_to_gateways ix)
    (ri_service_to_gateways ix) (ri_secret_to_gateways ix) (ri_reference_grant_to_gateways ix).
Definition start_tcp (r : TCPRoute) (ix : ReverseIndexInner) : ReverseIndexInner :=
  mkReverseIndexInner (ri_http_route_to_gateways ix)
    (<[(ns_or_default (tr_metadata r), name_or_empty (tr_metadata r)) :=
       route_parent_gateways (ns_or_default (tr_metadata r)) (trs_parent_refs (tr_spec r))]> (ri_tcp_route_to_gateways ix))
    (ri_tls_route_to_gateways ix)
    (ri_service_to_gateways ix) (ri_secret_to_gateways ix) (ri_reference_grant_to_gateways ix).
Definition start_tls (r : TLSRoute) (ix : ReverseIndexInner) : ReverseIndexInner :=
  mkReverseIndexInner (ri_http_route_to_gateways ix) (ri_tcp_route_to_gateways ix)
    (<[(ns_or_default (lr_metadata r), name_or_empty (lr_metadata r)) :=
       route_parent_gateways (ns_or_default (lr_metadata r)) (lrs_parent_refs (lr_spec r))]> (ri_tls_route_to_gateways ix))
    (ri_service_to_gateways ix) (ri_secret_to_gateways ix) (ri_reference_grant_to_gateways ix).

Lemma rebuild_service_spec (s : StoreInner) (k gw : string * string) :
  gw ∈ default ∅ (ri_service_to_gateways (rebuild_from_store s) !! k) ↔
  ∃ v, has_route s v ∧ refs_service v k.1 k.2 ∧ has_parent v gw.
Proof.
  unfold rebuild_from_store.
  rewrite (index_route_list_service tls_view index_tls_route start_tls) by done.
  rewrite (index_route_list_service tcp_view index_tcp_route start_tcp) by done.
  rewrite (index_route_list_service http_view index_http_route start_http) by done.
  rewrite (foldl_const ri_service_to_gateways) by apply index_gateway_service.
  cbn. rewrite lookup_empty, has_route_exists. setoid_rewrite elem_of_empty. tauto.
Qed.

Lemma rebuild_secret_spec (s : StoreInner) (k gw : string * string) :
  gw ∈ default ∅ (ri_secret_to_gateways (rebuild_from_store s) !! k) ↔
  ∃ sk g, si_gateways s !! sk = Some g ∧ refs_secret g k.1 k.2 ∧ gw = gateway_key g.
Proof.
  unfold rebuild_from_store.
  rewrite (index_route_list_secret tls_view index_tls_route start_tls) by done.
  rewrite (index_route_list_secret tcp_view index_tcp_route start_tcp) by done.
  rewrite (index_route_list_secret http_view index_http_route start_http) by done.
  rewrite (foldl_or (λ ix, gw ∈ default ∅ (ri_secret_to_gateways ix !! k))
             (λ g, refs_secret g k.1 k.2 ∧ gw = gateway_key g)) by (intros; apply index_gateway_secret).
  cbn. rewrite lookup_empty. setoid_rewrite elem_of_values. set_solver.
Qed.

Lemma rebuild_grant_spec (s : StoreInner) (k gw : string * string) :
  gw ∈ default ∅ (ri_reference_grant_to_gateways (rebuild_from_store s) !! k) ↔
  (∃ v, has_route s v ∧ refs_service v k.1 k.2 ∧ has_parent v gw ∧ k.1 ≠ rv_namespace v) ∨
  (∃ sk g, si_gateways s !! sk = Some g ∧ refs_secret g k.1 k.2 ∧ gw = gateway_key g ∧
           k.1 ≠ ns_or_default (gw_metadata g)).
Proof.
  unfold rebuild_from_store.
  rewrite (index_route_list_grant tls_view index_tls_route start_tls) by done.
  rewrite (index_route_list_grant tcp_view index_tcp_route start_tcp) by done.
  rewrite (index_route_list_grant http_view index_http_route start_http) by done.
  rewrite (foldl_or (λ ix, gw ∈ default ∅ (ri_reference_grant_to_gateways ix !! k))
             (λ g, refs_secret g k.1 k.2 ∧ gw = gateway_key g ∧ k.1 ≠ ns_or_default (gw_metadata g)))
    by (intros; apply index_gateway_grant).
  cbn. rewrite lookup_empty, has_route_exists. setoid_rewrite elem_of_values. setoid_rewrite elem_of_empty. naive_solver.
Qed.

(** The maps from a route to its gateways: one entry per route, the last one
    inserted when two routes carry the same name. *)
Section route_map.
Context {R : Type} (π : ReverseIndexInner → GatewaysByKey) (meta : R → ObjectMeta) (gws : R → gset (string * string)).

Definition meta_key (m : ObjectMeta) : string * string := (ns_or_default m, name_or_empty m).

Lemma foldl_route_map (f : ReverseIndexInner → R → ReverseIndexInner) l (ix : ReverseIndexInner) (k : string * string) :
  (∀ ix r, π (f ix r) = <[meta_key (meta r) := gws r]> (π ix)) →
  (∀ r r', r ∈ l → r' ∈ l → meta_key (meta r) = meta_key (meta r') → r = r') →
  (∀ r, r ∈ l → meta_key (meta r) = k → π (foldl f ix l) !! k = Some (gws r)) ∧
  ((∀ r, r ∈ l → meta_key (meta r) ≠ k) → π (foldl f ix l) !! k = π ix !! k).
Proof.
  intros Hf. revert ix. induction l as [|x l IH]; intros ix Hinj; simpl; [split; [set_solver|done]|].
  destruct (IH (f ix x)) as [IH1 IH2]; [intros; apply Hinj; set_solver|]. split.
  - intros r Hr Hk. destruct (decide (Exists (λ y, meta_key (meta y) = k) l)) as [Hex|Hno].
    + apply Exists_exists in Hex as (y&Hy&Hyk). assert (y = r) as -> by (apply Hinj; [set_solver|done|congruence]). eauto.
    + assert (∀ y, y ∈ l → meta_key (meta y) ≠ k) as Hn by (intros y Hy Hyk; apply Hno, Exists_exists; eauto).
      rewrite (IH2 Hn). apply elem_of_cons in Hr as [->|Hr]; [|by destruct (Hn r Hr)].
      rewrite Hf, Hk. apply lookup_insert_eq.
  - intros Hn. rewrite IH2 by set_solver. rewrite Hf. apply lookup_insert_ne. apply Hn. set_solver.
Qed.
End route_map.

(** A map is keyed when every entry sits under the key of its metadata. *)
Definition keyed {R} (meta : R → ObjectMeta) (m : gmap string R) : Prop :=
  map_Forall (λ k r, k = key (ns_or_default (meta r)) (name_or_empty (meta r))) m.

Lemma keyed_inj {R} (meta : R → ObjectMeta) (m : gmap string R) r r' :
  keyed meta m → r ∈ values m → r' ∈ values m → meta_key (meta r) = meta_key (meta r') → r = r'.
Proof.
  intros Hm [k Hk]%elem_of_values [k' Hk']%elem_of_values [= He1 He2].
  pose proof (Hm _ _ Hk) as E1. pose proof (Hm _ _ Hk') as E2. cbn in *. rewrite He1, He2, <-E2 in E1. congruence.
Qed.

Lemma index_backend_ref_routes ns gs ix br :
  ri_http_route_to_gateways (index_backend_ref ns gs ix br) = ri_http_route_to_gateways ix ∧
  ri_tcp_route_to_gateways (index_backend_ref ns gs ix br) = ri_tcp_route_to_gateways ix ∧
  ri_tls_route_to_gateways (index_backend_ref ns gs ix br) = ri_tls_route_to_gateways ix.
Proof. unfold index_backend_ref. by destruct (is_core_service_ref _ _). Qed.

Lemma index_gateway_routes ix g :
  ri_http_route_to_gateways (index_gateway ix g) = ri_http_route_to_gateways ix ∧
  ri_tcp_route_to_gateways (index_gateway ix g) = ri_tcp_route_to_gateways ix ∧
  ri_tls_route_to_gateways (index_gateway ix g) = ri_tls_route_to_gateways ix.
Proof.
  unfold index_gateway. split_and!;
    [apply (foldl_const ri_http_route_to_gateways)|apply (foldl_const ri_tcp_route_to_gateways)
    |apply (foldl_const ri_tls_route_to_gateways)]; intros a l;
    [apply (foldl_const ri_http_route_to_gateways)|apply (foldl_const ri_tcp_route_to_gateways)
    |apply (foldl_const ri_tls_route_to_gateways)]; done.
Qed.

(** A keyed map of routes gives each route's entry its own parents. *)
Lemma keyed_route_map {R} (meta : R → ObjectMeta) (view : R → RouteView) (m : gmap string R)
    (M : GatewaysByKey) (ns name : string) (gw : string * string) :
  keyed meta m →
  (∀ r, r ∈ values m → meta_key (meta r) = (ns, name) →
        M !! (ns, name) = Some (route_parent_gateways (rv_namespace (view r)) (rv_parents (view r)))) →
  ((∀ r, r ∈ values m → meta_key (meta r) ≠ (ns, name)) → M !! (ns, name) = None) →
  gw ∈ default ∅ (M !! (ns, name)) ↔
  ∃ k r, m !! k = Some r ∧ meta_key (meta r) = (ns, name) ∧ has_parent (view r) gw.
Proof.
  intros Hm Hin Hout.
  destruct (decide (Exists (λ r, meta_key (meta r) = (ns, name)) (values m))) as [Hex|Hno].
  - apply Exists_exists in Hex as (r&Hr&Hrk). rewrite (Hin r Hr Hrk). cbn. rewrite elem_of_route_parent_gateways.
    split.
    + intros Hp. destruct (proj1 (elem_of_values _ _) Hr) as [k Hk]. eauto.
    + intros (k&r'&Hk&Hk'&Hp). assert (r' = r) as ->; [|done].
      eapply keyed_inj; [done|apply elem_of_values; eauto|done|congruence].
  - rewrite Hout by (intros r Hr Hrk; apply Hno, Exists_exists; eauto). cbn. split; [set_solver|].
    intros (k&r&Hk&Hrk&_). destruct Hno. apply Exists_exists. exists r. split; [|done]. apply elem_of_values. eauto.
Qed.

(** Which of the three route maps an indexing step writes. *)
Lemma index_http_route_routes ix r :
  ri_http_route_to_gateways (index_http_route ix r)
  = <[meta_key (hr_metadata r) := route_parent_gateways (rv_namespace (http_view r)) (rv_parents (http_view r))]>
      (ri_http_route_to_gateways ix) ∧
  ri_tcp_route_to_gateways (index_http_route ix r) = ri_tcp_route_to_gateways ix ∧
  ri_tls_route_to_gateways (index_http_route ix r) = ri_tls_route_to_gateways ix.
Proof.
  unfold index_http_route. split_and!;
    [rewrite (foldl_const ri_http_route_to_gateways)|rewrite (foldl_const ri_tcp_route_to_gateways)
    |rewrite (foldl_const ri_tls_route_to_gateways)]; try done; intros; apply index_backend_ref_routes.
Qed.

Lemma index_tcp_route_routes ix r :
  ri_tcp_route_to_gateways (index_tcp_route ix r)
  = <[meta_key (tr_metadata r) := route_parent_gateways (rv_namespace (tcp_view r)) (rv_parents (tcp_view r))]>
      (ri_tcp_route_to_gateways ix) ∧
  ri_http_route_to_gateways (index_tcp_route ix r) = ri_http_route_to_gateways ix ∧
  ri_tls_route_to_gateways (index_tcp_route ix r) = ri_tls_route_to_gateways ix.
Proof.
  unfold index_tcp_route. split_and!;
    [rewrite (foldl_const ri_tcp_route_to_gateways)|rewrite (foldl_const ri_http_route_to_gateways)
    |rewrite (foldl_const ri_tls_route_to_gateways)]; try done; intros; apply index_backend_ref_routes.
Qed.

Lemma index_tls_route_routes ix r :
  ri_tls_route_to_gateways (index_tls_route ix r)
  = <[meta_key (lr_metadata r) := route_parent_gateways (rv_namespace (tls_view r)) (rv_parents (tls_view r))]>
      (ri_tls_route_to_gateways ix) ∧
  ri_http_route_to_gateways (index_tls_route ix r) = ri_http_route_to_gateways ix ∧
  ri_tcp_route_to_gateways (index_tls_route ix r) = ri_tcp_route_to_gateways ix.
Proof.
  unfold index_tls_route. split_and!;
    [rewrite (foldl_const ri_tls_route_to_gateways)|rewrite (foldl_const ri_http_route_to_gateways)
    |rewrite (foldl_const ri_tcp_route_to_gateways)]; try done; intros; apply index_backend_ref_routes.
Qed.

Lemma rebuild_http_spec (s : StoreInner) (ns name : string) (gw : string * string) :
  keyed hr_metadata (si_http_routes s) →
  gw ∈ default ∅ (ri_http_route_to_gateways (rebuild_from_store s) !! (ns, name)) ↔
  ∃ k r, si_http_routes s !! k = Some r ∧ meta_key (hr_metadata r) = (ns, name) ∧ has_parent (http_view r) gw.
Proof.
  intros Hk. unfold rebuild_from_store.
  rewrite (foldl_const ri_http_route_to_gateways) by apply index_tls_route_routes.
  rewrite (foldl_const ri_http_route_to_gateways) by apply index_tcp_route_routes.
  edestruct (foldl_route_map ri_http_route_to_gateways hr_metadata
    (λ r, route_parent_gateways (rv_namespace (http_view r)) (rv_parents (http_view r)))
    index_http_route (values (si_http_routes s))) as [Hin Hout].
  - apply index_http_route_routes.
  - intros r r'. by apply keyed_inj.
  - apply (keyed_route_map hr_metadata http_view (si_http_routes s)); [done|apply Hin|].
    intros Hno. rewrite (Hout Hno). by rewrite (foldl_const ri_http_route_to_gateways) by apply index_gateway_routes.
Qed.

Lemma rebuild_tcp_spec (s : StoreInner) (ns name : string) (gw : string * string) :
  keyed tr_metadata (si_tcp_routes s) →
  gw ∈ default ∅ (ri_tcp_route_to_gateways (rebuild_from_store s) !! (ns, name)) ↔
  ∃ k r, si_tcp_routes s !! k = Some r ∧ meta_key (tr_metadata r) = (ns, name) ∧ has_parent (tcp_view r) gw.
Proof.
  intros Hk. unfold rebuild_from_store.
  rewrite (foldl_const ri_tcp_route_to_gateways) by apply index_tls_route_routes.
  edestruct (foldl_route_map ri_tcp_route_to_gateways tr_metadata
    (λ r, route_parent_gateways (rv_namespace (tcp_view r)) (rv_parents (tcp_view r)))
    index_tcp_route (values (si_tcp_routes s))) as [Hin Hout].
  - apply index_tcp_route_routes.
  - intros r r'. by apply keyed_inj.
  - apply (keyed_route_map tr_metadata tcp_view (si_tcp_routes s)); [done|apply Hin|].
    intros Hno. rewrite (Hout Hno).
    rewrite (foldl_const ri_tcp_route_to_gateways) by apply index_http_route_routes.
    by rewrite (foldl_const ri_tcp_route_to_gateways) by apply index_gateway_routes.
Qed.

Lemma rebuild_tls_spec (s : StoreInner) (ns name : string) (gw : string * string) :
  keyed lr_metadata (si_tls_routes s) →
  gw ∈ default ∅ (ri_tls_route_to_gateways (rebuild_from_store s) !! (ns, name)) ↔
  ∃ k r, si_tls_routes s !! k = Some r ∧ meta_key (lr_metadata r) = (ns, name) ∧ has_parent (tls_view r) gw.
Proof.
  intros Hk. unfold rebuild_from_store.
  edestruct (foldl_route_map ri_tls_route_to_gateways lr_metadata
    (λ r, route_parent_gateways (rv_namespace (tls_view r)) (rv_parents (tls_view r)))
    index_tls_route (values (si_tls_routes s))) as [Hin Hout].
  - apply index_tls_route_routes.
  - intros r r'. by apply keyed_inj.
  - apply (keyed_route_map lr_metadata tls_view (si_tls_routes s)); [done|apply Hin|].
    intros Hno. rewrite (Hout Hno).
    rewrite (foldl_const ri_tls_route_to_gateways) by apply index_tcp_route_routes.
    rewrite (foldl_const ri_tls_route_to_gateways) by apply index_http_route_routes.
    by rewrite (foldl_const ri_tls_route_to_gateways) by apply index_gateway_routes.
Qed.

(** ** The invariant *)

Definition indexes_current (x : SharedStore * nat) : Prop :=
  si_service_ref_index (ss_inner x.1) = si_service_ref_index (rebuild_service_index (ss_inner x.1)) ∧
  (x.2 = 0 → ss_reverse_index x.1 = rebuild_from_store (ss_inner x.1)).

(** Writers that touch neither gateways nor routes keep the indexes current. *)
Lemma apply_op_current op s n : indexes_current (s, n) → indexes_current (apply_op op s, n).
Proof.
  intros [H1 H2]; destruct op; unfold apply_op;
    first [exact (conj H1 H2) | exact (conj eq_refl (λ _, eq_refl)) | exact (conj H1 (λ _, eq_refl)) | idtac].
  unfold mark_listed. destruct (si_phase (ss_inner s)); exact (conj H1 H2).
Qed.

Lemma store_step_current x y : store_step x y → indexes_current x → indexes_current y.
Proof.
  intros Hstep Hx. destruct Hstep as [op s n|i s n|s n].
  - by apply apply_op_current.
  - exact (conj eq_refl (λ H : S n = 0, False_ind _ (Nat.neq_succ_0 _ H))).
  - exact (conj (proj1 Hx) (λ _, eq_refl)).
Qed.

Lemma reachable_current s n : reachable s n → indexes_current (s, n).
Proof.
  unfold reachable. intros H. eapply (rtc_ind_r (λ x, indexes_current x)); [|intros; by eapply store_step_current|done].
  done.
Qed.

Lemma elem_of_gateways_for_key (m : GatewaysByKey) ns name gw :
  gw ∈ gateways_for_key m ns name ↔ gw ∈ default ∅ (m !! (ns, name)).
Proof. unfold gateways_for_key. by rewrite elem_of_sort_by, elem_of_elements. Qed.

(** ** The indexes are exact *)

(** C6: in every state the writers can reach, however they interleave, the
    service reference index answers [true] exactly for the services some stored
    route refers to; and whenever no [replace_all] is between its swap and its
    rebuild, the reverse index lists for a service exactly the gateways that a
    route referring to it names as a parent, for a secret exactly the gateways
    with a listener that refers to it, and, when the route maps are keyed by
    namespace and name, for a route exactly the gateways it names. *)
Theorem store_indexes_exact s n :
  reachable s n →
  (∀ ns name b, is_service_referenced s ns name = Some b →
    (b = true ↔ ∃ v, has_route (ss_inner s) v ∧ ∃ ns' name', refs_service v ns' name' ∧ key ns name = key ns' name')) ∧
  (n = 0 → ∀ ns name gw,
    (gw ∈ gateways_for_service (ss_reverse_index s) ns name ↔
       ∃ v, has_route (ss_inner s) v ∧ refs_service v ns name ∧ has_parent v gw) ∧
    (gw ∈ gateways_for_secret (ss_reverse_index s) ns name ↔
       ∃ k g, si_gateways (ss_inner s) !! k = Some g ∧ refs_secret g ns name ∧ gw = gateway_key g) ∧
    (keyed hr_metadata (si_http_routes (ss_inner s)) →
       gw ∈ gateways_for_http_route (ss_reverse_index s) ns name ↔
       ∃ k r, si_http_routes (ss_inner s) !! k = Some r ∧ meta_key (hr_metadata r) = (ns, name) ∧ has_parent (http_view r) gw) ∧
    (keyed tr_metadata (si_tcp_routes (ss_inner s)) →
       gw ∈ gateways_for_tcp_route (ss_reverse_index s) ns name ↔
       ∃ k r, si_tcp_routes (ss_inner s) !! k = Some r ∧ meta_key (tr_metadata r) = (ns, name) ∧ has_parent (tcp_view r) gw) ∧
    (keyed lr_metadata (si_tls_routes (ss_inner s)) →
       gw ∈ gateways_for_tls_route (ss_reverse_index s) ns name ↔
       ∃ k r, si_tls_routes (ss_inner s) !! k = Some r ∧ meta_key (lr_metadata r) = (ns, name) ∧ has_parent (tls_view r) gw)).
Proof.
  intros [H1 H2]%reachable_current. cbn [fst snd] in *. split.
  - intros ns name b. unfold is_service_referenced. destruct (is_complete _); cbn [negb]; [|done]. intros [= <-].
    rewrite bool_decide_eq_true, H1. apply rebuild_service_index_spec.
  - intros Hn ns name gw. rewrite (H2 Hn).
    unfold gateways_for_service, gateways_for_secret, gateways_for_http_route, gateways_for_tcp_route, gateways_for_tls_route.
    rewrite !elem_of_gateways_for_key.
    split_and!; [apply rebuild_service_spec|apply rebuild_secret_spec|apply rebuild_http_spec|apply rebuild_tcp_spec
                |apply rebuild_tls_spec].
Qed.

(** A route in [apps] that sends traffic to the service [backend/web] through the
    gateway [infra/edge], whose certificate is the secret [certs/tls]. *)
Definition meta_of (ns name : string) : ObjectMeta := mkObjectMeta (Some name) (Some ns) None None None None None None.
Definition ex_gateway : Gateway :=
  mkGateway (meta_of "infra" "edge")
    (mkGatewaySpec "wicket"
       [mkListener "https" None 443 HTTPS
          (Some (mkGatewayTLSConfig Terminate [mkSecretObjectReference "" "Secret" "tls" (Some "certs")])) None] []) None.
Definition ex_parent : ParentReference := mkParentReference GATEWAY_API_GROUP "Gateway" (Some "infra") "edge" None None.
Definition ex_backend : BackendRef := mkBackendRef "" "Service" "web" (Some "backend") (Some 80%N) 1.
Definition ex_route : HTTPRoute :=
  mkHTTPRoute (meta_of "apps" "shop")
    (mkHTTPRouteSpec [ex_parent] ["shop.example.com"] [mkHTTPRouteRule None [] [] [mkHTTPBackendRef ex_backend []] None]) None.
Definition ex_ops : list StoreOp :=
  [OpUpsertGateway "infra/edge" ex_gateway; OpUpsertHttpRoute "apps/shop" ex_route] ++
  (OpMarkListed <$> ResourceClass_ALL).
Definition ex_store : SharedStore := run_ops ex_ops SharedStore_new.

Lemma run_ops_steps ops s n : rtc store_step (s, n) (run_ops ops s, n).
Proof.
  revert s. induction ops as [|op ops IH]; intros s; [done|]. eapply rtc_l; [apply step_op|apply IH].
Qed.

Lemma store_indexes_exact_witness :
  reachable ex_store 0 ∧ is_service_referenced ex_store "backend" "web" = Some true ∧
  ("infra", "edge") ∈ gateways_for_service (ss_reverse_index ex_store) "backend" "web".
Proof.
  assert (reachable ex_store 0) as Hr by apply run_ops_steps.
  destruct (store_indexes_exact ex_store 0 Hr) as [_ H2].
  split; [done|]. split; [by vm_compute|].
  apply (H2 eq_refl "backend" "web" ("infra", "edge")).
  exists (http_view ex_route). split_and!.
  - left. exists "apps/shop", ex_route. split; [by vm_compute|done].
  - exists ex_backend. split_and!; [left|done..].
  - exists ex_parent. split_and!; [left|done..].
Defined.

(** ** Readiness *)

(** The classes a history of writes has marked as listed. *)
Definition listed_of (ops : list StoreOp) : gset ResourceClass :=
  list_to_set (omap (λ op, match op with OpMarkListed rc => Some rc | _ => None end) ops).

Lemma elem_of_listed_of ops rc : rc ∈ listed_of ops ↔ OpMarkListed rc ∈ ops.
Proof.
  unfold listed_of. rewrite elem_of_list_to_set, list_elem_of_omap. split.
  - intros (op&Hop&H). by destruct op; simplify_eq.
  - intros H. by exists (OpMarkListed rc).
Qed.

Lemma complete_true listed : WarmingProgress_is_complete listed = true ↔ ∀ rc, rc ∈ listed.
Proof.
  unfold WarmingProgress_is_complete. rewrite forallb_true. setoid_rewrite bool_decide_eq_true. split.
  - intros H rc. apply H. destruct rc; set_solver.
  - auto.
Qed.

Definition phase_of (listed : gset ResourceClass) : StorePhase :=
  if WarmingProgress_is_complete listed then Ready else Warming listed.

Lemma run_ops_phase ops :
  OpMarkReady ∉ ops → si_phase (ss_inner (run_ops ops SharedStore_new)) = phase_of (listed_of ops).
Proof.
  induction ops as [|op ops IH] using rev_ind; [done|]. intros Hno.
  unfold run_ops. rewrite foldl_app. cbn. fold (run_ops ops SharedStore_new).
  assert (listed_of (ops ++ [op]) = listed_of [op] ∪ listed_of ops) as ->.
  { unfold listed_of. rewrite omap_app, list_to_set_app_L. set_solver. }
  specialize (IH ltac:(set_solver)).
  assert ((∃ rc, op = OpMarkListed rc) ∨ listed_of [op] = ∅ ∧ ∀ rc, op ≠ OpMarkListed rc) as [[rc ->]|[-> Hop]]
    by (destruct op; eauto; right; done); cbn [apply_op]; swap 1 2.
  - rewrite union_empty_l_L, <-IH. destruct op; try done; [naive_solver|set_solver].
  - replace (listed_of [OpMarkListed rc]) with ({[rc]} : gset ResourceClass) by (cbn; set_solver).
    unfold mark_listed. rewrite IH. unfold phase_of at 1.
    destruct (WarmingProgress_is_complete (listed_of ops)) eqn:E; [|done].
    rewrite IH. unfold phase_of. rewrite E.
    assert (WarmingProgress_is_complete ({[rc]} ∪ listed_of ops) = true) as ->; [|done].
    apply complete_true. intros rc'. apply elem_of_union_r. revert rc'. by apply complete_true.
Qed.

(** Planners never see a partly filled store.  After any sequence of writes
    other than [mark_ready], the planner snapshot is available exactly when each of
    the nine resource classes has completed its list, and it is then the store's
    current contents; the lighter [snapshot] is available exactly when the gateways
    were listed. *)
Theorem planner_snapshot_gated ops :
  OpMarkReady ∉ ops →
  let s := run_ops ops SharedStore_new in
  ((∀ rc, OpMarkListed rc ∈ ops) ∧ planner_snapshot s = SnapReady (to_planner_snapshot (ss_inner s)) ∨
   (∃ rc, OpMarkListed rc ∉ ops) ∧ planner_snapshot s = NotReady) ∧
  (is_Some (snapshot s) ↔ OpMarkListed Gateways ∈ ops).
Proof.
  intros Hno s. pose proof (run_ops_phase ops Hno) as Hp. fold s in Hp.
  unfold planner_snapshot, is_complete, snapshot, class_listed. rewrite Hp. unfold phase_of.
  destruct (WarmingProgress_is_complete (listed_of ops)) eqn:E; cbn.
  - assert (∀ rc, OpMarkListed rc ∈ ops) as Hall by (intros rc; rewrite <-elem_of_listed_of; by apply complete_true).
    split; [by left|]. naive_solver.
  - split.
    + right. split; [|done].
      destruct (decide (Exists (λ rc, rc ∉ listed_of ops) ResourceClass_ALL)) as [Hex|Hn].
      * apply Exists_exists in Hex as (rc&_&Hrc). exists rc. by rewrite <-elem_of_listed_of.
      * rewrite <-not_true_iff_false, complete_true in E. destruct E. intros rc.
        destruct (decide (rc ∈ listed_of ops)) as [|Hrc]; [done|]. destruct Hn. apply Exists_exists.
        exists rc. split; [destruct rc; set_solver|done].
    + rewrite <-elem_of_listed_of. case_bool_decide; cbn; [naive_solver|]. split; [by intros [? ?]|done].
Qed.

Lemma planner_snapshot_gated_witness :
  (OpMarkReady ∉ ex_ops) ∧ is_ready ex_store = true ∧
  planner_snapshot ex_store = SnapReady (to_planner_snapshot (ss_inner ex_store)).
Proof.
  assert (OpMarkReady ∉ ex_ops) as Hno.
  { unfold ex_ops. cbn. rewrite !not_elem_of_cons. split_and!; [done..|apply not_elem_of_nil]. }
  split; [done|]. split; [by vm_compute|].
  destruct (planner_snapshot_gated ex_ops Hno) as [[[_ H]|[[rc Hrc] _]] _]; [exact H|].
  exfalso. apply Hrc. destruct rc; unfold ex_ops; cbn; rewrite !elem_of_cons; naive_solver.
Defined.

(** ** Grant events *)

(** The reverse index files a cross-namespace reference under the name of the
    resource it refers to.  In every settled state, an event on the grant
    [ns/grant_name] reaches no gateway at all unless some cross-namespace reference
    targets a service or a certificate secret that has the grant's own name. *)
Theorem grant_event_reaches_by_referent_name s ns grant_name :
  reachable s 0 →
  (∀ v, has_route (ss_inner s) v → rv_namespace v ≠ ns → ¬ refs_service v ns grant_name) →
  (∀ k g, si_gateways (ss_inner s) !! k = Some g → ns_or_default (gw_metadata g) ≠ ns → ¬ refs_secret g ns grant_name) →
  gateways_for_reference_grant (ss_reverse_index s) ns grant_name = [].
Proof.
  intros [_ H2]%reachable_current Hr Hs. cbn [fst snd] in H2. rewrite (H2 eq_refl).
  apply elem_of_nil_inv. intros gw. unfold gateways_for_reference_grant.
  rewrite elem_of_gateways_for_key, rebuild_grant_spec. cbn.
  intros [(v&Hv&Href&_&Hne)|(k&g&Hg&Href&_&Hne)]; [by eapply Hr|by eapply Hs].
Qed.

(** The grant [backend/allow-apps] that permits the route's reference reaches no
    gateway; a grant named [web], like the service, would. *)
Lemma grant_event_reaches_by_referent_name_witness :
  gateways_for_reference_grant (ss_reverse_index ex_store) "backend" "allow-apps" = [] ∧
  gateways_for_reference_grant (ss_reverse_index ex_store) "backend" "web" = [("infra", "edge")].
Proof.
  split; [|by vm_compute].
  assert (∀ v, has_route (ss_inner ex_store) v → v = http_view ex_route) as Hroutes.
  { intros v [(k&r&Hk&->)|[(k&r&Hk&->)|(k&r&Hk&->)]].
    - replace (si_http_routes (ss_inner ex_store)) with ({["apps/shop" := ex_route]} : gmap string HTTPRoute) in Hk by done.
      apply lookup_singleton_Some in Hk as [_ <-]. done.
    - by replace (si_tcp_routes (ss_inner ex_store)) with (∅ : gmap string TCPRoute) in Hk by done.
    - by replace (si_tls_routes (ss_inner ex_store)) with (∅ : gmap string TLSRoute) in Hk by done. }
  apply (grant_event_reaches_by_referent_name ex_store "backend" "allow-apps").
  - apply run_ops_steps.
  - intros v ->%Hroutes _ (br&Hbr&_&_&Hn). cbn in Hbr. apply list_elem_of_singleton in Hbr as ->. done.
  - intros k g Hg _ (l&c&Hl&Hc&_&Hn).
    replace (si_gateways (ss_inner ex_store)) with ({["infra/edge" := ex_gateway]} : gmap string Gateway) in Hg by done.
    apply lookup_singleton_Some in Hg as [_ <-]. cbn in Hl. apply list_elem_of_singleton in Hl as ->.
    cbn in Hc. apply list_elem_of_singleton in Hc as ->. done.
Defined.

(** ** What planners read *)

Section routes_of_list.
Context {R : Type} (meta : R → ObjectMeta) (parent_refs : R → list ParentReference).

(** Objects the API server stores carry a name and a namespace. *)
Definition named (r : R) : Prop := is_Some (om_namespace (meta r)) ∧ is_Some (om_name (meta r)).

Lemma named_key_inj r r' : named r → named r' → ns_name_key (meta r) = ns_name_key (meta r') →
  meta_key (meta r) = meta_key (meta r').
Proof.
  unfold named, ns_name_key, meta_key, ns_or_default, name_or_empty.
  intros [[n ->] [m ->]] [[n' ->] [m' ->]]. done.
Qed.

Lemma routes_of_list_order (m : gmap string R) gns gname l :
  keyed meta m → (∀ r, r ∈ values m → named r) → l ≡ₚ values m →
  routes_of_list meta parent_refs gns gname l = routes_of_list meta parent_refs gns gname (values m).
Proof.
  intros Hk Hn Hp. unfold routes_of_list, sort_by_key. apply sort_by_unique; [apply _| |by rewrite Hp].
  intros x y [_ Hx]%list_elem_of_filter [_ Hy]%list_elem_of_filter Hxy. rewrite Hp in Hx, Hy.
  apply (cmp_eq (cmp := pair_cmp str_cmp str_cmp)) in Hxy.
  eapply keyed_inj; [done..|]. apply named_key_inj; auto.
Qed.

Lemma elem_of_routes_of_list (m : gmap string R) gns gname r :
  r ∈ routes_of_list meta parent_refs gns gname (values m) ↔
  (∃ k, m !! k = Some r) ∧ ∃ p, p ∈ parent_refs r ∧ parent_is_gateway p = true ∧
    (gns, gname) = (unwrap_or (ns_or_default (meta r)) (pr_namespace p), pr_name p).
Proof.
  unfold routes_of_list, sort_by_key. rewrite elem_of_sort_by, list_elem_of_filter, elem_of_values.
  rewrite route_references_gateway_spec, elem_of_route_parent_gateways. tauto.
Qed.
End routes_of_list.

(** A planner's list of the HTTP routes of a gateway holds exactly the stored
    routes with a parent reference to it, is sorted, and is the same list whatever
    order the hash map yields its entries in. *)
Theorem http_routes_for_gateway_spec p gns gname :
  keyed hr_metadata (ps_http_routes p) →
  (∀ k r, ps_http_routes p !! k = Some r → named hr_metadata r) →
  (∀ r, r ∈ http_routes_for_gateway p gns gname ↔
        (∃ k, ps_http_routes p !! k = Some r) ∧ has_parent (http_view r) (gns, gname)) ∧
  StronglySorted (cmp_le (by_key (λ r, ns_name_key (hr_metadata r)) (pair_cmp str_cmp str_cmp)))
    (http_routes_for_gateway p gns gname) ∧
  (∀ l, l ≡ₚ values (ps_http_routes p) →
        routes_of_list hr_metadata (λ r, hrs_parent_refs (hr_spec r)) gns gname l = http_routes_for_gateway p gns gname).
Proof.
  intros Hk Hn. split_and!.
  - intros r. apply elem_of_routes_of_list.
  - apply sort_by_sorted. apply _.
  - intros l Hl. apply routes_of_list_order; [done| |done].
    intros r [k Hr]%elem_of_values. eauto.
Qed.

Lemma http_routes_for_gateway_spec_witness :
  ex_route ∈ http_routes_for_gateway (to_planner_snapshot (ss_inner ex_store)) "infra" "edge".
Proof.
  assert (ps_http_routes (to_planner_snapshot (ss_inner ex_store)) = {["apps/shop" := ex_route]}) as E by done.
  apply (http_routes_for_gateway_spec (to_planner_snapshot (ss_inner ex_store)) "infra" "edge").
  - rewrite E. apply map_Forall_singleton. done.
  - intros k r. rewrite E. intros [_ <-]%lookup_singleton_Some. by split; eexists.
  - split; [exists "apps/shop"; by rewrite E|]. exists ex_parent. split_and!; [left|done..].
Defined.
