(* ===== verification/Attachment.v ===== *)
(** * The attachment planner (reconcilers/attachment_planner.rs)

    Which routes attach to which listeners of a gateway: the pure planner that
    evaluates every parent reference against the listeners, checks the listener's
    policies and the route's backend references, and counts the attached routes. *)

From S2P Require Import Prelude Str Order Num Crds Store HttpRouting.
From Stdlib Require Import Ascii.

(** ** contracts.rs *)

Inductive PlanError :=
| MissingField (field : string)
| InvalidInput (reason : string)
| StoreNotReady
| ReferenceNotPermitted (from_ns from_kind to_ns to_name : string).

(** ** Data *)

Record AttachmentPlanInput := mkAttachmentPlanInput {
  api_gateway_namespace : string;
  api_gateway_name : string;
  api_gateway_generation : Z;
  api_snapshot : PlannerSnapshot
}.

Inductive RouteKind := KHTTPRoute | KTCPRoute | KTLSRoute.

Definition RouteKind_as_str (k : RouteKind) : string :=
  match k with KHTTPRoute => "HTTPRoute" | KTCPRoute => "TCPRoute" | KTLSRoute => "TLSRoute" end.

Definition to_route_group_kind (k : RouteKind) : RouteGroupKind :=
  mkRouteGroupKind GATEWAY_API_GROUP (RouteKind_as_str k).

(** The derived [Ord]: declaration order. *)
Definition RouteKind_rank (k : RouteKind) : N :=
  match k with KHTTPRoute => 0 | KTCPRoute => 1 | KTLSRoute => 2 end.
Definition RouteKind_cmp : RouteKind → RouteKind → comparison := by_key RouteKind_rank N.compare.

Inductive AttachmentStatus :=
| Attached
| NoMatchingParent
| NotAllowedByListenerProtocol
| NotAllowedByListenerNamespacePolicy
| NotAllowedByListenerKindPolicy
| NoMatchingListenerHostname
| RefNotPermitted (route_namespace target_namespace target_name : string)
| BackendNotFound (route_namespace target_namespace target_name : string).

Definition is_attached (s : AttachmentStatus) : bool :=
  match s with Attached | RefNotPermitted _ _ _ | BackendNotFound _ _ _ => true | _ => false end.

Definition accepted_reason (s : AttachmentStatus) : string :=
  match s with
  | Attached | RefNotPermitted _ _ _ | BackendNotFound _ _ _ => "Accepted"
  | NoMatchingParent => "NoMatchingParent"
  | NotAllowedByListenerProtocol => "NotAllowedByListenerProtocol"
  | NotAllowedByListenerNamespacePolicy => "NotAllowedByListenerNamespacePolicy"
  | NotAllowedByListenerKindPolicy => "NotAllowedByListenerKindPolicy"
  | NoMatchingListenerHostname => "NoMatchingListenerHostname"
  end.

Definition resolved_refs_reason (s : AttachmentStatus) : option string :=
  match s with
  | RefNotPermitted _ _ _ => Some "RefNotPermitted"
  | BackendNotFound _ _ _ => Some "BackendNotFound"
  | _ => None
  end.

Record RouteAttachmentResult := mkRouteAttachmentResult {
  rar_route_namespace : string;
  rar_route_name : string;
  rar_route_kind : RouteKind;
  rar_listener_name : option string;
  rar_parent_ref_section_name : option string;
  rar_parent_ref_port : option N;
  rar_status : AttachmentStatus;
  rar_observed_generation : Z
}.

Record ListenerAttachmentSummary := mkListenerAttachmentSummary {
  las_listener_name : string;
  las_attached_routes : N;
  las_supported_kinds : list RouteGroupKind;
  las_listener_accepted : bool;
  las_listener_rejection_reason : option string
}.

Record AttachmentPlan := mkAttachmentPlan {
  ap_gateway_namespace : string;
  ap_gateway_name : string;
  ap_gateway_generation : Z;
  ap_route_results : list RouteAttachmentResult;
  ap_listener_summaries : list ListenerAttachmentSummary
}.

Definition listener_summary (p : AttachmentPlan) (listener_name : string) : option ListenerAttachmentSummary :=
  find_first (λ s, String.eqb (las_listener_name s) listener_name) (ap_listener_summaries p).

Definition results_for_listener (p : AttachmentPlan) (listener_name : string) (include_gateway_wide : bool)
    : list RouteAttachmentResult :=
  filter (λ r, match rar_listener_name r with
               | Some ln => String.eqb ln listener_name
               | None => include_gateway_wide
               end = true) (ap_route_results p).

Definition result_for_route_parent_ref (p : AttachmentPlan) (route_namespace route_name section_name : string)
    (port : option N) : option RouteAttachmentResult :=
  find_first (λ r, String.eqb (rar_route_namespace r) route_namespace
                   && String.eqb (rar_route_name r) route_name
                   && bool_decide (rar_parent_ref_section_name r = Some section_name)
                   && bool_decide (rar_parent_ref_port r = port)) (ap_route_results p).

(** ** The checks *)

Definition parent_ref_targets_gateway (route_namespace : string) (p : ParentReference)
    (gateway_namespace gateway_name : string) : bool :=
  (is_empty_str (pr_group p) || String.eqb (pr_group p) GATEWAY_API_GROUP)
  && String.eqb (pr_kind p) "Gateway"
  && String.eqb (unwrap_or route_namespace (pr_namespace p)) gateway_namespace
  && String.eqb (pr_name p) gateway_name.

Definition listener_acceptance (protocol : ProtocolType) : bool * option string * list RouteGroupKind :=
  match protocol with
  | HTTP | HTTPS => (true, None, [mkRouteGroupKind GATEWAY_API_GROUP "HTTPRoute"])
  | TCP => (true, None, [mkRouteGroupKind GATEWAY_API_GROUP "TCPRoute"])
  | TLS => (true, None, [mkRouteGroupKind GATEWAY_API_GROUP "TLSRoute"])
  | UDP => (false, Some "UnsupportedProtocol: UDP listeners are not supported by this controller", [])
  end.

Definition is_protocol_compatible_http (p : ProtocolType) : bool := match p with HTTP | HTTPS => true | _ => false end.
Definition is_protocol_compatible_tcp (p : ProtocolType) : bool := match p with TCP => true | _ => false end.
Definition is_protocol_compatible_tls (p : ProtocolType) : bool := match p with TLS => true | _ => false end.

(** One direction of the wildcard test: [Some v] when it decides. *)
Definition wildcard_covers (a b : string) : option bool :=
  match strip_prefix "*." a with
  | Some a_suffix =>
      if negb (starts_with "*." b) then
        match strip_suffix ("." +:+ a_suffix) b with
        | Some label => Some (negb (is_empty_str label) && negb (contains_char "." label))
        | None => None
        end
      else None
  | None => None
  end.

Definition hostname_intersects (a b : string) : bool :=
  if String.eqb a b then true
  else match wildcard_covers a b with
       | Some v => v
       | None => match wildcard_covers b a with Some v => v | None => false end
       end.

Definition hostnames_compatible (listener_hostname : option string) (route_hostnames : list string) : bool :=
  match listener_hostname with
  | None => true
  | Some h =>
      if is_empty_str h then true
      else if is_empty route_hostnames then true
      else existsb (hostname_intersects h) route_hostnames
  end.

Definition requirement_matches (labels : gmap string string) (req : LabelSelectorRequirement) : bool :=
  if String.eqb (lr_operator req) "In" then
    match labels !! lr_key req with Some v => existsb (λ rv, String.eqb rv v) (lr_values req) | None => false end
  else if String.eqb (lr_operator req) "NotIn" then
    match labels !! lr_key req with Some v => negb (existsb (λ rv, String.eqb rv v) (lr_values req)) | None => true end
  else if String.eqb (lr_operator req) "Exists" then is_some (labels !! lr_key req)
  else if String.eqb (lr_operator req) "DoesNotExist" then negb (is_some (labels !! lr_key req))
  else false.

Definition label_selector_matches (selector : LabelSelector) (labels : gmap string string) : bool :=
  if match ls_match_labels selector with
     | Some required =>
         negb (is_empty (map_to_list required))
         && negb (forallb (λ '(k, v), match labels !! k with Some lv => String.eqb lv v | None => false end)
                    (map_to_list required))
     | None => false
     end then false
  else forallb (requirement_matches labels) (ls_match_expressions selector).

Definition namespace_allowed (allowed_routes : option AllowedRoutes) (gateway_namespace route_namespace : string)
    (namespace_labels : gmap string (gmap string string)) : bool :=
  let ns_config := allowed_routes ≫= ar_namespaces in
  match unwrap_or FromSame (rn_from <$> ns_config) with
  | FromAll => true
  | FromSame => String.eqb route_namespace gateway_namespace
  | FromSelector =>
      match ns_config ≫= rn_selector with
      | None => false
      | Some sel =>
          let labels := default ∅ (namespace_labels !! route_namespace) in
          label_selector_matches sel (<["kubernetes.io/metadata.name" := route_namespace]> labels)
      end
  end.

Definition kind_allowed (allowed_routes : option AllowedRoutes) (route_kind : RouteKind) : bool :=
  let kinds := unwrap_or [] (ar_kinds <$> allowed_routes) in
  if is_empty kinds then true
  else existsb (λ k, (is_empty_str (gk_group k) || String.eqb (gk_group k) GATEWAY_API_GROUP)
                     && String.eqb (gk_kind k) (RouteKind_as_str route_kind)) kinds.

(** One pass of the loop over the backend references: [Some] is the early return. *)
Definition backend_ref_problem (route_namespace route_kind_str : string) (snapshot : PlannerSnapshot) (br : BackendRef)
    : option AttachmentStatus :=
  if negb (is_empty_str (br_kind br) || String.eqb (br_kind br) "Service") || negb (is_empty_str (br_group br)) then None
  else
    let target_ns := match br_namespace br with Some ns => ns | None => route_namespace end in
    if String.eqb target_ns route_namespace
       && negb (bool_decide (key target_ns (br_name br) ∈ ps_service_presence snapshot))
    then Some (BackendNotFound route_namespace target_ns (br_name br))
    else if String.eqb target_ns route_namespace then None
    else if negb (existsb (λ g, allows_service_reference g GATEWAY_API_GROUP route_kind_str route_namespace (Some (br_name br)))
                    (reference_grants_in_namespace snapshot target_ns))
    then Some (RefNotPermitted route_namespace target_ns (br_name br))
    else None.

Fixpoint first_unresolved_backend_ref_for_kind (route_namespace route_kind_str : string) (backend_refs : list BackendRef)
    (snapshot : PlannerSnapshot) : option AttachmentStatus :=
  match backend_refs with
  | [] => None
  | br :: backend_refs' =>
      match backend_ref_problem route_namespace route_kind_str snapshot br with
      | Some s => Some s
      | None => first_unresolved_backend_ref_for_kind route_namespace route_kind_str backend_refs' snapshot
      end
  end.

(** ** Evaluation of one parent reference *)

Record RouteEvalContext := mkRouteEvalContext {
  rec_gateway : Gateway;
  rec_route_namespace : string;
  rec_route_name : string;
  rec_route_kind : RouteKind;
  rec_route_hostnames : list string;
  rec_section_name : option string;
  rec_parent_ref_port : option N;
  rec_snapshot : PlannerSnapshot;
  rec_backend_refs : list BackendRef;
  rec_observed_generation : Z;
  rec_protocol_compat : ProtocolType → bool;
  rec_check_hostname_compat : bool
}.

(** The result the code builds at each of its exits. *)
Definition result_of (ctx : RouteEvalContext) (listener_name section_name : option string) (status : AttachmentStatus)
    : RouteAttachmentResult :=
  mkRouteAttachmentResult (rec_route_namespace ctx) (rec_route_name ctx) (rec_route_kind ctx) listener_name section_name
    (rec_parent_ref_port ctx) status (rec_observed_generation ctx).

(** The checks of one listener, in the order of the loop body. *)
Definition listener_status (ctx : RouteEvalContext) (l : Listener) : AttachmentStatus :=
  if negb (rec_protocol_compat ctx (li_protocol l)) then NotAllowedByListenerProtocol
  else if negb (namespace_allowed (li_allowed_routes l) (ns_or_default (gw_metadata (rec_gateway ctx)))
                  (rec_route_namespace ctx) (ps_namespace_labels (rec_snapshot ctx)))
  then NotAllowedByListenerNamespacePolicy
  else if negb (kind_allowed (li_allowed_routes l) (rec_route_kind ctx)) then NotAllowedByListenerKindPolicy
  else if rec_check_hostname_compat ctx && negb (hostnames_compatible (li_hostname l) (rec_route_hostnames ctx))
  then NoMatchingListenerHostname
  else match first_unresolved_backend_ref_for_kind (rec_route_namespace ctx) (RouteKind_as_str (rec_route_kind ctx))
               (rec_backend_refs ctx) (rec_snapshot ctx) with
       | Some status => status
       | None => Attached
       end.

Definition evaluate_listeners (ctx : RouteEvalContext) (listeners_to_check : list Listener) : list RouteAttachmentResult :=
  if is_empty listeners_to_check then [result_of ctx None None NoMatchingParent]
  else (λ l, result_of ctx (Some (li_name l)) (rec_section_name ctx) (listener_status ctx l)) <$> listeners_to_check.

Definition evaluate_route_attachment_inner (ctx : RouteEvalContext) : list RouteAttachmentResult :=
  match rec_section_name ctx with
  | Some sn =>
      match find_first (λ l, String.eqb (li_name l) sn) (gw_listeners (rec_gateway ctx)) with
      | Some l =>
          if match rec_parent_ref_port ctx with Some ref_port => negb (li_port l =? ref_port)%N | None => false end
          then [result_of ctx (Some sn) (Some sn) NoMatchingParent]
          else evaluate_listeners ctx [l]
      | None => [result_of ctx (Some sn) (Some sn) NoMatchingParent]
      end
  | None =>
      evaluate_listeners ctx
        (filter (λ l, match rec_parent_ref_port ctx with Some p => (li_port l =? p)%N | None => true end = true)
           (gw_listeners (rec_gateway ctx)))
  end.

Definition http_eval_context (g : Gateway) (route_namespace route_name : string) (section_name : option string)
    (port : option N) (snapshot : PlannerSnapshot) (route : HTTPRoute) (observed_generation : Z) : RouteEvalContext :=
  mkRouteEvalContext g route_namespace route_name KHTTPRoute (hrs_hostnames (hr_spec route)) section_name port snapshot
    (HTTPRoute_backend_refs route) observed_generation is_protocol_compatible_http true.
Definition tcp_eval_context (g : Gateway) (route_namespace route_name : string) (section_name : option string)
    (port : option N) (snapshot : PlannerSnapshot) (route : TCPRoute) (observed_generation : Z) : RouteEvalContext :=
  mkRouteEvalContext g route_namespace route_name KTCPRoute [] section_name port snapshot
    (TCPRoute_backend_refs route) observed_generation is_protocol_compatible_tcp false.
Definition tls_eval_context (g : Gateway) (route_namespace route_name : string) (section_name : option string)
    (port : option N) (snapshot : PlannerSnapshot) (route : TLSRoute) (observed_generation : Z) : RouteEvalContext :=
  mkRouteEvalContext g route_namespace route_name KTLSRoute (lrs_hostnames (lr_spec route)) section_name port snapshot
    (TLSRoute_backend_refs route) observed_generation is_protocol_compatible_tls true.

Definition evaluate_http_route_attachment g rns rname section port snapshot route generation :=
  evaluate_route_attachment_inner (http_eval_context g rns rname section port snapshot route generation).
Definition evaluate_tcp_route_attachment g rns rname section port snapshot route generation :=
  evaluate_route_attachment_inner (tcp_eval_context g rns rname section port snapshot route generation).
Definition evaluate_tls_route_attachment g rns rname section port snapshot route generation :=
  evaluate_route_attachment_inner (tls_eval_context g rns rname section port snapshot route generation).

(** ** The plan *)

(** [listener_attached]: listener name to the keys of its routes. *)
Notation AttachedSets := (gmap string (gset string)).

(** [if let Some(set) = listener_attached.get_mut(ln) { set.insert(route_key) }]. *)
Definition insert_attached (ln route_key : string) (m : AttachedSets) : AttachedSets :=
  alter (λ s, {[route_key]} ∪ s) ln m.

Definition count_result (listeners : list Listener) (compat : ProtocolType → bool) (route_key : string)
    (m : AttachedSets) (r : RouteAttachmentResult) : AttachedSets :=
  if is_attached (rar_status r) then
    match rar_listener_name r with
    | Some ln => insert_attached ln route_key m
    | None => foldl (λ m l, if compat (li_protocol l) then insert_attached (li_name l) route_key m else m) m listeners
    end
  else m.

(** The accumulators of the three route loops. *)
Notation PlanAcc := (AttachedSets * list RouteAttachmentResult)%type.

(** The loop over the parent references of one route; [evaluate] is the
    evaluation for its kind. *)
Definition plan_route (input : AttachmentPlanInput) (g : Gateway) (compat : ProtocolType → bool)
    (evaluate : option string → option N → list RouteAttachmentResult)
    (route_ns route_name : string) (parent_refs : list ParentReference) (acc : PlanAcc) : PlanAcc :=
  foldl (λ acc p,
    if negb (parent_ref_targets_gateway route_ns p (api_gateway_namespace input) (api_gateway_name input)) then acc
    else
      let results := evaluate (pr_section_name p) (pr_port p) in
      (foldl (count_result (gw_listeners g) compat (route_ns +:+ "/" +:+ route_name)) acc.1 results, acc.2 ++ results))
    acc parent_refs.

Definition plan_http_route (input : AttachmentPlanInput) (g : Gateway) (acc : PlanAcc) (r : HTTPRoute) : PlanAcc :=
  let route_ns := ns_or_default (hr_metadata r) in
  let route_name := name_or_empty (hr_metadata r) in
  plan_route input g is_protocol_compatible_http
    (λ section port, evaluate_http_route_attachment g route_ns route_name section port (api_snapshot input) r
                       (api_gateway_generation input))
    route_ns route_name (hrs_parent_refs (hr_spec r)) acc.
Definition plan_tcp_route (input : AttachmentPlanInput) (g : Gateway) (acc : PlanAcc) (r : TCPRoute) : PlanAcc :=
  let route_ns := ns_or_default (tr_metadata r) in
  let route_name := name_or_empty (tr_metadata r) in
  plan_route input g is_protocol_compatible_tcp
    (λ section port, evaluate_tcp_route_attachment g route_ns route_name section port (api_snapshot input) r
                       (api_gateway_generation input))
    route_ns route_name (trs_parent_refs (tr_spec r)) acc.
Definition plan_tls_route (input : AttachmentPlanInput) (g : Gateway) (acc : PlanAcc) (r : TLSRoute) : PlanAcc :=
  let route_ns := ns_or_default (lr_metadata r) in
  let route_name := name_or_empty (lr_metadata r) in
  plan_route input g is_protocol_compatible_tls
    (λ section port, evaluate_tls_route_attachment g route_ns route_name section port (api_snapshot input) r
                       (api_gateway_generation input))
    route_ns route_name (lrs_parent_refs (lr_spec r)) acc.

(** The order of the results. *)
Definition result_key (r : RouteAttachmentResult) : string * (string * (RouteKind * (option string * option N))) :=
  (rar_route_namespace r, (rar_route_name r, (rar_route_kind r, (rar_listener_name r, rar_parent_ref_port r)))).
Definition result_key_cmp :=
  pair_cmp str_cmp (pair_cmp str_cmp (pair_cmp RouteKind_cmp (pair_cmp (option_cmp str_cmp) (option_cmp N.compare)))).

(** [s.len() as u32]. *)
Definition as_u32 (n : nat) : N := (N.of_nat n mod 2 ^ 32)%N.

Definition summary_of (m : AttachedSets) (l : Listener) : ListenerAttachmentSummary :=
  let '(accepted, rejection_reason, supported_kinds) := listener_acceptance (li_protocol l) in
  mkListenerAttachmentSummary (li_name l)
    (unwrap_or 0%N ((λ s : gset string, as_u32 (size s)) <$> m !! li_name l))
    supported_kinds accepted rejection_reason.

Definition plan (input : AttachmentPlanInput) : result PlanError AttachmentPlan :=
  let snapshot := api_snapshot input in
  ok_or (MissingField "gateway (not found in snapshot)")
    (gateway snapshot (api_gateway_namespace input) (api_gateway_name input)) ≫= λ g,
  let listener_attached : AttachedSets := foldl (λ m l, <[li_name l := ∅]> m) ∅ (gw_listeners g) in
  let acc := (listener_attached, []) in
  let acc := foldl (plan_http_route input g) acc
               (http_routes_for_gateway snapshot (api_gateway_namespace input) (api_gateway_name input)) in
  let acc := foldl (plan_tcp_route input g) acc
               (tcp_routes_for_gateway snapshot (api_gateway_namespace input) (api_gateway_name input)) in
  let acc := foldl (plan_tls_route input g) acc
               (tls_routes_for_gateway snapshot (api_gateway_namespace input) (api_gateway_name input)) in
  Ok (mkAttachmentPlan (api_gateway_namespace input) (api_gateway_name input) (api_gateway_generation input)
        (sort_by_key result_key result_key_cmp acc.2)
        (sort_by_key las_listener_name str_cmp (summary_of acc.1 <$> gw_listeners g))).

(** ** Hostnames *)

Lemma wildcard_covers_true a b :
  wildcard_covers a b = Some true ↔
  ∃ suffix label, a = "*." +:+ suffix ∧ strip_prefix "*." b = None ∧ b = label +:+ "." +:+ suffix ∧
                  label ≠ "" ∧ contains_char "." label = false.
Proof.
  unfold wildcard_covers. split.
  - destruct (strip_prefix "*." a) as [sfx|] eqn:Ea; [|done]. rewrite starts_with_strip.
    destruct (strip_prefix "*." b) eqn:Eb; cbn [is_some negb]; [done|].
    destruct (strip_suffix _ b) as [label|] eqn:El; [|done]. intros [= H]. destruct_bools.
    apply strip_prefix_Some in Ea. apply strip_suffix_Some in El. apply is_empty_str_false in H. eauto 10.
  - intros (sfx&label&->&Eb&Hb&Hne&Hdot).
    rewrite strip_prefix_app, starts_with_strip, Eb. cbn [is_some negb]. rewrite Hb, strip_suffix_app.
    apply is_empty_str_false in Hne. by rewrite Hne, Hdot.
Qed.

Lemma wildcard_covers_sides a b : is_Some (wildcard_covers a b) → wildcard_covers b a = None.
Proof.
  unfold wildcard_covers. intros [v H]. rewrite starts_with_strip in *.
  destruct (strip_prefix "*." a) eqn:Ea; [|done]. destruct (strip_prefix "*." b) eqn:Eb; [|done]. done.
Qed.

Lemma hostname_intersects_true a b :
  hostname_intersects a b = true ↔ a = b ∨ wildcard_covers a b = Some true ∨ wildcard_covers b a = Some true.
Proof.
  unfold hostname_intersects. destruct (String.eqb_spec a b) as [->|Hne]; [naive_solver|].
  pose proof (wildcard_covers_sides a b) as Hs.
  destruct (wildcard_covers a b) as [v|] eqn:E.
  - rewrite Hs by eauto. naive_solver.
  - destruct (wildcard_covers b a); naive_solver.
Qed.

(** A plain host name, as the API server validates it. *)
Definition plain_name (s : string) : Prop := to_lowercase s = s ∧ contains_char ":" s = false.

Lemma plain_name_host s : plain_name s → split_first ":" (to_lowercase s) = s.
Proof. intros [-> H]. by apply split_first_id. Qed.

Lemma plain_wildcard suffix : plain_name ("*." +:+ suffix) → to_lowercase suffix = suffix ∧ contains_char ":" suffix = false.
Proof.
  intros [Hl Hc]. rewrite contains_char_app in Hc. destruct_bools. split; [|done].
  rewrite to_lowercase_app in Hl. by apply app_str_inj_l in Hl.
Qed.

(** A name under a wildcard satisfies both host rules. *)
Lemma wildcard_covers_rule a b :
  plain_name a → plain_name b → wildcard_covers a b = Some true → host_rule a b ∧ host_rule b b.
Proof.
  intros Ha Hb (sfx&label&->&Eb&Hlab&Hne&Hdot)%wildcard_covers_true. unfold host_rule.
  rewrite strip_prefix_app, Eb, plain_name_host by done. destruct Hb as [Hbl _]. split; [|congruence].
  apply plain_wildcard in Ha as [Hs _]. rewrite Hs. eauto.
Qed.

Lemma host_rules_overlap a b host :
  plain_name a → plain_name b → host_rule a host → host_rule b host →
  a = b ∨ wildcard_covers a b = Some true ∨ wildcard_covers b a = Some true.
Proof.
  intros Ha Hb. unfold host_rule. set (name := split_first ":" (to_lowercase host)).
  destruct (strip_prefix "*." a) as [s1|] eqn:Ea, (strip_prefix "*." b) as [s2|] eqn:Eb.
  - apply strip_prefix_Some in Ea as ->, Eb as ->.
    apply plain_wildcard in Ha as [Hs1 _], Hb as [Hs2 _]. rewrite Hs1, Hs2.
    intros (l1&_&Hd1&E1) (l2&_&Hd2&E2). left.
    assert (split_once "." name = Some (l1, s1)) as H1 by (by apply split_once_Some).
    assert (split_once "." name = Some (l2, s2)) as H2 by (by apply split_once_Some). congruence.
  - intros (l&Hne&Hd&E1) E2. right; left. apply strip_prefix_Some in Ea as ->.
    apply plain_wildcard in Ha as [Hs1 _]. destruct Hb as [Hb _].
    apply wildcard_covers_true. exists s1, l. split_and!; [done..| |done|done]. congruence.
  - intros E1 (l&Hne&Hd&E2). right; right. apply strip_prefix_Some in Eb as ->.
    apply plain_wildcard in Hb as [Hs1 _]. destruct Ha as [Ha _].
    apply wildcard_covers_true. exists s2, l. split_and!; [done..| |done|done]. congruence.
  - intros E1 E2. left. destruct Ha, Hb. congruence.
Qed.

(** C37: the controller and the proxy agree on hostnames.  For two host patterns
    that the proxy's router compiles, the planner says that the listener and the
    route hostname intersect exactly when there is a request host that both compiled
    matchers accept. *)
Theorem hostname_intersects_data_plane a b ma mb :
  plain_name a → plain_name b → HostMatcher_compile a = Ok ma → HostMatcher_compile b = Ok mb →
  hostname_intersects a b = true ↔ ∃ host, HostMatcher_matches ma host = true ∧ HostMatcher_matches mb host = true.
Proof.
  intros Ha Hb Hma Hmb. rewrite hostname_intersects_true.
  setoid_rewrite (λ h, HostMatcher_compile_rule a ma h Hma). setoid_rewrite (λ h, HostMatcher_compile_rule b mb h Hmb).
  split.
  - intros [<-|[H|H]].
    + unfold host_rule. destruct (strip_prefix "*." a) as [sfx|] eqn:E.
      * apply strip_prefix_Some in E as ->. apply plain_wildcard in Ha as [Hs Hc].
        exists ("x" +:+ "." +:+ sfx). assert (split_first ":" (to_lowercase ("x" +:+ "." +:+ sfx)) = "x" +:+ "." +:+ sfx) as ->.
        { apply plain_name_host. split; [by rewrite !to_lowercase_app, Hs|done]. }
        rewrite Hs. split; by exists "x".
      * exists a. rewrite plain_name_host by done. by destruct Ha as [-> _].
    + exists b. by apply wildcard_covers_rule.
    + exists a. destruct (wildcard_covers_rule b a); done.
  - intros (host&H1&H2). by eapply host_rules_overlap.
Qed.

Lemma hostname_intersects_data_plane_witness :
  hostname_intersects "*.example.com" "shop.example.com" = true.
Proof.
  apply (hostname_intersects_data_plane "*.example.com" "shop.example.com"
           (HostMatcher_WildcardPrefix ".example.com") (HostMatcher_Exact "shop.example.com")); [done..|].
  by exists "Shop.Example.com:8443".
Defined.

(** ** What the checks mean *)

Definition requirement_holds (labels : gmap string string) (req : LabelSelectorRequirement) : Prop :=
  (lr_operator req = "In" ∧ ∃ v, labels !! lr_key req = Some v ∧ v ∈ lr_values req) ∨
  (lr_operator req = "NotIn" ∧ ∀ v, labels !! lr_key req = Some v → v ∉ lr_values req) ∨
  (lr_operator req = "Exists" ∧ is_Some (labels !! lr_key req)) ∨
  (lr_operator req = "DoesNotExist" ∧ labels !! lr_key req = None).

Definition selector_holds (sel : LabelSelector) (labels : gmap string string) : Prop :=
  (∀ required, ls_match_labels sel = Some required → required ⊆ labels) ∧
  (∀ req, req ∈ ls_match_expressions sel → requirement_holds labels req).

(** The labels of a namespace, with the one the API server always sets. *)
Definition labels_of (p : PlannerSnapshot) (ns : string) : gmap string string :=
  <["kubernetes.io/metadata.name" := ns]> (default ∅ (ps_namespace_labels p !! ns)).

(** The listener's namespace policy admits routes of [rns]; without one it is [Same]. *)
Definition namespace_policy (p : PlannerSnapshot) (l : Listener) (gns rns : string) : Prop :=
  match li_allowed_routes l ≫= ar_namespaces with
  | None => rns = gns
  | Some c => match rn_from c with
              | FromAll => True
              | FromSame => rns = gns
              | FromSelector => ∃ sel, rn_selector c = Some sel ∧ selector_holds sel (labels_of p rns)
              end
  end.

Definition kind_policy (l : Listener) (k : RouteKind) : Prop :=
  unwrap_or [] (ar_kinds <$> li_allowed_routes l) = [] ∨
  ∃ gk, gk ∈ unwrap_or [] (ar_kinds <$> li_allowed_routes l) ∧
        (gk_group gk = "" ∨ gk_group gk = GATEWAY_API_GROUP) ∧ gk_kind gk = RouteKind_as_str k.

Definition hostname_policy (l : Listener) (hostnames : list string) : Prop :=
  li_hostname l = None ∨ li_hostname l = Some "" ∨ hostnames = [] ∨
  ∃ h rh, li_hostname l = Some h ∧ rh ∈ hostnames ∧ hostname_intersects h rh = true.

(** The listener takes the route. *)
Definition admits (ctx : RouteEvalContext) (l : Listener) : Prop :=
  rec_protocol_compat ctx (li_protocol l) = true ∧
  namespace_policy (rec_snapshot ctx) l (ns_or_default (gw_metadata (rec_gateway ctx))) (rec_route_namespace ctx) ∧
  kind_policy l (rec_route_kind ctx) ∧
  (rec_check_hostname_compat ctx = true → hostname_policy l (rec_route_hostnames ctx)).

(** A core service reference resolves: its service exists in the route's own
    namespace, or a grant in the target namespace permits it. *)
Definition ref_resolved (p : PlannerSnapshot) (rns kind : string) (br : BackendRef) : Prop :=
  is_core_service_ref (br_group br) (br_kind br) = true →
  let target := unwrap_or rns (br_namespace br) in
  (target = rns ∧ key target (br_name br) ∈ ps_service_presence p) ∨
  (target ≠ rns ∧ ∃ k g, ps_reference_grants p !! k = Some g ∧ ns_or_default (rg_metadata g) = target ∧
     grants g GATEWAY_API_GROUP kind rns "" "Service" (br_name br)).

Definition refs_resolved (ctx : RouteEvalContext) : Prop :=
  ∀ br, br ∈ rec_backend_refs ctx →
        ref_resolved (rec_snapshot ctx) (rec_route_namespace ctx) (RouteKind_as_str (rec_route_kind ctx)) br.

Lemma existsb_eqb_elem (v : string) l : existsb (λ rv, String.eqb rv v) l = true ↔ v ∈ l.
Proof. rewrite existsb_true. setoid_rewrite String.eqb_eq. naive_solver. Qed.

Lemma requirement_matches_true labels req : requirement_matches labels req = true ↔ requirement_holds labels req.
Proof.
  unfold requirement_matches, requirement_holds.
  destruct (String.eqb_spec (lr_operator req) "In") as [->|N1].
  { destruct (labels !! lr_key req); [rewrite existsb_eqb_elem|]; naive_solver. }
  destruct (String.eqb_spec (lr_operator req) "NotIn") as [->|N2].
  { destruct (labels !! lr_key req) as [v|].
    - rewrite negb_true_iff, <-not_true_iff_false, existsb_eqb_elem. naive_solver.
    - naive_solver. }
  destruct (String.eqb_spec (lr_operator req) "Exists") as [->|N3]; [rewrite is_some_spec; naive_solver|].
  destruct (String.eqb_spec (lr_operator req) "DoesNotExist") as [->|N4]; [|naive_solver].
  rewrite negb_true_iff, is_some_false. naive_solver.
Qed.

Lemma match_labels_true (required labels : gmap string string) :
  forallb (λ '(k, v), match labels !! k with Some lv => String.eqb lv v | None => false end) (map_to_list required) = true
  ↔ required ⊆ labels.
Proof.
  rewrite forallb_true, map_subseteq_spec. split.
  - intros H k v Hk. specialize (H (k, v)). rewrite elem_of_map_to_list in H. specialize (H Hk). cbn in H.
    destruct (labels !! k); [|done]. apply String.eqb_eq in H. congruence.
  - intros H [k v] Hk%elem_of_map_to_list. rewrite (H _ _ Hk). apply String.eqb_refl.
Qed.

Lemma label_selector_matches_true sel labels : label_selector_matches sel labels = true ↔ selector_holds sel labels.
Proof.
  unfold label_selector_matches, selector_holds.
  assert ((match ls_match_labels sel with
     | Some required => negb (is_empty (map_to_list required))
         && negb (forallb (λ '(k, v), match labels !! k with Some lv => String.eqb lv v | None => false end)
                    (map_to_list required))
     | None => false end = false) ↔ (∀ required, ls_match_labels sel = Some required → required ⊆ labels)) as Hl.
  { destruct (ls_match_labels sel) as [req|]; [|naive_solver].
    rewrite andb_false_iff, !negb_false_iff, match_labels_true, is_empty_true, map_to_list_empty_iff. split.
    - intros [->|H] ? [= <-]; [apply map_empty_subseteq|done].
    - intros H. right. by apply H. }
  destruct (match ls_match_labels sel with Some _ => _ | None => _ end).
  - split; [done|]. intros [H _]. by apply Hl in H.
  - rewrite forallb_true. setoid_rewrite requirement_matches_true. naive_solver.
Qed.

Lemma namespace_allowed_true p l gns rns :
  namespace_allowed (li_allowed_routes l) gns rns (ps_namespace_labels p) = true ↔ namespace_policy p l gns rns.
Proof.
  unfold namespace_allowed, namespace_policy, labels_of.
  destruct (li_allowed_routes l ≫= ar_namespaces) as [c|]; cbn; [|apply String.eqb_eq].
  destruct (rn_from c); [done|apply String.eqb_eq|].
  destruct (rn_selector c); [|naive_solver]. rewrite label_selector_matches_true. naive_solver.
Qed.

Lemma kind_allowed_true l k : kind_allowed (li_allowed_routes l) k = true ↔ kind_policy l k.
Proof.
  unfold kind_allowed, kind_policy. set (kinds := unwrap_or [] (ar_kinds <$> li_allowed_routes l)).
  destruct (is_empty kinds) eqn:E.
  - apply is_empty_true in E. naive_solver.
  - apply is_empty_false in E. rewrite existsb_true. setoid_rewrite andb_true_iff. setoid_rewrite orb_true_iff.
    setoid_rewrite is_empty_str_true. setoid_rewrite String.eqb_eq. naive_solver.
Qed.

Lemma hostnames_compatible_true l hs : hostnames_compatible (li_hostname l) hs = true ↔ hostname_policy l hs.
Proof.
  unfold hostnames_compatible, hostname_policy. destruct (li_hostname l) as [h|]; [|naive_solver].
  destruct (is_empty_str h) eqn:Eh; [apply is_empty_str_true in Eh; naive_solver|apply is_empty_str_false in Eh].
  destruct (is_empty hs) eqn:E; [apply is_empty_true in E; naive_solver|apply is_empty_false in E].
  rewrite existsb_true. naive_solver.
Qed.

Lemma elem_of_reference_grants_in_namespace p ns g :
  g ∈ reference_grants_in_namespace p ns ↔ (∃ k, ps_reference_grants p !! k = Some g) ∧ ns_or_default (rg_metadata g) = ns.
Proof.
  unfold reference_grants_in_namespace, grants_of_list, sort_by_key.
  rewrite elem_of_sort_by, list_elem_of_filter, elem_of_values. tauto.
Qed.

Lemma backend_ref_problem_None p rns kind br : backend_ref_problem rns kind p br = None ↔ ref_resolved p rns kind br.
Proof.
  unfold backend_ref_problem, ref_resolved, is_core_service_ref.
  destruct (is_empty_str (br_group br)); cbn [negb andb]; rewrite ?orb_true_r, ?orb_false_r; [|naive_solver].
  destruct (is_empty_str (br_kind br) || String.eqb (br_kind br) "Service"); cbn [negb]; [|naive_solver].
  replace (match br_namespace br with Some ns => ns | None => rns end) with (unwrap_or rns (br_namespace br))
    by (by destruct (br_namespace br)).
  set (target := unwrap_or rns (br_namespace br)).
  destruct (String.eqb_spec target rns) as [->|Hne]; cbn [andb].
  - case_bool_decide; cbn [negb]; naive_solver.
  - assert (existsb (λ g, allows_service_reference g GATEWAY_API_GROUP kind rns (Some (br_name br)))
              (reference_grants_in_namespace p target) = true ↔
            ∃ k g, ps_reference_grants p !! k = Some g ∧ ns_or_default (rg_metadata g) = target ∧
              grants g GATEWAY_API_GROUP kind rns "" "Service" (br_name br)) as Hg.
    { rewrite existsb_true. setoid_rewrite elem_of_reference_grants_in_namespace.
      unfold allows_service_reference. setoid_rewrite allows_reference_true. naive_solver. }
    destruct (existsb _ _); cbn [negb]; naive_solver.
Qed.

Lemma backend_ref_problem_attached p rns kind br s : backend_ref_problem rns kind p br = Some s → is_attached s = true ∧ s ≠ Attached.
Proof. unfold backend_ref_problem. intros H. repeat case_match; simplify_eq; done. Qed.

Lemma first_unresolved_None p rns kind refs :
  first_unresolved_backend_ref_for_kind rns kind refs p = None ↔ ∀ br, br ∈ refs → ref_resolved p rns kind br.
Proof.
  induction refs as [|br refs IH]; cbn; [set_solver|].
  pose proof (backend_ref_problem_None p rns kind br) as Hb.
  destruct (backend_ref_problem rns kind p br).
  - split; [done|]. intros H. assert (ref_resolved p rns kind br) as Hr by (apply H; set_solver). by apply Hb in Hr.
  - rewrite IH. split.
    + intros H br' [->|]%elem_of_cons; [by apply Hb|auto].
    + intros H br' Hin. apply H. set_solver.
Qed.

Lemma first_unresolved_attached p rns kind refs s :
  first_unresolved_backend_ref_for_kind rns kind refs p = Some s → is_attached s = true ∧ s ≠ Attached.
Proof.
  induction refs as [|br refs IH]; cbn; [done|].
  destruct (backend_ref_problem rns kind p br) eqn:E; [|done]. intros [= <-]. by eapply backend_ref_problem_attached.
Qed.

(** A listener's verdict: attached when it admits the route, [Attached] when the
    route's references also resolve. *)
Lemma listener_status_spec ctx l :
  (is_attached (listener_status ctx l) = true ↔ admits ctx l) ∧
  (listener_status ctx l = Attached ↔ admits ctx l ∧ refs_resolved ctx).
Proof.
  unfold admits, refs_resolved. rewrite <-first_unresolved_None, <-namespace_allowed_true, <-kind_allowed_true.
  setoid_rewrite <-hostnames_compatible_true. unfold listener_status.
  destruct (rec_protocol_compat ctx (li_protocol l)); cbn [negb]; [|naive_solver].
  destruct (namespace_allowed _ _ _ _); cbn [negb]; [|naive_solver].
  destruct (kind_allowed _ _); cbn [negb]; [|naive_solver].
  destruct (rec_check_hostname_compat ctx); cbn [andb].
  - destruct (hostnames_compatible _ _); cbn [negb]; [|naive_solver].
    destruct (first_unresolved_backend_ref_for_kind _ _ _ _) as [s|] eqn:E; [|naive_solver].
    apply first_unresolved_attached in E. naive_solver.
  - destruct (first_unresolved_backend_ref_for_kind _ _ _ _) as [s|] eqn:E; [|naive_solver].
    apply first_unresolved_attached in E. naive_solver.
Qed.

(** ** One parent reference *)

(** The listeners a parent reference selects: the one it names, or all, on its port. *)
Definition selected (ctx : RouteEvalContext) (l : Listener) : Prop :=
  (∀ port, rec_parent_ref_port ctx = Some port → li_port l = port) ∧
  match rec_section_name ctx with
  | Some sn => find_first (λ l, String.eqb (li_name l) sn) (gw_listeners (rec_gateway ctx)) = Some l
  | None => l ∈ gw_listeners (rec_gateway ctx)
  end.

(** The results: one per selected listener, or one [NoMatchingParent]. *)
Lemma elem_of_evaluate ctx r :
  r ∈ evaluate_route_attachment_inner ctx ↔
  (∃ l, selected ctx l ∧ r = result_of ctx (Some (li_name l)) (rec_section_name ctx) (listener_status ctx l)) ∨
  ((∀ l, ¬ selected ctx l) ∧ r = result_of ctx (rec_section_name ctx) (rec_section_name ctx) NoMatchingParent).
Proof.
  unfold evaluate_route_attachment_inner, selected.
  destruct (rec_section_name ctx) as [sn|] eqn:Es.
  - destruct (find_first _ _) as [l|] eqn:Ef.
    + destruct (match rec_parent_ref_port ctx with Some ref_port => negb (li_port l =? ref_port)%N | None => false end) eqn:Ep.
      * destruct (rec_parent_ref_port ctx) as [q|]; [|done]. apply negb_true_iff, N.eqb_neq in Ep.
        rewrite list_elem_of_singleton. naive_solver.
      * assert (∀ port, rec_parent_ref_port ctx = Some port → li_port l = port) as Hp.
        { intros port Hq. rewrite Hq in Ep. by apply negb_false_iff, N.eqb_eq in Ep. }
        unfold evaluate_listeners. cbn. rewrite list_elem_of_singleton, Es. naive_solver.
    + rewrite list_elem_of_singleton. naive_solver.
  - unfold evaluate_listeners.
    set (ls := filter _ _). rewrite Es.
    assert (∀ l, l ∈ ls ↔ (∀ port, rec_parent_ref_port ctx = Some port → li_port l = port) ∧ l ∈ gw_listeners (rec_gateway ctx)) as Hls.
    { intros l. unfold ls. rewrite list_elem_of_filter. destruct (rec_parent_ref_port ctx); [rewrite N.eqb_eq|]; naive_solver. }
    destruct (is_empty ls) eqn:E.
    + apply is_empty_true in E. rewrite list_elem_of_singleton. setoid_rewrite <-Hls. rewrite E. set_solver.
    + rewrite list_elem_of_fmap. setoid_rewrite <-Hls. apply is_empty_false in E.
      destruct ls as [|l0 ls]; [done|]. split; [naive_solver|]. intros [(l&Hl&->)|[Hno _]]; [eauto|].
      destruct (Hno l0). set_solver.
Qed.

Lemma evaluate_route ctx r :
  r ∈ evaluate_route_attachment_inner ctx →
  rar_route_namespace r = rec_route_namespace ctx ∧ rar_route_name r = rec_route_name ctx ∧
  (is_attached (rar_status r) = true → is_Some (rar_listener_name r)).
Proof. intros [(l&_&->)|[_ ->]]%elem_of_evaluate; cbn; split_and!; eauto; done. Qed.

(** ** The plan *)

(** The evaluations a plan performs: every parent reference to the gateway of
    every stored route. *)
Inductive evaluated (input : AttachmentPlanInput) (g : Gateway) : RouteEvalContext → Prop :=
| evaluated_http k r p :
    ps_http_routes (api_snapshot input) !! k = Some r → p ∈ hrs_parent_refs (hr_spec r) →
    parent_ref_targets_gateway (ns_or_default (hr_metadata r)) p (api_gateway_namespace input) (api_gateway_name input) = true →
    evaluated input g (http_eval_context g (ns_or_default (hr_metadata r)) (name_or_empty (hr_metadata r))
                         (pr_section_name p) (pr_port p) (api_snapshot input) r (api_gateway_generation input))
| evaluated_tcp k r p :
    ps_tcp_routes (api_snapshot input) !! k = Some r → p ∈ trs_parent_refs (tr_spec r) →
    parent_ref_targets_gateway (ns_or_default (tr_metadata r)) p (api_gateway_namespace input) (api_gateway_name input) = true →
    evaluated input g (tcp_eval_context g (ns_or_default (tr_metadata r)) (name_or_empty (tr_metadata r))
                         (pr_section_name p) (pr_port p) (api_snapshot input) r (api_gateway_generation input))
| evaluated_tls k r p :
    ps_tls_routes (api_snapshot input) !! k = Some r → p ∈ lrs_parent_refs (lr_spec r) →
    parent_ref_targets_gateway (ns_or_default (lr_metadata r)) p (api_gateway_namespace input) (api_gateway_name input) = true →
    evaluated input g (tls_eval_context g (ns_or_default (lr_metadata r)) (name_or_empty (lr_metadata r))
                         (pr_section_name p) (pr_port p) (api_snapshot input) r (api_gateway_generation input)).

Lemma parent_ref_targets_gateway_spec rns p gns gname :
  parent_ref_targets_gateway rns p gns gname = true ↔
  parent_is_gateway p = true ∧ (gns, gname) = (unwrap_or rns (pr_namespace p), pr_name p).
Proof.
  change (parent_ref_targets_gateway rns p gns gname)
    with (parent_is_gateway p && String.eqb (unwrap_or rns (pr_namespace p)) gns && String.eqb (pr_name p) gname).
  rewrite <-andb_assoc, (andb_true_iff (parent_is_gateway p)), andb_true_iff, !String.eqb_eq. naive_solver.
Qed.

Section one_kind.
Context {R : Type} (input : AttachmentPlanInput) (g : Gateway).
Context (meta : R → ObjectMeta) (parents : R → list ParentReference) (compat : ProtocolType → bool).
Context (mkctx : R → option string → option N → RouteEvalContext).
Context (step : PlanAcc → R → PlanAcc).
Hypothesis step_eq : ∀ acc r, step acc r =
  plan_route input g compat (λ s p, evaluate_route_attachment_inner (mkctx r s p))
    (ns_or_default (meta r)) (name_or_empty (meta r)) (parents r) acc.
Hypothesis mkctx_ns : ∀ r s p, rec_route_namespace (mkctx r s p) = ns_or_default (meta r).
Hypothesis mkctx_name : ∀ r s p, rec_route_name (mkctx r s p) = name_or_empty (meta r).

Definition targets (r : R) (p : ParentReference) : Prop :=
  parent_ref_targets_gateway (ns_or_default (meta r)) p (api_gateway_namespace input) (api_gateway_name input) = true.

Lemma plan_routes_results (m : gmap string R) acc x :
  x ∈ (foldl step acc (routes_of_list meta parents (api_gateway_namespace input) (api_gateway_name input) (values m))).2 ↔
  x ∈ acc.2 ∨ ∃ k r p, m !! k = Some r ∧ p ∈ parents r ∧ targets r p ∧
    x ∈ evaluate_route_attachment_inner (mkctx r (pr_section_name p) (pr_port p)).
Proof using step_eq.
  rewrite (foldl_or (λ acc : PlanAcc, x ∈ acc.2) (λ r, ∃ p, p ∈ parents r ∧ targets r p ∧
    x ∈ evaluate_route_attachment_inner (mkctx r (pr_section_name p) (pr_port p)))).
  - split.
    + intros [?|(r&Hr&p&Hp&Ht&Hx)]; [by left|]. apply elem_of_routes_of_list in Hr as [[k Hk] _]. right. by exists k, r, p.
    + intros [?|(k&r&p&Hk&Hp&Ht&Hx)]; [by left|]. right. exists r. split; [|eauto].
      apply elem_of_routes_of_list. split; [eauto|]. exists p. split; [done|]. by apply parent_ref_targets_gateway_spec.
  - intros a r. rewrite step_eq. unfold plan_route.
    rewrite (foldl_or (λ acc : PlanAcc, x ∈ acc.2) (λ p, targets r p ∧
      x ∈ evaluate_route_attachment_inner (mkctx r (pr_section_name p) (pr_port p)))); [done|].
    intros b p. unfold targets. destruct (parent_ref_targets_gateway _ _ _ _); cbn; [|intuition done].
    rewrite elem_of_app. tauto.
Qed.

(** The routes counted for listener [ln] among the results [rs]. *)
Definition attached_keys (ln : string) (rs : list RouteAttachmentResult) : gset string :=
  list_to_set ((λ r, key (rar_route_namespace r) (rar_route_name r)) <$>
    filter (λ r, is_attached (rar_status r) = true ∧ rar_listener_name r = Some ln) rs).

Definition counted (acc : PlanAcc) : Prop :=
  ∀ ln, acc.1 !! ln = if decide (ln ∈ (li_name <$> gw_listeners g)) then Some (attached_keys ln acc.2) else None.

Lemma attached_keys_app ln rs1 rs2 : attached_keys ln (rs1 ++ rs2) = attached_keys ln rs1 ∪ attached_keys ln rs2.
Proof. unfold attached_keys. by rewrite filter_app, fmap_app, list_to_set_app_L. Qed.

Lemma count_results rk rs (m : AttachedSets) (ln : string) :
  (∀ r, r ∈ rs → key (rar_route_namespace r) (rar_route_name r) = rk ∧
                 (is_attached (rar_status r) = true → is_Some (rar_listener_name r))) →
  foldl (count_result (gw_listeners g) compat rk) m rs !! ln = (λ s, s ∪ attached_keys ln rs) <$> m !! ln.
Proof.
  revert m. induction rs as [|r rs IH]; intros m Hrs; cbn [foldl].
  - unfold attached_keys. cbn. destruct (m !! ln); cbn; [f_equal; set_solver|done].
  - rewrite IH by (intros; apply Hrs; set_solver).
    destruct (Hrs r) as [Hk Hl]; [left|].
    change (r :: rs) with ([r] ++ rs). rewrite attached_keys_app. unfold count_result.
    destruct (is_attached (rar_status r)) eqn:E.
    + destruct (Hl eq_refl) as [ln' Hln']. rewrite Hln'. unfold insert_attached, attached_keys at 2.
      rewrite filter_cons, filter_nil, E, Hln'.
      destruct (decide (ln = ln')) as [->|Hne].
      * rewrite lookup_alter_eq. rewrite decide_True by done. cbn. rewrite Hk.
        destruct (m !! ln'); cbn; [f_equal; set_solver|done].
      * rewrite lookup_alter_ne by congruence. rewrite decide_False by naive_solver. cbn.
        destruct (m !! ln); cbn; [f_equal; set_solver|done].
    + unfold attached_keys at 2. rewrite filter_cons, filter_nil, E. rewrite decide_False by naive_solver. cbn.
      destruct (m !! ln); cbn; [f_equal; set_solver|done].
Qed.

Lemma plan_routes_counted l acc : counted acc → counted (foldl step acc l).
Proof using step_eq mkctx_ns mkctx_name.
  revert acc. induction l as [|r l IH]; intros acc Hacc; [done|]. cbn. apply IH. rewrite step_eq. unfold plan_route.
  generalize (parents r). intros ps. revert acc Hacc. induction ps as [|p ps IHp]; intros acc Hacc; [done|]. cbn [foldl].
  apply IHp. destruct (parent_ref_targets_gateway _ _ _ _); cbn [negb]; [|done].
  intros ln. cbn [fst snd]. rewrite count_results.
  - rewrite (Hacc ln), attached_keys_app. by case_decide.
  - intros x Hx. apply evaluate_route in Hx as (->&->&Hx). by rewrite mkctx_ns, mkctx_name.
Qed.
End one_kind.

Definition http_mkctx (input : AttachmentPlanInput) (g : Gateway) (r : HTTPRoute) (s : option string) (p : option N) :=
  http_eval_context g (ns_or_default (hr_metadata r)) (name_or_empty (hr_metadata r)) s p (api_snapshot input) r
    (api_gateway_generation input).
Definition tcp_mkctx (input : AttachmentPlanInput) (g : Gateway) (r : TCPRoute) (s : option string) (p : option N) :=
  tcp_eval_context g (ns_or_default (tr_metadata r)) (name_or_empty (tr_metadata r)) s p (api_snapshot input) r
    (api_gateway_generation input).
Definition tls_mkctx (input : AttachmentPlanInput) (g : Gateway) (r : TLSRoute) (s : option string) (p : option N) :=
  tls_eval_context g (ns_or_default (lr_metadata r)) (name_or_empty (lr_metadata r)) s p (api_snapshot input) r
    (api_gateway_generation input).

(** The accumulators at the end of the three loops. *)
Definition plan_acc (input : AttachmentPlanInput) (g : Gateway) : PlanAcc :=
  let gns := api_gateway_namespace input in
  let gname := api_gateway_name input in
  let acc : PlanAcc := (foldl (λ m l, <[li_name l := ∅]> m) ∅ (gw_listeners g), []) in
  let acc := foldl (plan_http_route input g) acc (http_routes_for_gateway (api_snapshot input) gns gname) in
  let acc := foldl (plan_tcp_route input g) acc (tcp_routes_for_gateway (api_snapshot input) gns gname) in
  foldl (plan_tls_route input g) acc (tls_routes_for_gateway (api_snapshot input) gns gname).

Lemma plan_Ok input p :
  plan input = Ok p ↔
  ∃ g, gateway (api_snapshot input) (api_gateway_namespace input) (api_gateway_name input) = Some g ∧
       p = mkAttachmentPlan (api_gateway_namespace input) (api_gateway_name input) (api_gateway_generation input)
             (sort_by_key result_key result_key_cmp (plan_acc input g).2)
             (sort_by_key las_listener_name str_cmp (summary_of (plan_acc input g).1 <$> gw_listeners g)).
Proof.
  unfold plan, plan_acc. destruct (gateway _ _ _) as [g|]; cbn; [|naive_solver]. split; [intros [= <-]; eauto|].
  by intros (?&[= <-]&->).
Qed.

Lemma plan_acc_results input g x :
  x ∈ (plan_acc input g).2 ↔ ∃ ctx, evaluated input g ctx ∧ x ∈ evaluate_route_attachment_inner ctx.
Proof.
  unfold plan_acc, http_routes_for_gateway, tcp_routes_for_gateway, tls_routes_for_gateway.
  rewrite (plan_routes_results input g _ _ is_protocol_compatible_tls (tls_mkctx input g)) by done.
  rewrite (plan_routes_results input g _ _ is_protocol_compatible_tcp (tcp_mkctx input g)) by done.
  rewrite (plan_routes_results input g _ _ is_protocol_compatible_http (http_mkctx input g)) by done.
  cbn [snd]. split.
  - intros [[[H|H]|H]|H]; [by apply elem_of_nil in H|..]; destruct H as (k&r&p&Hk&Hp&Ht&Hx);
      eexists; (split; [|exact Hx]); by econstructor.
  - intros (ctx&[k r p Hk Hp Ht|k r p Hk Hp Ht|k r p Hk Hp Ht]&Hx);
      [left; left; right|left; right|right]; by exists k, r, p.
Qed.

Lemma initial_sets ls ln (m : AttachedSets) :
  foldl (λ (m : AttachedSets) l, <[li_name l := ∅]> m) m ls !! ln =
  if decide (ln ∈ (li_name <$> ls)) then Some ∅ else m !! ln.
Proof.
  revert m. induction ls as [|l ls IH]; intros m; cbn [foldl]; [done|]. rewrite IH. csimpl.
  destruct (decide (ln ∈ li_name <$> ls)) as [Hin|Hno]; [rewrite decide_True by set_solver; done|].
  destruct (decide (ln = li_name l)) as [->|Hne].
  - rewrite lookup_insert_eq, decide_True by set_solver. done.
  - rewrite lookup_insert_ne by done. rewrite decide_False by set_solver. done.
Qed.

Lemma plan_acc_counted input g : counted g (plan_acc input g).
Proof.
  unfold plan_acc.
  apply (plan_routes_counted input g lr_metadata (λ r, lrs_parent_refs (lr_spec r)) is_protocol_compatible_tls (tls_mkctx input g)); [done..|].
  apply (plan_routes_counted input g tr_metadata (λ r, trs_parent_refs (tr_spec r)) is_protocol_compatible_tcp (tcp_mkctx input g)); [done..|].
  apply (plan_routes_counted input g hr_metadata (λ r, hrs_parent_refs (hr_spec r)) is_protocol_compatible_http (http_mkctx input g)); [done..|].
  intros ln. cbn [fst snd]. rewrite initial_sets. by case_decide.
Qed.

#[global] Instance result_key_cmp_total : TotalCmp result_key_cmp.
Proof. unfold result_key_cmp, RouteKind_cmp. apply _. Qed.

Lemma elem_of_plan_results input p r :
  plan input = Ok p → r ∈ ap_route_results p ↔
  ∃ g ctx, gateway (api_snapshot input) (api_gateway_namespace input) (api_gateway_name input) = Some g ∧
           evaluated input g ctx ∧ r ∈ evaluate_route_attachment_inner ctx.
Proof.
  intros (g&Hg&->)%plan_Ok. cbn. unfold sort_by_key. rewrite elem_of_sort_by, plan_acc_results by apply _. naive_solver.
Qed.

(** C3: what it takes to attach.  A plan reports a route as [Attached] to a
    listener exactly when a stored route has a parent reference to the gateway that
    selects the listener (by section name and port), the listener speaks the route's
    protocol, its namespace, kind and hostname policies admit the route, and every
    service the route sends traffic to exists in its namespace or is opened to it by
    a grant in the service's namespace. *)
Theorem plan_attached_iff input p r :
  plan input = Ok p →
  r ∈ ap_route_results p ∧ rar_status r = Attached ↔
  ∃ g ctx l, gateway (api_snapshot input) (api_gateway_namespace input) (api_gateway_name input) = Some g ∧
    evaluated input g ctx ∧ selected ctx l ∧ admits ctx l ∧ refs_resolved ctx ∧
    r = result_of ctx (Some (li_name l)) (rec_section_name ctx) Attached.
Proof.
  intros Hp. rewrite (elem_of_plan_results _ _ _ Hp). split.
  - intros [(g&ctx&Hg&Hc&Hr) Hs]. apply elem_of_evaluate in Hr as [(l&Hl&->)|[_ ->]]; [|done]. cbn in Hs.
    destruct (proj1 (proj2 (listener_status_spec ctx l)) Hs) as [Ha Hrr]. exists g, ctx, l. rewrite Hs. done.
  - intros (g&ctx&l&Hg&Hc&Hl&Ha&Hrr&->). split; [|done]. exists g, ctx. split_and!; [done..|].
    apply elem_of_evaluate. left. exists l. split; [done|]. by rewrite (proj2 (proj2 (listener_status_spec ctx l))).
Qed.

Lemma summary_counts input p s :
  plan input = Ok p → s ∈ ap_listener_summaries p →
  las_attached_routes s = as_u32 (size (attached_keys (las_listener_name s) (ap_route_results p))).
Proof.
  intros (g&Hg&->)%plan_Ok. cbn [ap_listener_summaries ap_route_results]. unfold sort_by_key.
  rewrite elem_of_sort_by by apply _. intros (l&->&Hl)%list_elem_of_fmap.
  assert (∀ ln rs, attached_keys ln (sort_by (by_key result_key result_key_cmp) rs) = attached_keys ln rs) as Hsort.
  { intros ln rs. unfold attached_keys. apply list_to_set_perm_L. by rewrite sort_by_perm by apply _. }
  rewrite Hsort. unfold summary_of. destruct (listener_acceptance _) as [[acc rej] kinds]. cbn [las_attached_routes las_listener_name].
  rewrite (plan_acc_counted input g (li_name l)), decide_True; [done|]. apply list_elem_of_fmap. eauto.
Qed.

(** The number a listener reports is the number of distinct routes
    (namespace and name) among the plan's results that are attached to it, however
    many parent references bring each of them there. *)
Theorem attached_routes_counts_distinct input p s :
  plan input = Ok p → s ∈ ap_listener_summaries p →
  las_attached_routes s = as_u32 (size (attached_keys (las_listener_name s) (ap_route_results p))).
Proof. apply summary_counts. Qed.

(** A namespace whose labels are not in the snapshot is not always denied by a
    selector policy.  When the selector requires no label and all its expressions
    are [NotIn] or [DoesNotExist] on other keys than the namespace name, every
    namespace without recorded labels is admitted. *)
Theorem absent_labels_admitted p l c sel gns rns :
  ps_namespace_labels p !! rns = None →
  (li_allowed_routes l ≫= ar_namespaces) = Some c → rn_from c = FromSelector → rn_selector c = Some sel →
  unwrap_or ∅ (ls_match_labels sel) = ∅ →
  (∀ req, req ∈ ls_match_expressions sel →
     (lr_operator req = "NotIn" ∨ lr_operator req = "DoesNotExist") ∧ lr_key req ≠ "kubernetes.io/metadata.name") →
  namespace_allowed (li_allowed_routes l) gns rns (ps_namespace_labels p) = true.
Proof.
  intros Hn Hc Hf Hs Hm He. rewrite (namespace_allowed_true p). unfold namespace_policy, labels_of.
  rewrite Hc, Hf, Hn. exists sel. split; [done|]. split.
  - intros required Hreq. rewrite Hreq in Hm. cbn in Hm. subst. apply map_empty_subseteq.
  - intros req Hreq. destruct (He req Hreq) as [Hop Hk]. unfold requirement_holds. cbn.
    rewrite lookup_insert_ne by done. rewrite lookup_empty. destruct Hop as [->| ->]; [right; left|right; right; right]; done.
Qed.

(** A listener that takes routes of every namespace not labelled [tenant=internal]. *)
Definition ex_not_in : LabelSelector := mkLabelSelector None [mkLabelSelectorRequirement "tenant" "NotIn" ["internal"]].
Definition ex_selector_listener : Listener :=
  mkListener "http" None 80 HTTP None
    (Some (mkAllowedRoutes (Some (mkRouteNamespaces FromSelector (Some ex_not_in))) [])).

Lemma absent_labels_admitted_witness :
  namespace_allowed (li_allowed_routes ex_selector_listener) "infra" "unknown" ∅ = true.
Proof.
  apply (absent_labels_admitted (to_planner_snapshot StoreInner_default) ex_selector_listener
           (mkRouteNamespaces FromSelector (Some ex_not_in)) ex_not_in); try done.
  intros req Hreq. apply list_elem_of_singleton in Hreq as ->. split; [by left|done].
Defined.

(** The example of the store with a gateway open to all namespaces and a grant. *)
Definition ex_open_gateway : Gateway :=
  mkGateway (meta_of "infra" "edge")
    (mkGatewaySpec "wicket"
       [mkListener "web" (Some "*.example.com") 80 HTTP None
          (Some (mkAllowedRoutes (Some (mkRouteNamespaces FromAll None)) []))] []) None.
Definition ex_grant : ReferenceGrant :=
  mkReferenceGrant (meta_of "backend" "allow-apps")
    [mkReferenceGrantFrom GATEWAY_API_GROUP "HTTPRoute" "apps"] [mkReferenceGrantTo "" "Service" None].
Definition ex_input : AttachmentPlanInput :=
  mkAttachmentPlanInput "infra" "edge" 3
    (to_planner_snapshot (ss_inner (run_ops
       [OpUpsertGateway "infra/edge" ex_open_gateway; OpUpsertHttpRoute "apps/shop" ex_route;
        OpUpsertReferenceGrant "backend/allow-apps" ex_grant] SharedStore_new))).
Definition ex_result : RouteAttachmentResult :=
  mkRouteAttachmentResult "apps" "shop" KHTTPRoute (Some "web") None None Attached 3.
Definition ex_plan : AttachmentPlan :=
  mkAttachmentPlan "infra" "edge" 3 [ex_result]
    [mkListenerAttachmentSummary "web" 1 [mkRouteGroupKind GATEWAY_API_GROUP "HTTPRoute"] true None].

Lemma plan_attached_iff_witness :
  plan ex_input = Ok ex_plan ∧ ∃ ctx, evaluated ex_input ex_open_gateway ctx ∧ refs_resolved ctx.
Proof.
  assert (plan ex_input = Ok ex_plan) as Hp by (vm_compute; reflexivity). split; [done|].
  destruct (proj1 (plan_attached_iff ex_input ex_plan ex_result Hp)) as (g&ctx&l&Hg&Hc&_&_&Hr&_).
  - split; [left|done].
  - assert (g = ex_open_gateway) as -> by (vm_compute in Hg; by injection Hg as <-). eauto.
Defined.

Lemma attached_routes_counts_distinct_witness :
  as_u32 (size (attached_keys "web" (ap_route_results ex_plan))) = 1%N.
Proof.
  assert (plan ex_input = Ok ex_plan) as Hp by (vm_compute; reflexivity).
  symmetry. apply (attached_routes_counts_distinct ex_input ex_plan
    (mkListenerAttachmentSummary "web" 1 [mkRouteGroupKind GATEWAY_API_GROUP "HTTPRoute"] true None) Hp).
  left.
Defined.
