(* ===== verification/ConfigGen.v ===== *)
(** * The configuration generator (reconcilers/config_generator.rs)

    [GatewayState::generate_config]: from the accepted routes, the listeners, the
    service endpoints and the TLS secrets to the configuration a proxy loads.  Map
    iterations are in sorted key order ([btree_iter]), as in the code.  Warnings
    are not modelled.  [None] stands for a panic: the only one is [str::split_at]
    off a character boundary in [parse_duration_to_secs]. *)

From S2P Require Import Prelude Str Order Num Bytes Net TlsConfig Config Crds Store.
From Stdlib Require Import Ascii.

(** [for x in l { acc = f(acc, x) }] whose body may panic. *)
Fixpoint fold_panic {A B} (f : A → B → option A) (a : A) (l : list B) : option A :=
  match l with
  | [] => Some a
  | x :: l' => f a x ≫= λ a', fold_panic f a' l'
  end.

(** ** Durations *)

(** A UTF-8 continuation byte. *)
Definition is_continuation (c : ascii) : bool :=
  ((128 <=? N_of_ascii c) && (N_of_ascii c <=? 191))%N.

(** [s.split_at(s.len() - 1)] of a non-empty string: the part before the last byte
    and the last byte. *)
Definition split_last (s : string) : option (string * ascii) :=
  match String.get (String.length s - 1) s with
  | Some c => if is_continuation c then None else Some (slice_to (String.length s - 1) s, c)
  | None => None
  end.

Definition u64_modulus : N := 18446744073709551616.

(** The outer option is the panic, the inner one the result; the products wrap, as
    in a release build. *)
Definition parse_duration_to_secs (duration : string) : option (option N) :=
  let duration := trim duration in
  if is_empty_str duration then Some None
  else
    '(num, unit_) ← split_last duration;
    Some (num ← parse_uint u64_max num;
          if Ascii.eqb unit_ "s" then Some num
          else if Ascii.eqb unit_ "m" then Some (num * 60 mod u64_modulus)%N
          else if Ascii.eqb unit_ "h" then Some (num * 3600 mod u64_modulus)%N
          else None).

(** ** Listeners *)

Definition listeners_of (p : ProtocolType → bool) (entries : list (string * Gateway)) : list (string * Listener) :=
  flat_map (λ '(k, g), (λ l, (k, l)) <$> filter (λ l, p (li_protocol l) = true) (gw_listeners g)) entries.

Definition any_addr (port : N) : SocketAddr := socket_v4 0 0 0 0 port.

Definition additional_http_listens (http_listeners : list (string * Listener)) : list SocketAddr :=
  dedup_by id ((λ '(_, l), any_addr (li_port l)) <$> drop 1 http_listeners).

Definition set_listens (s : ServerConfig) (http https : list (string * Listener)) : ServerConfig :=
  let upd listen extra https_listen disable :=
    mkServerConfig listen extra https_listen disable (server_workers s) (server_json_logs s) (server_log_level s)
      (server_shutdown_timeout s) in
  match http, https with
  | (_, h) :: _, (_, t) :: _ =>
      upd (any_addr (li_port h)) (additional_http_listens http) (Some (any_addr (li_port t))) false
  | (_, h) :: _, [] =>
      upd (any_addr (li_port h)) (additional_http_listens http) (server_https_listen s) (server_disable_http s)
  | [], (_, t) :: _ =>
      let addr := any_addr (li_port t) in upd addr (server_http_listens s) (Some addr) true
  | [], [] => s
  end.

(** ** HTTP routes *)

(** The addresses of a backend: its known endpoints, sorted, or its cluster DNS name. *)
Definition backend_servers (st : GatewayState) (backend_ns name : string) (port : option N) (default_port : N) : list string :=
  match gst_service_endpoints st !! key backend_ns name with
  | Some e => sort_by str_cmp (se_endpoints e)
  | None => [name +:+ "." +:+ backend_ns +:+ ".svc.cluster.local:" +:+ show_N (unwrap_or default_port port)]
  end.

Definition rule_backends (st : GatewayState) (route_ns : string) (rule : HTTPRouteRule) : list string :=
  flat_map (λ b, let br := hb_backend_ref b in
                 backend_servers st (unwrap_or route_ns (br_namespace br)) (br_name br) (br_port br) 80)
    (hrr_backend_refs rule).

Definition rule_name (route_ns route_name : string) (rule_idx : nat) : string :=
  route_ns +:+ "-" +:+ route_name +:+ "-rule" +:+ show_N (N.of_nat rule_idx).

Definition show_method (m : HTTPMethod) : string :=
  match m with
  | GET => "GET" | HEAD => "HEAD" | POST => "POST" | PUT => "PUT" | DELETE => "DELETE"
  | CONNECT => "CONNECT" | OPTIONS => "OPTIONS" | TRACE => "TRACE" | PATCH => "PATCH"
  end.

(** [collect::<BTreeMap<_, _>>()]: a later header of the same name wins. *)
Definition collect_headers (hs : list HTTPHeaderMatch) : gmap string string :=
  foldl (λ m h, <[hh_name h := hh_value h]> m) ∅ hs.

(** [(path, path_prefix)] of a match; [None] skips the match. *)
Definition match_path (m : HTTPRouteMatch) : option (option string * option string) :=
  match hrm_path m with
  | Some pm => match pm_type pm with
               | PathExact => Some (Some (pm_value pm), None)
               | PathPrefix => Some (None, Some (pm_value pm))
               | PathRegularExpression => None
               end
  | None => Some (None, Some "/")
  end.

Definition match_route (upstream_name : string) (host : option string) (timeout : option N)
    (match_idx : nat) (m : HTTPRouteMatch) : option RouteConfig :=
  '(path, path_prefix) ← match_path m;
  Some (mkRouteConfig (Some (upstream_name +:+ "-match" +:+ show_N (N.of_nat match_idx)))
          (mkRouteMatch host path_prefix path (match hrm_method m with Some x => [show_method x] | None => [] end)
             (collect_headers (hrm_headers m)))
          upstream_name None None timeout).

(** The routes of one rule. *)
Definition rule_routes (upstream_name : string) (host : option string) (timeout : option N) (rule : HTTPRouteRule)
    : list RouteConfig :=
  match hrr_matches rule with
  | [] => [mkRouteConfig (Some upstream_name) (mkRouteMatch host (Some "/") None [] ∅) upstream_name None None timeout]
  | ms => omap (λ '(i, m), match_route upstream_name host timeout i m) (enumerate ms)
  end.

(** [rule.timeouts.as_ref().and_then(|t| t.request.as_ref().and_then(parse))]. *)
Definition rule_timeout (rule : HTTPRouteRule) : option (option N) :=
  match hrr_timeouts rule ≫= to_request with
  | Some d => parse_duration_to_secs d
  | None => Some None
  end.

Notation HttpAcc := (gmap string UpstreamConfig * list RouteConfig)%type.

Definition render_rule (st : GatewayState) (route : HTTPRoute) (acc : HttpAcc) (ir : nat * HTTPRouteRule) : option HttpAcc :=
  let '(rule_idx, rule) := ir in
  let route_ns := ns_or_default (hr_metadata route) in
  let route_name := unwrap_or "unknown" (om_name (hr_metadata route)) in
  let upstream_name := rule_name route_ns route_name rule_idx in
  let backend_addrs := rule_backends st route_ns rule in
  if negb (is_empty backend_addrs) then
    timeout ← rule_timeout rule;
    Some (<[upstream_name := mkUpstreamConfig backend_addrs RoundRobin None]> acc.1,
          acc.2 ++ rule_routes upstream_name (head (hrs_hostnames (hr_spec route))) timeout rule)
  else Some acc.

Definition render_http_route (st : GatewayState) (acc : HttpAcc) (e : string * HTTPRoute) : option HttpAcc :=
  let route := e.2 in
  if negb (http_route_is_accepted route) then Some acc
  else fold_panic (render_rule st route) acc (enumerate (hrs_rules (hr_spec route))).

(** ** Certificates *)

Definition add_cert_ref (st : GatewayState) (gw_ns : string) (hostname : option string)
    (cert_map : gmap string FileCertConfig) (c : SecretObjectReference) : gmap string FileCertConfig :=
  let cert_key := key (unwrap_or gw_ns (so_namespace c)) (so_name c) in
  match hostname with
  | None => cert_map
  | Some h =>
      match gst_tls_secrets st !! cert_key with
      | None => cert_map
      | Some (cert_path, key_path) =>
          let entry := default (mkFileCertConfig (so_name c) cert_path key_path []) (cert_map !! cert_key) in
          let domains := if bool_decide (h ∈ fc_domains entry) then fc_domains entry else fc_domains entry ++ [h] in
          <[cert_key := mkFileCertConfig (fc_name entry) (fc_cert entry) (fc_key entry) domains]> cert_map
      end
  end.

Definition add_gateway_certs (st : GatewayState) (cert_map : gmap string FileCertConfig) (e : string * Gateway)
    : gmap string FileCertConfig :=
  let gw_ns := ns_or_default (gw_metadata e.2) in
  foldl (λ m l, foldl (add_cert_ref st gw_ns (li_hostname l)) m (listener_certificate_refs l)) cert_map (gw_listeners e.2).

(** ** Streams *)

Record StreamAcc := mkStreamAcc {
  sa_sni : list (string * string);
  sa_upstreams : list StreamUpstreamConfig;
  sa_owner : gmap string string;
  sa_catch_all : option string
}.

Definition add_sni (upstream_name : string) (acc : StreamAcc) (hostname : string) : StreamAcc :=
  match sa_owner acc !! hostname with
  | Some _ => acc
  | None => mkStreamAcc (sa_sni acc ++ [(hostname, upstream_name)]) (sa_upstreams acc)
              (<[hostname := upstream_name]> (sa_owner acc)) (sa_catch_all acc)
  end.

Definition stream_upstream (st : GatewayState) (route_ns : string) (default_port : N) (br : BackendRef) : StreamUpstreamConfig :=
  mkStreamUpstreamConfig (route_ns +:+ "-" +:+ br_name br)
    (backend_servers st (unwrap_or route_ns (br_namespace br)) (br_name br) (br_port br) default_port).

Definition push_upstream (u : StreamUpstreamConfig) (acc : StreamAcc) : StreamAcc :=
  mkStreamAcc (sa_sni acc) (sa_upstreams acc ++ [u]) (sa_owner acc) (sa_catch_all acc).

Definition render_tls_backend (st : GatewayState) (route_ns : string) (hostnames : list string) (acc : StreamAcc)
    (br : BackendRef) : StreamAcc :=
  let u := stream_upstream st route_ns 443 br in
  let acc := push_upstream u acc in
  if is_empty hostnames then
    match sa_catch_all acc with
    | None => mkStreamAcc (sa_sni acc) (sa_upstreams acc) (sa_owner acc) (Some (su_name u))
    | Some _ => acc
    end
  else foldl (add_sni (su_name u)) acc hostnames.

Definition render_tls_route (st : GatewayState) (acc : StreamAcc) (e : string * TLSRoute) : StreamAcc :=
  let route := e.2 in
  if negb (tls_route_is_accepted route) then acc
  else foldl (render_tls_backend st (ns_or_default (lr_metadata route)) (lrs_hostnames (lr_spec route))) acc
         (TLSRoute_backend_refs route).

Definition render_tcp_route (st : GatewayState) (acc : StreamAcc) (e : string * TCPRoute) : StreamAcc :=
  let route := e.2 in
  if negb (tcp_route_is_accepted route) then acc
  else foldl (λ acc br, push_upstream (stream_upstream st (ns_or_default (tr_metadata route)) 9000 br) acc) acc
         (TCPRoute_backend_refs route).

(** The pairs of a map, inserted in order. *)
Definition collect_map (l : list (string * string)) : gmap string string :=
  foldl (λ m e, <[e.1 := e.2]> m) ∅ l.

Definition stream_acc (st : GatewayState) : StreamAcc :=
  let acc := mkStreamAcc [] [] ∅ None in
  let acc := foldl (render_tls_route st) acc (btree_iter (gst_tls_routes st)) in
  foldl (render_tcp_route st) acc (btree_iter (gst_tcp_routes st)).

Definition generate_stream (st : GatewayState) (tcp_listeners : list (string * Listener)) : option StreamConfig :=
  if bool_decide (gst_tcp_routes st = ∅) && bool_decide (gst_tls_routes st = ∅) then None
  else
    let acc := stream_acc st in
    match tcp_listeners with
    | [] => None
    | (_, l) :: _ =>
        Some (mkStreamConfig ("stream-" +:+ show_N (li_port l)) ("0.0.0.0:" +:+ show_N (li_port l))
                8000 true PPC_None [] (sa_catch_all acc)
                (collect_map (sort_by_key fst str_cmp (sa_sni acc))) (sa_upstreams acc) 30 5000 10000 30)
    end.

(** ** The whole configuration *)

Definition is_http (p : ProtocolType) : bool := bool_decide (p = HTTP).
Definition is_https (p : ProtocolType) : bool := bool_decide (p = HTTPS).
Definition is_stream (p : ProtocolType) : bool := bool_decide (p = TCP ∨ p = TLS).

Definition generate_config (st : GatewayState) : option Config :=
  let gw_entries := btree_iter (gst_gateways st) in
  let server := set_listens (cfg_server Config_default) (listeners_of is_http gw_entries) (listeners_of is_https gw_entries) in
  '(upstreams, routes) ← fold_panic (render_http_route st) (∅, []) (btree_iter (gst_http_routes st));
  let tls_certs := snd <$> btree_iter (foldl (add_gateway_certs st) ∅ gw_entries) in
  let stream_config := generate_stream st (listeners_of is_stream gw_entries) in
  let tls := if negb (is_empty tls_certs)
             then Some (mkTlsConfig TlsMode_File None (Some (mkFileConfig true 30 tls_certs)))
             else cfg_tls Config_default in
  Some (mkConfig server upstreams routes tls (option_list stream_config) (cfg_logging Config_default)).

(** ** Facts about the loops *)

Lemma fold_panic_ind {A B} (I : A → Prop) (f : A → B → option A) l a b :
  (∀ a x a', x ∈ l → I a → f a x = Some a' → I a') → I a → fold_panic f a l = Some b → I b.
Proof.
  revert a. induction l as [|x l IH]; intros a Hf Ha; cbn; [by intros [= <-]|].
  intros (a'&Hx&Hl)%bind_Some. eapply IH; [|by eapply Hf; [left|..]|done].
  intros ??? Hin. apply Hf. by right.
Qed.

Lemma fold_panic_or {A B} (P : A → Prop) (Q : B → Prop) (f : A → B → option A) l a b :
  fold_panic f a l = Some b → (∀ a x a', f a x = Some a' → P a' ↔ P a ∨ Q x) →
  P b ↔ P a ∨ ∃ x, x ∈ l ∧ Q x.
Proof.
  intros Hl Hf. revert a Hl. induction l as [|x l IH]; intros a; cbn; [intros [= <-]; set_solver|].
  intros (a'&Hx&Hl)%bind_Some. rewrite (IH _ Hl), (Hf _ _ _ Hx). set_solver.
Qed.

Lemma foldl_inv {A B} (I : A → Prop) (f : A → B → A) l a : (∀ a x, I a → I (f a x)) → I a → I (foldl f a l).
Proof. intros Hf. revert a. induction l as [|x l IH]; intros a Ha; cbn; [done|]. apply IH. auto. Qed.

(** The loops panic only where the body does. *)
Lemma fold_panic_Some {A B} (f : A → B → option A) l a :
  (∀ a x, x ∈ l → is_Some (f a x)) → is_Some (fold_panic f a l).
Proof.
  revert a. induction l as [|x l IH]; intros a Hf; cbn; [eauto|].
  destruct (Hf a x) as [a' ->]; [left|]. cbn. apply IH. intros. apply Hf. by right.
Qed.

(** ** What is rendered *)

(** Rule [i] of a stored and accepted route has some backend address. *)
Definition rendered (st : GatewayState) (route : HTTPRoute) (i : nat) (rule : HTTPRouteRule) : Prop :=
  (∃ k, gst_http_routes st !! k = Some route) ∧ http_route_is_accepted route = true ∧
  hrs_rules (hr_spec route) !! i = Some rule ∧ rule_backends st (ns_or_default (hr_metadata route)) rule ≠ [].

Definition route_rule_name (route : HTTPRoute) (i : nat) : string :=
  rule_name (ns_or_default (hr_metadata route)) (unwrap_or "unknown" (om_name (hr_metadata route))) i.

(** The routes generated for rule [i] of [route]. *)
Definition rule_output (route : HTTPRoute) (i : nat) (rule : HTTPRouteRule) (timeout : option N) : list RouteConfig :=
  rule_routes (route_rule_name route i) (head (hrs_hostnames (hr_spec route))) timeout rule.

Lemma render_rule_Some st route acc i rule acc' :
  render_rule st route acc (i, rule) = Some acc' ↔
  (rule_backends st (ns_or_default (hr_metadata route)) rule = [] ∧ acc' = acc) ∨
  (rule_backends st (ns_or_default (hr_metadata route)) rule ≠ [] ∧ ∃ t, rule_timeout rule = Some t ∧
   acc' = (<[route_rule_name route i := mkUpstreamConfig (rule_backends st (ns_or_default (hr_metadata route)) rule) RoundRobin None]> acc.1,
           acc.2 ++ rule_output route i rule t)).
Proof.
  unfold render_rule. destruct (is_empty (rule_backends _ _ _)) eqn:E; cbn [negb].
  - apply is_empty_true in E. rewrite E. naive_solver.
  - apply is_empty_false in E. rewrite bind_Some. unfold rule_output, route_rule_name. naive_solver.
Qed.

Lemma http_routes_generated st ups rs r :
  fold_panic (render_http_route st) (∅, []) (btree_iter (gst_http_routes st)) = Some (ups, rs) →
  r ∈ rs ↔ ∃ route i rule t, rendered st route i rule ∧ rule_timeout rule = Some t ∧ r ∈ rule_output route i rule t.
Proof.
  intros Hf. change rs with (ups, rs).2.
  rewrite (fold_panic_or (λ acc : HttpAcc, r ∈ acc.2) (λ e, http_route_is_accepted e.2 = true ∧ ∃ i rule t,
    hrs_rules (hr_spec e.2) !! i = Some rule ∧ rule_backends st (ns_or_default (hr_metadata e.2)) rule ≠ [] ∧
    rule_timeout rule = Some t ∧ r ∈ rule_output e.2 i rule t) _ _ _ _ Hf).
  - cbn. rewrite elem_of_nil. unfold rendered. split.
    + intros [[]|([k route]&Hin&Ha&i&rule&t&Hr)]. apply elem_of_btree_iter in Hin. exists route, i, rule, t. naive_solver.
    + intros (route&i&rule&t&([k Hk]&Ha&Hi&Hb)&Ht&Hr). right. exists (k, route).
      split; [by apply elem_of_btree_iter|]. cbn. eauto 10.
  - intros a [k route] a'. unfold render_http_route. cbn [snd].
    destruct (http_route_is_accepted route); cbn [negb]; [|intros [= <-]; naive_solver].
    intros Hr. rewrite (fold_panic_or (λ acc : HttpAcc, r ∈ acc.2) (λ ir, ∃ t,
      rule_backends st (ns_or_default (hr_metadata route)) ir.2 ≠ [] ∧ rule_timeout ir.2 = Some t ∧
      r ∈ rule_output route ir.1 ir.2 t) _ _ _ _ Hr).
    + split.
      * intros [?|([i rule]&Hin&t&?&?&?)]; [by left|]. apply elem_of_enumerate in Hin. right. eauto 10.
      * intros [?|(_&i&rule&t&Hi&?&?&?)]; [by left|]. right. exists (i, rule). rewrite elem_of_enumerate. eauto.
    + intros b [i rule] b' [[Hb ->]|(Hb&t&Ht&->)]%render_rule_Some; cbn [snd fst].
      * split; [by left|]. intros [?|(t&?&_)]; done.
      * rewrite elem_of_app. split; [intros [?|?]; eauto|]. intros [?|(t'&_&Ht'&?)]; [by left|]. right. congruence.
Qed.

(** Every generated route has its upstream, and no upstream is without backends. *)
Definition upstreams_ok (acc : HttpAcc) : Prop :=
  (∀ r, r ∈ acc.2 → is_Some (acc.1 !! rc_upstream r)) ∧
  (∀ name u, acc.1 !! name = Some u → up_backends u ≠ []).

Lemma rule_routes_upstream name host t rule r : r ∈ rule_routes name host t rule → rc_upstream r = name.
Proof.
  unfold rule_routes. destruct (hrr_matches rule) as [|m ms]; [set_solver|].
  intros ([i x]&_&H)%list_elem_of_omap. unfold match_route in H. destruct (match_path x) as [[]|]; [|done].
  cbn in H. by simplify_eq.
Qed.

Lemma http_upstreams_ok st acc :
  fold_panic (render_http_route st) (∅, []) (btree_iter (gst_http_routes st)) = Some acc → upstreams_ok acc.
Proof.
  apply fold_panic_ind; [|split; [set_solver|done]].
  intros a [k route] a' _ Ha. unfold render_http_route. destruct (http_route_is_accepted _); cbn [negb snd]; [|by intros [= <-]].
  revert Ha. apply fold_panic_ind. intros b [i rule] b' _ [Hr Hu] [[_ ->]|(Hb&t&Ht&->)]%render_rule_Some; [done|].
  split; cbn [fst snd].
  - intros r [Hin|Hin]%elem_of_app.
    + destruct (decide (rc_upstream r = route_rule_name route i)) as [->|]; [rewrite lookup_insert_eq; eauto|].
      rewrite lookup_insert_ne by done. auto.
    + apply rule_routes_upstream in Hin as ->. rewrite lookup_insert_eq. eauto.
  - intros name u. destruct (decide (name = route_rule_name route i)) as [->|].
    + rewrite lookup_insert_eq. by intros [= <-].
    + rewrite lookup_insert_ne by done. apply Hu.
Qed.

(** ** Certificates *)

Lemma generated_cert_domains st entries :
  map_Forall (λ _ c, fc_domains c ≠ []) (foldl (add_gateway_certs st) ∅ entries).
Proof.
  apply foldl_inv; [|apply map_Forall_empty]. intros m [k g] Hm. unfold add_gateway_certs.
  apply foldl_inv; [|done]. clear m Hm. intros m l Hm. apply foldl_inv; [|done]. clear m Hm. intros m c Hm.
  unfold add_cert_ref. destruct (li_hostname l) as [h|]; [|done].
  destruct (gst_tls_secrets st !! _) as [[cp kp]|]; [|done].
  apply map_Forall_insert_2; [|done]. cbn. case_bool_decide as Hin; [|by destruct (fc_domains _)].
  intros He. rewrite He in Hin. by apply elem_of_nil in Hin.
Qed.

(** ** Streams *)

(** A backend of an accepted TLS or TCP route, with the namespace of the route. *)
Definition stream_backend (st : GatewayState) (ns : string) (br : BackendRef) : Prop :=
  (∃ k r, gst_tls_routes st !! k = Some r ∧ tls_route_is_accepted r = true ∧
          ns = ns_or_default (lr_metadata r) ∧ br ∈ TLSRoute_backend_refs r) ∨
  (∃ k r, gst_tcp_routes st !! k = Some r ∧ tcp_route_is_accepted r = true ∧
          ns = ns_or_default (tr_metadata r) ∧ br ∈ TCPRoute_backend_refs r).

Lemma add_sni_upstreams name hs acc : sa_upstreams (foldl (add_sni name) acc hs) = sa_upstreams acc.
Proof. apply (foldl_const sa_upstreams). intros a h. unfold add_sni. by destruct (sa_owner a !! h). Qed.

Lemma render_tls_backend_upstreams st ns hs acc br :
  sa_upstreams (render_tls_backend st ns hs acc br) = sa_upstreams acc ++ [stream_upstream st ns 443 br].
Proof.
  unfold render_tls_backend. destruct (is_empty hs); [|by rewrite add_sni_upstreams].
  by destruct (sa_catch_all _).
Qed.

Lemma stream_upstreams_generated st u :
  u ∈ sa_upstreams (stream_acc st) ↔
  (∃ k r br, gst_tls_routes st !! k = Some r ∧ tls_route_is_accepted r = true ∧ br ∈ TLSRoute_backend_refs r ∧
             u = stream_upstream st (ns_or_default (lr_metadata r)) 443 br) ∨
  (∃ k r br, gst_tcp_routes st !! k = Some r ∧ tcp_route_is_accepted r = true ∧ br ∈ TCPRoute_backend_refs r ∧
             u = stream_upstream st (ns_or_default (tr_metadata r)) 9000 br).
Proof.
  unfold stream_acc.
  rewrite (foldl_or (λ a, u ∈ sa_upstreams a) (λ e : string * TCPRoute, tcp_route_is_accepted e.2 = true ∧
    ∃ br, br ∈ TCPRoute_backend_refs e.2 ∧ u = stream_upstream st (ns_or_default (tr_metadata e.2)) 9000 br)).
  2:{ intros a [k r]. unfold render_tcp_route. cbn [snd]. destruct (tcp_route_is_accepted r); cbn [negb]; [|naive_solver].
      rewrite (foldl_or (λ a, u ∈ sa_upstreams a) (λ br, u = stream_upstream st (ns_or_default (tr_metadata r)) 9000 br)); [naive_solver|].
      intros b br. cbn. rewrite elem_of_app, list_elem_of_singleton. done. }
  rewrite (foldl_or (λ a, u ∈ sa_upstreams a) (λ e : string * TLSRoute, tls_route_is_accepted e.2 = true ∧
    ∃ br, br ∈ TLSRoute_backend_refs e.2 ∧ u = stream_upstream st (ns_or_default (lr_metadata e.2)) 443 br)).
  2:{ intros a [k r]. unfold render_tls_route. cbn [snd]. destruct (tls_route_is_accepted r); cbn [negb]; [|naive_solver].
      rewrite (foldl_or (λ a, u ∈ sa_upstreams a) (λ br, u = stream_upstream st (ns_or_default (lr_metadata r)) 443 br)); [naive_solver|].
      intros b br. rewrite render_tls_backend_upstreams, elem_of_app, list_elem_of_singleton. done. }
  cbn [sa_upstreams]. rewrite elem_of_nil. split.
  - intros [[[]|([k r]&Hin&Ha&br&Hbr&->)]|([k r]&Hin&Ha&br&Hbr&->)]; apply elem_of_btree_iter in Hin;
      [left|right]; exists k, r, br; done.
  - intros [(k&r&br&Hk&Ha&Hbr&->)|(k&r&br&Hk&Ha&Hbr&->)]; [left; right|right]; exists (k, r);
      (split; [by apply elem_of_btree_iter|]); eauto.
Qed.

(** Every SNI route and the catch-all name an upstream of the stream. *)
Definition names_ok (acc : StreamAcc) : Prop :=
  (∀ h n, (h, n) ∈ sa_sni acc → n ∈ su_name <$> sa_upstreams acc) ∧
  (∀ n, sa_catch_all acc = Some n → n ∈ su_name <$> sa_upstreams acc).

Lemma push_upstream_ok u acc : names_ok acc → names_ok (push_upstream u acc).
Proof.
  intros [H1 H2]. split; cbn; intros *; rewrite fmap_app, elem_of_app; [intros H; left; by eapply H1|intros H; left; auto].
Qed.

Lemma add_sni_ok name h acc : name ∈ su_name <$> sa_upstreams acc → names_ok acc → names_ok (add_sni name acc h).
Proof.
  intros Hn [H1 H2]. unfold add_sni. destruct (sa_owner acc !! h); [done|]. split; cbn; [|done].
  intros h' n [?|[= -> ->]%list_elem_of_singleton]%elem_of_app; [by eapply H1|done].
Qed.

Lemma stream_names_ok st : names_ok (stream_acc st).
Proof.
  unfold stream_acc. apply foldl_inv; [|apply foldl_inv].
  - intros a [k r] Ha. unfold render_tcp_route. destruct (tcp_route_is_accepted _); cbn [negb]; [|done].
    apply foldl_inv; [|done]. intros b br. apply push_upstream_ok.
  - intros a [k r] Ha. unfold render_tls_route. destruct (tls_route_is_accepted _); cbn [negb]; [|done].
    apply foldl_inv; [|done]. clear a Ha. intros a br Ha. unfold render_tls_backend.
    set (u := stream_upstream _ _ _ br). pose proof (push_upstream_ok u a Ha) as Hp.
    assert (su_name u ∈ su_name <$> sa_upstreams (push_upstream u a)) as Hu.
    { cbn. rewrite fmap_app. set_solver. }
    destruct (is_empty _).
    + destruct (sa_catch_all (push_upstream u a)) eqn:E; [done|]. destruct Hp as [H1 H2]. split; [done|]. by intros n [= <-].
    + assert (∀ hs b, su_name u ∈ su_name <$> sa_upstreams b → names_ok b → names_ok (foldl (add_sni (su_name u)) b hs)) as Hfold; [|auto].
      intros hs. induction hs as [|h hs IH]; intros b Hub Hb; cbn; [done|]. apply IH; [|by apply add_sni_ok].
      unfold add_sni. by destruct (sa_owner b !! h).
  - split; [set_solver|done].
Qed.

Lemma collect_map_Some l h n : collect_map l !! h = Some n → (h, n) ∈ l.
Proof.
  unfold collect_map. assert (∀ m, foldl (λ (m : gmap string string) (e : string * string), <[e.1 := e.2]> m) m l !! h = Some n → (h, n) ∈ l ∨ m !! h = Some n) as H.
  { induction l as [|[h' n'] l IH]; intros m; cbn; [by right|]. intros [?|Hm]%IH; [left; set_solver|].
    destruct (decide (h = h')) as [->|]; [rewrite lookup_insert_eq in Hm; simplify_eq; left; set_solver|].
    rewrite lookup_insert_ne in Hm by done. by right. }
  intros [?|?]%H; [done|]. by rewrite lookup_empty in *.
Qed.

Lemma trim_end_head c s : is_ascii_whitespace c = false → trim_end (String c s) ≠ "".
Proof. intros Hc. cbn. destruct (trim_end s); [by rewrite Hc|done]. Qed.

Lemma trim_stream_name s : trim ("stream-" +:+ s) ≠ "".
Proof. apply (trim_end_head "s"). done. Qed.

Lemma any_addr_parse port : (port < 65536)%N → parse_socket_addr ("0.0.0.0:" +:+ show_N port) = Some (any_addr port).
Proof. intros Hp. exact (parse_show_socket_v4 (mkIpv4 (as_u8 0) (as_u8 0) (as_u8 0) (as_u8 0)) port Hp). Qed.

(** ** The proxy accepts what the controller generates *)

Definition ports_ok (st : GatewayState) : Prop :=
  ∀ k g l, gst_gateways st !! k = Some g → l ∈ gw_listeners g → (li_port l < 65536)%N.

(** The rule adds at least one route to the configuration. *)
Definition emits_route (rule : HTTPRouteRule) : Prop :=
  hrr_matches rule = [] ∨ ∃ m, m ∈ hrr_matches rule ∧ match_path m ≠ None.

Lemma rule_output_spec route i rule t r :
  r ∈ rule_output route i rule t →
  rc_upstream r = route_rule_name route i ∧ rc_filters r = None ∧ rc_tls r = None ∧ rc_timeout r = t ∧
  valid_match (rc_match_rules r).
Proof.
  unfold rule_output, rule_routes. destruct (hrr_matches rule) as [|m ms].
  - intros ->%list_elem_of_singleton. cbn. split_and!; try done. right; left. done.
  - intros ([j x]&_&H)%list_elem_of_omap. unfold match_route, match_path in H.
    destruct (hrm_path x) as [[[] v]|]; cbn in H; simplify_eq; cbn; split_and!; try done;
      [right; right; left|right; left|right; left]; done.
Qed.

Lemma rule_output_inhabited route i rule t : (∃ r, r ∈ rule_output route i rule t) ↔ emits_route rule.
Proof.
  unfold emits_route, rule_output, rule_routes. destruct (hrr_matches rule) as [|m0 ms0] eqn:E; [split; [by left|intros _; eexists; left]|].
  rewrite <-E. assert (hrr_matches rule ≠ []) as Hne by congruence. clear E m0 ms0. split.
  - intros (r&([j x]&Hj&Hr)%list_elem_of_omap). right. apply elem_of_enumerate in Hj.
    exists x. split; [by eapply list_elem_of_lookup_2|]. unfold match_route in Hr. by destruct (match_path x).
  - intros [?|(m&[j Hj]%list_elem_of_lookup&Hm)]; [done|].
    destruct (match_path m) as [[pa pp]|] eqn:Em; [|done]. eexists. apply list_elem_of_omap. exists (j, m).
    split; [by apply elem_of_enumerate|]. unfold match_route. by rewrite Em.
Qed.

(** A stream is generated: some stream route is stored and some gateway has a
    stream listener. *)
Definition emits_stream (st : GatewayState) : Prop :=
  (gst_tcp_routes st ≠ ∅ ∨ gst_tls_routes st ≠ ∅) ∧
  ∃ k g l, gst_gateways st !! k = Some g ∧ l ∈ gw_listeners g ∧ (li_protocol l = TCP ∨ li_protocol l = TLS).

Lemma elem_of_listeners_of p st k l :
  (k, l) ∈ listeners_of p (btree_iter (gst_gateways st)) ↔
  ∃ g, gst_gateways st !! k = Some g ∧ l ∈ gw_listeners g ∧ p (li_protocol l) = true.
Proof.
  unfold listeners_of. rewrite elem_of_flat_map. split.
  - intros ([k' g]&Hin&H). apply elem_of_btree_iter in Hin. apply list_elem_of_fmap in H as (l'&He&Hl).
    apply list_elem_of_filter in Hl as [Hp Hl]. simplify_eq. eauto.
  - intros (g&Hg&Hl&Hp). exists (k, g). split; [by apply elem_of_btree_iter|].
    apply list_elem_of_fmap. exists l. split; [done|]. by apply list_elem_of_filter.
Qed.

Lemma generate_stream_Some st s :
  generate_stream st (listeners_of is_stream (btree_iter (gst_gateways st))) = Some s →
  emits_stream st ∧
  st_upstreams s = sa_upstreams (stream_acc st) ∧ st_default_upstream s = sa_catch_all (stream_acc st) ∧
  (∀ h n, st_sni_routes s !! h = Some n → (h, n) ∈ sa_sni (stream_acc st)) ∧
  trim (st_name s) ≠ "" ∧ (ports_ok st → is_Some (parse_socket_addr (st_listen s))).
Proof.
  unfold generate_stream. destruct (bool_decide _ && bool_decide _) eqn:E; [done|].
  destruct (listeners_of _ _) as [|[k l] ls] eqn:El; [done|]. intros [= <-].
  cbn [st_upstreams st_default_upstream st_sni_routes st_name st_listen].
  assert ((k, l) ∈ listeners_of is_stream (btree_iter (gst_gateways st))) as Hin by (rewrite El; left).
  apply elem_of_listeners_of in Hin as (g&Hg&Hl&Hp). apply bool_decide_eq_true in Hp. split_and!; try done.
  - split; [|eauto 8]. apply andb_false_iff in E as [E|E]; apply bool_decide_eq_false in E; eauto.
  - intros h n Hn%collect_map_Some. unfold sort_by_key in Hn. by rewrite elem_of_sort_by in Hn by apply _.
  - apply trim_stream_name.
  - intros Hports. exists (any_addr (li_port l)). exact (any_addr_parse _ (Hports _ _ _ Hg Hl)).
Qed.

Lemma generate_stream_None st :
  generate_stream st (listeners_of is_stream (btree_iter (gst_gateways st))) = None → ¬ emits_stream st.
Proof.
  unfold generate_stream. destruct (bool_decide _ && bool_decide _) eqn:E.
  - intros _ [[H|H] _]; destruct_bools; done.
  - destruct (listeners_of _ _) as [|[k l] ls] eqn:El; [|done]. intros _ [_ (k&g&l&Hg&Hl&Hp)].
    assert ((k, l) ∈ listeners_of is_stream (btree_iter (gst_gateways st))) as Hin.
    { apply elem_of_listeners_of. exists g. split_and!; [done..|]. by apply bool_decide_eq_true. }
    rewrite El in Hin. by apply elem_of_nil in Hin.
Qed.

(** The servers of a backend are missing only when its endpoints are known and empty. *)
Lemma backend_servers_nil st ns name port d :
  backend_servers st ns name port d = [] ↔ ∃ e, gst_service_endpoints st !! key ns name = Some e ∧ se_endpoints e = [].
Proof.
  unfold backend_servers. destruct (gst_service_endpoints st !! _) as [e|]; [|naive_solver].
  split.
  - intros H. exists e. split; [done|]. apply Permutation_nil_r. rewrite <-H. symmetry. apply sort_by_perm.
  - intros (e'&[= <-]&->). done.
Qed.

(** The streams of the generated configuration are valid. *)
Definition streams_supplied (st : GatewayState) : Prop :=
  emits_stream st →
  (∃ ns br, stream_backend st ns br) ∧
  (∀ ns br e, stream_backend st ns br →
     gst_service_endpoints st !! key (unwrap_or ns (br_namespace br)) (br_name br) = Some e → se_endpoints e ≠ []).

Lemma stream_upstreams_backend st :
  (∀ u, u ∈ sa_upstreams (stream_acc st) → ∃ ns br d, stream_backend st ns br ∧ u = stream_upstream st ns d br) ∧
  (∀ ns br, stream_backend st ns br → ∃ d, stream_upstream st ns d br ∈ sa_upstreams (stream_acc st)).
Proof.
  split.
  - intros u [(k&r&br&Hk&Ha&Hbr&->)|(k&r&br&Hk&Ha&Hbr&->)]%stream_upstreams_generated; eexists _, br, _;
      (split; [|done]); [left|right]; exists k, r; done.
  - intros ns br [(k&r&Hk&Ha&->&Hbr)|(k&r&Hk&Ha&->&Hbr)]; [exists 443%N|exists 9000%N];
      apply stream_upstreams_generated; [left|right]; exists k, r, br; done.
Qed.

Lemma generated_streams_valid st :
  ports_ok st →
  valid_streams (option_list (generate_stream st (listeners_of is_stream (btree_iter (gst_gateways st))))) ↔ streams_supplied st.
Proof.
  intros Hports. unfold streams_supplied. destruct (stream_upstreams_backend st) as [Hu1 Hu2].
  destruct (generate_stream _ _) as [s|] eqn:E; cbn [option_list].
  - apply generate_stream_Some in E as (Hem&Hup&Hdef&Hsni&Htrim&Hlisten). destruct (stream_names_ok st) as [Hn1 Hn2].
    assert (valid_streams [s] ↔ st_upstreams s ≠ [] ∧ ∀ u, u ∈ st_upstreams s → su_servers u ≠ []) as ->.
    { unfold valid_streams, valid_stream. split.
      - intros (_&_&H). destruct (H s) as (_&_&_&_&H1&H2); [left|]. done.
      - intros [H1 H2]. split; [by apply NoDup_singleton|]. split; [by apply NoDup_singleton|].
        intros s' ->%list_elem_of_singleton. split_and!; auto.
        + rewrite Hup, Hdef. auto.
        + rewrite Hup. intros h n Hh%Hsni. eauto. }
    rewrite Hup. split.
    + intros [H1 H2] _. split.
      * destruct (sa_upstreams (stream_acc st)) as [|u us]; [done|]. destruct (Hu1 u) as (ns&br&d&Hb&_); [left|eauto].
      * intros ns br e Hb He Hnil. destruct (Hu2 ns br Hb) as [d Hd]. apply (H2 _ Hd). apply backend_servers_nil. eauto.
    + intros H. destruct (H Hem) as [(ns&br&Hb) H2]. split.
      * destruct (Hu2 ns br Hb) as [d Hd]. intros Hnil. rewrite Hnil in Hd. by apply elem_of_nil in Hd.
      * intros u (ns'&br'&d&Hb'&->)%Hu1 (e&He&Hnil)%backend_servers_nil. by eapply H2.
  - apply generate_stream_None in E. split; [done|]. intros _. split; [apply NoDup_nil_2|]. split; [apply NoDup_nil_2|set_solver].
Qed.

Lemma generate_config_Some st c :
  generate_config st = Some c →
  ∃ ups rs, fold_panic (render_http_route st) (∅, []) (btree_iter (gst_http_routes st)) = Some (ups, rs) ∧
    cfg_upstreams c = ups ∧ cfg_routes c = rs ∧ cfg_logging c = LoggingConfig_default ∧
    cfg_streams c = option_list (generate_stream st (listeners_of is_stream (btree_iter (gst_gateways st)))) ∧
    (∀ tls, cfg_tls c = Some tls → ∃ certs, tls = mkTlsConfig TlsMode_File None (Some (mkFileConfig true 30 certs)) ∧
       certs ≠ [] ∧ ∀ cert, cert ∈ certs → fc_domains cert ≠ []) ∧
    cfg_server c = set_listens (cfg_server Config_default) (listeners_of is_http (btree_iter (gst_gateways st)))
                     (listeners_of is_https (btree_iter (gst_gateways st))).
Proof.
  unfold generate_config. intros ([ups rs]&Hf&[= <-])%bind_Some. exists ups, rs. cbn [cfg_upstreams cfg_routes cfg_logging cfg_streams cfg_tls cfg_server].
  split_and!; try done. intros tls. set (certs := snd <$> btree_iter _). destruct (is_empty certs) eqn:E; cbn [negb]; [done|].
  intros [= <-]. exists certs. split_and!; [done|by apply is_empty_false|].
  intros cert ([k c]&->&Hin)%list_elem_of_fmap. apply elem_of_btree_iter in Hin. by eapply generated_cert_domains in Hin.
Qed.

Lemma no_default_certs certs w i : (∀ cert, cert ∈ certs → fc_domains cert ≠ []) → default_cert_count (mkFileConfig w i certs) = 0.
Proof.
  intros H. unfold default_cert_count. cbn. induction certs as [|c cs IH]; [done|]. rewrite filter_cons.
  rewrite decide_False by (rewrite is_empty_true; apply H; left). apply IH. intros. apply H. by right.
Qed.

(** C1: the contract between the controller and the proxy.  With listener ports
    below 65536, when the generator returns a configuration, the proxy's validation
    accepts it exactly when no rendered rule that produces a route has a request timeout
    that parses to a number of seconds (one that does not parse, like an absent one, is
    left out) and, if a stream is generated, some accepted TCP or TLS route has a backend
    and no such backend has a list of endpoints that is known and empty (one without a
    known list is given a DNS name); undefined upstreams, empty upstreams, missing match
    rules, bad certificate sections, dangling SNI or default upstreams and invalid stream
    addresses never occur. *)
Theorem generated_config_valid_iff st c :
  ports_ok st → generate_config st = Some c →
  validate c = Ok tt ↔
  (∀ route i rule t, rendered st route i rule → emits_route rule → rule_timeout rule = Some t → t = None) ∧
  streams_supplied st.
Proof.
  intros Hports (ups&rs&Hf&Hups&Hrs&Hlog&Hst&Htls&_)%generate_config_Some.
  rewrite validate_valid, <-(generated_streams_valid st Hports), <-Hst.
  destruct (http_upstreams_ok _ _ Hf) as [Hok1 Hok2]. cbn [fst snd] in *. split.
  - intros Hv. split; [|by destruct Hv]. intros route i rule t Hr (r&Hin)%(rule_output_inhabited route i rule t) Ht.
    assert (r ∈ cfg_routes c) as Hc by (rewrite Hrs; eapply http_routes_generated; eauto 8).
    destruct (vc_routes c Hv r Hc) as (_&_&Hto&_). apply rule_output_spec in Hin as (_&_&_&Htr&_). congruence.
  - intros [Hto Hs]. split; [by rewrite Hlog| | | |done].
    + intros r Hr. rewrite Hrs in Hr. pose proof (Hok1 r Hr) as Hu.
      apply (http_routes_generated _ _ _ _ Hf) in Hr as (route&i&rule&t&Hren&Ht&Hin).
      pose proof (rule_output_spec _ _ _ _ _ Hin) as (_&Hfil&_&Htim&Hm). split_and!; [by rewrite Hups|by rewrite Hfil| |done].
      rewrite Htim. eapply Hto; [done| |done]. eapply rule_output_inhabited. eauto.
    + rewrite Hups. done.
    + intros tls (certs&->&Hne&Hd)%Htls. split.
      * split_and!; try done. cbn. intros f _ [= <-]. split; [done|]. rewrite no_default_certs by done. lia.
      * intros r t Hr Hrt. rewrite Hrs in Hr. apply (http_routes_generated _ _ _ _ Hf) in Hr as (route&i&rule&t'&_&_&Hin).
        apply rule_output_spec in Hin as (_&_&Hn&_). congruence.
Qed.

(** ** Where traffic goes *)

(** Every upstream holds the addresses of a rendered rule of that name. *)
Definition upstreams_traced (st : GatewayState) (acc : HttpAcc) : Prop :=
  ∀ name u, acc.1 !! name = Some u →
  ∃ route i rule, rendered st route i rule ∧ name = route_rule_name route i ∧
    u = mkUpstreamConfig (rule_backends st (ns_or_default (hr_metadata route)) rule) RoundRobin None.

Lemma http_upstreams_generated st acc :
  fold_panic (render_http_route st) (∅, []) (btree_iter (gst_http_routes st)) = Some acc → upstreams_traced st acc.
Proof.
  apply fold_panic_ind; [|done].
  intros a [k route] a' Hk Ha. unfold render_http_route. cbn [snd].
  destruct (http_route_is_accepted route) eqn:Eacc; cbn [negb]; [|by intros [= <-]].
  revert Ha. apply fold_panic_ind. clear a. intros b [i rule] b' Hi Hb [[_ ->]|(Hne&t&Ht&->)]%render_rule_Some; [done|].
  intros name u. cbn [fst]. destruct (decide (name = route_rule_name route i)) as [->|].
  - rewrite lookup_insert_eq. intros [= <-]. exists route, i, rule. split; [|done].
    apply elem_of_btree_iter in Hk. apply elem_of_enumerate in Hi. split_and!; eauto.
  - rewrite lookup_insert_ne by done. apply Hb.
Qed.

(** No two rendered rules get the same upstream name. *)
Definition names_distinct (st : GatewayState) : Prop :=
  ∀ route i rule route' i' rule', rendered st route i rule → rendered st route' i' rule' →
    route_rule_name route i = route_rule_name route' i' → route = route' ∧ i = i'.

(** When no two rendered rules share an upstream name, every route of the
    generated configuration comes from a rule of an accepted route, sends traffic to
    exactly the addresses of that rule's backends, and is restricted to the first
    hostname of the route (to no host when it has none). *)
Theorem route_reaches_its_backends st c r :
  generate_config st = Some c → names_distinct st → r ∈ cfg_routes c →
  ∃ route i rule t, rendered st route i rule ∧ r ∈ rule_output route i rule t ∧
    rm_host (rc_match_rules r) = head (hrs_hostnames (hr_spec route)) ∧
    cfg_upstreams c !! rc_upstream r =
      Some (mkUpstreamConfig (rule_backends st (ns_or_default (hr_metadata route)) rule) RoundRobin None).
Proof.
  intros (ups&rs&Hf&Hups&Hrs&_)%generate_config_Some Hd Hr. rewrite Hups. rewrite Hrs in Hr.
  destruct (http_upstreams_ok _ _ Hf) as [Hok _]. destruct (Hok r Hr) as [u Hu]. cbn [fst] in Hu.
  apply (http_routes_generated _ _ _ _ Hf) in Hr as (route&i&rule&t&Hren&Ht&Hin).
  exists route, i, rule, t. split_and!; [done|done| |].
  - unfold rule_output, rule_routes in Hin. destruct (hrr_matches rule); [by apply list_elem_of_singleton in Hin as ->|].
    apply list_elem_of_omap in Hin as ([j x]&_&H). unfold match_route in H. destruct (match_path x) as [[]|]; [|done].
    cbn in H. by simplify_eq.
  - rewrite Hu. destruct (http_upstreams_generated _ _ Hf _ _ Hu) as (route'&i'&rule'&Hren'&Hname&->).
    pose proof (rule_output_spec _ _ _ _ _ Hin) as [Hup _]. rewrite Hup in Hname.
    destruct (Hd _ _ _ _ _ _ Hren Hren' Hname) as [-> ->].
    destruct Hren as (_&_&H1&_), Hren' as (_&_&H2&_). by simplify_eq.
Qed.

(** ** Listen addresses *)

(** The HTTP addresses a proxy binds.  With at least one HTTP listener, the
    generated server listens on exactly the ports of the HTTP listeners, each once;
    HTTPS is enabled exactly when there is an HTTPS listener, and plain HTTP is
    disabled exactly when there is an HTTPS listener and no HTTP one. *)
Theorem generated_listens st c :
  generate_config st = Some c →
  let http := listeners_of is_http (btree_iter (gst_gateways st)) in
  let https := listeners_of is_https (btree_iter (gst_gateways st)) in
  NoDup (http_listen_addrs (cfg_server c)) ∧
  (http ≠ [] → ∀ a, a ∈ http_listen_addrs (cfg_server c) ↔ ∃ k l, (k, l) ∈ http ∧ a = any_addr (li_port l)) ∧
  (server_https_listen (cfg_server c) ≠ None ↔ https ≠ []) ∧
  (server_disable_http (cfg_server c) = true ↔ http = [] ∧ https ≠ []).
Proof.
  intros (ups&rs&_&_&_&_&_&_&->)%generate_config_Some http https. split.
  { unfold http_listen_addrs. rewrite <-(list_fmap_id (dedup_by id _)). apply dedup_by_NoDup. }
  unfold set_listens. fold http https. destruct http as [|[k h] hs]; [destruct https as [|[]]; cbn; naive_solver|].
  assert (∀ x https_listen d, (x ∈ http_listen_addrs (mkServerConfig (any_addr (li_port h))
      (additional_http_listens ((k, h) :: hs)) https_listen d (server_workers (cfg_server Config_default))
      (server_json_logs (cfg_server Config_default)) (server_log_level (cfg_server Config_default))
      (server_shutdown_timeout (cfg_server Config_default)))) ↔
    ∃ k' l, (k', l) ∈ (k, h) :: hs ∧ x = any_addr (li_port l)) as Hin.
  { intros x hl d. unfold http_listen_addrs. cbn [server_listen server_http_listens].
    assert (∀ l : list SocketAddr, x ∈ dedup_by id l ↔ x ∈ l) as Hdd.
    { intros l. pose proof (dedup_by_keys id l x) as H. by rewrite !list_fmap_id in H. }
    rewrite Hdd, elem_of_cons. unfold additional_http_listens. rewrite Hdd. cbn [drop]. rewrite list_elem_of_fmap. split.
    - intros [->|([k' l]&->&Hl)]; [exists k, h|exists k', l]; set_solver.
    - intros (k'&l&[[= -> ->]|Hl]%elem_of_cons&->); [by left|]. right. by exists (k', l). }
  destruct https as [|[k2 t] ts]; (split; [intros _ a; apply Hin|]); cbn; naive_solver.
Qed.

(** ** The generator returns *)

Fixpoint is_ascii (s : string) : bool :=
  match s with EmptyString => true | String c s' => (N_of_ascii c <? 128)%N && is_ascii s' end.

Lemma is_ascii_trim s : is_ascii s = true → is_ascii (trim s) = true.
Proof.
  intros H. unfold trim.
  assert (is_ascii (trim_start s) = true) as Hs.
  { induction s as [|c s IH]; cbn in *; [done|]. apply andb_true_iff in H as [Hc Hs].
    destruct (is_ascii_whitespace c); [auto|]. cbn. by rewrite Hc, Hs. }
  revert Hs. generalize (trim_start s). clear H s. intros s. induction s as [|c s IH]; cbn [is_ascii trim_end]; [done|].
  intros [Hc Hs]%andb_true_iff. specialize (IH Hs). destruct (trim_end s).
  - destruct (is_ascii_whitespace c); [done|]. cbn. by rewrite Hc.
  - cbn in *. by rewrite Hc.
Qed.

Lemma get_last_ascii s : s ≠ "" → is_ascii s = true → ∃ c, String.get (String.length s - 1) s = Some c ∧ (N_of_ascii c < 128)%N.
Proof.
  induction s as [|c s IH]; [done|]. intros _. cbn [is_ascii]. intros [Hc Hs]%andb_true_iff.
  destruct s as [|c' s]; [exists c; split; [done|by apply N.ltb_lt]|].
  destruct IH as (x&Hx&Hlt); [done|done|]. exists x. split; [|done].
  replace (String.length (String c' s) - 1) with (String.length s) in Hx by (cbn; lia).
  replace (String.length (String c (String c' s)) - 1) with (S (String.length s)) by (cbn; lia). exact Hx.
Qed.

Lemma parse_duration_ascii d : is_ascii d = true → is_Some (parse_duration_to_secs d).
Proof.
  intros Hd%is_ascii_trim. unfold parse_duration_to_secs.
  destruct (is_empty_str (trim d)) eqn:E; [eauto|]. apply is_empty_str_false in E.
  destruct (get_last_ascii _ E Hd) as (c&Hc&Hlt). unfold split_last. rewrite Hc.
  assert (is_continuation c = false) as ->; [|eauto].
  unfold is_continuation. apply andb_false_iff. left. by apply N.leb_gt.
Qed.

Definition ascii_timeouts (st : GatewayState) : Prop :=
  ∀ k r rule d, gst_http_routes st !! k = Some r → rule ∈ hrs_rules (hr_spec r) →
    (hrr_timeouts rule ≫= to_request) = Some d → is_ascii d = true.

Lemma generate_config_returns st : ascii_timeouts st → is_Some (generate_config st).
Proof.
  intros Hd. unfold generate_config.
  assert (is_Some (fold_panic (render_http_route st) (∅, []) (btree_iter (gst_http_routes st)))) as [[ups rs] ->]; [|cbn; eauto].
  apply fold_panic_Some. intros a [k r] Hk%elem_of_btree_iter. unfold render_http_route. cbn [snd].
  destruct (http_route_is_accepted r); cbn [negb]; [|eauto].
  apply fold_panic_Some. intros b [i rule] Hi%elem_of_enumerate. unfold render_rule.
  destruct (negb (is_empty _)); [|eauto].
  assert (is_Some (rule_timeout rule)) as [t ->]; [|cbn; eauto].
  unfold rule_timeout. destruct (hrr_timeouts rule ≫= to_request) as [d|] eqn:E; [|eauto].
  apply parse_duration_ascii. eapply Hd; [done| |done]. by eapply list_elem_of_lookup_2.
Qed.

(** The generator does not panic on durations written in ASCII, whatever the
    rest of the state holds: it returns a configuration whenever every request
    timeout of a stored HTTP route is an ASCII string. *)
Theorem generate_config_total st :
  ascii_timeouts st → is_Some (generate_config st).
Proof. apply generate_config_returns. Qed.

(** ** Examples *)

Definition accepted_by_wicket : option (list RouteParentStatus) :=
  Some [mkRouteParentStatus ex_parent WICKET_CONTROLLER_NAME [Condition_accepted "2024-01-01T00:00:00Z"]].

Definition simple_route (ns name svc : string) : HTTPRoute :=
  mkHTTPRoute (meta_of ns name)
    (mkHTTPRouteSpec [ex_parent] [name +:+ ".example.com"; "www.example.com"]
       [mkHTTPRouteRule None [] [] [mkHTTPBackendRef (mkBackendRef "" "Service" svc None (Some 80%N) 1) []] None])
    accepted_by_wicket.

Definition ex_tls_route : TLSRoute :=
  mkTLSRoute (meta_of "apps" "db")
    (mkTLSRouteSpec [ex_parent] ["db.example.com"]
       [mkTLSRouteRule None [mkBackendRef "" "Service" "pg" None (Some 5432%N) 1]]) accepted_by_wicket.

Definition ex_listeners : Gateway :=
  mkGateway (meta_of "infra" "edge")
    (mkGatewaySpec "wicket"
       [mkListener "web" None 80 HTTP None None; mkListener "alt" None 8080 HTTP None None;
        mkListener "db" None 5432 TLS None None] []) None.

Definition ex_state : GatewayState :=
  mkGatewayState {["infra/edge" := ex_listeners]} {["apps/shop" := simple_route "apps" "shop" "web"]} ∅
    {["apps/db" := ex_tls_route]}
    {["apps/web" := mkServiceEndpoints "apps" "web" ["10.0.0.2:8080"; "10.0.0.1:8080"]]} ∅.

Definition ex_generated : Config :=
  match generate_config ex_state with Some c => c | None => Config_default end.

Lemma ex_generated_eq : generate_config ex_state = Some ex_generated.
Proof. vm_compute. reflexivity. Qed.

Lemma ex_ports : ports_ok ex_state.
Proof.
  intros k g l Hg Hl. cbn [ex_state gst_gateways] in Hg. apply lookup_singleton_Some in Hg as [<- <-]. cbn in Hl.
  repeat (apply elem_of_cons in Hl as [->|Hl]; [done|]). by apply elem_of_nil in Hl.
Qed.

Lemma ex_rendered route i rule : rendered ex_state route i rule →
  route = simple_route "apps" "shop" "web" ∧ i = 0 ∧ rule_timeout rule = Some None.
Proof.
  intros ([k Hk]&_&Hi&_). cbn [ex_state gst_http_routes] in Hk. apply lookup_singleton_Some in Hk as [<- <-]. cbn in Hi.
  destruct i as [|i]; [|done]. by injection Hi as <-.
Qed.

Lemma generated_config_valid_iff_witness : validate ex_generated = Ok tt.
Proof.
  apply (generated_config_valid_iff ex_state ex_generated ex_ports ex_generated_eq). split.
  - intros route i rule t (_&_&Ht)%ex_rendered _ Ht'. congruence.
  - intros _. split.
    + exists "apps", (mkBackendRef "" "Service" "pg" None (Some 5432%N) 1). left. exists "apps/db", ex_tls_route.
      split_and!; [done..|]. left.
    + intros ns br e [(k&r&Hk&_&->&Hbr)|(k&r&Hk&_)]; [|done].
      cbn [ex_state gst_tls_routes] in Hk. apply lookup_singleton_Some in Hk as [<- <-]. cbn in Hbr. apply list_elem_of_singleton in Hbr as ->. done.
Defined.

Lemma generate_config_total_witness : is_Some (generate_config ex_state).
Proof.
  apply (generate_config_total ex_state). intros k r rule d Hk Hr.
  cbn [ex_state gst_http_routes] in Hk. apply lookup_singleton_Some in Hk as [<- <-].
  cbn in Hr. apply list_elem_of_singleton in Hr as ->. done.
Defined.

Lemma route_reaches_its_backends_witness :
  ∃ route, rm_host (rc_match_rules (default (mkRouteConfig None (mkRouteMatch None None None [] ∅) "" None None None)
                                      (head (cfg_routes ex_generated)))) = head (hrs_hostnames (hr_spec route)) ∧
           hr_metadata route = meta_of "apps" "shop".
Proof.
  destruct (route_reaches_its_backends ex_state ex_generated
    (default (mkRouteConfig None (mkRouteMatch None None None [] ∅) "" None None None) (head (cfg_routes ex_generated))))
    as (route&i&rule&t&Hren&_&Hh&_).
  - apply ex_generated_eq.
  - intros route i rule route' i' rule' (->&->&_)%ex_rendered (->&->&_)%ex_rendered _. done.
  - vm_compute. left.
  - exists route. split; [done|]. by apply ex_rendered in Hren as [-> _].
Defined.

Lemma generated_listens_witness : NoDup (http_listen_addrs (cfg_server ex_generated)).
Proof. apply (generated_listens ex_state ex_generated ex_generated_eq). Defined.

(** Two tenants: [a-b/c] and [a/b-c], each with its own service. *)
Definition ex_collision : GatewayState :=
  mkGatewayState {["infra/edge" := ex_listeners]}
    (<["a-b/c" := simple_route "a-b" "c" "mine"]> {["a/b-c" := simple_route "a" "b-c" "theirs"]}) ∅ ∅
    (<["a-b/mine" := mkServiceEndpoints "a-b" "mine" ["10.0.1.1:80"]]>
      {["a/theirs" := mkServiceEndpoints "a" "theirs" ["10.0.2.2:80"]]}) ∅.

(** Upstream names of different tenants can collide.  The routes [c] of
    namespace [a-b] and [b-c] of namespace [a] get the same upstream name; the
    configuration is valid, and the traffic of the first goes to the service of the
    other namespace. *)
Theorem upstream_name_collision :
  ∃ c, generate_config ex_collision = Some c ∧
    rule_backends ex_collision "a-b" (default (mkHTTPRouteRule None [] [] [] None)
      (head (hrs_rules (hr_spec (simple_route "a-b" "c" "mine"))))) = ["10.0.1.1:80"] ∧
    (∃ r, r ∈ cfg_routes c ∧ rm_host (rc_match_rules r) = Some "c.example.com" ∧
          up_backends <$> cfg_upstreams c !! rc_upstream r = Some ["10.0.2.2:80"]) ∧
    validate c = Ok tt.
Proof.
  eexists. split; [vm_compute; reflexivity|]. split; [vm_compute; reflexivity|]. split; [|vm_compute; reflexivity].
  eexists. split; [left|]. split; vm_compute; reflexivity.
Qed.
