(* ===== verification/Status.v ===== *)
(** * Status conditions (reconcilers/status_helpers.rs)

    The helpers that keep status patches idempotent: equality of conditions up to
    their time stamp, and the preservation of the time stamps of conditions whose
    status has not changed.  Statuses with one list of conditions per listener or
    per parent reference use the same helpers, group by group. *)

From S2P Require Import Prelude Str Crds.
From Stdlib Require Import Morphisms.

Definition condition_semantically_equal (x y : Condition) : bool :=
  String.eqb (cond_type x) (cond_type y)
  && String.eqb (cond_status x) (cond_status y)
  && String.eqb (cond_reason x) (cond_reason y)
  && String.eqb (cond_message x) (cond_message y)
  && bool_decide (cond_observed_generation x = cond_observed_generation y).

Definition conditions_semantically_equal (a b : list Condition) : bool :=
  if negb (length a =? length b) then false
  else forallb (λ '(x, y), condition_semantically_equal x y) (zip a b).

Definition with_last_transition_time (t : string) (c : Condition) : Condition :=
  mkCondition (cond_type c) (cond_status c) (cond_observed_generation c) t (cond_reason c) (cond_message c).

Definition preserve_condition_timestamp (existing : list Condition) (c : Condition) : Condition :=
  match find_first (λ e, String.eqb (cond_type e) (cond_type c)) existing with
  | Some prev =>
      if String.eqb (cond_status prev) (cond_status c)
      then with_last_transition_time (cond_last_transition_time prev) c else c
  | None => c
  end.

Definition preserve_condition_timestamps (new existing : list Condition) : list Condition :=
  preserve_condition_timestamp existing <$> new.

(** ** Equality up to time stamps *)

Definition cond_sim (x y : Condition) : Prop :=
  with_last_transition_time "" x = with_last_transition_time "" y.
Definition conds_sim : relation (list Condition) := Forall2 cond_sim.

#[global] Instance cond_sim_equiv : Equivalence cond_sim.
Proof. split; unfold cond_sim; [done|by intros x y ->|by intros x y z -> ->]. Qed.

#[global] Instance conds_sim_equiv : Equivalence conds_sim.
Proof. unfold conds_sim. split; apply _. Qed.

Lemma cond_sim_type x y : cond_sim x y → cond_type x = cond_type y.
Proof. by intros [=]. Qed.
Lemma cond_sim_status x y : cond_sim x y → cond_status x = cond_status y.
Proof. by intros [=]. Qed.

Lemma cond_sim_time x y : cond_sim x y → with_last_transition_time (cond_last_transition_time y) x = y.
Proof. destruct x, y. unfold cond_sim, with_last_transition_time. cbn. by intros [= -> -> -> -> ->]. Qed.

Lemma with_time_sim t c : cond_sim (with_last_transition_time t c) c.
Proof. done. Qed.

Lemma condition_semantically_equal_true x y : condition_semantically_equal x y = true ↔ cond_sim x y.
Proof.
  unfold condition_semantically_equal, cond_sim, with_last_transition_time.
  rewrite !andb_true_iff, !String.eqb_eq, bool_decide_eq_true. split; [|by intros [=]].
  by intros [[[[-> ->] ->] ->] ->].
Qed.

(** Same length and related pointwise, as the code tests it. *)
Lemma zip_forallb_Forall2 {A} (p : A → A → bool) (R : A → A → Prop) (a b : list A) :
  (∀ x y, p x y = true ↔ R x y) →
  (if negb (length a =? length b) then false else forallb (λ '(x, y), p x y) (zip a b)) = true ↔ Forall2 R a b.
Proof.
  intros Hp. split.
  - destruct (length a =? length b) eqn:Hl; [|done]. cbn. apply Nat.eqb_eq in Hl. revert b Hl.
    induction a as [|x a IH]; intros [|y b]; cbn; try done. intros [= Hl] [H1 H2]%andb_true_iff.
    constructor; [by apply Hp|by apply IH].
  - intros H. rewrite (Forall2_length _ _ _ H), Nat.eqb_refl. cbn. induction H; cbn; [done|].
    by rewrite (proj2 (Hp _ _)).
Qed.

Lemma conditions_semantically_equal_true a b : conditions_semantically_equal a b = true ↔ conds_sim a b.
Proof. apply zip_forallb_Forall2, condition_semantically_equal_true. Qed.

(** ** Preservation *)

Lemma preserve_condition_sim existing c : cond_sim (preserve_condition_timestamp existing c) c.
Proof. unfold preserve_condition_timestamp. repeat case_match; done. Qed.

(** Preservation changes time stamps only. *)
Lemma preserve_conditions_sim new existing : conds_sim (preserve_condition_timestamps new existing) new.
Proof.
  unfold preserve_condition_timestamps, conds_sim. induction new; cbn; constructor; [|done]. apply preserve_condition_sim.
Qed.

#[global] Instance conditions_semantically_equal_proper :
  Proper (conds_sim ==> conds_sim ==> eq) conditions_semantically_equal.
Proof.
  intros a a' Ha b b' Hb. apply eq_true_iff_eq. rewrite !conditions_semantically_equal_true. by rewrite Ha, Hb.
Qed.

Lemma preserve_condition_exact existing prev c :
  NoDup (cond_type <$> existing) → prev ∈ existing → cond_sim c prev →
  preserve_condition_timestamp existing c = prev.
Proof.
  intros Hnd Hin Hsim. unfold preserve_condition_timestamp. rewrite (cond_sim_type _ _ Hsim).
  rewrite (find_first_NoDup cond_type) by done. by rewrite (cond_sim_status _ _ Hsim), String.eqb_refl, cond_sim_time.
Qed.

(** A status computed anew that means the same as the stored one, becomes the
    stored one, time stamps included, when the stored conditions have distinct types. *)
Lemma preserve_conditions_exact new existing :
  NoDup (cond_type <$> existing) → conds_sim new existing → preserve_condition_timestamps new existing = existing.
Proof.
  intros Hnd Hsim. unfold preserve_condition_timestamps.
  assert (∀ sub, sub ⊆ existing → conds_sim new sub → preserve_condition_timestamp existing <$> new = sub) as Hsub.
  { clear Hsim. revert new. intros new sub Hs Hsim. induction Hsim as [|c prev new sub Hc Hsim IH]; [done|]. cbn. f_equal.
    - apply preserve_condition_exact; [done| |done]. apply Hs. left.
    - apply IH. intros x Hx. apply Hs. by right. }
  by apply Hsub.
Qed.

(** ** Conditions in groups (per listener, per parent reference) *)

Section groups.
Context {A K : Type} `{EqDecision K} (key : A → K) (conds : A → list Condition) (set_conds : list Condition → A → A).

Definition preserve_group (existing : list A) (x : A) : A :=
  match find_first (λ p, bool_decide (key p = key x)) existing with
  | Some prev => set_conds (preserve_condition_timestamps (conds x) (conds prev)) x
  | None => x
  end.

(** What the groups agree on: everything but the time stamps of the conditions. *)
Definition group_sim (x y : A) : Prop :=
  key x = key y ∧ set_conds [] x = set_conds [] y ∧ conds_sim (conds x) (conds y).

Hypothesis set_conds_set : ∀ l l' x, set_conds l (set_conds l' x) = set_conds l x.
Hypothesis conds_set : ∀ l x, conds (set_conds l x) = l.
Hypothesis set_conds_id : ∀ x, set_conds (conds x) x = x.
Hypothesis key_set : ∀ l x, key (set_conds l x) = key x.

#[local] Instance group_sim_equiv : Equivalence group_sim.
Proof.
  split; unfold group_sim.
  - intros x. done.
  - by intros x y (->&->&->).
  - intros x y z (->&->&->) (->&->&->). done.
Qed.

Lemma preserve_group_sim existing x : group_sim (preserve_group existing x) x.
Proof.
  unfold preserve_group. destruct (find_first _ _) as [prev|]; [|done]. unfold group_sim.
  rewrite key_set, set_conds_set, conds_set. split_and!; [done..|]. apply preserve_conditions_sim.
Qed.

Lemma group_sim_set x y : group_sim x y → set_conds (conds y) x = y.
Proof.
  intros (_&Hs&_). rewrite <- (set_conds_set _ []), Hs, set_conds_set. apply set_conds_id.
Qed.

Lemma preserve_groups_exact new existing :
  NoDup (key <$> existing) → (∀ y, y ∈ existing → NoDup (cond_type <$> conds y)) →
  Forall2 group_sim new existing → preserve_group existing <$> new = existing.
Proof.
  intros Hnd Hc Hsim.
  assert (∀ sub, sub ⊆ existing → Forall2 group_sim new sub → preserve_group existing <$> new = sub) as Hsub; [|by apply Hsub].
  clear Hsim. intros sub Hs Hsim. induction Hsim as [|x y new sub Hx Hsim IH]; [done|]. cbn. f_equal.
  - assert (y ∈ existing) as Hy by (apply Hs; left). unfold preserve_group. rewrite (proj1 Hx).
    rewrite (find_first_NoDup_dec key) by done.
    rewrite preserve_conditions_exact; [by apply group_sim_set|by apply Hc|by apply Hx].
  - apply IH. intros z Hz. apply Hs. by right.
Qed.

End groups.
