(* ===== verification/RuntimePlan.v ===== *)
(** * The runtime planner (reconcilers/runtime_plan.rs, reconcilers/contracts.rs)

    The pure planner of the managed proxy of one gateway: the names of the owned
    objects, the service ports, the mounted secrets, the proxy's configuration, the
    listener intents and the revision hashes that tell the applier what to change.

    SHA-256, the JSON and the TOML serializers are third-party code and parameters
    of the section: [sha256] gives the digest's bytes, [json_to_string] and
    [toml_to_string_pretty] the text or an error message. *)

From S2P Require Import Prelude Str Order Num TlsConfig Config Crds Store Attachment ConfigGen.
From Stdlib Require Import Ascii.

(** [&s[..n]]: panics beyond the end and inside a character. *)
Definition str_slice_to (n : nat) (s : string) : option string :=
  if String.length s <? n then None
  else match String.get n s with
       | Some c => if is_continuation c then None else Some (slice_to n s)
       | None => Some (slice_to n s)
       end.

(** ** contracts.rs *)

Inductive ServiceType := ClusterIP | LoadBalancer | NodePort.
#[global] Instance ServiceType_eq_dec : EqDecision ServiceType.
Proof. solve_decision. Defined.

Definition ServiceType_fmt (t : ServiceType) : string :=
  match t with ClusterIP => "ClusterIP" | LoadBalancer => "LoadBalancer" | NodePort => "NodePort" end.

(** [debug_str] is the [{:?}] of a string. *)
Definition ServiceType_from_str (debug_str : string → string) (s : string) : result string ServiceType :=
  if String.eqb s "ClusterIP" then Ok ClusterIP
  else if String.eqb s "LoadBalancer" then Ok LoadBalancer
  else if String.eqb s "NodePort" then Ok NodePort
  else Err ("invalid service type " +:+ debug_str s +:+ "; expected one of: ClusterIP, LoadBalancer, NodePort").

Record ServicePortSpec := mkServicePortSpec {
  sps_name : string;
  sps_port : N;
  sps_target_port : N;
  sps_protocol : string
}.

Record RuntimeMetadata := mkRuntimeMetadata {
  rm_image : string;
  rm_replicas : N;
  rm_resources : gmap string string;
  rm_node_selector : gmap string string
}.

Inductive ConfigPlan :=
| ConfigUpdate (toml_content config_hash : string)
| ConfigNoOp (toml_content config_hash : string).

Record ListenerStatusIntent := mkListenerStatusIntent {
  lsi_name : string;
  lsi_attached_routes : N;
  lsi_supported_kinds : list RouteGroupKind;
  lsi_accepted : bool;
  lsi_rejection_reason : option string;
  lsi_resolved_refs : bool;
  lsi_resolved_refs_reason : option string
}.

(** ** ControllerConfig *)

Record ControllerConfig := mkControllerConfig {
  cc_proxy_image : string;
  cc_default_replicas : N;
  cc_default_service_type : ServiceType;
  cc_default_resources : gmap string string;
  cc_default_node_selector : gmap string string
}.

Definition ControllerConfig_default : ControllerConfig :=
  mkControllerConfig "ghcr.io/geverding/wicket:latest" 1 ClusterIP ∅ ∅.

Definition ControllerConfig_new (proxy_image : string) (default_replicas : N) (default_service_type : ServiceType)
    : result string ControllerConfig :=
  if (default_replicas =? 0)%N then Err "default_replicas must be >= 1"
  else if (i32_max <? default_replicas)%N
  then Err ("default_replicas " +:+ show_N default_replicas +:+ " exceeds i32::MAX (" +:+ show_N i32_max +:+ ")")
  else Ok (mkControllerConfig proxy_image default_replicas default_service_type ∅ ∅).

(** ** Observed state *)

Record ObservedRuntimeState := mkObservedRuntimeState {
  ors_current_config_hash : option string;
  ors_current_spec_hash : option string;
  ors_ready_replicas : option N;
  ors_deploy_observed_generation : option Z;
  ors_deploy_generation : option Z;
  ors_updated_replicas : option N;
  ors_available_replicas : option N;
  ors_desired_replicas : option N
}.

Definition is_rollout_converged (obs : ObservedRuntimeState) : bool :=
  match ors_deploy_observed_generation obs, ors_deploy_generation obs, ors_updated_replicas obs,
        ors_available_replicas obs, ors_desired_replicas obs, ors_ready_replicas obs with
  | Some deploy_obs_gen, Some deploy_gen, Some updated, Some available, Some desired, Some ready =>
      if (deploy_obs_gen <? deploy_gen)%Z then false
      else if (updated <? desired)%N then false
      else if (desired =? 0)%N then true
      else if (available <? 1)%N then false
      else if (ready <? 1)%N then false
      else true
  | _, _, _, _, _, _ => false
  end.

Record RuntimePlanInput := mkRuntimePlanInput {
  rpi_gateway_namespace : string;
  rpi_gateway_name : string;
  rpi_snapshot : PlannerSnapshot;
  rpi_controller_config : ControllerConfig;
  rpi_observed : ObservedRuntimeState
}.

(** ** The plan *)

Definition tls_mount_dir (secret_name : string) : string := "/etc/wicket/tls/" +:+ secret_name.

Record TlsSecretMount := mkTlsSecretMount {
  tsm_secret_name : string;
  tsm_secret_namespace : string;
  tsm_mount_path : string
}.

Record GatewayRuntimePlan := mkGatewayRuntimePlan {
  grp_gateway_namespace : string;
  grp_gateway_name : string;
  grp_gateway_uid : string;
  grp_gateway_generation : Z;
  grp_owned_object_base_name : string;
  grp_config_map_name : string;
  grp_deployment_name : string;
  grp_service_name : string;
  grp_service_account_name : string;
  grp_config_hash : string;
  grp_spec_hash : string;
  grp_config_toml : string;
  grp_runtime_metadata : RuntimeMetadata;
  grp_service_type : ServiceType;
  grp_service_ports : list ServicePortSpec;
  grp_tls_secret_mounts : list TlsSecretMount;
  grp_listener_statuses : list ListenerStatusIntent;
  grp_config_changed : bool;
  grp_spec_changed : bool
}.

Definition is_noop (p : GatewayRuntimePlan) : bool := negb (grp_config_changed p) && negb (grp_spec_changed p).

Definition config_plan_from_runtime_plan (p : GatewayRuntimePlan) : ConfigPlan :=
  if grp_config_changed p then ConfigUpdate (grp_config_toml p) (grp_config_hash p)
  else ConfigNoOp (grp_config_toml p) (grp_config_hash p).

Definition OBJECT_NAME_PREFIX : string := "wicket-gw-".
Definition MAX_BASE_NAME_LEN : nat := 52.

Definition config_map_name (base : string) : string := base +:+ "-config".
Definition deployment_name (base : string) : string := base +:+ "-deploy".
Definition service_name (base : string) : string := base +:+ "-svc".
Definition service_account_name (base : string) : string := base +:+ "-sa".

(** ** Service ports *)

Inductive ServicePortError :=
| DuplicateListenerName (name : string)
| DuplicatePortProtocol (port : N) (protocol : string).

Definition ServicePortError_fmt (e : ServicePortError) : string :=
  match e with
  | DuplicateListenerName name => "duplicate listener name: " +:+ name
  | DuplicatePortProtocol port protocol => "duplicate service port collision: " +:+ protocol +:+ ":" +:+ show_N port
  end.

Fixpoint check_names (seen : gset string) (ls : list Listener) : result ServicePortError unit :=
  match ls with
  | [] => Ok tt
  | l :: ls' =>
      if bool_decide (li_name l ∈ seen) then Err (DuplicateListenerName (li_name l))
      else check_names ({[li_name l]} ∪ seen) ls'
  end.

Definition listener_port (l : Listener) : ServicePortSpec := mkServicePortSpec (li_name l) (li_port l) (li_port l) "TCP".

Fixpoint collect_ports (seen : gset (N * string)) (ls : list Listener) : list ServicePortSpec :=
  match ls with
  | [] => []
  | l :: ls' =>
      if bool_decide (li_protocol l = UDP) then collect_ports seen ls'
      else if bool_decide ((li_port l, "TCP") ∈ seen) then collect_ports seen ls'
      else listener_port l :: collect_ports ({[(li_port l, "TCP")]} ∪ seen) ls'
  end.

Definition service_ports_from_listeners (g : Gateway) : result ServicePortError (list ServicePortSpec) :=
  check_names ∅ (gw_listeners g) ≫= λ _, Ok (collect_ports ∅ (gw_listeners g)).

(** ** Listener intents *)

Definition protocol_supported_kinds (p : ProtocolType) : list RouteGroupKind :=
  match p with
  | HTTP | HTTPS => [mkRouteGroupKind GATEWAY_API_GROUP "HTTPRoute"]
  | TCP => [mkRouteGroupKind GATEWAY_API_GROUP "TCPRoute"]
  | TLS => [mkRouteGroupKind GATEWAY_API_GROUP "TLSRoute"]
  | UDP => []
  end.

Definition route_group_kind_matches (requested supported : RouteGroupKind) : bool :=
  (is_empty_str (gk_group requested) || String.eqb (gk_group requested) GATEWAY_API_GROUP)
  && String.eqb (gk_kind requested) (gk_kind supported)
  && String.eqb (gk_group supported) GATEWAY_API_GROUP.

Definition listener_status_intent (l : Listener) : ListenerStatusIntent :=
  let controller_supported_kinds := protocol_supported_kinds (li_protocol l) in
  if bool_decide (li_protocol l = UDP) then
    mkListenerStatusIntent (li_name l) 0 [] false
      (Some "UnsupportedProtocol: UDP listeners are not supported by this controller") true None
  else
    let requested_kinds := unwrap_or [] (ar_kinds <$> li_allowed_routes l) in
    let supported_kinds :=
      if is_empty requested_kinds then controller_supported_kinds
      else filter (λ s, existsb (λ r, route_group_kind_matches r s) requested_kinds = true) controller_supported_kinds in
    let invalid_route_kinds :=
      negb (is_empty requested_kinds)
      && existsb (λ r, negb (existsb (λ s, route_group_kind_matches r s) controller_supported_kinds)) requested_kinds in
    mkListenerStatusIntent (li_name l) 0 supported_kinds true None (negb invalid_route_kinds)
      (if invalid_route_kinds then Some "InvalidRouteKinds" else None).

Definition listener_status_intents (g : Gateway) : list ListenerStatusIntent := listener_status_intent <$> gw_listeners g.

Definition attach_intent (ap : AttachmentPlan) (intent : ListenerStatusIntent) : ListenerStatusIntent :=
  if lsi_accepted intent then
    let attached :=
      match listener_summary ap (lsi_name intent) with
      | Some summary => las_attached_routes summary
      | None => lsi_attached_routes intent
      end in
    let denied :=
      lsi_resolved_refs intent
      && existsb (λ r, bool_decide (resolved_refs_reason (rar_status r) = Some "RefNotPermitted"))
           (results_for_listener ap (lsi_name intent) true) in
    mkListenerStatusIntent (lsi_name intent) attached (lsi_supported_kinds intent) true (lsi_rejection_reason intent)
      (if denied then false else lsi_resolved_refs intent)
      (if denied then Some "RefNotPermitted" else lsi_resolved_refs_reason intent)
  else intent.

Definition listener_status_intents_with_attachment (g : Gateway) (attachment_plan : option AttachmentPlan)
    : list ListenerStatusIntent :=
  match attachment_plan with
  | None => listener_status_intents g
  | Some ap => attach_intent ap <$> listener_status_intents g
  end.

(** ** TLS secrets *)

(** The certificate references of all listeners, in order. *)
Definition gateway_certificate_refs (g : Gateway) : list SecretObjectReference :=
  flat_map listener_certificate_refs (gw_listeners g).

Definition mount_of (gateway_namespace : string) (cert_ref : SecretObjectReference) : TlsSecretMount :=
  mkTlsSecretMount (so_name cert_ref) (unwrap_or gateway_namespace (so_namespace cert_ref)) (tls_mount_dir (so_name cert_ref)).

Definition mount_key (m : TlsSecretMount) : string * string := (tsm_secret_namespace m, tsm_secret_name m).

(** [seen] of the loop is the set of keys of the mounts pushed so far. *)
Definition tls_secret_mounts_of (gateway_namespace : string) (g : Gateway) : list TlsSecretMount :=
  sort_by_key mount_key (pair_cmp str_cmp str_cmp)
    (dedup_by mount_key (mount_of gateway_namespace <$> gateway_certificate_refs g)).

Definition tls_overrides (gateway_namespace : string) (g : Gateway) : gmap string (string * string) :=
  let gw_ns := unwrap_or gateway_namespace (om_namespace (gw_metadata g)) in
  foldl (λ overrides cert_ref,
    let secret_ns := unwrap_or gw_ns (so_namespace cert_ref) in
    let mount_dir := tls_mount_dir (so_name cert_ref) in
    <[key secret_ns (so_name cert_ref) := (mount_dir +:+ "/tls.crt", mount_dir +:+ "/tls.key")]> overrides)
    ∅ (gateway_certificate_refs g).

(** ** The gateway's own state *)

Definition references {R} (meta : R → ObjectMeta) (parents : R → list ParentReference) (gns gname : string) (r : R) : bool :=
  route_references_gateway (ns_or_default (meta r)) (parents r) gns gname.

Definition scoped_state (gns gname : string) (snapshot : PlannerSnapshot) : GatewayState :=
  let gw_key := key gns gname in
  mkGatewayState
    (match ps_gateways snapshot !! gw_key with Some gw => {[gw_key := gw]} | None => ∅ end)
    (filter (λ e, references hr_metadata (λ r, hrs_parent_refs (hr_spec r)) gns gname e.2 = true) (ps_http_routes snapshot))
    (filter (λ e, references tr_metadata (λ r, trs_parent_refs (tr_spec r)) gns gname e.2 = true) (ps_tcp_routes snapshot))
    (filter (λ e, references lr_metadata (λ r, lrs_parent_refs (lr_spec r)) gns gname e.2 = true) (ps_tls_routes snapshot))
    (ps_service_endpoints snapshot)
    (match ps_gateways snapshot !! gw_key with Some gw => tls_overrides gns gw | None => ∅ end).

(** ** JSON values *)

Inductive Value :=
| VString (s : string)
| VNumber (n : N)
| VArray (l : list Value)
| VObject (fields : list (string * Value)).

Definition port_value (p : ServicePortSpec) : Value :=
  VObject [("name", VString (sps_name p)); ("port", VNumber (sps_port p));
           ("protocol", VString (sps_protocol p)); ("target_port", VNumber (sps_target_port p))].
Definition mount_value (m : TlsSecretMount) : Value :=
  VObject [("mount_path", VString (tsm_mount_path m)); ("secret_name", VString (tsm_secret_name m));
           ("secret_namespace", VString (tsm_secret_namespace m))].
(** A [BTreeMap<String, String>], in key order. *)
Definition map_value (m : gmap string string) : Value := VObject ((λ e, (e.1, VString e.2)) <$> btree_iter m).

Definition apply_shape_value (metadata : RuntimeMetadata) (service_type : ServiceType) (service_ports : list ServicePortSpec)
    (tls_secret_mounts : list TlsSecretMount) : Value :=
  VObject ([("image", VString (rm_image metadata)); ("node_selector", map_value (rm_node_selector metadata));
            ("replicas", VNumber (rm_replicas metadata)); ("resources", map_value (rm_resources metadata));
            ("service_ports", VArray (port_value <$> service_ports));
            ("service_type", VString (ServiceType_fmt service_type))]
           ++ (if is_empty tls_secret_mounts then []
               else [("tls_secret_mounts", VArray (mount_value <$> tls_secret_mounts))])).

(** [format!("{:02x}", b)]. *)
Definition hex_digit (d : N) : ascii :=
  ascii_of_N (if (d <? 10)%N then 48 + d else 87 + d)%N.
Definition hex_byte (b : N) : string := String (hex_digit (b / 16)) (String (hex_digit (b mod 16)) EmptyString).

Section planner.
Context (sha256 : string → list N).
Context (json_to_string : Value → result string string).
Context (toml_to_string_pretty : Config → result string string).

Definition sha256_hex (data : string) : string := foldr (λ b s, hex_byte b +:+ s) "" (sha256 data).

Definition hex6 (data : string) : option string := str_slice_to 6 (sha256_hex data).

Definition owned_object_base_name (gateway_name : string) : option string :=
  let full := OBJECT_NAME_PREFIX +:+ gateway_name in
  if String.length full <=? MAX_BASE_NAME_LEN then Some full
  else
    let available := MAX_BASE_NAME_LEN - 7 in
    let prefix_len := String.length OBJECT_NAME_PREFIX in
    gw_truncated ← str_slice_to (available - prefix_len) gateway_name;
    hash6 ← hex6 full;
    Some (OBJECT_NAME_PREFIX +:+ gw_truncated +:+ "-" +:+ hash6).

Definition spec_hash_of (metadata : RuntimeMetadata) (service_type : ServiceType) (service_ports : list ServicePortSpec)
    (tls_secret_mounts : list TlsSecretMount) : result PlanError string :=
  match json_to_string (apply_shape_value metadata service_type service_ports tls_secret_mounts) with
  | Ok json => Ok (sha256_hex json)
  | Err e => Err (InvalidInput ("failed to serialize apply shape for hashing: " +:+ e))
  end.

Definition config_toml_from_snapshot (gns gname : string) (snapshot : PlannerSnapshot) : exec PlanError string :=
  or_panic (generate_config (scoped_state gns gname snapshot)) ≫= λ config,
  of_result (map_err (λ e, InvalidInput ("TOML serialization failed for gateway " +:+ gns +:+ "/" +:+ gname +:+ ": " +:+ e))
    (toml_to_string_pretty config)).

Definition changed (observed : option string) (hash : string) : bool :=
  unwrap_or true ((λ h, negb (String.eqb h hash)) <$> observed).

Definition GatewayRuntimePlanner_plan (input : RuntimePlanInput) : exec PlanError GatewayRuntimePlan :=
  let snapshot := rpi_snapshot input in
  let gns := rpi_gateway_namespace input in
  let gname := rpi_gateway_name input in
  let cc := rpi_controller_config input in
  of_result (ok_or (MissingField "gateway (not found in snapshot)") (gateway snapshot gns gname)) ≫= λ g,
  of_result (ok_or (MissingField "gateway.metadata.uid") (om_uid (gw_metadata g))) ≫= λ gateway_uid,
  of_result (ok_or (MissingField "gateway.metadata.generation") (om_generation (gw_metadata g))) ≫= λ gateway_generation,
  or_panic (owned_object_base_name gname) ≫= λ base_name,
  let runtime_metadata := mkRuntimeMetadata (cc_proxy_image cc) (cc_default_replicas cc) (cc_default_resources cc)
                            (cc_default_node_selector cc) in
  let service_type := cc_default_service_type cc in
  of_result (map_err (λ e, InvalidInput (ServicePortError_fmt e)) (service_ports_from_listeners g)) ≫= λ service_ports,
  let tls_secret_mounts := tls_secret_mounts_of gns g in
  of_result (spec_hash_of runtime_metadata service_type service_ports tls_secret_mounts) ≫= λ spec_hash,
  config_toml_from_snapshot gns gname snapshot ≫= λ config_toml,
  let config_hash := sha256_hex config_toml in
  let attachment_plan_opt := ok (plan (mkAttachmentPlanInput gns gname gateway_generation snapshot)) in
  let listener_statuses := listener_status_intents_with_attachment g attachment_plan_opt in
  Done (mkGatewayRuntimePlan gns gname gateway_uid gateway_generation base_name (config_map_name base_name)
    (deployment_name base_name) (service_name base_name) (service_account_name base_name) config_hash spec_hash config_toml
    runtime_metadata service_type service_ports tls_secret_mounts listener_statuses
    (changed (ors_current_config_hash (rpi_observed input)) config_hash)
    (changed (ors_current_spec_hash (rpi_observed input)) spec_hash)).

End planner.

(** ** Hashes and names *)

(** What the code relies on of SHA-256: 32 bytes. *)
Definition digest_ok (sha256 : string → list N) : Prop :=
  ∀ s, length (sha256 s) = 32 ∧ Forall (λ b, b < 256)%N (sha256 s).

Lemma is_ascii_get s n c : is_ascii s = true → String.get n s = Some c → is_continuation c = false.
Proof.
  revert n. induction s as [|x s IH]; intros n; cbn [is_ascii]; [by destruct n|]. intros [Hx Hs]%andb_true_iff.
  destruct n; cbn; [|by apply IH]. intros [= <-]. apply N.ltb_lt in Hx. unfold is_continuation.
  apply andb_false_iff. left. by apply N.leb_gt.
Qed.

Lemma str_slice_to_ascii n s : is_ascii s = true → n ≤ String.length s → str_slice_to n s = Some (slice_to n s).
Proof.
  intros Ha Hn. unfold str_slice_to. rewrite (proj2 (Nat.ltb_ge _ _)) by done.
  destruct (String.get n s) as [c|] eqn:E; [|done]. by rewrite (is_ascii_get _ _ _ Ha E).
Qed.

Lemma hex_digit_ascii d : (d < 16)%N → (N_of_ascii (hex_digit d) <? 128)%N = true.
Proof.
  intros Hd. unfold hex_digit. apply N.ltb_lt. case_match eqn:E.
  - apply N.ltb_lt in E. rewrite N_ascii_embedding; lia.
  - rewrite N_ascii_embedding; lia.
Qed.

Lemma is_ascii_app a b : is_ascii (a +:+ b) = is_ascii a && is_ascii b.
Proof. induction a as [|c a IH]; cbn; [done|]. by rewrite IH, andb_assoc. Qed.

Lemma sha256_hex_ok sha256 s :
  digest_ok sha256 → is_ascii (sha256_hex sha256 s) = true ∧ String.length (sha256_hex sha256 s) = 64.
Proof.
  intros H. destruct (H s) as [Hl Hb]. unfold sha256_hex. change 64 with (2 * 32). rewrite <- Hl. clear Hl.
  induction Hb as [|b bs Hb _ [IHa IHl]]; cbn [foldr length]; [done|]. rewrite is_ascii_app, length_app_str, IHa, IHl.
  split; [|cbn; lia]. cbn [hex_byte is_ascii].
  rewrite !hex_digit_ascii by (try apply N.mod_lt; try apply N.Div0.div_lt_upper_bound; lia). done.
Qed.

(** The name of a gateway's objects: the plain name when it fits, else its first 35
    bytes and six hex digits of its hash. *)
Lemma base_name_cases sha256 gname :
  digest_ok sha256 → is_ascii gname = true →
  (String.length gname ≤ 42 ∧ owned_object_base_name sha256 gname = Some (OBJECT_NAME_PREFIX +:+ gname)) ∨
  (42 < String.length gname ∧
   owned_object_base_name sha256 gname =
     Some (OBJECT_NAME_PREFIX +:+ slice_to 35 gname +:+ "-" +:+
           slice_to 6 (sha256_hex sha256 (OBJECT_NAME_PREFIX +:+ gname)))).
Proof.
  intros Hd Ha. unfold owned_object_base_name, MAX_BASE_NAME_LEN.
  assert (String.length (OBJECT_NAME_PREFIX +:+ gname) = 10 + String.length gname) as Hlen by done.
  rewrite Hlen. destruct (10 + String.length gname <=? 52) eqn:E.
  - left. apply Nat.leb_le in E. split; [lia|done].
  - right. apply Nat.leb_gt in E. split; [lia|]. change (52 - 7 - String.length OBJECT_NAME_PREFIX) with 35.
    rewrite str_slice_to_ascii by (done || lia). cbn [mbind option_bind]. unfold hex6.
    destruct (sha256_hex_ok sha256 (OBJECT_NAME_PREFIX +:+ gname) Hd) as [Hx Hl].
    by rewrite str_slice_to_ascii by (done || lia).
Qed.

(** Every object the controller creates for a gateway has a name of at most 63
    bytes. *)
Lemma base_name_ok sha256 gname :
  digest_ok sha256 → is_ascii gname = true →
  ∃ b, owned_object_base_name sha256 gname = Some b ∧ String.length b ≤ 52 ∧ starts_with OBJECT_NAME_PREFIX b = true.
Proof.
  intros Hd Ha. destruct (base_name_cases _ _ Hd Ha) as [[Hl ->]|[Hl ->]]; eexists; (split; [done|]).
  - rewrite length_app_str. split; [cbn; lia|]. apply starts_with_true. eauto.
  - rewrite !length_app_str, !length_slice_to. split; [cbn [String.length OBJECT_NAME_PREFIX]; lia|].
    apply starts_with_true. eauto.
Qed.

(** C38: the names of the owned objects.  For every ASCII gateway name the four
    derived names exist (the truncation never panics), carry the controller's prefix
    and have at most 63 bytes; and two gateways whose names are at most 42 bytes long
    share a name only if they are the same gateway. *)
Theorem owned_names_bounded sha256 gname :
  digest_ok sha256 → is_ascii gname = true →
  ∃ b, owned_object_base_name sha256 gname = Some b ∧
    (∀ name, name ∈ [config_map_name b; deployment_name b; service_name b; service_account_name b] →
       String.length name ≤ 63 ∧ starts_with OBJECT_NAME_PREFIX name = true) ∧
    (∀ gname', is_ascii gname' = true → String.length gname ≤ 42 → String.length gname' ≤ 42 →
       owned_object_base_name sha256 gname' = Some b → gname' = gname).
Proof.
  intros Hd Ha. destruct (base_name_ok _ _ Hd Ha) as (b&Hb&Hl&[t ->]%starts_with_true). eexists. split; [done|]. split.
  - intros name Hname. rewrite length_app_str in Hl.
    assert (∃ suf, name = (OBJECT_NAME_PREFIX +:+ t) +:+ suf ∧ String.length suf ≤ 7) as (suf&->&Hs).
    { unfold config_map_name, deployment_name, service_name, service_account_name in Hname.
      rewrite !elem_of_cons in Hname. destruct Hname as [->|[->|[->|[->|[]%elem_of_nil]]]]; eexists; (split; [done|]); cbn; lia. }
    rewrite !length_app_str. split; [lia|]. apply starts_with_true. exists (t +:+ suf). by rewrite app_str_assoc.
  - intros gname' Ha' Hs Hs'. destruct (base_name_cases _ _ Hd Ha) as [[_ E]|[? _]]; [|lia].
    destruct (base_name_cases _ _ Hd Ha') as [[_ ->]|[? _]]; [|lia]. rewrite E in Hb. injection Hb as Hb. intros [= H].
    by rewrite H, Hb.
Qed.

(** ** Service ports *)

Lemma check_names_Ok seen ls :
  check_names seen ls = Ok tt ↔ NoDup (li_name <$> ls) ∧ ∀ l, l ∈ ls → li_name l ∉ seen.
Proof.
  revert seen. induction ls as [|l ls IH]; intros seen; cbn [check_names].
  { split; [|done]. intros _. split; [constructor|]. by intros l ?%elem_of_nil. }
  csimpl. case_bool_decide as Hl; [split; [done|]; intros [_ H]; exfalso; by apply (H l); [left|]|].
  rewrite IH, NoDup_cons. split.
  - intros [Hnd Hs]. split; [split; [|done]|].
    + intros (l'&He&Hl')%list_elem_of_fmap. apply (Hs l' Hl'). rewrite He. set_solver.
    + intros l' [->|Hl']%elem_of_cons; [done|]. specialize (Hs l' Hl'). set_solver.
  - intros [[Hn Hnd] Hs]. split; [done|]. intros l' Hl' [He%elem_of_singleton|He]%elem_of_union.
    + apply Hn. rewrite <- He. apply list_elem_of_fmap. eauto.
    + eapply Hs; [|done]. by right.
Qed.

(** The name the error carries is the first that repeats an earlier one. *)
Lemma check_names_Err seen ls e :
  check_names seen ls = Err e →
  ∃ ls1 l ls2, ls = ls1 ++ l :: ls2 ∧ e = DuplicateListenerName (li_name l) ∧
    (li_name l ∈ seen ∨ li_name l ∈ li_name <$> ls1) ∧ check_names seen ls1 = Ok tt.
Proof.
  revert seen. induction ls as [|l ls IH]; intros seen; cbn [check_names]; [done|].
  case_bool_decide as Hl; [intros [= <-]; exists [], l, ls; split_and!; auto|].
  intros (ls1&l'&ls2&->&->&Hin&Hok)%IH. exists (l :: ls1), l', ls2. split_and!; [done..| |].
  - csimpl. set_solver.
  - cbn. by rewrite bool_decide_eq_false_2.
Qed.

Lemma elem_of_collect_ports seen ls p :
  p ∈ collect_ports seen ls ↔
  ∃ ls1 l ls2, ls = ls1 ++ l :: ls2 ∧ p = listener_port l ∧ li_protocol l ≠ UDP ∧ (li_port l, "TCP") ∉ seen ∧
    ∀ l', l' ∈ ls1 → li_protocol l' ≠ UDP → li_port l' ≠ li_port l.
Proof.
  revert seen. induction ls as [|l ls IH]; intros seen; cbn [collect_ports].
  { split; [by intros ?%elem_of_nil|]. intros ([]&?&?&?&_); done. }
  assert (∀ seen', (∀ q, q ∈ seen' → q ∈ seen ∨ (li_protocol l ≠ UDP ∧ q = (li_port l, "TCP"))) → seen ⊆ seen' →
    (li_protocol l ≠ UDP → (li_port l, "TCP") ∈ seen') →
    p ∈ collect_ports seen' ls ↔ ∃ ls1 l0 ls2, l :: ls = (l :: ls1) ++ l0 :: ls2 ∧ p = listener_port l0 ∧ li_protocol l0 ≠ UDP ∧
      (li_port l0, "TCP") ∉ seen ∧ ∀ l', l' ∈ l :: ls1 → li_protocol l' ≠ UDP → li_port l' ≠ li_port l0) as Htail.
  { intros seen' Hs Hsub Hin. rewrite IH. split.
    - intros (ls1&l0&ls2&->&->&Hu&Hn&Hf). exists ls1, l0, ls2. split_and!; [done..|by intros ?%Hsub|].
      intros l' [->|Hl']%elem_of_cons Hu'; [|by apply Hf]. intros He. apply Hn. rewrite <- He. auto.
    - intros (ls1&l0&ls2&[= ->]&->&Hu&Hn&Hf). exists ls1, l0, ls2. split_and!; [done..| |].
      + intros [H|[Hu' [= H]]]%Hs; [done|]. eapply (Hf l); [left|done|done].
      + intros l' Hl'. apply Hf. by right. }
  case_bool_decide as Hu; [|case_bool_decide as Hin].
  - rewrite (Htail seen) by naive_solver. split; [intros (ls1&H); by exists (l :: ls1)|].
    intros ([|x ls1]&l0&ls2&[= -> H]&H'); [naive_solver|]. exists ls1, l0, ls2. split; [by rewrite H|done].
  - rewrite (Htail seen) by naive_solver. split; [intros (ls1&H); by exists (l :: ls1)|].
    intros ([|x ls1]&l0&ls2&[= -> H]&H'); [naive_solver|]. exists ls1, l0, ls2. split; [by rewrite H|done].
  - rewrite elem_of_cons, (Htail ({[(li_port l, "TCP")]} ∪ seen)) by set_solver. split.
    + intros [->|(ls1&H)]; [|by exists (l :: ls1)]. exists [], l, ls. split_and!; [done..|]. by intros ? ?%elem_of_nil.
    + intros ([|x ls1]&l0&ls2&[= -> H]&H'); [left; naive_solver|]. right. exists ls1, l0, ls2. split; [by rewrite H|done].
Qed.

Lemma collect_ports_NoDup seen ls :
  NoDup (sps_port <$> collect_ports seen ls) ∧ ∀ p, p ∈ sps_port <$> collect_ports seen ls → (p, "TCP") ∉ seen.
Proof.
  revert seen. induction ls as [|l ls IH]; intros seen; cbn [collect_ports]; [split; [constructor|by intros ? ?%elem_of_nil]|].
  case_bool_decide; [apply IH|]. case_bool_decide; [apply IH|]. csimpl.
  destruct (IH ({[(li_port l, "TCP")]} ∪ seen)) as [Hnd Hs]. split.
  - constructor; [|done]. intros H'%Hs. set_solver.
  - intros p [->|Hp]%elem_of_cons; [done|]. specialize (Hs p Hp). set_solver.
Qed.

(** The service of a gateway.  When two listeners have the same name the
    derivation fails with the first name that repeats an earlier one, whatever the
    protocols; otherwise there is exactly one TCP port per port number that a non-UDP
    listener uses, named after the first such listener. *)
Theorem service_ports_spec g :
  match service_ports_from_listeners g with
  | Err e => ∃ ls1 l ls2, gw_listeners g = ls1 ++ l :: ls2 ∧ e = DuplicateListenerName (li_name l) ∧
      li_name l ∈ li_name <$> ls1 ∧ NoDup (li_name <$> ls1)
  | Ok ports => NoDup (li_name <$> gw_listeners g) ∧ NoDup (sps_port <$> ports) ∧
      ∀ p, p ∈ ports ↔ ∃ ls1 l ls2, gw_listeners g = ls1 ++ l :: ls2 ∧ p = listener_port l ∧ li_protocol l ≠ UDP ∧
        ∀ l', l' ∈ ls1 → li_protocol l' ≠ UDP → li_port l' ≠ li_port l
  end.
Proof.
  unfold service_ports_from_listeners. destruct (check_names ∅ (gw_listeners g)) as [[]|e] eqn:E; cbn.
  - apply check_names_Ok in E as [Hnd _]. split; [done|]. split; [by apply collect_ports_NoDup|].
    intros p. rewrite elem_of_collect_ports. split.
    + intros (ls1&l&ls2&H1&H2&H3&_&H4). by exists ls1, l, ls2.
    + intros (ls1&l&ls2&H1&H2&H3&H4). exists ls1, l, ls2. split_and!; [done..|set_solver|done].
  - apply check_names_Err in E as (ls1&l&ls2&->&->&[?%elem_of_empty|Hin]&Hok); [done|].
    apply check_names_Ok in Hok as [Hnd _]. exists ls1, l, ls2. done.
Qed.

Lemma service_ports_Ok g ports :
  service_ports_from_listeners g = Ok ports ↔ NoDup (li_name <$> gw_listeners g) ∧ ports = collect_ports ∅ (gw_listeners g).
Proof.
  unfold service_ports_from_listeners. destruct (check_names ∅ (gw_listeners g)) as [[]|e] eqn:E; cbn.
  - apply check_names_Ok in E as [Hnd _]. split; [by intros [= <-]|by intros [_ ->]].
  - split; [done|]. intros [Hnd _]. exfalso.
    assert (check_names ∅ (gw_listeners g) = Ok tt) as H; [|congruence]. apply check_names_Ok. split; [done|set_solver].
Qed.

(** ** The spec hash *)

Lemma map_value_inj m m' : map_value m = map_value m' → m = m'.
Proof.
  unfold map_value. intros [= H]. apply (f_equal (fmap (λ e : string * Value, (e.1, match e.2 with VString s => s | _ => "" end)))) in H.
  rewrite <- !list_fmap_compose in H. cbn in H.
  assert (∀ l : list (string * string),
    ((λ e, (e.1, match e.2 with VString s => s | _ => "" end)) ∘ λ e : string * string, (e.1, VString e.2)) <$> l = l) as Hid.
  { intros l. induction l as [|[k v] l IH]; cbn; [done|]. by rewrite IH. }
  rewrite !Hid in H. rewrite <- (list_to_map_to_list m), <- (list_to_map_to_list m').
  transitivity (list_to_map (btree_iter m) : gmap string string).
  - apply list_to_map_proper; [apply NoDup_fst_map_to_list|]. by rewrite btree_iter_perm.
  - rewrite H. apply list_to_map_proper; [apply NoDup_btree_iter_keys|]. apply btree_iter_perm.
Qed.

Lemma fmap_value_inj {A} (f : A → Value) (l l' : list A) :
  (∀ x y, f x = f y → x = y) → f <$> l = f <$> l' → l = l'.
Proof. intros Hf. apply (list_fmap_eq_inj f). intros x y. apply Hf. Qed.

Lemma port_value_inj p p' : port_value p = port_value p' → p = p'.
Proof. destruct p, p'. unfold port_value. cbn. by intros [= -> -> -> ->]. Qed.

Lemma mount_value_inj p p' : mount_value p = mount_value p' → p = p'.
Proof. destruct p, p'. unfold mount_value. cbn. by intros [= -> -> ->]. Qed.

Lemma ServiceType_fmt_inj t t' : ServiceType_fmt t = ServiceType_fmt t' → t = t'.
Proof. by destruct t, t'. Qed.

Lemma apply_shape_value_inj md st ports mounts md' st' ports' mounts' :
  apply_shape_value md st ports mounts = apply_shape_value md' st' ports' mounts' →
  md = md' ∧ st = st' ∧ ports = ports' ∧ mounts = mounts'.
Proof.
  destruct md as [im rp rs ns], md' as [im' rp' rs' ns']. unfold apply_shape_value. cbn [rm_image rm_replicas rm_resources rm_node_selector].
  intros H. injection H as -> Hns -> Hrs Hp Hst Hm.
  assert (ns = ns') as -> by (apply map_value_inj; unfold map_value; by rewrite Hns).
  assert (rs = rs') as -> by (apply map_value_inj; unfold map_value; by rewrite Hrs).
  apply ServiceType_fmt_inj in Hst as ->. apply (fmap_value_inj port_value) in Hp as ->; [|apply port_value_inj].
  split_and!; [done..|]. apply (fmap_value_inj mount_value); [apply mount_value_inj|].
  destruct mounts, mounts'; try done. cbn [is_empty] in Hm. congruence.
Qed.

(** The revision hash sees every change.  If two apply shapes (image, replicas,
    resources, node selector, service type, ports, mounted secrets) get the same
    revision, they are the same shape, or two different texts with the same SHA-256
    have been found. *)
Theorem spec_hash_detects_change sha256 json_to_string md st ports mounts md' st' ports' mounts' h :
  (∀ v w s, json_to_string v = Ok s → json_to_string w = Ok s → v = w) →
  spec_hash_of sha256 json_to_string md st ports mounts = Ok h →
  spec_hash_of sha256 json_to_string md' st' ports' mounts' = Ok h →
  (md = md' ∧ st = st' ∧ ports = ports' ∧ mounts = mounts') ∨
  ∃ x y, x ≠ y ∧ sha256_hex sha256 x = sha256_hex sha256 y.
Proof.
  intros Hinj. unfold spec_hash_of.
  destruct (json_to_string (apply_shape_value md _ _ _)) as [j|] eqn:E; [|done].
  destruct (json_to_string (apply_shape_value md' _ _ _)) as [j'|] eqn:E'; [|done]. intros [= Hj] [= Hj'].
  destruct (decide (j = j')) as [->|Hne]; [left|right; exists j, j'; split; [done|congruence]].
  eapply apply_shape_value_inj, Hinj; done.
Qed.

(** ** The plan *)

Section plan_facts.
Context (sha256 : string → list N) (json_to_string : Value → result string string)
  (toml_to_string_pretty : Config → result string string).
Notation plan_of := (GatewayRuntimePlanner_plan sha256 json_to_string toml_to_string_pretty).

Definition with_observed (o : ObservedRuntimeState) (input : RuntimePlanInput) : RuntimePlanInput :=
  mkRuntimePlanInput (rpi_gateway_namespace input) (rpi_gateway_name input) (rpi_snapshot input)
    (rpi_controller_config input) o.

Definition input_metadata (input : RuntimePlanInput) : RuntimeMetadata :=
  let cc := rpi_controller_config input in
  mkRuntimeMetadata (cc_proxy_image cc) (cc_default_replicas cc) (cc_default_resources cc) (cc_default_node_selector cc).

Definition input_attachment (input : RuntimePlanInput) (gen : Z) : option AttachmentPlan :=
  ok (plan (mkAttachmentPlanInput (rpi_gateway_namespace input) (rpi_gateway_name input) gen (rpi_snapshot input))).

(** When the planner returns a plan, and which one. *)
Definition planned (input : RuntimePlanInput) (g : Gateway) (uid : string) (gen : Z) (base spec_hash : string)
    (config : Config) (toml : string) : Prop :=
  gateway (rpi_snapshot input) (rpi_gateway_namespace input) (rpi_gateway_name input) = Some g ∧
  om_uid (gw_metadata g) = Some uid ∧ om_generation (gw_metadata g) = Some gen ∧
  owned_object_base_name sha256 (rpi_gateway_name input) = Some base ∧
  NoDup (li_name <$> gw_listeners g) ∧
  spec_hash_of sha256 json_to_string (input_metadata input) (cc_default_service_type (rpi_controller_config input))
    (collect_ports ∅ (gw_listeners g)) (tls_secret_mounts_of (rpi_gateway_namespace input) g) = Ok spec_hash ∧
  generate_config (scoped_state (rpi_gateway_namespace input) (rpi_gateway_name input) (rpi_snapshot input)) = Some config ∧
  toml_to_string_pretty config = Ok toml.

Definition plan_from (input : RuntimePlanInput) (g : Gateway) (uid : string) (gen : Z) (base spec_hash toml : string)
    : GatewayRuntimePlan :=
  mkGatewayRuntimePlan (rpi_gateway_namespace input) (rpi_gateway_name input) uid gen base (config_map_name base)
    (deployment_name base) (service_name base) (service_account_name base) (sha256_hex sha256 toml) spec_hash toml
    (input_metadata input) (cc_default_service_type (rpi_controller_config input)) (collect_ports ∅ (gw_listeners g))
    (tls_secret_mounts_of (rpi_gateway_namespace input) g)
    (listener_status_intents_with_attachment g (input_attachment input gen))
    (changed (ors_current_config_hash (rpi_observed input)) (sha256_hex sha256 toml))
    (changed (ors_current_spec_hash (rpi_observed input)) spec_hash).

Lemma plan_Done input p :
  plan_of input = Done p ↔
  ∃ g uid gen base spec_hash config toml,
    planned input g uid gen base spec_hash config toml ∧ p = plan_from input g uid gen base spec_hash toml.
Proof.
  split.
  - unfold GatewayRuntimePlanner_plan, planned, config_toml_from_snapshot.
    destruct (gateway _ _ _) as [g|] eqn:Hg; [cbn|done].
    destruct (om_uid _) as [uid|] eqn:Hu; [cbn|done]. destruct (om_generation _) as [gen|] eqn:Hgen; [cbn|done].
    destruct (owned_object_base_name _ _) as [base|] eqn:Hb; [cbn|done].
    destruct (service_ports_from_listeners g) as [ports|] eqn:Hp; [cbn|done]. apply service_ports_Ok in Hp as [Hnd ->].
    destruct (spec_hash_of _ _ _ _ _ _) as [sh|] eqn:Hsh; [cbn|done].
    destruct (generate_config _) as [config|] eqn:Hc; [cbn|done].
    destruct (toml_to_string_pretty config) as [toml|] eqn:Ht; [cbn|done]. intros [= <-].
    by exists g, uid, gen, base, sh, config, toml.
  - intros (g&uid&gen&base&sh&config&toml&(Hg&Hu&Hgen&Hb&Hnd&Hsh&Hc&Ht)&->).
    unfold GatewayRuntimePlanner_plan, config_toml_from_snapshot. rewrite Hg. cbn. rewrite Hu. cbn. rewrite Hgen. cbn.
    rewrite Hb. cbn. rewrite (proj2 (service_ports_Ok g _)) by done. cbn. unfold input_metadata in Hsh. rewrite Hsh. cbn.
    rewrite Hc. cbn. by rewrite Ht.
Qed.

Lemma planned_observed o input g uid gen base sh config toml :
  planned (with_observed o input) g uid gen base sh config toml ↔ planned input g uid gen base sh config toml.
Proof. done. Qed.

Lemma plan_observed input p o :
  plan_of input = Done p →
  plan_of (with_observed o input) = Done (mkGatewayRuntimePlan (grp_gateway_namespace p) (grp_gateway_name p) (grp_gateway_uid p)
    (grp_gateway_generation p) (grp_owned_object_base_name p) (grp_config_map_name p) (grp_deployment_name p) (grp_service_name p)
    (grp_service_account_name p) (grp_config_hash p) (grp_spec_hash p) (grp_config_toml p) (grp_runtime_metadata p)
    (grp_service_type p) (grp_service_ports p) (grp_tls_secret_mounts p) (grp_listener_statuses p)
    (changed (ors_current_config_hash o) (grp_config_hash p)) (changed (ors_current_spec_hash o) (grp_spec_hash p))).
Proof.
  intros (g&uid&gen&base&sh&config&toml&H&->)%plan_Done. apply plan_Done.
  exists g, uid, gen, base, sh, config, toml. split; [done|]. done.
Qed.

Lemma changed_false o h : changed o h = false ↔ o = Some h.
Proof.
  unfold changed. destruct o as [h'|]; cbn; [|done]. rewrite negb_false_iff, String.eqb_eq. split; congruence.
Qed.

End plan_facts.

(** ** Errors *)

(** C30: how planning ends.  For an ASCII gateway name and ASCII request timeouts
    the planner never panics; it fails with a missing field exactly for the first of
    gateway, uid and generation that is missing, with an invalid input only when two
    listeners share a name or a serializer fails, and with nothing else. *)
Theorem runtime_plan_outcome sha256 json_to_string toml_to_string_pretty input :
  digest_ok sha256 → is_ascii (rpi_gateway_name input) = true →
  ascii_timeouts (scoped_state (rpi_gateway_namespace input) (rpi_gateway_name input) (rpi_snapshot input)) →
  let g_opt := gateway (rpi_snapshot input) (rpi_gateway_namespace input) (rpi_gateway_name input) in
  let uid := g_opt ≫= λ g, om_uid (gw_metadata g) in
  let gen := g_opt ≫= λ g, om_generation (gw_metadata g) in
  match GatewayRuntimePlanner_plan sha256 json_to_string toml_to_string_pretty input with
  | Panicked => False
  | Failed (MissingField f) =>
      (g_opt = None ∧ f = "gateway (not found in snapshot)") ∨
      (is_Some g_opt ∧ uid = None ∧ f = "gateway.metadata.uid") ∨
      (is_Some g_opt ∧ is_Some uid ∧ gen = None ∧ f = "gateway.metadata.generation")
  | Failed (InvalidInput _) =>
      is_Some uid ∧ is_Some gen ∧ ∃ g, g_opt = Some g ∧
        (¬ NoDup (li_name <$> gw_listeners g) ∨ (∃ v e, json_to_string v = Err e) ∨ ∃ c e, toml_to_string_pretty c = Err e)
  | Failed _ => False
  | Done p => is_Some uid ∧ is_Some gen ∧ ∃ g, g_opt = Some g ∧ NoDup (li_name <$> gw_listeners g)
  end.
Proof.
  intros Hd Ha Ht. cbn zeta. unfold GatewayRuntimePlanner_plan, config_toml_from_snapshot.
  destruct (gateway _ _ _) as [g|] eqn:Hg; cbn; [|by left].
  destruct (om_uid _) as [uid|] eqn:Hu; cbn; [|right; left; eauto].
  destruct (om_generation _) as [gen|] eqn:Hgen; cbn; [|right; right; split_and!; eauto].
  destruct (base_name_ok _ _ Hd Ha) as (base&->&_). cbn.
  destruct (service_ports_from_listeners g) as [ports|e] eqn:Hp; cbn.
  2:{ split_and!; [eauto..|]. exists g. split; [done|]. left. intros Hnd.
      by rewrite (proj2 (service_ports_Ok g _) (conj Hnd eq_refl)) in Hp. }
  apply service_ports_Ok in Hp as [Hnd ->]. unfold spec_hash_of.
  destruct (json_to_string _) as [j|e] eqn:Hj; cbn; [|split_and!; eauto 10].
  destruct (generate_config_returns _ Ht) as [config ->]. cbn.
  destruct (toml_to_string_pretty config) as [toml|e] eqn:Htoml; cbn; split_and!; eauto 10.
Qed.

(** ** Mounted secrets *)

Lemma elem_of_tls_secret_mounts gns g m :
  m ∈ tls_secret_mounts_of gns g → ∃ c, c ∈ gateway_certificate_refs g ∧ m = mount_of gns c.
Proof.
  unfold tls_secret_mounts_of, sort_by_key. rewrite elem_of_sort_by by apply _.
  intros Hm%dedup_by_elem. apply list_elem_of_fmap in Hm as (c&->&Hc). eauto.
Qed.

Lemma mounted gns g c :
  c ∈ gateway_certificate_refs g → mount_of gns c ∈ tls_secret_mounts_of gns g.
Proof.
  intros Hc. unfold tls_secret_mounts_of, sort_by_key. rewrite elem_of_sort_by by apply _.
  assert (mount_key (mount_of gns c) ∈ mount_key <$> dedup_by mount_key (mount_of gns <$> gateway_certificate_refs g)) as Hk.
  { rewrite dedup_by_keys. apply list_elem_of_fmap. exists (mount_of gns c). split; [done|]. apply list_elem_of_fmap. eauto. }
  apply list_elem_of_fmap in Hk as (m&Hk&Hm). pose proof (dedup_by_elem _ _ _ Hm) as Hm'.
  apply list_elem_of_fmap in Hm' as (c'&->&_). unfold mount_key, mount_of in Hk. cbn in Hk. injection Hk as H1 H2.
  unfold mount_of in *. by rewrite H1, H2.
Qed.

Lemma tls_overrides_path gns g k v :
  tls_overrides gns g !! k = Some v →
  ∃ c, c ∈ gateway_certificate_refs g ∧ v = (tls_mount_dir (so_name c) +:+ "/tls.crt", tls_mount_dir (so_name c) +:+ "/tls.key").
Proof.
  unfold tls_overrides. set (refs := gateway_certificate_refs g). intros H.
  cut (∀ l (m : gmap string (string * string)), l ⊆ refs →
    map_Forall (λ _ v, ∃ c, c ∈ refs ∧ v = (tls_mount_dir (so_name c) +:+ "/tls.crt", tls_mount_dir (so_name c) +:+ "/tls.key")) m →
    map_Forall (λ _ v, ∃ c, c ∈ refs ∧ v = (tls_mount_dir (so_name c) +:+ "/tls.crt", tls_mount_dir (so_name c) +:+ "/tls.key"))
      (foldl (λ overrides cert_ref, <[key (unwrap_or (unwrap_or gns (om_namespace (gw_metadata g))) (so_namespace cert_ref)) (so_name cert_ref) :=
        (tls_mount_dir (so_name cert_ref) +:+ "/tls.crt", tls_mount_dir (so_name cert_ref) +:+ "/tls.key")]> overrides) m l)).
  { intros Hinv. eapply (Hinv refs ∅); [done|apply map_Forall_empty|exact H]. }
  clear. intros l. induction l as [|c l IH]; intros m Hs Hm; cbn; [done|]. apply IH; [set_solver|].
  apply map_Forall_insert_2; [|done]. exists c. split; [|done]. apply Hs. left.
Qed.

Lemma generated_cert_paths st entries :
  map_Forall (λ _ c, ∃ k, gst_tls_secrets st !! k = Some (fc_cert c, fc_key c)) (foldl (add_gateway_certs st) ∅ entries).
Proof.
  apply foldl_inv; [|apply map_Forall_empty]. intros m [k g] Hm. unfold add_gateway_certs.
  apply foldl_inv; [|done]. clear m Hm. intros m l Hm. apply foldl_inv; [|done]. clear m Hm. intros m c Hm.
  unfold add_cert_ref. destruct (li_hostname l) as [h|]; [|done].
  destruct (gst_tls_secrets st !! _) as [[cp kp]|] eqn:E; [|done].
  apply map_Forall_insert_2; [|done]. cbn. destruct (m !! _) as [c'|] eqn:E'; cbn; [by eapply Hm|eauto].
Qed.

Lemma generated_certs st c tls file cert :
  generate_config st = Some c → cfg_tls c = Some tls → tls_file tls = Some file → cert ∈ file_certs file →
  ∃ k, gst_tls_secrets st !! k = Some (fc_cert cert, fc_key cert).
Proof.
  unfold generate_config. intros ([ups rs]&_&[= <-])%bind_Some. cbn [cfg_tls]. set (certs := snd <$> btree_iter _).
  destruct (is_empty certs); cbn [negb]; [done|]. intros [= <-]. cbn. intros [= <-]. cbn.
  intros ([k c]&->&Hin)%list_elem_of_fmap. apply elem_of_btree_iter in Hin. by eapply generated_cert_paths in Hin.
Qed.

(** The proxy finds its certificates.  Every certificate and key file of the
    configuration a plan carries lies in the directory of one of the plan's mounted
    secrets, under the key names of a TLS secret. *)
Theorem plan_mounts_cover_config sha256 json_to_string toml_to_string_pretty input p :
  GatewayRuntimePlanner_plan sha256 json_to_string toml_to_string_pretty input = Done p →
  ∃ config, toml_to_string_pretty config = Ok (grp_config_toml p) ∧
    ∀ tls file cert, cfg_tls config = Some tls → tls_file tls = Some file → cert ∈ file_certs file →
      ∃ m, m ∈ grp_tls_secret_mounts p ∧ fc_cert cert = tsm_mount_path m +:+ "/tls.crt" ∧
           fc_key cert = tsm_mount_path m +:+ "/tls.key".
Proof.
  intros (g&uid&gen&base&sh&config&toml&(Hg&_&_&_&_&_&Hc&Ht)&->)%plan_Done. exists config. split; [done|].
  intros tls file cert Htls Hf Hcert. destruct (generated_certs _ _ _ _ _ Hc Htls Hf Hcert) as [k Hk].
  unfold scoped_state, gst_tls_secrets in Hk. unfold gateway in Hg. rewrite Hg in Hk.
  apply tls_overrides_path in Hk as (c&Hin&[= -> ->]). exists (mount_of (rpi_gateway_namespace input) c).
  split; [|done]. by apply mounted.
Qed.

(** ** Listener intents *)

Lemma elem_of_intents g ap i :
  i ∈ listener_status_intents_with_attachment g (Some ap) →
  ∃ l, l ∈ gw_listeners g ∧ i = attach_intent ap (listener_status_intent l).
Proof.
  cbn. unfold listener_status_intents. rewrite <- list_fmap_compose. intros (l&->&Hl)%list_elem_of_fmap. eauto.
Qed.

Lemma listener_status_intent_name l : lsi_name (listener_status_intent l) = li_name l.
Proof. unfold listener_status_intent. by case_bool_decide. Qed.

Lemma listener_status_intent_accepted l : lsi_accepted (listener_status_intent l) = bool_decide (li_protocol l ≠ UDP).
Proof. unfold listener_status_intent. repeat case_bool_decide; done. Qed.

(** The summary of a plan for a listener, when no other listener has its name. *)
Lemma listener_summary_found input p g l :
  plan input = Ok p →
  gateway (api_snapshot input) (api_gateway_namespace input) (api_gateway_name input) = Some g →
  l ∈ gw_listeners g → ∃ s, listener_summary p (li_name l) = Some s ∧ las_listener_name s = li_name l ∧ s ∈ ap_listener_summaries p.
Proof.
  intros (g'&Hg'&->)%plan_Ok Hg Hl. rewrite Hg' in Hg. injection Hg as ->. unfold listener_summary. cbn [ap_listener_summaries].
  set (sums := sort_by_key _ _ _).
  destruct (find_first (λ s, String.eqb (las_listener_name s) (li_name l)) sums) as [s|] eqn:E.
  - exists s. split; [done|]. apply find_first_Some_elem in E as [Hin Hs]. split; [by apply String.eqb_eq|done].
  - exfalso. set (s0 := summary_of (plan_acc input g).1 l).
    assert (s0 ∈ sums) as Hs0.
    { unfold sums, sort_by_key. rewrite elem_of_sort_by by apply _. apply list_elem_of_fmap. eauto. }
    assert (las_listener_name s0 = li_name l) as Hn by (unfold s0, summary_of; by repeat case_match).
    apply (find_first_None _ _) with (x := s0) in E; [|done]. by rewrite Hn, String.eqb_refl in E.
Qed.

(** What a plan reports of its listeners: one intent per listener, in order and
    under its name; a listener that is not UDP is accepted and counts the distinct
    routes attached to it, a UDP listener is refused and counts none. *)
Theorem plan_reports_attached sha256 json_to_string toml_to_string_pretty input p :
  GatewayRuntimePlanner_plan sha256 json_to_string toml_to_string_pretty input = Done p →
  ∃ g ap, gateway (rpi_snapshot input) (rpi_gateway_namespace input) (rpi_gateway_name input) = Some g ∧
    plan (mkAttachmentPlanInput (rpi_gateway_namespace input) (rpi_gateway_name input) (grp_gateway_generation p)
            (rpi_snapshot input)) = Ok ap ∧
    lsi_name <$> grp_listener_statuses p = li_name <$> gw_listeners g ∧
    ∀ n l i, gw_listeners g !! n = Some l → grp_listener_statuses p !! n = Some i →
      lsi_accepted i = bool_decide (li_protocol l ≠ UDP) ∧
      lsi_attached_routes i =
        if decide (li_protocol l = UDP) then 0%N else as_u32 (size (attached_keys (li_name l) (ap_route_results ap))).
Proof.
  intros (g&uid&gen&base&sh&config&toml&(Hg&_&_&_&_&_&_&_)&->)%plan_Done. cbn [grp_listener_statuses grp_gateway_generation plan_from].
  set (ai := mkAttachmentPlanInput _ _ gen _). destruct (plan ai) as [ap|] eqn:Hap.
  2:{ exfalso. assert (∃ p, plan ai = Ok p) as [p Hp]; [|congruence]. eexists. apply plan_Ok. eauto. }
  exists g, ap. split_and!; [done..| |].
  - unfold input_attachment. fold ai. rewrite Hap. cbn. unfold listener_status_intents. rewrite <- !list_fmap_compose.
    apply list_fmap_ext. intros _ l _. cbn. unfold attach_intent. rewrite <- listener_status_intent_name. by case_match.
  - intros n l i Hl. unfold input_attachment. fold ai. rewrite Hap. cbn. unfold listener_status_intents.
    rewrite <- list_fmap_compose, list_lookup_fmap, Hl. cbn. intros [= <-].
    unfold attach_intent. rewrite listener_status_intent_accepted, listener_status_intent_name.
    destruct (decide (li_protocol l = UDP)) as [Hu|Hu].
    + rewrite bool_decide_eq_false_2 by naive_solver. rewrite listener_status_intent_accepted, bool_decide_eq_false_2 by naive_solver.
      split; [done|]. unfold listener_status_intent. by rewrite bool_decide_eq_true_2.
    + rewrite bool_decide_eq_true_2 by done. cbn. split; [done|].
      assert (l ∈ gw_listeners g) as Hin by (by eapply list_elem_of_lookup_2).
      destruct (listener_summary_found ai ap g l Hap Hg Hin) as (s&->&Hn&Hs). rewrite <- Hn. by apply (summary_counts ai).
Qed.

(** ** Isolation *)

#[global] Arguments references : simpl never.

Lemma scoped_filter_insert {R} (f : R → bool) (m : gmap string R) k r :
  f r = false → (∀ r', m !! k = Some r' → f r' = false) →
  filter (λ e : string * R, f e.2 = true) (<[k := r]> m) = filter (λ e : string * R, f e.2 = true) m.
Proof.
  intros Hr Hold. rewrite map_filter_insert_False by (cbn; congruence). rewrite map_filter_delete. apply delete_id.
  apply map_lookup_filter_None. right. intros r' Hk%Hold. cbn. congruence.
Qed.

(** A gateway's configuration is its own.  Writing an HTTP route into the store
    that is not attached to the gateway (neither the new version nor the one it
    replaces references it) leaves the gateway's configuration text, hence its
    configuration revision, unchanged. *)
Theorem foreign_route_no_config_change toml_to_string_pretty (s : SharedStore) gns gname k r :
  references hr_metadata (λ r, hrs_parent_refs (hr_spec r)) gns gname r = false →
  (∀ r', si_http_routes (ss_inner s) !! k = Some r' →
     references hr_metadata (λ r, hrs_parent_refs (hr_spec r)) gns gname r' = false) →
  config_toml_from_snapshot toml_to_string_pretty gns gname (to_planner_snapshot (ss_inner (upsert_http_route k r s))) =
  config_toml_from_snapshot toml_to_string_pretty gns gname (to_planner_snapshot (ss_inner s)).
Proof.
  intros Hr Hold. unfold config_toml_from_snapshot.
  assert (scoped_state gns gname (to_planner_snapshot (ss_inner (upsert_http_route k r s))) =
          scoped_state gns gname (to_planner_snapshot (ss_inner s))) as ->; [|done].
  unfold scoped_state. cbn. f_equal.
  by apply (scoped_filter_insert (references hr_metadata (λ r, hrs_parent_refs (hr_spec r)) gns gname)).
Qed.

(** ** Examples *)

(** A stand-in for SHA-256 with the digest's shape. *)
Definition ex_sha256 (s : string) : list N := replicate 32 (N.of_nat (String.length s) mod 256)%N.

Lemma ex_sha256_ok : digest_ok ex_sha256.
Proof.
  intros s. split; [apply length_replicate|]. apply Forall_replicate. by apply N.mod_lt.
Qed.

Definition ex_json (v : Value) : result string string := Ok "{}".
Definition ex_toml (c : Config) : result string string := Ok (show_N (N.of_nat (length (cfg_routes c)))).

Definition ex_managed_meta : ObjectMeta := mkObjectMeta (Some "edge") (Some "infra") (Some 7%Z) (Some "uid-1") None None None None.
Definition ex_managed_gateway : Gateway :=
  mkGateway ex_managed_meta
    (mkGatewaySpec "wicket"
       [mkListener "web" (Some "*.example.com") 80 HTTP None (Some (mkAllowedRoutes (Some (mkRouteNamespaces FromAll None)) []));
        mkListener "https" (Some "shop.example.com") 443 HTTPS
          (Some (mkGatewayTLSConfig Terminate [mkSecretObjectReference "" "Secret" "tls" None])) None;
        mkListener "dns" None 53 UDP None None] []) None.
Definition ex_managed_store : SharedStore :=
  run_ops [OpUpsertGateway "infra/edge" ex_managed_gateway; OpUpsertHttpRoute "apps/shop" ex_route;
           OpUpsertReferenceGrant "backend/allow-apps" ex_grant] SharedStore_new.
Definition ex_nothing_observed : ObservedRuntimeState := mkObservedRuntimeState None None None None None None None None.
Definition ex_plan_input : RuntimePlanInput :=
  mkRuntimePlanInput "infra" "edge" (to_planner_snapshot (ss_inner ex_managed_store)) ControllerConfig_default ex_nothing_observed.

Definition ex_runtime_plan : GatewayRuntimePlan :=
  plan_from ex_sha256 ex_plan_input ex_managed_gateway "uid-1" 7 "wicket-gw-edge" (sha256_hex ex_sha256 "{}") "0".

Lemma ex_runtime_plan_eq : GatewayRuntimePlanner_plan ex_sha256 ex_json ex_toml ex_plan_input = Done ex_runtime_plan.
Proof. vm_compute. reflexivity. Qed.

Lemma owned_names_bounded_witness : ∃ b, owned_object_base_name ex_sha256 "edge" = Some b ∧ String.length (config_map_name b) ≤ 63.
Proof.
  destruct (owned_names_bounded ex_sha256 "edge" ex_sha256_ok eq_refl) as (b&Hb&Hn&_). exists b. split; [done|].
  apply Hn. left.
Defined.

(** Equality of JSON values is decidable. *)
#[global] Instance Value_eq_dec : EqDecision Value.
Proof.
  unfold EqDecision, Decision. fix go 1. intros v w. destruct v as [s|n|l|f], w as [s'|n'|l'|f']; try (right; discriminate).
  - destruct (decide (s = s')); [left|right]; congruence.
  - destruct (decide (n = n')); [left|right]; congruence.
  - destruct (@list_eq_dec _ go l l'); [left|right]; congruence.
  - destruct (@list_eq_dec _ (@prod_eq_dec _ _ _ go) f f'); [left|right]; congruence.
Defined.

Definition ex_metadata : RuntimeMetadata := mkRuntimeMetadata "wicket:1" 2 {["limits.cpu" := "1"]} ∅.
Definition ex_one_json (v : Value) : result string string :=
  if decide (v = apply_shape_value ex_metadata ClusterIP [] []) then Ok "one" else Err "unsupported".

Lemma spec_hash_detects_change_witness :
  spec_hash_of ex_sha256 ex_one_json ex_metadata ClusterIP [] [] = Ok (sha256_hex ex_sha256 "one") ∧
  ((ex_metadata = ex_metadata ∧ ClusterIP = ClusterIP ∧ [] = [] :> list ServicePortSpec ∧ [] = [] :> list TlsSecretMount) ∨
   ∃ x y, x ≠ y ∧ sha256_hex ex_sha256 x = sha256_hex ex_sha256 y).
Proof.
  assert (spec_hash_of ex_sha256 ex_one_json ex_metadata ClusterIP [] [] = Ok (sha256_hex ex_sha256 "one")) as H by reflexivity.
  split; [exact H|]. apply (spec_hash_detects_change ex_sha256 ex_one_json) with (h := sha256_hex ex_sha256 "one"); [|exact H|exact H].
  unfold ex_one_json. intros v w s. repeat case_decide; by intros; subst.
Defined.

Lemma runtime_plan_outcome_witness :
  ∃ p, GatewayRuntimePlanner_plan ex_sha256 ex_json ex_toml ex_plan_input = Done p ∧ NoDup (li_name <$> gw_listeners ex_managed_gateway).
Proof.
  pose proof (runtime_plan_outcome ex_sha256 ex_json ex_toml ex_plan_input ex_sha256_ok eq_refl) as H.
  rewrite ex_runtime_plan_eq in H. exists ex_runtime_plan. split; [exact ex_runtime_plan_eq|].
  destruct H as (_&_&g&Hg&Hnd).
  - intros k r rule d Hk Hr. change (gst_http_routes _) with ({["apps/shop" := ex_route]} : gmap string HTTPRoute) in Hk.
    apply lookup_singleton_Some in Hk as [<- <-]. cbn in Hr. by apply list_elem_of_singleton in Hr as ->.
  - assert (g = ex_managed_gateway) as <- by (vm_compute in Hg; by injection Hg). done.
Defined.

Lemma plan_mounts_cover_config_witness :
  ∃ config, ex_toml config = Ok (grp_config_toml ex_runtime_plan) ∧ cfg_routes config = [].
Proof.
  destruct (plan_mounts_cover_config _ _ _ _ _ ex_runtime_plan_eq) as (config&Hc&_). exists config. split; [exact Hc|].
  unfold ex_toml in Hc. injection Hc as Hc. apply (show_N_inj _ 0) in Hc. by apply length_zero_iff_nil, Nat2N.inj.
Defined.

Lemma plan_reports_attached_witness :
  lsi_attached_routes <$> grp_listener_statuses ex_runtime_plan !! 0 = Some 1%N ∧
  lsi_name <$> grp_listener_statuses ex_runtime_plan = ["web"; "https"; "dns"].
Proof.
  destruct (plan_reports_attached _ _ _ _ _ ex_runtime_plan_eq) as (g&ap&Hg&_&Hn&_).
  assert (g = ex_managed_gateway) as -> by (vm_compute in Hg; by injection Hg). split; [vm_compute; reflexivity|exact Hn].
Defined.

Definition ex_foreign_route : HTTPRoute :=
  mkHTTPRoute (meta_of "apps" "other")
    (mkHTTPRouteSpec [mkParentReference GATEWAY_API_GROUP "Gateway" (Some "infra") "internal" None None] [] []) None.

Lemma foreign_route_no_config_change_witness :
  config_toml_from_snapshot ex_toml "infra" "edge" (to_planner_snapshot (ss_inner (upsert_http_route "apps/other" ex_foreign_route ex_managed_store))) =
  Done "0".
Proof.
  rewrite (foreign_route_no_config_change ex_toml ex_managed_store "infra" "edge" "apps/other" ex_foreign_route).
  - vm_compute. reflexivity.
  - reflexivity.
  - intros r' Hr'. vm_compute in Hr'. discriminate.
Defined.
