(* ===== verification/RuntimeApplier.v ===== *)
(** * The runtime applier (reconcilers/runtime_applier.rs)

    The four owned objects of a managed gateway and the applier that brings them to
    the planned shape: ownership preflight, then a forced server-side apply of service
    account, configuration map, service and deployment, in this order.

    The API server is an environment: [fault] says which calls fail, the four [ssa]
    functions what a forced apply makes of the stored and the applied object.  Their
    documented behaviour (applied labels, annotations and data are in the result, and
    a repeated apply changes nothing) is the class [ForcedApply].  The objects keep
    the fields the controller sets or reads. *)

From S2P Require Import Prelude Str Order Num Crds Config Attachment RuntimePlan.
From Stdlib Require Import Ascii.

(** ** Kubernetes objects *)

Record ServiceAccount := mkServiceAccount { sa_metadata : ObjectMeta }.

Record ConfigMap := mkConfigMap { cm_metadata : ObjectMeta; cm_data : option (gmap string string) }.

Record K8sServicePort := mkK8sServicePort {
  ksp_name : option string;
  ksp_port : Z;
  ksp_target_port : option Z;
  ksp_protocol : option string
}.

Record K8sServiceSpec := mkK8sServiceSpec {
  kss_type : option string;
  kss_ports : option (list K8sServicePort);
  kss_selector : option (gmap string string);
  kss_external_ips : option (list string);
  kss_cluster_ip : option string
}.

Record LoadBalancerIngress := mkLoadBalancerIngress { lbi_ip : option string; lbi_hostname : option string }.

Record K8sService := mkK8sService {
  ks_metadata : ObjectMeta;
  ks_spec : option K8sServiceSpec;
  ks_ingress : option (list LoadBalancerIngress)
}.

Record ContainerPort := mkContainerPort { cp_name : option string; cp_container_port : Z; cp_protocol : option string }.
Record EnvVar := mkEnvVar { ev_name : string; ev_value : option string }.
Record VolumeMount := mkVolumeMount { vm_name : string; vm_mount_path : string; vm_read_only : option bool }.
Record SecretVolumeSource := mkSecretVolumeSource {
  svs_secret_name : option string;
  svs_default_mode : option Z;
  svs_optional : option bool
}.
Record Volume := mkVolume {
  vol_name : string;
  vol_config_map : option string;
  vol_secret : option SecretVolumeSource
}.
Record PodSecurityContext := mkPodSecurityContext {
  psc_fs_group : option Z;
  psc_run_as_non_root : option bool;
  psc_run_as_user : option Z;
  psc_run_as_group : option Z
}.
Record SecurityContext := mkSecurityContext {
  sc_run_as_non_root : option bool;
  sc_run_as_user : option Z;
  sc_run_as_group : option Z;
  sc_allow_privilege_escalation : option bool;
  sc_read_only_root_filesystem : option bool
}.
Record ResourceRequirements := mkResourceRequirements {
  rr_requests : option (gmap string string);
  rr_limits : option (gmap string string)
}.
Record Container := mkContainer {
  co_name : string;
  co_image : option string;
  co_ports : option (list ContainerPort);
  co_volume_mounts : option (list VolumeMount);
  co_security_context : option SecurityContext;
  co_env : option (list EnvVar);
  co_resources : option ResourceRequirements
}.
Record PodSpec := mkPodSpec {
  pod_service_account_name : option string;
  pod_security_context : option PodSecurityContext;
  pod_containers : list Container;
  pod_volumes : option (list Volume);
  pod_node_selector : option (gmap string string)
}.
Record PodTemplateSpec := mkPodTemplateSpec {
  pt_labels : option (gmap string string);
  pt_annotations : option (gmap string string);
  pt_spec : option PodSpec
}.
Record DeploymentSpec := mkDeploymentSpec {
  ds_replicas : option Z;
  ds_match_labels : option (gmap string string);
  ds_template : PodTemplateSpec
}.
Record DeploymentStatus := mkDeploymentStatus {
  dst_ready_replicas : option Z;
  dst_observed_generation : option Z;
  dst_updated_replicas : option Z;
  dst_available_replicas : option Z
}.
Record Deployment := mkDeployment {
  dep_metadata : ObjectMeta;
  dep_spec : option DeploymentSpec;
  dep_status : option DeploymentStatus
}.

(** ** contracts.rs *)

Inductive ApplyError :=
| KubeApi (e : string)
| Filesystem (e : string)
| Serialization (e : string)
| NotOwned (namespace name : string).

Inductive ConfigApplyResult := ConfigUpdated (config_hash : string) | ConfigUnchanged.

Record RuntimeApplyResult := mkRuntimeApplyResult {
  rar_service_account_created : bool;
  rar_config_result : option ConfigApplyResult;
  rar_service_changed : bool;
  rar_deployment_changed : bool;
  rar_rollout_triggered : bool
}.

(** ** Labels, annotations, metadata *)

Definition SPEC_REVISION_ANNOTATION : string := "wicket.io/spec-revision".
Definition CONFIG_REVISION_ANNOTATION : string := "wicket.io/config-revision".
Definition LABEL_MANAGED_BY : string := "app.kubernetes.io/managed-by".
Definition LABEL_COMPONENT : string := "app.kubernetes.io/component".
Definition LABEL_INSTANCE : string := "app.kubernetes.io/instance".
Definition LABEL_APP_NAME : string := "app.kubernetes.io/name".
Definition LABEL_GW_NAMESPACE : string := "wicket.io/gateway-namespace".
Definition LABEL_GW_NAME : string := "wicket.io/gateway-name".
Definition PROXY_RUNTIME_UID : Z := 65532.
Definition PROXY_RUNTIME_FSGROUP : Z := 65532.

Definition managed_labels (p : GatewayRuntimePlan) : gmap string string :=
  <[LABEL_GW_NAME := grp_gateway_name p]> (<[LABEL_GW_NAMESPACE := grp_gateway_namespace p]>
  (<[LABEL_APP_NAME := "wicket"]> (<[LABEL_INSTANCE := grp_gateway_name p]>
  (<[LABEL_COMPONENT := "gateway-runtime"]> {[LABEL_MANAGED_BY := "wicket-controller"]})))).

Definition pod_template_labels (p : GatewayRuntimePlan) : gmap string string := managed_labels p.

Definition gateway_owner_ref (p : GatewayRuntimePlan) : OwnerReference :=
  mkOwnerReference "gateway.networking.k8s.io/v1" "Gateway" (grp_gateway_name p) (grp_gateway_uid p) (Some true) (Some true).

Definition owned_object_meta (name : string) (p : GatewayRuntimePlan) (extra_annotations : option (gmap string string))
    : ObjectMeta :=
  mkObjectMeta (Some name) (Some (grp_gateway_namespace p)) None None None (Some (managed_labels p)) extra_annotations
    (Some [gateway_owner_ref p]).

Definition is_managed_by_controller (labels : option (gmap string string)) : bool :=
  unwrap_or false ((λ v, String.eqb v "wicket-controller") <$> (labels ≫= λ l, l !! LABEL_MANAGED_BY)).

(** ** The desired objects *)

Definition desired_service_account (p : GatewayRuntimePlan) : ServiceAccount :=
  mkServiceAccount (owned_object_meta (grp_service_account_name p) p None).

Definition desired_configmap (p : GatewayRuntimePlan) : ConfigMap :=
  mkConfigMap (owned_object_meta (grp_config_map_name p) p (Some {[CONFIG_REVISION_ANNOTATION := grp_config_hash p]}))
    (Some {["wicket.toml" := grp_config_toml p]}).

Definition k8s_service_port (s : ServicePortSpec) : K8sServicePort :=
  mkK8sServicePort (Some (sps_name s)) (Z.of_N (sps_port s)) (Some (Z.of_N (sps_target_port s))) (Some (sps_protocol s)).

Definition desired_service (p : GatewayRuntimePlan) : K8sService :=
  mkK8sService (owned_object_meta (grp_service_name p) p None)
    (Some (mkK8sServiceSpec (Some (ServiceType_fmt (grp_service_type p))) (Some (k8s_service_port <$> grp_service_ports p))
             (Some (managed_labels p)) None None)) None.

Definition container_port (s : ServicePortSpec) : ContainerPort :=
  mkContainerPort (Some (sps_name s)) (Z.of_N (sps_target_port s)) (Some (sps_protocol s)).

Definition managed_runtime_pod_security_context : PodSecurityContext :=
  mkPodSecurityContext (Some PROXY_RUNTIME_FSGROUP) (Some true) (Some PROXY_RUNTIME_UID) (Some PROXY_RUNTIME_UID).
Definition managed_runtime_container_security_context : SecurityContext :=
  mkSecurityContext (Some true) (Some PROXY_RUNTIME_UID) (Some PROXY_RUNTIME_UID) (Some false) (Some true).

(** The loop over the keys of the resources, in order. *)
Definition add_resource (acc : gmap string string * gmap string string) (e : string * string)
    : gmap string string * gmap string string :=
  let '(requests, limits) := acc in
  if String.eqb e.1 "requests.cpu" then (<["cpu" := e.2]> requests, limits)
  else if String.eqb e.1 "requests.memory" then (<["memory" := e.2]> requests, limits)
  else if String.eqb e.1 "limits.cpu" then (requests, <["cpu" := e.2]> limits)
  else if String.eqb e.1 "limits.memory" then (requests, <["memory" := e.2]> limits)
  else acc.

Definition nonempty_map (m : gmap string string) : option (gmap string string) :=
  if bool_decide (m = ∅) then None else Some m.

Definition build_resource_requirements (resources : gmap string string) : ResourceRequirements :=
  let '(requests, limits) := foldl add_resource (∅, ∅) (btree_iter resources) in
  mkResourceRequirements (nonempty_map requests) (nonempty_map limits).

(** [raw_name[..63]] panics inside a character. *)
Definition tls_volume_name (secret_name : string) : option string :=
  let raw_name := "tls-" +:+ secret_name in
  if 63 <? String.length raw_name then str_slice_to 63 raw_name else Some raw_name.

Definition secret_volume (vol_name : string) (m : TlsSecretMount) : Volume * VolumeMount :=
  (mkVolume vol_name None (Some (mkSecretVolumeSource (Some (tsm_secret_name m)) (Some 288%Z) (Some false))),
   mkVolumeMount vol_name (tsm_mount_path m) (Some true)).

(** The volumes of the mounts, in order; [None] is the panic. *)
Fixpoint tls_volumes (seen : gset string) (mounts : list TlsSecretMount) : option (list (Volume * VolumeMount)) :=
  match mounts with
  | [] => Some []
  | m :: mounts' =>
      vol_name ← tls_volume_name (tsm_secret_name m);
      if bool_decide (vol_name ∈ seen) then tls_volumes seen mounts'
      else rest ← tls_volumes ({[vol_name]} ∪ seen) mounts'; Some (secret_volume vol_name m :: rest)
  end.

Definition build_pod_volumes_and_mounts (p : GatewayRuntimePlan) : option (list Volume * list VolumeMount) :=
  vs ← tls_volumes {["config"]} (grp_tls_secret_mounts p);
  Some (mkVolume "config" (Some (grp_config_map_name p)) None :: vs.*1,
        mkVolumeMount "config" "/etc/wicket" (Some true) :: vs.*2).

Definition desired_deployment (p : GatewayRuntimePlan) (replicas : Z) (volumes : list Volume) (mounts : list VolumeMount)
    : Deployment :=
  let container :=
    mkContainer "wicket-proxy" (Some (rm_image (grp_runtime_metadata p))) (Some (container_port <$> grp_service_ports p))
      (Some mounts) (Some managed_runtime_container_security_context)
      (Some [mkEnvVar "WICKET_SPEC_REVISION" (Some (grp_spec_hash p))])
      (Some (build_resource_requirements (rm_resources (grp_runtime_metadata p)))) in
  let pod_template :=
    mkPodTemplateSpec (Some (pod_template_labels p)) (Some {[SPEC_REVISION_ANNOTATION := grp_spec_hash p]})
      (Some (mkPodSpec (Some (grp_service_account_name p)) (Some managed_runtime_pod_security_context) [container]
               (Some volumes) (nonempty_map (rm_node_selector (grp_runtime_metadata p))))) in
  mkDeployment
    (owned_object_meta (grp_deployment_name p) p
       (Some (<[CONFIG_REVISION_ANNOTATION := grp_config_hash p]> {[SPEC_REVISION_ANNOTATION := grp_spec_hash p]})))
    (Some (mkDeploymentSpec (Some replicas) (Some (managed_labels p)) pod_template)) None.

(** ** The cluster *)

Notation ObjKey := (string * string)%type.

(** The stored objects by namespace and name, and the controller's configuration. *)
Record ClusterState := mkClusterState {
  cs_service_accounts : gmap ObjKey ServiceAccount;
  cs_config_maps : gmap ObjKey ConfigMap;
  cs_services : gmap ObjKey K8sService;
  cs_deployments : gmap ObjKey Deployment;
  cs_in_memory_config : Config
}.

Inductive ObjectKind := KServiceAccount | KConfigMap | KService | KDeployment.
Inductive ApiCall := ApiGet (k : ObjectKind) (ns name : string) | ApiPatch (k : ObjectKind) (ns name : string).

(** One kind of object: where it is stored and what a forced apply makes of it. *)
Record KindOps (O : Type) := mkKindOps {
  ko_kind : ObjectKind;
  ko_meta : O → ObjectMeta;
  ko_get : ClusterState → gmap ObjKey O;
  ko_set : gmap ObjKey O → ClusterState → ClusterState;
  ko_ssa : option O → O → O
}.
Arguments ko_kind {O} _.
Arguments ko_meta {O} _ _.
Arguments ko_get {O} _ _.
Arguments ko_set {O} _ _ _.
Arguments ko_ssa {O} _ _ _.

Definition applyM (A : Type) : Type := ClusterState → exec ApplyError A * ClusterState.

#[global] Instance applyM_ret : MRet applyM := λ A x s, (Done x, s).
#[global] Instance applyM_bind : MBind applyM :=
  λ A B f m s, match m s with
               | (Done a, s') => f a s'
               | (Failed e, s') => (Failed e, s')
               | (Panicked, s') => (Panicked, s')
               end.

Definition fail_with {A} (e : ApplyError) : applyM A := λ s, (Failed e, s).
Definition lift_opt {A} (o : option A) : applyM A := λ s, (or_panic o, s).
Definition set_in_memory_config (c : Config) : applyM unit :=
  λ s, (Done tt, mkClusterState (cs_service_accounts s) (cs_config_maps s) (cs_services s) (cs_deployments s) c).

Section applier.
Context (fault : ApiCall → option string).
Context (serialize_error : ObjectKind → option string).
Context (toml_from_str : string → result string Config).
Context (ssa_service_account : option ServiceAccount → ServiceAccount → ServiceAccount).
Context (ssa_config_map : option ConfigMap → ConfigMap → ConfigMap).
Context (ssa_service : option K8sService → K8sService → K8sService).
Context (ssa_deployment : option Deployment → Deployment → Deployment).

Definition service_account_ops : KindOps ServiceAccount :=
  mkKindOps _ KServiceAccount sa_metadata cs_service_accounts
    (λ m s, mkClusterState m (cs_config_maps s) (cs_services s) (cs_deployments s) (cs_in_memory_config s)) ssa_service_account.
Definition config_map_ops : KindOps ConfigMap :=
  mkKindOps _ KConfigMap cm_metadata cs_config_maps
    (λ m s, mkClusterState (cs_service_accounts s) m (cs_services s) (cs_deployments s) (cs_in_memory_config s)) ssa_config_map.
Definition service_ops : KindOps K8sService :=
  mkKindOps _ KService ks_metadata cs_services
    (λ m s, mkClusterState (cs_service_accounts s) (cs_config_maps s) m (cs_deployments s) (cs_in_memory_config s)) ssa_service.
Definition deployment_ops : KindOps Deployment :=
  mkKindOps _ KDeployment dep_metadata cs_deployments
    (λ m s, mkClusterState (cs_service_accounts s) (cs_config_maps s) (cs_services s) m (cs_in_memory_config s)) ssa_deployment.

Definition get_opt {O} (K : KindOps O) (ns name : string) : applyM (option O) := λ s,
  match fault (ApiGet (ko_kind K) ns name) with
  | Some e => (Failed (KubeApi e), s)
  | None => (Done (ko_get K s !! (ns, name)), s)
  end.

(** [serde_json::to_value], then [api.patch] with [Patch::Apply] and [force]. *)
Definition patch_apply {O} (K : KindOps O) (ns name : string) (obj : O) : applyM unit := λ s,
  match serialize_error (ko_kind K) with
  | Some e => (Failed (Serialization e), s)
  | None =>
      match fault (ApiPatch (ko_kind K) ns name) with
      | Some e => (Failed (KubeApi e), s)
      | None => (Done tt, ko_set K (<[(ns, name) := ko_ssa K (ko_get K s !! (ns, name)) obj]> (ko_get K s)) s)
      end
  end.

Definition preflight {O} (K : KindOps O) (name ns : string) : applyM bool :=
  get_opt K ns name ≫= λ found,
  match found with
  | None => mret false
  | Some obj => if is_managed_by_controller (om_labels (ko_meta K obj)) then mret true else fail_with (NotOwned ns name)
  end.

Definition preflight_service_account := preflight service_account_ops.
Definition preflight_configmap := preflight config_map_ops.
Definition preflight_service := preflight service_ops.
Definition preflight_deployment := preflight deployment_ops.

Definition apply_service_account (p : GatewayRuntimePlan) : applyM bool :=
  preflight_service_account (grp_service_account_name p) (grp_gateway_namespace p) ≫= λ already_exists,
  patch_apply service_account_ops (grp_gateway_namespace p) (grp_service_account_name p) (desired_service_account p) ≫= λ _,
  mret (negb already_exists).

Definition apply_managed_configmap (p : GatewayRuntimePlan) : applyM ConfigApplyResult :=
  preflight_configmap (grp_config_map_name p) (grp_gateway_namespace p) ≫= λ _,
  match toml_from_str (grp_config_toml p) with
  | Err e => fail_with (Serialization e)
  | Ok new_config =>
      if negb (grp_config_changed p) then
        set_in_memory_config new_config ≫= λ _, mret ConfigUnchanged
      else
        patch_apply config_map_ops (grp_gateway_namespace p) (grp_config_map_name p) (desired_configmap p) ≫= λ _,
        set_in_memory_config new_config ≫= λ _,
        mret (ConfigUpdated (grp_config_hash p))
  end.

Definition apply_service (p : GatewayRuntimePlan) : applyM bool :=
  preflight_service (grp_service_name p) (grp_gateway_namespace p) ≫= λ already_exists,
  patch_apply service_ops (grp_gateway_namespace p) (grp_service_name p) (desired_service p) ≫= λ _,
  mret (negb already_exists || grp_spec_changed p).

Definition apply_deployment (p : GatewayRuntimePlan) : applyM (bool * bool) :=
  preflight_deployment (grp_deployment_name p) (grp_gateway_namespace p) ≫= λ already_exists,
  if (i32_max <? rm_replicas (grp_runtime_metadata p))%N then
    fail_with (Serialization ("replica count " +:+ show_N (rm_replicas (grp_runtime_metadata p)) +:+ " overflows i32 (max "
                              +:+ show_N i32_max +:+ ")"))
  else
    lift_opt (build_pod_volumes_and_mounts p) ≫= λ vm,
    patch_apply deployment_ops (grp_gateway_namespace p) (grp_deployment_name p)
      (desired_deployment p (Z.of_N (rm_replicas (grp_runtime_metadata p))) vm.1 vm.2) ≫= λ _,
    mret (negb already_exists || grp_spec_changed p, grp_spec_changed p).

Definition apply_runtime_plan (p : GatewayRuntimePlan) : applyM RuntimeApplyResult :=
  apply_service_account p ≫= λ sa_created,
  apply_managed_configmap p ≫= λ config_result,
  apply_service p ≫= λ service_changed,
  apply_deployment p ≫= λ dr,
  mret (mkRuntimeApplyResult sa_created (Some config_result) service_changed dr.1 dr.2).

End applier.

(** What the code relies on of the API server: after a forced apply the object has
    the applied labels and annotations, and applying it again changes nothing. *)
Class ForcedApply {O} (meta : O → ObjectMeta) (ssa : option O → O → O) : Prop := {
  ssa_labels : ∀ old new k v,
    (om_labels (meta new) ≫= λ l, l !! k) = Some v → (om_labels (meta (ssa old new)) ≫= λ l, l !! k) = Some v;
  ssa_annotations : ∀ old new k v,
    (om_annotations (meta new) ≫= λ l, l !! k) = Some v → (om_annotations (meta (ssa old new)) ≫= λ l, l !! k) = Some v;
  ssa_idempotent : ∀ old new, ssa (Some (ssa old new)) new = ssa old new
}.

(** ** What an apply does *)

Section facts.
Context (fault : ApiCall → option string) (serialize_error : ObjectKind → option string).
Context (toml_from_str : string → result string Config).
Context (ssa_sa : option ServiceAccount → ServiceAccount → ServiceAccount).
Context (ssa_cm : option ConfigMap → ConfigMap → ConfigMap).
Context (ssa_svc : option K8sService → K8sService → K8sService).
Context (ssa_dep : option Deployment → Deployment → Deployment).
Notation apply := (apply_runtime_plan fault serialize_error toml_from_str ssa_sa ssa_cm ssa_svc ssa_dep).
Notation SA := (service_account_ops ssa_sa).
Notation CM := (config_map_ops ssa_cm).
Notation SVC := (service_ops ssa_svc).
Notation DEP := (deployment_ops ssa_dep).

(** The object may be applied: it does not exist or it is the controller's. *)
Definition ownable {O} (K : KindOps O) (ns name : string) (s : ClusterState) : Prop :=
  ∀ obj, ko_get K s !! (ns, name) = Some obj → is_managed_by_controller (om_labels (ko_meta K obj)) = true.

Definition get_ok {O} (K : KindOps O) (ns name : string) : Prop := fault (ApiGet (ko_kind K) ns name) = None.
Definition patch_ok {O} (K : KindOps O) (ns name : string) : Prop :=
  serialize_error (ko_kind K) = None ∧ fault (ApiPatch (ko_kind K) ns name) = None.

Lemma preflight_spec {O} (K : KindOps O) name ns s :
  (preflight fault K name ns s = (Done (is_some (ko_get K s !! (ns, name))), s) ∧ get_ok K ns name ∧ ownable K ns name s) ∨
  (∃ e, preflight fault K name ns s = (Failed e, s) ∧ (get_ok K ns name → ownable K ns name s → False)).
Proof.
  unfold preflight, get_opt, get_ok, ownable, mbind, applyM_bind. destruct (fault _) as [e|] eqn:E; [right; by exists (KubeApi e)|].
  destruct (ko_get K s !! (ns, name)) as [obj|] eqn:Ho; [|by left].
  destruct (is_managed_by_controller _) eqn:Hm; [left; split; [done|]; split; [done|]; by intros ? [= <-]|].
  right. exists (NotOwned ns name). split; [done|]. intros _ H. specialize (H obj eq_refl). congruence.
Qed.

Lemma patch_apply_spec {O} (K : KindOps O) name ns obj s :
  (patch_apply fault serialize_error K ns name obj s =
     (Done tt, ko_set K (<[(ns, name) := ko_ssa K (ko_get K s !! (ns, name)) obj]> (ko_get K s)) s) ∧ patch_ok K ns name) ∨
  (∃ e, patch_apply fault serialize_error K ns name obj s = (Failed e, s) ∧ ¬ patch_ok K ns name).
Proof.
  unfold patch_apply, patch_ok. destruct (serialize_error _); [right; eexists; split; [done|by intros [? _]]|].
  destruct (fault _); [right; eexists; split; [done|by intros [_ ?]]|by left].
Qed.

(** A step that leaves objects of other kinds, with other names, and objects the
    controller does not own as they are. *)
Definition frame {O} (K : KindOps O) (ns name : string) (s s' : ClusterState) : Prop :=
  (∀ k, k ≠ (ns, name) → ko_get K s' !! k = ko_get K s !! k) ∧
  (∀ obj, ko_get K s !! (ns, name) = Some obj → is_managed_by_controller (om_labels (ko_meta K obj)) = false →
     ko_get K s' !! (ns, name) = Some obj).

#[local] Instance frame_preorder {O} (K : KindOps O) ns name : PreOrder (frame K ns name).
Proof.
  split; [by intros s|]. intros s1 s2 s3 [H1 H2] [H3 H4]. split.
  - intros k Hk. by rewrite H3, H1.
  - intros obj Ho Hm. by apply H4, Hm; apply H2.
Qed.

Definition framed (p : GatewayRuntimePlan) (s s' : ClusterState) : Prop :=
  frame SA (grp_gateway_namespace p) (grp_service_account_name p) s s' ∧
  frame CM (grp_gateway_namespace p) (grp_config_map_name p) s s' ∧
  frame SVC (grp_gateway_namespace p) (grp_service_name p) s s' ∧
  frame DEP (grp_gateway_namespace p) (grp_deployment_name p) s s'.

#[local] Instance framed_preorder p : PreOrder (framed p).
Proof.
  split; [intros s; split_and!; reflexivity|].
  intros s1 s2 s3 (?&?&?&?) (?&?&?&?). split_and!; by etransitivity.
Qed.

Lemma applyM_bind_rel {A B} (R : relation ClusterState) `{!PreOrder R} (m : applyM A) (f : A → applyM B) :
  (∀ s, R s (m s).2) → (∀ a s, R s (f a s).2) → ∀ s, R s ((m ≫= f) s).2.
Proof.
  intros Hm Hf s. unfold mbind, applyM_bind. specialize (Hm s). destruct (m s) as [[|e|a] s1]; cbn in *; [done..|].
  etransitivity; [done|apply Hf].
Qed.

(** The insertion of an object that may be applied keeps the frame of its kind. *)
Lemma frame_insert {O} (K : KindOps O) ns name obj s s' :
  ownable K ns name s → ko_get K s' = <[(ns, name) := obj]> (ko_get K s) → frame K ns name s s'.
Proof.
  intros Ho Hs'. split.
  - intros k Hk. rewrite Hs'. by rewrite lookup_insert_ne.
  - intros obj' Hobj Hm. rewrite (Ho obj' Hobj) in Hm. done.
Qed.

Lemma apply_service_account_framed p s : framed p s (apply_service_account fault serialize_error ssa_sa p s).2.
Proof.
  unfold apply_service_account, preflight_service_account, mbind at 1, applyM_bind.
  destruct (preflight_spec SA (grp_service_account_name p) (grp_gateway_namespace p) s) as [(->&_&Ho)|(e&->&_)]; [|reflexivity].
  cbn [snd]. unfold mbind, applyM_bind.
  destruct (patch_apply_spec SA (grp_service_account_name p) (grp_gateway_namespace p) (desired_service_account p) s) as [[-> _]|(e&->&_)];
    [|reflexivity].
  split_and!; [|split; naive_solver..]. by eapply frame_insert.
Qed.

Lemma apply_managed_configmap_framed p s :
  framed p s (apply_managed_configmap fault serialize_error toml_from_str ssa_cm p s).2.
Proof.
  unfold apply_managed_configmap, preflight_configmap, mbind at 1, applyM_bind.
  destruct (preflight_spec CM (grp_config_map_name p) (grp_gateway_namespace p) s) as [(->&_&Ho)|(e&->&_)]; [|reflexivity].
  destruct (toml_from_str _) as [c|e]; [|reflexivity]. destruct (grp_config_changed p); cbn [negb].
  2:{ split_and!; split; naive_solver. }
  unfold mbind, applyM_bind.
  destruct (patch_apply_spec CM (grp_config_map_name p) (grp_gateway_namespace p) (desired_configmap p) s) as [[-> _]|(e&->&_)];
    [|reflexivity].
  split_and!; [split; naive_solver|by eapply frame_insert|split; naive_solver..].
Qed.

Lemma apply_service_framed p s : framed p s (apply_service fault serialize_error ssa_svc p s).2.
Proof.
  unfold apply_service, preflight_service, mbind at 1, applyM_bind.
  destruct (preflight_spec SVC (grp_service_name p) (grp_gateway_namespace p) s) as [(->&_&Ho)|(e&->&_)]; [|reflexivity].
  unfold mbind, applyM_bind.
  destruct (patch_apply_spec SVC (grp_service_name p) (grp_gateway_namespace p) (desired_service p) s) as [[-> _]|(e&->&_)];
    [|reflexivity].
  split_and!; [split; naive_solver..|by eapply frame_insert|split; naive_solver].
Qed.

Lemma apply_deployment_framed p s : framed p s (apply_deployment fault serialize_error ssa_dep p s).2.
Proof.
  unfold apply_deployment, preflight_deployment, mbind at 1, applyM_bind.
  destruct (preflight_spec DEP (grp_deployment_name p) (grp_gateway_namespace p) s) as [(->&_&Ho)|(e&->&_)]; [|reflexivity].
  destruct (i32_max <? _)%N; [reflexivity|]. unfold mbind, applyM_bind, lift_opt.
  destruct (build_pod_volumes_and_mounts p) as [[vs ms]|]; cbn [or_panic]; [|reflexivity].
  destruct (patch_apply_spec DEP (grp_deployment_name p) (grp_gateway_namespace p)
    (desired_deployment p (Z.of_N (rm_replicas (grp_runtime_metadata p))) vs ms) s) as [[E _]|(e&E&_)]; cbn [fst snd]; rewrite E; [|reflexivity].
  split_and!; [split; naive_solver..|by eapply frame_insert].
Qed.

Lemma apply_framed p s : framed p s (apply p s).2.
Proof.
  unfold apply_runtime_plan. revert s. apply applyM_bind_rel; [apply _|apply apply_service_account_framed|intros sac].
  apply applyM_bind_rel; [apply _|apply apply_managed_configmap_framed|intros cr].
  apply applyM_bind_rel; [apply _|apply apply_service_framed|intros sch].
  apply applyM_bind_rel; [apply _|apply apply_deployment_framed|intros dr s]. reflexivity.
Qed.

(** Every call of the apply succeeds and every owned name is free or the controller's. *)
Definition applicable (p : GatewayRuntimePlan) (s : ClusterState) : Prop :=
  let ns := grp_gateway_namespace p in
  (get_ok SA ns (grp_service_account_name p) ∧ ownable SA ns (grp_service_account_name p) s ∧ patch_ok SA ns (grp_service_account_name p)) ∧
  (get_ok CM ns (grp_config_map_name p) ∧ ownable CM ns (grp_config_map_name p) s ∧
     (grp_config_changed p = true → patch_ok CM ns (grp_config_map_name p))) ∧
  (get_ok SVC ns (grp_service_name p) ∧ ownable SVC ns (grp_service_name p) s ∧ patch_ok SVC ns (grp_service_name p)) ∧
  (get_ok DEP ns (grp_deployment_name p) ∧ ownable DEP ns (grp_deployment_name p) s ∧ patch_ok DEP ns (grp_deployment_name p)).

Definition applied_state (p : GatewayRuntimePlan) (s : ClusterState) (vs : list Volume) (ms : list VolumeMount) (c : Config)
    : ClusterState :=
  let ns := grp_gateway_namespace p in
  mkClusterState
    (<[(ns, grp_service_account_name p) :=
       ssa_sa (cs_service_accounts s !! (ns, grp_service_account_name p)) (desired_service_account p)]> (cs_service_accounts s))
    (if grp_config_changed p
     then <[(ns, grp_config_map_name p) := ssa_cm (cs_config_maps s !! (ns, grp_config_map_name p)) (desired_configmap p)]>
            (cs_config_maps s)
     else cs_config_maps s)
    (<[(ns, grp_service_name p) := ssa_svc (cs_services s !! (ns, grp_service_name p)) (desired_service p)]> (cs_services s))
    (<[(ns, grp_deployment_name p) :=
       ssa_dep (cs_deployments s !! (ns, grp_deployment_name p))
         (desired_deployment p (Z.of_N (rm_replicas (grp_runtime_metadata p))) vs ms)]> (cs_deployments s))
    c.

Definition applied_result (p : GatewayRuntimePlan) (s : ClusterState) : RuntimeApplyResult :=
  let ns := grp_gateway_namespace p in
  mkRuntimeApplyResult (negb (is_some (cs_service_accounts s !! (ns, grp_service_account_name p))))
    (Some (if grp_config_changed p then ConfigUpdated (grp_config_hash p) else ConfigUnchanged))
    (negb (is_some (cs_services s !! (ns, grp_service_name p))) || grp_spec_changed p)
    (negb (is_some (cs_deployments s !! (ns, grp_deployment_name p))) || grp_spec_changed p)
    (grp_spec_changed p).

(** Runs an apply on a symbolic state, one call at a time. *)
Ltac run_preflight :=
  match goal with
  | |- context [preflight fault ?K ?name ?ns ?s] =>
      let H1 := fresh "Hget" in let H2 := fresh "Hown" in let H := fresh "Hbad" in let e := fresh "e" in
      destruct (preflight_spec K name ns s) as [(->&H1&H2)|(e&->&H)]; [|naive_solver]
  end.
Ltac run_patch :=
  match goal with
  | |- context [patch_apply fault serialize_error ?K ?ns ?name ?obj ?s] =>
      let H1 := fresh "Hpatch" in let H := fresh "Hbad" in let e := fresh "e" in
      destruct (patch_apply_spec K name ns obj s) as [[-> H1]|(e&->&H)]; [|naive_solver]
  end.

Lemma apply_Done p s res s' :
  apply p s = (Done res, s') ↔
  applicable p s ∧ (rm_replicas (grp_runtime_metadata p) ≤ i32_max)%N ∧
  ∃ c vs ms, toml_from_str (grp_config_toml p) = Ok c ∧ build_pod_volumes_and_mounts p = Some (vs, ms) ∧
    res = applied_result p s ∧ s' = applied_state p s vs ms c.
Proof.
  unfold applicable, apply_runtime_plan, apply_service_account, apply_managed_configmap, apply_service, apply_deployment,
    preflight_service_account, preflight_configmap, preflight_service, preflight_deployment, applied_result, applied_state,
    mbind, applyM_bind, mret, applyM_ret, lift_opt, set_in_memory_config.
  run_preflight. run_patch. run_preflight.
  destruct (toml_from_str (grp_config_toml p)) as [c|e] eqn:Ht; [|naive_solver].
  destruct (grp_config_changed p) eqn:Hch; cbn [negb]; [run_patch|]; run_preflight; run_patch; run_preflight;
    (destruct (i32_max <? rm_replicas _)%N eqn:Hr; [apply N.ltb_lt in Hr; naive_solver lia|apply N.ltb_ge in Hr]);
    (destruct (build_pod_volumes_and_mounts p) as [[vs ms]|] eqn:Hv; cbn [or_panic fst snd]; [run_patch|naive_solver]);
    (split; [intros [= <- <-]; split_and!; try done; by exists c, vs, ms|]);
    intros (_&_&c'&vs'&ms'&[= <-]&[= <- <-]&->&->); done.
Qed.

End facts.

(** C14: the applier takes over nothing.  Whatever calls fail and however the apply
    ends, every object outside the four planned names, and every object of a planned
    name that does not carry the controller's managed-by label, is afterwards what it
    was before. *)
Theorem apply_respects_ownership fault serialize_error toml_from_str ssa_sa ssa_cm ssa_svc ssa_dep p s :
  framed ssa_sa ssa_cm ssa_svc ssa_dep p s
    (apply_runtime_plan fault serialize_error toml_from_str ssa_sa ssa_cm ssa_svc ssa_dep p s).2.
Proof. apply apply_framed. Qed.

(** ** Idempotence *)

Lemma managed_labels_managed p : managed_labels p !! LABEL_MANAGED_BY = Some "wicket-controller".
Proof. reflexivity. Qed.

Lemma ssa_managed {O} (meta : O → ObjectMeta) (ssa : option O → O → O) `{!ForcedApply meta ssa} old new name p ann :
  meta new = owned_object_meta name p ann → is_managed_by_controller (om_labels (meta (ssa old new))) = true.
Proof.
  intros Hm. unfold is_managed_by_controller.
  by rewrite (ssa_labels old new LABEL_MANAGED_BY "wicket-controller") by (by rewrite Hm).
Qed.

Section idempotence.
Context (fault : ApiCall → option string) (serialize_error : ObjectKind → option string).
Context (toml_from_str : string → result string Config).
Context (ssa_sa : option ServiceAccount → ServiceAccount → ServiceAccount) `{!ForcedApply sa_metadata ssa_sa}.
Context (ssa_cm : option ConfigMap → ConfigMap → ConfigMap) `{!ForcedApply cm_metadata ssa_cm}.
Context (ssa_svc : option K8sService → K8sService → K8sService) `{!ForcedApply ks_metadata ssa_svc}.
Context (ssa_dep : option Deployment → Deployment → Deployment) `{!ForcedApply dep_metadata ssa_dep}.
Notation apply := (apply_runtime_plan fault serialize_error toml_from_str ssa_sa ssa_cm ssa_svc ssa_dep).
Notation final := (applied_state ssa_sa ssa_cm ssa_svc ssa_dep).
Notation runs := (applicable fault serialize_error ssa_sa ssa_cm ssa_svc ssa_dep).

Lemma applied_applicable p s vs ms c : runs p s → runs p (final p s vs ms c).
Proof.
  intros ((?&_&?)&(?&Hcm&?)&(?&_&?)&(?&_&?)). split_and!; try done; intros obj; cbn.
  - rewrite lookup_insert_eq. intros [= <-]. by eapply ssa_managed.
  - destruct (grp_config_changed p); [|by apply Hcm]. rewrite lookup_insert_eq. intros [= <-]. by eapply ssa_managed.
  - rewrite lookup_insert_eq. intros [= <-]. by eapply ssa_managed.
  - rewrite lookup_insert_eq. intros [= <-]. by eapply ssa_managed.
Qed.

Lemma applied_fixed p s vs ms c : final p (final p s vs ms c) vs ms c = final p s vs ms c.
Proof.
  unfold applied_state. cbn. rewrite !lookup_insert_eq, !ssa_idempotent, !insert_insert_eq.
  f_equal. destruct (grp_config_changed p); [|done]. by rewrite lookup_insert_eq, ssa_idempotent, insert_insert_eq.
Qed.

Lemma apply_again p s res s' :
  apply p s = (Done res, s') →
  apply p s' = (Done (mkRuntimeApplyResult false (rar_config_result res) (grp_spec_changed p) (grp_spec_changed p) (grp_spec_changed p)), s').
Proof.
  rewrite apply_Done. intros (Ha&Hr&c&vs&ms&Ht&Hv&->&->). apply apply_Done.
  split; [by apply applied_applicable|]. split; [done|]. exists c, vs, ms. split_and!; [done..| |by rewrite applied_fixed].
  unfold applied_result. cbn. by rewrite !lookup_insert_eq.
Qed.

End idempotence.

(** An apply is idempotent.  When a plan has been applied, applying it again
    succeeds under the same answers of the API server, leaves the cluster as it is,
    and reports that nothing was created. *)
Theorem apply_idempotent fault serialize_error toml_from_str ssa_sa ssa_cm ssa_svc ssa_dep p s res s' :
  ForcedApply sa_metadata ssa_sa → ForcedApply cm_metadata ssa_cm → ForcedApply ks_metadata ssa_svc →
  ForcedApply dep_metadata ssa_dep →
  apply_runtime_plan fault serialize_error toml_from_str ssa_sa ssa_cm ssa_svc ssa_dep p s = (Done res, s') →
  apply_runtime_plan fault serialize_error toml_from_str ssa_sa ssa_cm ssa_svc ssa_dep p s' =
    (Done (mkRuntimeApplyResult false (rar_config_result res) (grp_spec_changed p) (grp_spec_changed p) (grp_spec_changed p)), s').
Proof. intros ????. by apply apply_again. Qed.

(** ** The pod template *)

(** The fields the spec revision covers, with the names of the owned objects. *)
Definition same_runtime (p p' : GatewayRuntimePlan) : Prop :=
  grp_gateway_namespace p = grp_gateway_namespace p' ∧ grp_gateway_name p = grp_gateway_name p' ∧
  grp_service_account_name p = grp_service_account_name p' ∧ grp_config_map_name p = grp_config_map_name p' ∧
  grp_spec_hash p = grp_spec_hash p' ∧ grp_runtime_metadata p = grp_runtime_metadata p' ∧
  grp_service_ports p = grp_service_ports p' ∧ grp_tls_secret_mounts p = grp_tls_secret_mounts p'.

(** A change of the configuration alone starts no rollout.  Two plans that differ
    only in their configuration, its hash, the listener intents and the change
    signals build the same volumes and the same deployment specification. *)
Theorem config_change_keeps_pod_template p p' replicas vs ms :
  same_runtime p p' →
  build_pod_volumes_and_mounts p = build_pod_volumes_and_mounts p' ∧
  dep_spec (desired_deployment p replicas vs ms) = dep_spec (desired_deployment p' replicas vs ms).
Proof.
  intros (H1&H2&H3&H4&H5&H6&H7&H8). unfold build_pod_volumes_and_mounts, desired_deployment, pod_template_labels, managed_labels.
  cbn [dep_spec]. by rewrite H1, H2, H3, H4, H5, H6, H7, H8.
Qed.

(** ** Volumes *)

Lemma tls_volumes_spec seen mounts l :
  tls_volumes seen mounts = Some l →
  NoDup ((vol_name ∘ fst) <$> l) ∧
  (∀ v, v ∈ l → vol_name v.1 = vm_name v.2 ∧ vol_name v.1 ∉ seen ∧ vm_read_only v.2 = Some true ∧
     ∃ m, m ∈ mounts ∧ tls_volume_name (tsm_secret_name m) = Some (vol_name v.1) ∧ v = secret_volume (vol_name v.1) m) ∧
  (∀ m, m ∈ mounts → ∃ n, tls_volume_name (tsm_secret_name m) = Some n ∧ (n ∈ seen ∨ n ∈ (vol_name ∘ fst) <$> l)).
Proof.
  revert seen l. induction mounts as [|m mounts IH]; intros seen l; cbn.
  { intros [= <-]. split_and!; [constructor|by intros ? ?%elem_of_nil..]. }
  destruct (tls_volume_name (tsm_secret_name m)) as [n|] eqn:Hn; [cbn|done]. case_bool_decide as Hin.
  - intros (Hnd&Hv&Hm)%IH. split_and!; [done|naive_solver set_solver|].
    intros m' [->|Hm']%elem_of_cons; [eauto|by apply Hm].
  - destruct (tls_volumes _ mounts) as [rest|] eqn:E; [cbn|done]. intros [= <-].
    destruct (IH _ _ E) as (Hnd&Hv&Hm). split_and!.
    + csimpl. constructor; [|done]. intros (v&He&Hv')%list_elem_of_fmap. apply Hv in Hv' as (_&Hs&_). cbn in He. set_solver.
    + intros v [->|Hv']%elem_of_cons; [cbn; split_and!; [done..|]; exists m; split_and!; [left|done|done]|].
      destruct (Hv v Hv') as (?&?&?&m'&?&?&?). split_and!; [done|set_solver|done|]. exists m'. split_and!; [by right|done|done].
    + intros m' [->|Hm']%elem_of_cons; [exists n; split; [done|]; right; csimpl; left|].
      destruct (Hm m' Hm') as (n'&Hn'&Hor). exists n'. split; [done|]. csimpl. set_solver.
Qed.

(** The pod's volumes.  Volume names are distinct, the container mounts exactly
    the pod's volumes, every planned secret has a volume of its (truncated) name, and
    every volume is the configuration map or one planned secret, mounted read-only at
    the path the plan gives it. *)
Theorem pod_volumes_spec p vs ms :
  build_pod_volumes_and_mounts p = Some (vs, ms) → 
  NoDup (vol_name <$> vs) ∧ vm_name <$> ms = vol_name <$> vs ∧
  (∀ m, m ∈ grp_tls_secret_mounts p → ∃ n, tls_volume_name (tsm_secret_name m) = Some n ∧ n ∈ vol_name <$> vs) ∧
  (∀ i v mt, vs !! i = Some v → ms !! i = Some mt →
     (v = mkVolume "config" (Some (grp_config_map_name p)) None ∧ mt = mkVolumeMount "config" "/etc/wicket" (Some true)) ∨
     ∃ m, m ∈ grp_tls_secret_mounts p ∧ (v, mt) = secret_volume (vol_name v) m).
Proof.
  unfold build_pod_volumes_and_mounts. destruct (tls_volumes _ _) as [l|] eqn:E; [cbn|done]. intros [= <- <-].
  destruct (tls_volumes_spec _ _ _ E) as (Hnd&Hv&Hm). csimpl. rewrite <- !list_fmap_compose. split_and!.
  - constructor; [|done]. intros (v&He&Hin)%list_elem_of_fmap. apply Hv in Hin as (_&Hs&_). cbn in He. set_solver.
  - f_equal. apply list_fmap_ext. intros i v Hi. apply list_elem_of_lookup_2 in Hi. cbn. by destruct (Hv v Hi) as [-> _].
  - intros m Hin. destruct (Hm m Hin) as (n&Hn&Hor). exists n. split; [done|]. apply elem_of_cons.
    destruct Hor as [->%elem_of_singleton|Hor]; [by left|by right].
  - intros [|i] v mt; [cbn; intros [= <-] [= <-]; by left|]. rewrite <- !lookup_tail. cbn [tail].
    intros ([v1 mt1]&->&Hi)%list_lookup_fmap_Some ([v2 mt2]&->&Hi2)%list_lookup_fmap_Some. right.
    rewrite Hi in Hi2. injection Hi2 as <- <-. apply list_elem_of_lookup_2 in Hi. destruct (Hv _ Hi) as (_&_&_&m&Hin&_&He). eauto.
Qed.

(** Two secrets whose names agree in their first 59 bytes get the same volume
    name, and the second is left out: of two such secrets of a plan at most one is
    mounted, although the configuration refers to both directories. *)
Theorem truncated_volume_not_mounted p vs ms m1 m2 n :
  build_pod_volumes_and_mounts p = Some (vs, ms) →
  (∀ m, m ∈ grp_tls_secret_mounts p → tsm_mount_path m = tls_mount_dir (tsm_secret_name m)) →
  tls_volume_name (tsm_secret_name m1) = Some n → tls_volume_name (tsm_secret_name m2) = Some n →
  tsm_secret_name m1 ≠ tsm_secret_name m2 →
  ¬ (tls_mount_dir (tsm_secret_name m1) ∈ vm_mount_path <$> ms ∧ tls_mount_dir (tsm_secret_name m2) ∈ vm_mount_path <$> ms).
Proof.
  unfold build_pod_volumes_and_mounts. destruct (tls_volumes _ _) as [l|] eqn:E; [cbn|done]. intros [= <- <-] Hwf Hn1 Hn2 Hne.
  destruct (tls_volumes_spec _ _ _ E) as (Hnd&Hv&_). csimpl. rewrite <- !list_fmap_compose.
  assert (∀ name, tls_mount_dir name ∈ "/etc/wicket" :: (vm_mount_path ∘ snd <$> l) → tls_volume_name name = Some n →
    ∃ v, v ∈ l ∧ (vol_name ∘ fst) v = n ∧ vm_mount_path v.2 = tls_mount_dir name) as Hfind.
  { intros name [He|(v&He&Hin)%list_elem_of_fmap]%elem_of_cons Hname; [done|]. exists v. split_and!; [done| |done].
    destruct (Hv v Hin) as (_&_&_&m&Hm&Hvn&Hsec). cbn in He. rewrite Hsec in He. cbn in He. rewrite (Hwf m Hm) in He.
    injection He as He. rewrite <- He, Hname in Hvn. by injection Hvn. }
  intros [(v1&Hin1&Hk1&Hp1)%Hfind (v2&Hin2&Hk2&Hp2)%Hfind]; [|done..].
  assert (v1 = v2) as ->.
  { apply list_elem_of_lookup in Hin1 as [i1 Hi1], Hin2 as [i2 Hi2].
    assert (i1 = i2) as ->; [|congruence].
    apply (NoDup_lookup _ _ _ n Hnd); apply list_lookup_fmap_Some; [exists v1|exists v2]; done. }
  rewrite Hp1 in Hp2. by injection Hp2.
Qed.

(** ** Examples *)

(** A forced apply on the modelled fields: the applied object, with the labels and
    annotations of the stored one under its own. *)
Definition merge_maps (old new : option (gmap string string)) : option (gmap string string) :=
  match old, new with
  | Some o, Some n => Some (n ∪ o)
  | Some o, None => Some o
  | None, n => n
  end.
Definition merge_meta (old new : ObjectMeta) : ObjectMeta :=
  mkObjectMeta (om_name new) (om_namespace new) (om_generation old) (om_uid old) (om_deletion_timestamp old)
    (merge_maps (om_labels old) (om_labels new)) (merge_maps (om_annotations old) (om_annotations new)) (om_owner_references new).
Definition merge_object {O} (meta : O → ObjectMeta) (set_meta : ObjectMeta → O → O) (old : option O) (new : O) : O :=
  match old with Some o => set_meta (merge_meta (meta o) (meta new)) new | None => new end.

Lemma merge_maps_new (old new : option (gmap string string)) k v :
  (new ≫= λ l, l !! k) = Some v → (merge_maps old new ≫= λ l, l !! k) = Some v.
Proof. destruct old, new; cbn; try done. intros H. by rewrite (lookup_union_Some_l _ _ _ _ H). Qed.

Lemma merge_maps_idemp (old new : option (gmap string string)) : merge_maps (merge_maps old new) new = merge_maps old new.
Proof.
  destruct old as [o|], new as [n|]; cbn; try done; f_equal; [|apply (idemp (∪))].
  rewrite (assoc_L (∪)). f_equal. apply (idemp (∪)).
Qed.

Section merge.
Context {O : Type} (meta : O → ObjectMeta) (set_meta : ObjectMeta → O → O).
Hypothesis meta_set : ∀ m o, meta (set_meta m o) = m.

Lemma merge_object_forced :
  (∀ new, set_meta (merge_meta (meta new) (meta new)) new = new) → ForcedApply meta (merge_object meta set_meta).
Proof.
  intros Hid. split.
  - intros [o|] new k v; cbn; [|done]. rewrite meta_set. apply merge_maps_new.
  - intros [o|] new k v; cbn; [|done]. rewrite meta_set. apply merge_maps_new.
  - intros [o|] new; cbn; [|apply Hid]. rewrite meta_set. f_equal. unfold merge_meta. cbn. by rewrite !merge_maps_idemp.
Qed.

End merge.

Lemma merge_meta_same m : merge_meta m m = m.
Proof.
  destruct m as [na ns ge ui de la an ow]. unfold merge_meta. cbn.
  assert (∀ x : option (gmap string string), merge_maps x x = x) as Hx; [|by rewrite !Hx].
  intros [x|]; cbn; [|done]. f_equal. apply (idemp (∪)).
Qed.

Definition ex_ssa_sa := merge_object sa_metadata (λ m _, mkServiceAccount m).
Definition ex_ssa_cm := merge_object cm_metadata (λ m o, mkConfigMap m (cm_data o)).
Definition ex_ssa_svc := merge_object ks_metadata (λ m o, mkK8sService m (ks_spec o) (ks_ingress o)).
Definition ex_ssa_dep := merge_object dep_metadata (λ m o, mkDeployment m (dep_spec o) (dep_status o)).

#[global] Instance ex_ssa_sa_forced : ForcedApply sa_metadata ex_ssa_sa.
Proof. apply merge_object_forced; [done|]. intros []. cbn. by rewrite merge_meta_same. Qed.
#[global] Instance ex_ssa_cm_forced : ForcedApply cm_metadata ex_ssa_cm.
Proof. apply merge_object_forced; [done|]. intros []. cbn. by rewrite merge_meta_same. Qed.
#[global] Instance ex_ssa_svc_forced : ForcedApply ks_metadata ex_ssa_svc.
Proof. apply merge_object_forced; [done|]. intros []. cbn. by rewrite merge_meta_same. Qed.
#[global] Instance ex_ssa_dep_forced : ForcedApply dep_metadata ex_ssa_dep.
Proof. apply merge_object_forced; [done|]. intros []. cbn. by rewrite merge_meta_same. Qed.

Definition no_fault (c : ApiCall) : option string := None.
Definition no_serialize_error (k : ObjectKind) : option string := None.
Definition ex_from_str (s : string) : result string Config := Ok Config_default.
Definition empty_cluster : ClusterState := mkClusterState ∅ ∅ ∅ ∅ Config_default.
Definition ex_apply := apply_runtime_plan no_fault no_serialize_error ex_from_str ex_ssa_sa ex_ssa_cm ex_ssa_svc ex_ssa_dep.

Definition ex_volumes : list Volume * list VolumeMount := unwrap_or ([], []) (build_pod_volumes_and_mounts ex_runtime_plan).
Definition ex_applied : ClusterState :=
  applied_state ex_ssa_sa ex_ssa_cm ex_ssa_svc ex_ssa_dep ex_runtime_plan empty_cluster ex_volumes.1 ex_volumes.2 Config_default.
Definition ex_apply_result : RuntimeApplyResult := applied_result ex_runtime_plan empty_cluster.

Lemma ex_apply_eq : ex_apply ex_runtime_plan empty_cluster = (Done ex_apply_result, ex_applied).
Proof.
  apply apply_Done. split; [split_and!; try done; intros obj; cbn; by rewrite lookup_empty|]. split; [done|].
  exists Config_default, ex_volumes.1, ex_volumes.2. split_and!; done.
Qed.

Lemma apply_idempotent_witness :
  rar_service_account_created ex_apply_result = true ∧
  ex_apply ex_runtime_plan ex_applied =
    (Done (mkRuntimeApplyResult false (rar_config_result ex_apply_result) true true true), ex_applied).
Proof.
  split; [reflexivity|].
  apply (apply_idempotent no_fault no_serialize_error ex_from_str ex_ssa_sa ex_ssa_cm ex_ssa_svc ex_ssa_dep
           ex_runtime_plan empty_cluster ex_apply_result); [apply _..|exact ex_apply_eq].
Defined.

Lemma config_change_keeps_pod_template_witness :
  dep_spec (desired_deployment ex_runtime_plan 1 [] []) =
  dep_spec (desired_deployment
    (plan_from ex_sha256 ex_plan_input ex_managed_gateway "uid-1" 7 "wicket-gw-edge" (sha256_hex ex_sha256 "{}") "other config") 1 [] []).
Proof. apply (config_change_keeps_pod_template ex_runtime_plan). split_and!; reflexivity. Defined.

Lemma pod_volumes_spec_witness : vol_name <$> ex_volumes.1 = ["config"; "tls-tls"] ∧ NoDup (vol_name <$> ex_volumes.1).
Proof.
  split; [vm_compute; reflexivity|].
  apply (pod_volumes_spec ex_runtime_plan ex_volumes.1 ex_volumes.2). vm_compute. reflexivity.
Defined.

(** A gateway that references the secrets [aaa…a1] and [aaa…a2] of 60 bytes. *)
Definition ex_long_prefix : string := Nat.iter 59 (String "a") "".
Definition ex_long_name (c : ascii) : string := ex_long_prefix +:+ String c "".
Definition ex_long_mount (c : ascii) : TlsSecretMount := mkTlsSecretMount (ex_long_name c) "infra" (tls_mount_dir (ex_long_name c)).
Definition ex_long_plan : GatewayRuntimePlan :=
  mkGatewayRuntimePlan "infra" "edge" "uid-1" 7 "wicket-gw-edge" "wicket-gw-edge-config" "wicket-gw-edge-deploy" "wicket-gw-edge-svc"
    "wicket-gw-edge-sa" "" "" "" (mkRuntimeMetadata "" 1 ∅ ∅) ClusterIP [] [ex_long_mount "1"; ex_long_mount "2"] [] true true.
Definition ex_long_volumes : list Volume * list VolumeMount := unwrap_or ([], []) (build_pod_volumes_and_mounts ex_long_plan).

Lemma truncated_volume_not_mounted_witness :
  length ex_long_volumes.1 = 2 ∧
  ¬ (tls_mount_dir (ex_long_name "1") ∈ vm_mount_path <$> ex_long_volumes.2 ∧
     tls_mount_dir (ex_long_name "2") ∈ vm_mount_path <$> ex_long_volumes.2).
Proof.
  split; [vm_compute; reflexivity|].
  apply (truncated_volume_not_mounted ex_long_plan ex_long_volumes.1 ex_long_volumes.2 (ex_long_mount "1") (ex_long_mount "2")
           ("tls-" +:+ ex_long_prefix)); try (vm_compute; reflexivity).
  - intros m Hm. cbn in Hm. repeat (apply elem_of_cons in Hm as [->|Hm]; [reflexivity|]). by apply elem_of_nil in Hm.
  - vm_compute. discriminate.
Defined.
