(* ===== verification/GatewayReconciler.v ===== *)
(** * The Gateway reconciler (reconcilers/gateway.rs)

    One reconcile of a Gateway: the class check, the managed runtime (observe, plan,
    apply), the status of the gateway and of its listeners, and the writes to the
    shared store.  The API server's answers are parameters: the answers to reads, the
    result of the status patch, and the environment of the applier.  A reconcile reads
    the clock once, as [now]. *)

From S2P Require Import Prelude Str Order Num Metrics Crds Store Attachment Config ConfigGen Status RuntimePlan RuntimeApplier.
From Stdlib Require Import Ascii.

Inductive GatewayError :=
| GatewayKubeError (e : string)
| GatewayClassNotFound (name : string)
| NotManagedByWicket (name : string)
| GatewayConfigError (e : string)
| RuntimeApplyError (e : string).

(** ** Status comparison *)

Definition set_lst_conditions (cs : list Condition) (l : ListenerStatus) : ListenerStatus :=
  mkListenerStatus (lst_name l) (lst_supported_kinds l) (lst_attached_routes l) cs.

Definition preserve_gateway_status_timestamps (new_status existing : GatewayStatus) : GatewayStatus :=
  mkGatewayStatus (gws_addresses new_status)
    (preserve_condition_timestamps (gws_conditions new_status) (gws_conditions existing))
    (preserve_group lst_name lst_conditions set_lst_conditions (gws_listeners existing) <$> gws_listeners new_status).

Definition listener_status_semantically_equal (x y : ListenerStatus) : bool :=
  String.eqb (lst_name x) (lst_name y)
  && bool_decide (lst_supported_kinds x = lst_supported_kinds y)
  && (lst_attached_routes x =? lst_attached_routes y)%Z
  && conditions_semantically_equal (lst_conditions x) (lst_conditions y).

Definition gateway_status_semantically_equal (a b : GatewayStatus) : bool :=
  if negb (bool_decide (gws_addresses a = gws_addresses b)) then false
  else if negb (conditions_semantically_equal (gws_conditions a) (gws_conditions b)) then false
  else if negb (length (gws_listeners a) =? length (gws_listeners b)) then false
  else forallb (λ '(x, y), listener_status_semantically_equal x y) (zip (gws_listeners a) (gws_listeners b)).

(** ** Watches: the gateways an event concerns *)

(** A reference to a gateway: namespace and name. *)
Definition sort_refs (l : list (string * string)) : list (string * string) := sort_by (pair_cmp str_cmp str_cmp) l.

Definition gateway_refs_from_parent_refs (route_namespace : string) (parent_refs : list ParentReference) : list (string * string) :=
  sort_refs (elements (foldl (λ (refs : gset (string * string)) p,
    let group_matches := is_empty_str (pr_group p) || String.eqb (pr_group p) "gateway.networking.k8s.io" in
    if negb group_matches || negb (String.eqb (pr_kind p) "Gateway") then refs
    else {[(unwrap_or route_namespace (pr_namespace p), pr_name p)]} ∪ refs) ∅ parent_refs)).

Definition gateway_refs_from_keys (keys : list (string * string)) : list (string * string) := sort_refs keys.

(** ** Addresses *)

Record NodeAddress := mkNodeAddress { na_type : string; na_address : string }.
Record Node := mkNode { node_addresses : option (list NodeAddress) }.

Definition node_address_of (ty : string) (addrs : list NodeAddress) : option string :=
  na_address <$> find_first (λ a, String.eqb (na_type a) ty) addrs.

Definition node_addresses_from_nodes (nodes : list Node) : list GatewayStatusAddress :=
  let addresses := foldl (λ (acc : gset string) n,
    match node_addresses n with
    | None => acc
    | Some addrs =>
        match node_address_of "ExternalIP" addrs with
        | Some a => {[a]} ∪ acc
        | None => match node_address_of "InternalIP" addrs with Some a => {[a]} ∪ acc | None => acc end
        end
    end) ∅ nodes in
  sort_by_key gsa_value str_cmp (mkGatewayStatusAddress IPAddress <$> elements addresses).

Definition ingress_addresses (i : LoadBalancerIngress) : list GatewayStatusAddress :=
  option_list (mkGatewayStatusAddress IPAddress <$> lbi_ip i) ++ option_list (mkGatewayStatusAddress Hostname <$> lbi_hostname i).

(** [service] and [nodes] are the API server's answers, [Err] a failed call. *)
Definition service_addresses (service : K8sService) (nodes : result string (list Node)) : list GatewayStatusAddress :=
  match ks_spec service with
  | None => []
  | Some spec =>
      if bool_decide (kss_type spec = Some "LoadBalancer") then
        let addresses := flat_map ingress_addresses (unwrap_or [] (ks_ingress service)) in
        let addresses := if is_empty addresses
                         then mkGatewayStatusAddress IPAddress <$> unwrap_or [] (kss_external_ips spec) else addresses in
        if is_empty addresses
        then match nodes with Ok items => node_addresses_from_nodes items | Err _ => addresses end
        else addresses
      else if bool_decide (kss_type spec = Some "NodePort") then []
      else if bool_decide (kss_type spec = Some "ClusterIP") then
        match kss_cluster_ip spec with
        | Some ip => if negb (String.eqb ip "None") then [mkGatewayStatusAddress IPAddress ip] else []
        | None => []
        end
      else []
  end.

Definition get_gateway_addresses (service : result string K8sService) (nodes : result string (list Node)) (g : Gateway)
    : list GatewayStatusAddress :=
  let addresses := match service with Ok s => service_addresses s nodes | Err _ => [] end in
  if is_empty addresses then (λ a, mkGatewayStatusAddress (ga_type a) (ga_value a)) <$> gs_addresses (gw_spec g) else addresses.

(** ** Observation *)

Record DeployObservation := mkDeployObservation {
  do_current_spec_hash : option string;
  do_ready_replicas : option N;
  do_deploy_observed_generation : option Z;
  do_deploy_generation : option Z;
  do_updated_replicas : option N;
  do_available_replicas : option N;
  do_desired_replicas : option N
}.

Definition DeployObservation_default : DeployObservation := mkDeployObservation None None None None None None None.

(** [u32::try_from] of an [i32]. *)
Definition u32_try_from (r : Z) : option N := if (r <? 0)%Z then None else Some (Z.to_N r).

Definition annotation (k : string) (annotations : option (gmap string string)) : option string := annotations ≫= λ a, a !! k.

Definition observe_deployment (d : Deployment) : DeployObservation :=
  let current_spec_hash :=
    match annotation SPEC_REVISION_ANNOTATION (om_annotations (dep_metadata d)) with
    | Some h => Some h
    | None => dep_spec d ≫= λ s, annotation SPEC_REVISION_ANNOTATION (pt_annotations (ds_template s))
    end in
  let status := dep_status d in
  mkDeployObservation current_spec_hash
    ((status ≫= dst_ready_replicas) ≫= u32_try_from)
    (status ≫= dst_observed_generation)
    (om_generation (dep_metadata d))
    ((status ≫= dst_updated_replicas) ≫= u32_try_from)
    ((status ≫= dst_available_replicas) ≫= u32_try_from)
    ((λ s, unwrap_or 1%N (ds_replicas s ≫= u32_try_from)) <$> dep_spec d).

Inductive ManagedRuntimeError :=
| MRStoreNotReady (observed : ObservedRuntimeState)
| MRPlan (e : string)
| MRApply (e : string)
| MRObservationError (e : string).

Definition PlanError_fmt (e : PlanError) : string :=
  match e with
  | MissingField f => "missing required field: " +:+ f
  | InvalidInput r => "invalid input: " +:+ r
  | StoreNotReady => "store not ready"
  | ReferenceNotPermitted fns fk tns tn =>
      "cross-namespace reference not permitted: from " +:+ fns +:+ "/" +:+ fk +:+ " to " +:+ tns +:+ "/" +:+ tn
  end.

Definition ApplyError_fmt (e : ApplyError) : string :=
  match e with
  | KubeApi e => "kubernetes API error: " +:+ e
  | Filesystem e => "filesystem error: " +:+ e
  | Serialization e => "serialization error: " +:+ e
  | NotOwned ns name => "object " +:+ ns +:+ "/" +:+ name +:+ " exists but is not managed by wicket-controller"
  end.

Definition ManagedRuntimeError_fmt (e : ManagedRuntimeError) : string :=
  match e with
  | MRStoreNotReady _ => "store not ready for managed-runtime planning"
  | MRPlan e => "planning failed: " +:+ e
  | MRApply e => "apply failed: " +:+ e
  | MRObservationError e => "observation failed: " +:+ e
  end.

(** ** Conditions *)

Inductive ManagedRuntimeInput :=
| Applied (observed : ObservedRuntimeState) (apply_result : RuntimeApplyResult) (snapshot : SnapshotResult PlannerSnapshot)
| MISNotReady (observed : ObservedRuntimeState)
| ObservationFault (msg : string).

Record ManagedStatusOutcome := mkManagedStatusOutcome {
  mso_programmed : bool;
  mso_only_store_not_ready : bool;
  mso_observation_fault : option string;
  mso_observed_generation : option Z
}.

Definition resolve_managed_status_outcome (input : ManagedRuntimeInput) (store_ready : bool) (gateway_generation : option Z)
    : ManagedStatusOutcome :=
  match input with
  | Applied observed apply_result _ =>
      let apply_mutated := rar_rollout_triggered apply_result || rar_deployment_changed apply_result in
      let programmed := if apply_mutated then false else is_rollout_converged observed in
      let only_store_not_ready := negb apply_mutated && negb programmed && negb store_ready in
      mkManagedStatusOutcome programmed only_store_not_ready None gateway_generation
  | ObservationFault fault_msg => mkManagedStatusOutcome false false (Some fault_msg) gateway_generation
  | MISNotReady observed =>
      let programmed := is_rollout_converged observed in
      mkManagedStatusOutcome programmed (negb programmed && negb store_ready) None gateway_generation
  end.

Definition build_gateway_conditions (now : string) (programmed : bool) (observation_fault : option string)
    (only_store_not_ready : bool) (observed_generation : option Z) : list Condition :=
  let wog := with_observed_generation observed_generation in
  if programmed then [wog (Condition_accepted now); wog (Condition_programmed now)]
  else match observation_fault with
       | Some fault => [wog (Condition_accepted now); wog (Condition_not_programmed_observation_fault now fault)]
       | None =>
           if only_store_not_ready then [wog (Condition_accepted now); wog (Condition_not_programmed_warming_up now)]
           else [wog (Condition_accepted now); wog (Condition_not_programmed now)]
       end.

Definition is_alnum (c : ascii) : bool :=
  let n := N_of_ascii c in ((97 <=? n) && (n <=? 122) || (48 <=? n) && (n <=? 57))%N.

Fixpoint string_forallb (p : ascii → bool) (s : string) : bool :=
  match s with EmptyString => true | String c s' => p c && string_forallb p s' end.

(** The bytes [bytes[0]] and [bytes[len - 1]] of a non-empty label. *)
Definition first_last (p : ascii → bool) (s : string) : bool :=
  match s with
  | EmptyString => false
  | String c _ => p c && match String.get (String.length s - 1) s with Some l => p l | None => false end
  end.

Definition valid_label (label : string) : bool :=
  if is_empty_str label || (63 <? String.length label) then false
  else first_last is_alnum label && string_forallb (λ c, is_alnum c || Ascii.eqb c "-") label.

Definition is_valid_k8s_dns_subdomain (name : string) : bool :=
  if is_empty_str name || (253 <? String.length name) then false
  else forallb valid_label (split_labels name).

Definition listener_certificate_refs_invalid (l : Listener) (g : Gateway) (snapshot : PlannerSnapshot) : bool :=
  match li_tls l with
  | None => false
  | Some tls =>
      let gateway_namespace := unwrap_or "" (om_namespace (gw_metadata g)) in
      existsb (λ c, negb (is_empty_str (so_group c))
                    || negb (String.eqb (so_kind c) "Secret")
                    || negb (is_valid_k8s_dns_subdomain (so_name c))
                    || is_none (tls_secret snapshot (unwrap_or gateway_namespace (so_namespace c)) (so_name c)))
        (gt_certificate_refs tls)
  end.

Definition listener_status_intents_with_attachment_with_tls_validation (g : Gateway) (attachment_plan : option AttachmentPlan)
    (tls_snapshot : option PlannerSnapshot) : list ListenerStatusIntent :=
  let intents := listener_status_intents_with_attachment g attachment_plan in
  match tls_snapshot with
  | None => intents
  | Some snapshot =>
      (λ '(l, i),
         if lsi_resolved_refs i && listener_certificate_refs_invalid l g snapshot then
           mkListenerStatusIntent (lsi_name i) (lsi_attached_routes i) (lsi_supported_kinds i) (lsi_accepted i)
             (lsi_rejection_reason i) false (Some "InvalidCertificateRef")
         else i) <$> zip (gw_listeners g) intents
  end.

Definition listener_resolved_refs_condition (now : string) (resolved_refs : bool) (reason : option string) : Condition :=
  if resolved_refs then Condition_resolved_refs now
  else Condition_new now "ResolvedRefs" false (unwrap_or "InvalidRouteKinds" reason) "Listener references are invalid".

(** [i32::try_from(n).unwrap_or(i32::MAX)]. *)
Definition i32_saturate (n : N) : Z := Z.of_N (N.min n i32_max).

Definition listener_status_of (now : string) (outcome : ManagedStatusOutcome) (i : ListenerStatusIntent) : ListenerStatus :=
  let wog := with_observed_generation (mso_observed_generation outcome) in
  let resolved_refs_condition := wog (listener_resolved_refs_condition now (lsi_resolved_refs i) (lsi_resolved_refs_reason i)) in
  let accepted := if lsi_accepted i then wog (Condition_accepted now) else wog (Condition_not_accepted now) in
  let programmed :=
    match mso_observation_fault outcome with
    | Some fault => wog (Condition_not_programmed_observation_fault now fault)
    | None =>
        if mso_programmed outcome && lsi_accepted i then wog (Condition_programmed now)
        else wog (if mso_only_store_not_ready outcome then Condition_not_programmed_warming_up now else Condition_not_programmed now)
    end in
  mkListenerStatus (lsi_name i) (lsi_supported_kinds i) (i32_saturate (lsi_attached_routes i))
    [accepted; programmed; resolved_refs_condition].

Definition build_managed_runtime_status (now : string) (g : Gateway) (namespace name : string) (input : ManagedRuntimeInput)
    : list ListenerStatus * bool * bool * option string :=
  let gateway_generation := om_generation (gw_metadata g) in
  let snapshot_result := match input with Applied _ _ snap => snap | _ => NotReady end in
  let store_ready := SnapshotResult_is_ready snapshot_result in
  let outcome := resolve_managed_status_outcome input store_ready gateway_generation in
  let tls_snapshot := into_option snapshot_result in
  let attachment_plan_opt :=
    tls_snapshot ≫= λ snapshot,
    ok (plan (mkAttachmentPlanInput namespace name (unwrap_or 0%Z gateway_generation) snapshot)) in
  let intents := listener_status_intents_with_attachment_with_tls_validation g attachment_plan_opt tls_snapshot in
  (listener_status_of now outcome <$> intents, mso_programmed outcome, mso_only_store_not_ready outcome,
   mso_observation_fault outcome).

(** ** The reconcile *)

Inductive Action := AwaitChange | Requeue (secs : N).

(** The answers of the API server during one reconcile. *)
Record GatewayApi := mkGatewayApi {
  ga_gateway_class : string → result string GatewayClass;
  ga_observe_fault : ObjectKind → option string;
  ga_owned_service : result string K8sService;
  ga_nodes : result string (list Node);
  ga_patch_status : Gateway → GatewayStatus → result string Gateway;
  ga_list : option (list Gateway)
}.

(** What a reconcile reads and writes: the cluster's owned objects, the shared store,
    the status patches sent (latest first) and the metrics. *)
Record ReconcileState := mkReconcileState {
  rs_cluster : ClusterState;
  rs_store : SharedStore;
  rs_status_patches : list GatewayStatus;
  rs_metrics : Metrics
}.

Definition set_store (f : SharedStore → SharedStore) (s : ReconcileState) : ReconcileState :=
  mkReconcileState (rs_cluster s) (f (rs_store s)) (rs_status_patches s) (rs_metrics s).
Definition set_cluster (c : ClusterState) (s : ReconcileState) : ReconcileState :=
  mkReconcileState c (rs_store s) (rs_status_patches s) (rs_metrics s).
Definition push_patch (st : GatewayStatus) (s : ReconcileState) : ReconcileState :=
  mkReconcileState (rs_cluster s) (rs_store s) (st :: rs_status_patches s) (rs_metrics s).
Definition set_gauges (namespace name : string) (programmed : bool) (listeners : list ListenerStatus) (s : ReconcileState)
    : ReconcileState :=
  mkReconcileState (rs_cluster s) (rs_store s) (rs_status_patches s)
    (foldl (λ m l, metric_set ["wicket_gateway_listener_attached_routes"; namespace; name; lst_name l] (lst_attached_routes l) m)
       (metric_set ["wicket_gateway_programmed"; namespace; name] (if programmed then 1 else 0) (rs_metrics s)) listeners).
Definition set_metrics (f : Metrics → Metrics) (s : ReconcileState) : ReconcileState :=
  mkReconcileState (rs_cluster s) (rs_store s) (rs_status_patches s) (f (rs_metrics s)).

(** A gauge per namespace and class, from a fresh list. *)
Definition update_gateway_metrics (listed : option (list Gateway)) (m : Metrics) : Metrics :=
  match listed with
  | Some items =>
      set_counts (λ '(ns, class), ["wicket_gateways"; ns; class])
        (count_by ((λ g, (unwrap_or "" (om_namespace (gw_metadata g)), gs_gateway_class_name (gw_spec g))) <$> items)) m
  | None => m
  end.

Section reconcile.
Context (sha256 : string → list N) (json_to_string : Value → result string string).
Context (toml_to_string_pretty : Config → result string string) (toml_from_str : string → result string Config).
Context (fault : ApiCall → option string) (serialize_error : ObjectKind → option string).
Context (ssa_sa : option ServiceAccount → ServiceAccount → ServiceAccount).
Context (ssa_cm : option ConfigMap → ConfigMap → ConfigMap).
Context (ssa_svc : option K8sService → K8sService → K8sService).
Context (ssa_dep : option Deployment → Deployment → Deployment).
Context (controller_config : ControllerConfig).

Definition observe_runtime_state (api : GatewayApi) (g : Gateway) (namespace : string) (cl : ClusterState)
    : exec ManagedRuntimeError ObservedRuntimeState :=
  or_panic (owned_object_base_name sha256 (name_or_empty (gw_metadata g))) ≫= λ base,
  let cm_name := config_map_name base in
  let deploy_name := deployment_name base in
  match ga_observe_fault api KConfigMap with
  | Some e => Failed (MRObservationError ("ConfigMap " +:+ namespace +:+ "/" +:+ cm_name +:+ ": " +:+ e))
  | None =>
      let current_config_hash :=
        cs_config_maps cl !! (namespace, cm_name) ≫= λ cm, annotation CONFIG_REVISION_ANNOTATION (om_annotations (cm_metadata cm)) in
      match ga_observe_fault api KDeployment with
      | Some e => Failed (MRObservationError ("Deployment " +:+ namespace +:+ "/" +:+ deploy_name +:+ ": " +:+ e))
      | None =>
          let obs := match cs_deployments cl !! (namespace, deploy_name) with
                     | Some d => observe_deployment d
                     | None => DeployObservation_default
                     end in
          Done (mkObservedRuntimeState current_config_hash (do_current_spec_hash obs) (do_ready_replicas obs)
                  (do_deploy_observed_generation obs) (do_deploy_generation obs) (do_updated_replicas obs)
                  (do_available_replicas obs) (do_desired_replicas obs))
      end
  end.

Definition reconcile_managed_runtime (api : GatewayApi) (g : Gateway) (store : SharedStore) (namespace name : string)
    (cl : ClusterState)
    : exec ManagedRuntimeError (ObservedRuntimeState * RuntimeApplyResult * SnapshotResult PlannerSnapshot) * ClusterState :=
  match observe_runtime_state api g namespace cl with
  | Panicked => (Panicked, cl)
  | Failed e => (Failed e, cl)
  | Done observed =>
      match planner_snapshot store with
      | NotReady => (Failed (MRStoreNotReady observed), cl)
      | SnapReady snapshot =>
          match GatewayRuntimePlanner_plan sha256 json_to_string toml_to_string_pretty
                  (mkRuntimePlanInput namespace name snapshot controller_config observed) with
          | Panicked => (Panicked, cl)
          | Failed e => (Failed (MRPlan (PlanError_fmt e)), cl)
          | Done p =>
              match apply_runtime_plan fault serialize_error toml_from_str ssa_sa ssa_cm ssa_svc ssa_dep p cl with
              | (Panicked, cl') => (Panicked, cl')
              | (Failed e, cl') => (Failed (MRApply (ApplyError_fmt e)), cl')
              | (Done res, cl') => (Done (observed, res, SnapReady snapshot), cl')
              end
          end
      end
  end.

(** The desired status, before and after the preservation of time stamps. *)
Definition desired_status (now : string) (api : GatewayApi) (g : Gateway) (namespace name : string) (input : ManagedRuntimeInput)
    : GatewayStatus :=
  let '(listener_statuses, programmed, only_store_not_ready, observation_fault) :=
    build_managed_runtime_status now g namespace name input in
  mkGatewayStatus (get_gateway_addresses (ga_owned_service api) (ga_nodes api) g)
    (build_gateway_conditions now programmed observation_fault only_store_not_ready (om_generation (gw_metadata g)))
    listener_statuses.

Definition final_status (g : Gateway) (status : GatewayStatus) : GatewayStatus :=
  match gw_status g with Some existing => preserve_gateway_status_timestamps status existing | None => status end.

Definition needs_patch (g : Gateway) (status : GatewayStatus) : bool :=
  match gw_status g with Some existing => negb (gateway_status_semantically_equal existing status) | None => true end.

(** From the outcome of the managed runtime on: status, patch, gauges, store. *)
Definition finish_gateway (now : string) (api : GatewayApi) (g : Gateway) (namespace name : string)
    (input : ManagedRuntimeInput) (deferred_observation_error : option GatewayError) (s : ReconcileState)
    : exec GatewayError Action * ReconcileState :=
  let '(listener_statuses, programmed, _, _) := build_managed_runtime_status now g namespace name input in
  let status := final_status g (desired_status now api g namespace name input) in
  let patched :=
    if needs_patch g status
    then match ga_patch_status api g status with
         | Ok g' => Done (g', push_patch status s)
         | Err e => Failed (GatewayKubeError e)
         end
    else Done (g, s) in
  match patched with
  | Panicked => (Panicked, s)
  | Failed e => (Failed e, s)
  | Done (g', s') =>
      match deferred_observation_error with
      | Some e => (Failed e, s')
      | None =>
          let s' := set_gauges namespace name programmed listener_statuses s' in
          let s' := set_metrics (ReconcileMetrics_record_success "Gateway") s' in
          let s' := set_store (upsert_gateway (key namespace name) g') s' in
          let s' := set_metrics (update_gateway_metrics (ga_list api)) s' in
          (Done (Requeue (if programmed then 300 else 5)%N), s')
      end
  end.

Definition reconcile_gateway (now : string) (api : GatewayApi) (g : Gateway) (s : ReconcileState)
    : exec GatewayError Action * ReconcileState :=
  let namespace := unwrap_or "" (om_namespace (gw_metadata g)) in
  let name := name_or_empty (gw_metadata g) in
  let class_name := gs_gateway_class_name (gw_spec g) in
  if is_some (om_deletion_timestamp (gw_metadata g)) then
    (Done AwaitChange, set_store (remove_gateway (key namespace name)) s)
  else
    match match get_gateway_class (rs_store s) class_name with
          | Some gc => Ok gc
          | None => map_err (λ _, GatewayClassNotFound class_name) (ga_gateway_class api class_name)
          end with
    | Err e => (Failed e, s)
    | Ok gc =>
        if negb (is_wicket_managed gc) then (Done AwaitChange, set_metrics (ReconcileMetrics_record_success "Gateway") s)
        else
          let s := set_store (upsert_gateway (key namespace name) g) s in
          let '(outcome, cl') := reconcile_managed_runtime api g (rs_store s) namespace name (rs_cluster s) in
          let s := set_cluster cl' s in
          match outcome with
          | Panicked => (Panicked, s)
          | Done (observed, apply_result, snapshot_result) =>
              finish_gateway now api g namespace name (Applied observed apply_result snapshot_result) None s
          | Failed (MRStoreNotReady observed) => finish_gateway now api g namespace name (MISNotReady observed) None s
          | Failed (MRObservationError msg) =>
              finish_gateway now api g namespace name (ObservationFault msg) (Some (RuntimeApplyError msg)) s
          | Failed e => (Failed (RuntimeApplyError (ManagedRuntimeError_fmt e)), s)
          end
    end.

Definition error_policy_gateway (e : GatewayError) (m : Metrics) : Action * Metrics := (Requeue 5, count_reconcile_error "Gateway" m).

End reconcile.

(** ** The controller's initial list *)

(** One pass of the retry loop: [None] when the list failed or timed out. *)
Definition list_gateways (listed : option (list Gateway)) (s : SharedStore) : option SharedStore :=
  match listed with
  | None => None
  | Some items =>
      Some (mark_listed Gateways (foldl (λ s g,
        upsert_gateway (key (unwrap_or "" (om_namespace (gw_metadata g))) (name_or_empty (gw_metadata g))) g s) s items))
  end.

(** Seconds to sleep after the [attempt]-th failure; [attempt] is a [u32]. *)
Definition list_backoff (attempt : N) : N := N.min (attempt * 2) 30.

(** ** Equality of statuses up to time stamps *)

Notation listener_sim := (group_sim lst_name lst_conditions set_lst_conditions).

Record status_sim (a b : GatewayStatus) : Prop := {
  ss_addresses : gws_addresses a = gws_addresses b;
  ss_conditions : conds_sim (gws_conditions a) (gws_conditions b);
  ss_listeners : Forall2 listener_sim (gws_listeners a) (gws_listeners b)
}.

#[global] Instance listener_sim_equiv : Equivalence listener_sim.
Proof. apply group_sim_equiv. Qed.

#[global] Instance status_sim_equiv : Equivalence status_sim.
Proof.
  split.
  - intros a. split; reflexivity.
  - intros a b [H1 H2 H3]. split; by symmetry.
  - intros a b c [H1 H2 H3] [H4 H5 H6]. split; by etransitivity.
Qed.

Lemma listener_status_semantically_equal_true x y : listener_status_semantically_equal x y = true ↔ listener_sim x y.
Proof.
  unfold listener_status_semantically_equal, group_sim, set_lst_conditions.
  rewrite !andb_true_iff, String.eqb_eq, bool_decide_eq_true, Z.eqb_eq, conditions_semantically_equal_true. split.
  - intros [[[-> ->] ->] H]. done.
  - intros (?&[=]&?). done.
Qed.

Lemma gateway_status_semantically_equal_true a b : gateway_status_semantically_equal a b = true ↔ status_sim a b.
Proof.
  unfold gateway_status_semantically_equal.
  destruct (bool_decide (gws_addresses a = gws_addresses b)) eqn:E1; cbn [negb];
    [apply bool_decide_eq_true in E1|apply bool_decide_eq_false in E1; split; [done|by intros []]].
  destruct (conditions_semantically_equal _ _) eqn:E2; cbn [negb].
  2:{ split; [done|]. intros [_ H _]. apply conditions_semantically_equal_true in H. congruence. }
  apply conditions_semantically_equal_true in E2.
  rewrite (zip_forallb_Forall2 _ listener_sim) by apply listener_status_semantically_equal_true.
  split; [by split|by intros []].
Qed.

Lemma preserve_status_sim new existing : status_sim (preserve_gateway_status_timestamps new existing) new.
Proof.
  split; cbn; [done|apply preserve_conditions_sim|]. induction (gws_listeners new); cbn; constructor; [|done].
  apply preserve_group_sim; done.
Qed.

Lemma final_status_sim g st : status_sim (final_status g st) st.
Proof. unfold final_status. destruct (gw_status g); [apply preserve_status_sim|reflexivity]. Qed.

(** ** Statuses computed at different times *)

Lemma build_gateway_conditions_sim now now' p f o gen :
  conds_sim (build_gateway_conditions now p f o gen) (build_gateway_conditions now' p f o gen).
Proof. unfold build_gateway_conditions. repeat case_match; repeat constructor. Qed.

Lemma listener_resolved_refs_condition_sim now now' b r :
  cond_sim (listener_resolved_refs_condition now b r) (listener_resolved_refs_condition now' b r).
Proof. unfold listener_resolved_refs_condition. by case_match. Qed.

Lemma with_generation_sim gen x y : cond_sim x y → cond_sim (with_observed_generation gen x) (with_observed_generation gen y).
Proof. destruct x, y. unfold cond_sim, with_last_transition_time, with_observed_generation. cbn. by intros [= -> -> -> -> ->]. Qed.

Lemma listener_status_of_sim now now' o i : listener_sim (listener_status_of now o i) (listener_status_of now' o i).
Proof.
  split; [done|]. split; [done|]. cbn. repeat constructor; try apply with_generation_sim, listener_resolved_refs_condition_sim;
    repeat case_match; done.
Qed.

Lemma desired_status_sim now now' api g ns name input :
  status_sim (desired_status now api g ns name input) (desired_status now' api g ns name input).
Proof.
  unfold desired_status, build_managed_runtime_status. split; cbn; [done|apply build_gateway_conditions_sim|].
  apply Forall2_fmap_2, Forall_Forall2_diag, Forall_forall. intros i _. apply listener_status_of_sim.
Qed.

(** The desired status looks at the gateway's metadata and specification only. *)
Lemma desired_status_ext now api g g' ns name input :
  gw_spec g' = gw_spec g → gw_metadata g' = gw_metadata g →
  desired_status now api g' ns name input = desired_status now api g ns name input.
Proof.
  intros Hs Hm. destruct g as [m sp st], g' as [m' sp' st']. cbn in *. subst. reflexivity.
Qed.

Lemma conditions_types now p f o gen : cond_type <$> build_gateway_conditions now p f o gen = ["Accepted"; "Programmed"].
Proof. unfold build_gateway_conditions. by repeat case_match. Qed.

Lemma listener_types now o i : cond_type <$> lst_conditions (listener_status_of now o i) = ["Accepted"; "Programmed"; "ResolvedRefs"].
Proof.
  unfold listener_status_of, listener_resolved_refs_condition. cbn. by repeat case_match.
Qed.

Lemma intents_names g ap snap :
  lsi_name <$> listener_status_intents_with_attachment_with_tls_validation g ap snap = li_name <$> gw_listeners g.
Proof.
  assert (lsi_name <$> listener_status_intents_with_attachment g ap = li_name <$> gw_listeners g) as Hn.
  { destruct ap as [ap|]; cbn; unfold listener_status_intents; rewrite <- !list_fmap_compose; apply list_fmap_ext; intros _ l _; cbn.
    - unfold attach_intent. rewrite <- listener_status_intent_name. by case_match.
    - apply listener_status_intent_name. }
  unfold listener_status_intents_with_attachment_with_tls_validation. destruct snap as [snap|]; [|done].
  revert Hn. generalize (listener_status_intents_with_attachment g ap). intros ints Hn.
  transitivity (lsi_name <$> (zip (gw_listeners g) ints).*2).
  - rewrite <- !list_fmap_compose. apply list_fmap_ext. intros _ [l i] _. cbn. by case_match.
  - rewrite snd_zip; [done|]. apply (f_equal length) in Hn. rewrite !length_fmap in Hn. lia.
Qed.

Lemma desired_listener_names now api g ns name input :
  lst_name <$> gws_listeners (desired_status now api g ns name input) = li_name <$> gw_listeners g.
Proof.
  unfold desired_status, build_managed_runtime_status. cbn. rewrite <- list_fmap_compose.
  etransitivity; [|apply intents_names]. by apply list_fmap_ext.
Qed.

Lemma desired_listener_conditions now api g ns name input l :
  l ∈ gws_listeners (desired_status now api g ns name input) → NoDup (cond_type <$> lst_conditions l).
Proof.
  unfold desired_status, build_managed_runtime_status. cbn. intros (i&->&_)%list_elem_of_fmap. rewrite listener_types.
  by apply (bool_decide_unpack _).
Qed.

(** ** Quiescence *)

Lemma conds_sim_types a b : conds_sim a b → cond_type <$> a = cond_type <$> b.
Proof. induction 1 as [|x y a b Hx H IH]; csimpl; [done|]. by rewrite IH, (cond_sim_type _ _ Hx). Qed.

Lemma status_exact a b :
  status_sim a b → NoDup (cond_type <$> gws_conditions b) → NoDup (lst_name <$> gws_listeners b) →
  (∀ l, l ∈ gws_listeners b → NoDup (cond_type <$> lst_conditions l)) → preserve_gateway_status_timestamps a b = b.
Proof.
  intros [H1 H2 H3] Hc Hn Hl. destruct b as [addrs conds ls]. unfold preserve_gateway_status_timestamps. cbn in *.
  rewrite H1, preserve_conditions_exact by done. f_equal.
  by apply (preserve_groups_exact lst_name lst_conditions set_lst_conditions); try done; intros [].
Qed.

(** A status whose conditions and listeners can be told apart by type and name. *)
Lemma sim_distinct a b :
  status_sim a b → NoDup (cond_type <$> gws_conditions b) → NoDup (lst_name <$> gws_listeners b) →
  (∀ l, l ∈ gws_listeners b → NoDup (cond_type <$> lst_conditions l)) →
  NoDup (cond_type <$> gws_conditions a) ∧ NoDup (lst_name <$> gws_listeners a) ∧
  (∀ l, l ∈ gws_listeners a → NoDup (cond_type <$> lst_conditions l)).
Proof.
  intros [_ H2 H3] Hc Hn Hl. split_and!.
  - by rewrite (conds_sim_types _ _ H2).
  - assert (lst_name <$> gws_listeners a = lst_name <$> gws_listeners b) as ->; [|done].
    clear Hn Hl. induction H3 as [|x y la lb (Hx&_) H3 IH]; csimpl; [done|]. by rewrite IH, Hx.
  - intros l Hin. apply list_elem_of_lookup in Hin as [i Hi]. destruct (Forall2_lookup_l _ _ _ _ _ H3 Hi) as (y&Hy&_&_&Hs).
    rewrite (conds_sim_types _ _ Hs). apply Hl. by eapply list_elem_of_lookup_2.
Qed.

(** Status updates come to rest.  Once the status a reconcile computed is the
    gateway's status, a later reconcile with the same outcome of the managed runtime
    sends no patch, whatever the time; and when no two listeners share a name the
    status it computes is the stored one to the last byte, time stamps included. *)
Theorem gateway_status_settles now now' api g g' ns name input :
  let st := final_status g (desired_status now api g ns name input) in
  gw_spec g' = gw_spec g → gw_metadata g' = gw_metadata g → gw_status g' = Some st →
  let st' := final_status g' (desired_status now' api g' ns name input) in
  needs_patch g' st' = false ∧ (NoDup (li_name <$> gw_listeners g) → st' = st).
Proof.
  intros st Hs Hm Hst st'.
  assert (status_sim (desired_status now' api g' ns name input) st) as Hsim.
  { rewrite (desired_status_ext _ _ g) by done. unfold st. rewrite final_status_sim. apply desired_status_sim. }
  split.
  - unfold needs_patch, st'. rewrite Hst. apply negb_false_iff, gateway_status_semantically_equal_true.
    rewrite final_status_sim. by symmetry.
  - intros Hnd. unfold st', final_status. rewrite Hst.
    destruct (sim_distinct st (desired_status now api g ns name input)) as (?&?&?).
    + apply final_status_sim.
    + unfold desired_status. cbn. rewrite conditions_types. by apply (bool_decide_unpack _).
    + by rewrite desired_listener_names.
    + apply desired_listener_conditions.
    + by apply status_exact.
Qed.

(** ** Well-formed statuses *)

(** A condition reports on generation [gen] and is true or false. *)
Definition condition_ok (gen : option Z) (c : Condition) : Prop :=
  cond_observed_generation c = gen ∧ (cond_status c = "True" ∨ cond_status c = "False").

Record status_ok (g : Gateway) (st : GatewayStatus) : Prop := {
  so_types : cond_type <$> gws_conditions st = ["Accepted"; "Programmed"];
  so_conditions : Forall (condition_ok (om_generation (gw_metadata g))) (gws_conditions st);
  so_names : lst_name <$> gws_listeners st = li_name <$> gw_listeners g;
  so_listeners : ∀ l, l ∈ gws_listeners st →
    cond_type <$> lst_conditions l = ["Accepted"; "Programmed"; "ResolvedRefs"] ∧
    Forall (condition_ok (om_generation (gw_metadata g))) (lst_conditions l) ∧
    (0 ≤ lst_attached_routes l ≤ Z.of_N i32_max)%Z
}.

Lemma condition_ok_sim gen x y : cond_sim x y → condition_ok gen y → condition_ok gen x.
Proof. destruct x, y. unfold cond_sim, condition_ok, with_last_transition_time. cbn. by intros [= -> -> -> -> ->]. Qed.

Lemma conditions_ok_sim gen a b : conds_sim a b → Forall (condition_ok gen) b → Forall (condition_ok gen) a.
Proof. induction 1; intros Hf; [done|]. inv Hf. constructor; [by eapply condition_ok_sim|auto]. Qed.

Lemma status_ok_sim g a b : status_sim a b → status_ok g b → status_ok g a.
Proof.
  intros [H1 H2 H3] [H4 H5 H6 H7]. split.
  - by rewrite (conds_sim_types _ _ H2).
  - by eapply conditions_ok_sim.
  - rewrite <- H6. clear H6 H7. induction H3 as [|x y la lb (Hx&_) H3 IH]; csimpl; [done|]. by rewrite IH, Hx.
  - intros l Hin. apply list_elem_of_lookup in Hin as [i Hi]. destruct (Forall2_lookup_l _ _ _ _ _ H3 Hi) as (y&Hy&_&Hset&Hs).
    apply list_elem_of_lookup_2 in Hy. destruct (H7 y Hy) as (Ht&Hc&Hr).
    split_and!; [by rewrite (conds_sim_types _ _ Hs)|by eapply conditions_ok_sim| |]; unfold set_lst_conditions in Hset;
      injection Hset as _ _ ->; lia.
Qed.

Lemma condition_new_ok gen now t b r m : condition_ok gen (with_observed_generation gen (Condition_new now t b r m)).
Proof. split; [done|]. cbn. destruct b; auto. Qed.

Lemma outcome_generation input b gen : mso_observed_generation (resolve_managed_status_outcome input b gen) = gen.
Proof. by destruct input. Qed.

Lemma listener_status_ok now o i : Forall (condition_ok (mso_observed_generation o)) (lst_conditions (listener_status_of now o i)).
Proof.
  unfold listener_status_of, listener_resolved_refs_condition. cbn [lst_conditions].
  rewrite !Forall_cons. split_and!; [..|done]; repeat case_match; apply condition_new_ok.
Qed.

Lemma desired_status_ok now api g ns name input : status_ok g (desired_status now api g ns name input).
Proof.
  split.
  - unfold desired_status. cbn. apply conditions_types.
  - unfold desired_status, build_gateway_conditions. cbn [gws_conditions build_managed_runtime_status].
    repeat case_match; rewrite !Forall_cons; (split_and!; [apply condition_new_ok..|done]).
  - apply desired_listener_names.
  - unfold desired_status, build_managed_runtime_status. cbn. intros l (i&->&_)%list_elem_of_fmap. rewrite listener_types.
    split_and!; [done| |unfold listener_status_of, i32_saturate, i32_max; cbn [lst_attached_routes]; lia..].
    rewrite <- (outcome_generation input (SnapshotResult_is_ready match input with Applied _ _ snap => snap | _ => NotReady end)
      (om_generation (gw_metadata g))) at 1. apply listener_status_ok.
Qed.

(** The patches a reconcile sends are final statuses. *)
Lemma finish_patches now api g ns name input d s r s' :
  finish_gateway now api g ns name input d s = (r, s') →
  rs_status_patches s' = rs_status_patches s ∨
  rs_status_patches s' = final_status g (desired_status now api g ns name input) :: rs_status_patches s.
Proof.
  unfold finish_gateway. destruct (build_managed_runtime_status _ _ _ _ _) as [[[ls pr] osn] ofl].
  destruct (needs_patch g _); [destruct (ga_patch_status api g _) as [g'|e]|]; [|intros [= <- <-]; by left|];
    destruct d; intros [= <- <-]; cbn; auto.
Qed.

Section reconcile_facts.
Context (sha256 : string → list N) (json_to_string : Value → result string string).
Context (toml_to_string_pretty : Config → result string string) (toml_from_str : string → result string Config).
Context (fault : ApiCall → option string) (serialize_error : ObjectKind → option string).
Context (ssa_sa : option ServiceAccount → ServiceAccount → ServiceAccount).
Context (ssa_cm : option ConfigMap → ConfigMap → ConfigMap).
Context (ssa_svc : option K8sService → K8sService → K8sService).
Context (ssa_dep : option Deployment → Deployment → Deployment).
Context (cc : ControllerConfig).
Notation reconcile := (reconcile_gateway sha256 json_to_string toml_to_string_pretty toml_from_str fault serialize_error
  ssa_sa ssa_cm ssa_svc ssa_dep cc).
Notation managed := (reconcile_managed_runtime sha256 json_to_string toml_to_string_pretty toml_from_str fault serialize_error
  ssa_sa ssa_cm ssa_svc ssa_dep cc).
Notation plan_of := (GatewayRuntimePlanner_plan sha256 json_to_string toml_to_string_pretty).

(** How a reconcile that sends a status patch came to it. *)
Definition reconcile_input (api : GatewayApi) (g : Gateway) (s : ReconcileState) (input : ManagedRuntimeInput) : Prop :=
  let ns := unwrap_or "" (om_namespace (gw_metadata g)) in
  let name := name_or_empty (gw_metadata g) in
  let store := upsert_gateway (key ns name) g (rs_store s) in
  match input with
  | Applied observed res snap => (managed api g store ns name (rs_cluster s)).1 = Done (observed, res, snap)
  | MISNotReady observed => (managed api g store ns name (rs_cluster s)).1 = Failed (MRStoreNotReady observed)
  | ObservationFault msg => (managed api g store ns name (rs_cluster s)).1 = Failed (MRObservationError msg)
  end.

Lemma reconcile_patches now api g s r s' :
  reconcile now api g s = (r, s') →
  rs_status_patches s' = rs_status_patches s ∨
  ∃ input, reconcile_input api g s input ∧
    rs_status_patches s' =
      final_status g (desired_status now api g (unwrap_or "" (om_namespace (gw_metadata g))) (name_or_empty (gw_metadata g)) input)
      :: rs_status_patches s.
Proof.
  unfold reconcile_gateway. destruct (om_deletion_timestamp _); cbn [is_some]; [intros [= <- <-]; by left|].
  destruct (match get_gateway_class _ _ with Some gc => Ok gc | None => _ end) as [gc|e]; [|intros [= <- <-]; by left].
  destruct (is_wicket_managed gc); cbn [negb]; [|intros [= <- <-]; by left].
  unfold reconcile_input. cbn [set_store rs_store rs_cluster].
  destruct (managed api g _ _ _ _) as [[|[obs|e|e|e]|[[obs res] snap]] cl']; cbn [fst].
  - intros [= <- <-]. by left.
  - intros [?|?]%finish_patches; [by left|right]. exists (MISNotReady obs). done.
  - intros [= <- <-]. by left.
  - intros [= <- <-]. by left.
  - intros [?|?]%finish_patches; [by left|right]. exists (ObservationFault e). done.
  - intros [?|?]%finish_patches; [by left|right]. exists (Applied obs res snap). done.
Qed.

Lemma managed_Done api g store ns name cl obs res snap cl' :
  managed api g store ns name cl = (Done (obs, res, snap), cl') ↔
  observe_runtime_state sha256 api g ns cl = Done obs ∧
  ∃ sn p, planner_snapshot store = SnapReady sn ∧ snap = SnapReady sn ∧
    plan_of (mkRuntimePlanInput ns name sn cc obs) = Done p ∧
    apply_runtime_plan fault serialize_error toml_from_str ssa_sa ssa_cm ssa_svc ssa_dep p cl = (Done res, cl').
Proof.
  unfold reconcile_managed_runtime.
  destruct (observe_runtime_state _ _ _ _ _) as [|e|obs'] eqn:Eo; [split; [done|by intros [? _]]..|].
  destruct (planner_snapshot store) as [|sn] eqn:Es; [split; [done|by intros (_&?&?&?&_)]|].
  destruct (plan_of (mkRuntimePlanInput ns name sn cc obs')) as [|e|p] eqn:Ep;
    [split; [done|intros ([= ->]&sn'&p'&[= <-]&_&Hp&_); congruence]..|].
  destruct (apply_runtime_plan _ _ _ _ _ _ _ p cl) as [[|e|res'] cl''] eqn:Ea;
    [split; [done|intros ([= ->]&sn'&p'&[= <-]&_&Hp&Ha); congruence]..|].
  split.
  - intros [= -> -> <- ->]. split; [done|]. by exists sn, p.
  - intros ([= ->]&sn'&p'&[= <-]&->&Hp&Ha). congruence.
Qed.

Lemma managed_not_ready api g store ns name cl obs :
  (managed api g store ns name cl).1 = Failed (MRStoreNotReady obs) →
  observe_runtime_state sha256 api g ns cl = Done obs ∧ planner_snapshot store = NotReady.
Proof.
  unfold reconcile_managed_runtime, observe_runtime_state.
  destruct (owned_object_base_name _ _); [cbn|done]. destruct (ga_observe_fault api KConfigMap); [done|].
  destruct (ga_observe_fault api KDeployment); [done|].
  destruct (planner_snapshot store) as [|sn]; [intros [= <-]; done|].
  destruct (plan_of _); [done..|]. by destruct (apply_runtime_plan _ _ _ _ _ _ _ _ _) as [[] ?].
Qed.

End reconcile_facts.

(** ** Programmed *)

(** The deployment has been processed at its generation (or a later one), all its
    pods run the current template, and one of them serves unless it is scaled to
    zero. *)
Definition converged (obs : ObservedRuntimeState) : Prop :=
  ∃ og g u a d r, ors_deploy_observed_generation obs = Some og ∧ ors_deploy_generation obs = Some g ∧
    ors_updated_replicas obs = Some u ∧ ors_available_replicas obs = Some a ∧ ors_desired_replicas obs = Some d ∧
    ors_ready_replicas obs = Some r ∧ (g ≤ og)%Z ∧ (d ≤ u)%N ∧ (d = 0 ∨ (1 ≤ a ∧ 1 ≤ r))%N.

Lemma is_rollout_converged_true obs : is_rollout_converged obs = true ↔ converged obs.
Proof.
  unfold is_rollout_converged, converged. destruct obs as [ch sh [r|] [og|] [g|] [u|] [a|] [d|]]; cbn; try (split; [done|naive_solver]).
  destruct (Z.ltb_spec og g); [split; [done|naive_solver lia]|]. destruct (N.ltb_spec u d); [split; [done|naive_solver lia]|].
  destruct (N.eqb_spec d 0); [split; [intros _; naive_solver|done]|].
  destruct (N.ltb_spec a 1); [split; [done|naive_solver lia]|]. destruct (N.ltb_spec r 1); [split; [done|naive_solver lia]|].
  split; [|done]. intros _. exists og, g, u, a, d, r. split_and!; try done. auto.
Qed.

Definition reports_programmed (st : GatewayStatus) : Prop :=
  ∃ c, c ∈ gws_conditions st ∧ cond_type c = "Programmed" ∧ cond_status c = "True".

Lemma reports_programmed_sim a b : status_sim a b → reports_programmed a → reports_programmed b.
Proof.
  intros [_ H _] (c&Hc&Ht&Hs). apply list_elem_of_lookup in Hc as [i Hi].
  destruct (Forall2_lookup_l _ _ _ _ _ H Hi) as (y&Hy&Hsim). exists y. split; [by eapply list_elem_of_lookup_2|].
  by rewrite <- (cond_sim_type _ _ Hsim), <- (cond_sim_status _ _ Hsim).
Qed.

Lemma conditions_programmed now p f o gen :
  (∃ c, c ∈ build_gateway_conditions now p f o gen ∧ cond_type c = "Programmed" ∧ cond_status c = "True") → p = true.
Proof.
  unfold build_gateway_conditions. intros (c&Hc&Ht&Hs). destruct p; [done|].
  repeat case_match; repeat (apply elem_of_cons in Hc as [->|Hc]; [done|]); by apply elem_of_nil in Hc.
Qed.

Lemma desired_programmed now api g ns name input :
  reports_programmed (desired_status now api g ns name input) →
  ∃ obs, (input = MISNotReady obs ∨
          ∃ res snap, input = Applied obs res snap ∧ rar_rollout_triggered res = false ∧ rar_deployment_changed res = false) ∧
         converged obs.
Proof.
  unfold desired_status, reports_programmed. cbn. intros Hp%conditions_programmed. destruct input as [obs res snap|obs|msg]; cbn in Hp.
  - destruct (rar_rollout_triggered res) eqn:E1, (rar_deployment_changed res) eqn:E2; try done. cbn in Hp.
    exists obs. split; [eauto 10|by apply is_rollout_converged_true].
  - exists obs. split; [by left|by apply is_rollout_converged_true].
  - done.
Qed.

(** C9: Programmed is only said when it is so.  If a reconcile writes a status with
    Programmed=True, the deployment it observed before planning had converged; and
    when the store was ready, that deployment carries the revision the planner wants
    now, and this reconcile started no rollout. *)
Theorem programmed_is_truthful sha256 json_to_string toml_to_string_pretty toml_from_str fault serialize_error
    ssa_sa ssa_cm ssa_svc ssa_dep cc now api g s r s' st :
  reconcile_gateway sha256 json_to_string toml_to_string_pretty toml_from_str fault serialize_error
    ssa_sa ssa_cm ssa_svc ssa_dep cc now api g s = (r, s') →
  rs_status_patches s' = st :: rs_status_patches s → reports_programmed st →
  let ns := unwrap_or "" (om_namespace (gw_metadata g)) in
  let name := name_or_empty (gw_metadata g) in
  ∃ obs, observe_runtime_state sha256 api g ns (rs_cluster s) = Done obs ∧ converged obs ∧
    (planner_snapshot (upsert_gateway (key ns name) g (rs_store s)) = NotReady ∨
     ∃ snap p, planner_snapshot (upsert_gateway (key ns name) g (rs_store s)) = SnapReady snap ∧
       GatewayRuntimePlanner_plan sha256 json_to_string toml_to_string_pretty (mkRuntimePlanInput ns name snap cc obs) = Done p ∧
       ors_current_spec_hash obs = Some (grp_spec_hash p) ∧ grp_spec_changed p = false).
Proof.
  intros Hr Hp Hst. apply reconcile_patches in Hr as [Hsame|(input&Hin&Hpat)].
  { rewrite Hp in Hsame. by apply (f_equal length) in Hsame; cbn in Hsame; lia. }
  rewrite Hp in Hpat. injection Hpat as ->. apply (reports_programmed_sim _ _ (final_status_sim _ _)) in Hst.
  apply desired_programmed in Hst as (obs&[->|(res&snap&->&Hroll&Hdep)]&Hc); unfold reconcile_input in Hin.
  - apply managed_not_ready in Hin as [Ho Hs]. exists obs. auto.
  - destruct (reconcile_managed_runtime _ _ _ _ _ _ _ _ _ _ _ _ _ _ _ _ _) as [x cl'] eqn:E. cbn in Hin. subst x.
    apply managed_Done in E as (Ho&sn&p&Hsn&->&Hpl&Ha). exists obs. split_and!; [done..|]. right. exists sn, p. split_and!; try done.
    + apply apply_Done in Ha as (_&_&c&vs&ms&_&_&->&_). cbn in Hroll.
      apply plan_Done in Hpl as (gg&uid&gen&base&sh&config&toml&_&->). cbn in *. by apply changed_false in Hroll.
    + apply apply_Done in Ha as (_&_&c&vs&ms&_&_&->&_). done.
Qed.

(** C27: the shape of every status.  Whatever a reconcile writes, the gateway has
    exactly the conditions Accepted and Programmed, there is one entry per listener in
    order with Accepted, Programmed and ResolvedRefs, every condition is True or
    False and carries the gateway's generation, and the route counts fit an i32. *)
Theorem written_status_ok sha256 json_to_string toml_to_string_pretty toml_from_str fault serialize_error
    ssa_sa ssa_cm ssa_svc ssa_dep cc now api g s :
  ∃ patches, rs_status_patches (reconcile_gateway sha256 json_to_string toml_to_string_pretty toml_from_str fault serialize_error
    ssa_sa ssa_cm ssa_svc ssa_dep cc now api g s).2 = patches ++ rs_status_patches s ∧
    length patches ≤ 1 ∧ Forall (status_ok g) patches.
Proof.
  destruct (reconcile_gateway _ _ _ _ _ _ _ _ _ _ _ _ _ _ _) as [r s'] eqn:E. cbn [snd]. apply reconcile_patches in E as [->|(input&_&->)].
  - exists []. split_and!; [done|cbn; lia|constructor].
  - exists [final_status g (desired_status now api g (unwrap_or "" (om_namespace (gw_metadata g))) (name_or_empty (gw_metadata g)) input)].
    split_and!; [done|cbn; lia|]. constructor; [|done]. eapply status_ok_sim; [apply final_status_sim|apply desired_status_ok].
Qed.

(** ** The managed runtime converges *)

Section convergence.
Context (sha256 : string → list N) (json_to_string : Value → result string string).
Context (toml_to_string_pretty : Config → result string string) (toml_from_str : string → result string Config).
Context (fault : ApiCall → option string) (serialize_error : ObjectKind → option string).
Context (ssa_sa : option ServiceAccount → ServiceAccount → ServiceAccount) `{!ForcedApply sa_metadata ssa_sa}.
Context (ssa_cm : option ConfigMap → ConfigMap → ConfigMap) `{!ForcedApply cm_metadata ssa_cm}.
Context (ssa_svc : option K8sService → K8sService → K8sService) `{!ForcedApply ks_metadata ssa_svc}.
Context (ssa_dep : option Deployment → Deployment → Deployment) `{!ForcedApply dep_metadata ssa_dep}.
Context (cc : ControllerConfig).
Notation managed := (reconcile_managed_runtime sha256 json_to_string toml_to_string_pretty toml_from_str fault serialize_error
  ssa_sa ssa_cm ssa_svc ssa_dep cc).
Notation observe := (observe_runtime_state sha256).
Notation final := (applied_state ssa_sa ssa_cm ssa_svc ssa_dep).

(** The plan with both change signals down. *)
Definition settled_plan (p : GatewayRuntimePlan) : GatewayRuntimePlan :=
  mkGatewayRuntimePlan (grp_gateway_namespace p) (grp_gateway_name p) (grp_gateway_uid p)
    (grp_gateway_generation p) (grp_owned_object_base_name p) (grp_config_map_name p) (grp_deployment_name p) (grp_service_name p)
    (grp_service_account_name p) (grp_config_hash p) (grp_spec_hash p) (grp_config_toml p) (grp_runtime_metadata p)
    (grp_service_type p) (grp_service_ports p) (grp_tls_secret_mounts p) (grp_listener_statuses p) false false.

Lemma settled_applicable p s vs ms c :
  applicable fault serialize_error ssa_sa ssa_cm ssa_svc ssa_dep p s →
  applicable fault serialize_error ssa_sa ssa_cm ssa_svc ssa_dep (settled_plan p) (final p s vs ms c).
Proof.
  intros H. apply (applied_applicable _ _ _ _ _ _ p s vs ms c) in H as (H1&(H2&H3&_)&H4&H5).
  split_and!; try apply H1; try apply H4; try apply H5; done.
Qed.

Lemma settled_state p s vs ms c : final (settled_plan p) (final p s vs ms c) vs ms c = final p s vs ms c.
Proof.
  transitivity (final p (final p s vs ms c) vs ms c); [|by apply applied_fixed].
  unfold applied_state. cbn. f_equal. destruct (grp_config_changed p); [|done].
  by rewrite lookup_insert_eq, ssa_idempotent, insert_insert_eq.
Qed.

(** After an apply the observation finds both planned revisions. *)
Lemma observe_applied api g ns cl obs p vs ms c :
  observe api g ns cl = Done obs →
  owned_object_base_name sha256 (name_or_empty (gw_metadata g)) = Some (grp_owned_object_base_name p) →
  grp_gateway_namespace p = ns → grp_config_map_name p = config_map_name (grp_owned_object_base_name p) →
  grp_deployment_name p = deployment_name (grp_owned_object_base_name p) →
  grp_config_changed p = changed (ors_current_config_hash obs) (grp_config_hash p) →
  ∃ obs', observe api g ns (final p cl vs ms c) = Done obs' ∧
    ors_current_config_hash obs' = Some (grp_config_hash p) ∧ ors_current_spec_hash obs' = Some (grp_spec_hash p).
Proof.
  intros Ho Hb <- Hcm Hdep Hch. unfold observe_runtime_state in *. rewrite Hb in *. cbn [or_panic mbind exec_bind] in *.
  destruct (ga_observe_fault api KConfigMap); [done|]. destruct (ga_observe_fault api KDeployment); [done|].
  injection Ho as <-. cbn [ors_current_config_hash] in Hch. eexists. split; [done|]. cbn [ors_current_config_hash ors_current_spec_hash].
  rewrite <- Hcm, <- Hdep. unfold applied_state. cbn [cs_config_maps cs_deployments]. rewrite lookup_insert_eq. split.
  - destruct (grp_config_changed p) eqn:E.
    + rewrite lookup_insert_eq. cbn. unfold annotation. by apply ssa_annotations.
    + rewrite <- Hcm in Hch. by apply changed_false.
  - unfold observe_deployment. cbn [do_current_spec_hash]. unfold annotation.
    by rewrite (ssa_annotations _ _ _ (grp_spec_hash p)).
Qed.

(** One round suffices: the next run of the managed runtime finds both planned revisions
    and changes nothing. *)
Lemma managed_settles api g store name cl obs res snap cl' :
  let ns := unwrap_or "" (om_namespace (gw_metadata g)) in
  name = name_or_empty (gw_metadata g) →
  managed api g store ns name cl = (Done (obs, res, snap), cl') →
  ∃ sn p obs', planner_snapshot store = SnapReady sn ∧
    GatewayRuntimePlanner_plan sha256 json_to_string toml_to_string_pretty (mkRuntimePlanInput ns name sn cc obs) = Done p ∧
    observe api g ns cl' = Done obs' ∧
    ors_current_config_hash obs' = Some (grp_config_hash p) ∧ ors_current_spec_hash obs' = Some (grp_spec_hash p) ∧
    managed api g store ns name cl' = (Done (obs', mkRuntimeApplyResult false (Some ConfigUnchanged) false false false, snap), cl').
Proof.
  intros ns -> (Ho&sn&p&Hsn&->&Hp&Ha)%managed_Done. apply apply_Done in Ha as (Happ&Hrep&c&vs&ms&Ht&Hv&->&->).
  pose proof Hp as Hp0. apply plan_Done in Hp0 as (gg&uid&gen&base&sh&config&toml&Hpl&Hpe).
  destruct (observe_applied api g ns cl obs p vs ms c Ho) as (obs'&Ho'&Hch&Hsh); try (by subst p).
  { subst p. cbn. apply Hpl. }
  exists sn, p, obs'. split_and!; [done..|]. apply managed_Done. split; [done|]. exists sn, (settled_plan p). split_and!; try done.
  - apply (plan_observed _ _ _ _ _ obs') in Hp. unfold with_observed in Hp. cbn in Hp. rewrite Hp. unfold settled_plan.
    by rewrite (proj2 (changed_false _ _) Hch), (proj2 (changed_false _ _) Hsh).
  - apply apply_Done. split; [by apply settled_applicable|]. split; [done|]. exists c, vs, ms. split_and!; [done|done| |by rewrite settled_state].
    unfold applied_result. cbn. by rewrite !lookup_insert_eq.
Qed.

End convergence.

Lemma programmed_iff_converged now api g ns name obs cr snap :
  reports_programmed (desired_status now api g ns name (Applied obs (mkRuntimeApplyResult false cr false false false) snap)) ↔ converged obs.
Proof.
  split.
  - intros (obs'&[|(?&?&[= <- <- <-]&_)]&Hc)%desired_programmed; done.
  - intros Hc%is_rollout_converged_true. unfold reports_programmed, desired_status, build_managed_runtime_status. cbn. rewrite Hc.
    cbn. eexists. split; [right; left|done].
Qed.

(** C8: the managed runtime converges.  After one successful round that carried out
    the plan [p], with the same store and the same answers of the API server the
    cluster's config map and deployment carry the configuration and specification
    revisions of [p], and every later round succeeds, observes exactly these revisions,
    leaves the cluster as it is, starts no rollout and reports the configuration
    unchanged; and its status says Programmed exactly when the deployment observed has
    converged. *)
Theorem runtime_converges sha256 json_to_string toml_to_string_pretty toml_from_str fault serialize_error
    ssa_sa ssa_cm ssa_svc ssa_dep cc api g store cl obs res snap cl' :
  ForcedApply sa_metadata ssa_sa → ForcedApply cm_metadata ssa_cm → ForcedApply ks_metadata ssa_svc →
  ForcedApply dep_metadata ssa_dep →
  let ns := unwrap_or "" (om_namespace (gw_metadata g)) in
  let name := name_or_empty (gw_metadata g) in
  let managed := reconcile_managed_runtime sha256 json_to_string toml_to_string_pretty toml_from_str fault serialize_error
    ssa_sa ssa_cm ssa_svc ssa_dep cc api g store ns name in
  managed cl = (Done (obs, res, snap), cl') →
  ∃ sn p obs' res', planner_snapshot store = SnapReady sn ∧
    GatewayRuntimePlanner_plan sha256 json_to_string toml_to_string_pretty (mkRuntimePlanInput ns name sn cc obs) = Done p ∧
    observe_runtime_state sha256 api g ns cl' = Done obs' ∧
    ors_current_config_hash obs' = Some (grp_config_hash p) ∧ ors_current_spec_hash obs' = Some (grp_spec_hash p) ∧
    (∀ n, managed (Nat.iter n (λ c, (managed c).2) cl') = (Done (obs', res', snap), cl')) ∧
    res' = mkRuntimeApplyResult false (Some ConfigUnchanged) false false false ∧
    ∀ now, reports_programmed (desired_status now api g ns name (Applied obs' res' snap)) ↔ converged obs'.
Proof.
  intros ???? ns name managed Hm. apply managed_settles in Hm as (sn&p&obs'&Hsn&Hp&Ho&Hc&Hs&Hm); [|apply _..|done].
  exists sn, p, obs'. eexists. split_and!; [done..| |done|intros now; apply programmed_iff_converged].
  intros n. assert (Nat.iter n (λ c, (managed c).2) cl' = cl') as ->; [|exact Hm].
  induction n as [|n IH]; [done|]. rewrite Nat.iter_succ, IH. exact (f_equal snd Hm).
Qed.

(** ** Watches *)

Lemma elem_of_sort_refs l x : x ∈ sort_refs l ↔ x ∈ l.
Proof. unfold sort_refs. apply elem_of_sort_by. Qed.

Lemma gateway_refs_elem ns ps gw : gw ∈ gateway_refs_from_parent_refs ns ps ↔ gw ∈ route_parent_gateways ns ps.
Proof.
  unfold gateway_refs_from_parent_refs. rewrite elem_of_sort_refs, elem_of_elements. unfold route_parent_gateways.
  assert (∀ (acc : gset (string * string)), foldl (λ (refs : gset (string * string)) p,
      if negb (is_empty_str (pr_group p) || String.eqb (pr_group p) "gateway.networking.k8s.io") || negb (String.eqb (pr_kind p) "Gateway")
      then refs else {[(unwrap_or ns (pr_namespace p), pr_name p)]} ∪ refs) acc ps =
    foldl (λ gateways p, if negb (parent_is_gateway p) then gateways
      else {[(unwrap_or ns (pr_namespace p), pr_name p)]} ∪ gateways) acc ps) as ->; [|done].
  induction ps as [|p ps IH]; intros acc; cbn [foldl]; [done|]. rewrite IH. f_equal. unfold parent_is_gateway.
  by rewrite negb_andb.
Qed.

(** An event on a route concerns exactly its gateways.  The gateways a watch
    wakes for a route are those one of its parent references names (of kind Gateway in
    the Gateway API group, in the route's namespace unless another is given), each
    once and in order. *)
Theorem watch_wakes_parents ns ps :
  NoDup (gateway_refs_from_parent_refs ns ps) ∧
  StronglySorted (cmp_le (pair_cmp str_cmp str_cmp)) (gateway_refs_from_parent_refs ns ps) ∧
  ∀ gns gname, (gns, gname) ∈ gateway_refs_from_parent_refs ns ps ↔ route_references_gateway ns ps gns gname = true.
Proof.
  split_and!.
  - unfold gateway_refs_from_parent_refs, sort_refs. rewrite sort_by_perm. apply NoDup_elements.
  - apply sort_by_sorted. apply _.
  - intros gns gname. by rewrite gateway_refs_elem, route_references_gateway_spec.
Qed.

(** ** Certificate names *)

(** A DNS label: 1 to 63 lower-case letters, digits and hyphens, no hyphen at an end. *)
Definition dns_label (l : string) : Prop :=
  1 ≤ String.length l ≤ 63 ∧ string_forallb (λ c, is_alnum c || Ascii.eqb c "-") l = true ∧ first_last is_alnum l = true.

Lemma valid_label_true l : valid_label l = true ↔ dns_label l.
Proof.
  unfold valid_label, dns_label. destruct l as [|c l].
  - split; [done|]. intros [[H _] _]. cbn in H. lia.
  - cbn [is_empty_str orb]. destruct (Nat.ltb_spec 63 (String.length (String c l))).
    + split; [done|]. lia.
    + rewrite andb_true_iff. split; intros H'; split_and!; try apply H'; cbn in *; lia.
Qed.

Lemma string_forallb_no_dot l : string_forallb (λ c, is_alnum c || Ascii.eqb c "-") l = true → contains_char "." l = false.
Proof.
  induction l as [|c l IH]; cbn [string_forallb contains_char]; [done|]. intros [Hc Hl]%andb_true_iff. rewrite (IH Hl).
  by destruct (Ascii.eqb_spec "." c) as [<-|].
Qed.

(** Which secret names a listener may use.  A name passes the check exactly when
    it is a DNS subdomain: at most 253 bytes, dot-separated labels of 1 to 63 lower-case
    letters, digits and hyphens that do not begin or end with a hyphen. *)
Theorem dns_subdomain_spec name :
  is_valid_k8s_dns_subdomain name = true ↔
  String.length name ≤ 253 ∧ ∃ labels, labels ≠ [] ∧ name = join_dots labels ∧ Forall dns_label labels.
Proof.
  unfold is_valid_k8s_dns_subdomain. split.
  - destruct (is_empty_str name) eqn:E; cbn [orb]; [done|]. destruct (Nat.ltb_spec 253 (String.length name)); [done|].
    rewrite forallb_true. intros Hl. split; [done|]. exists (split_labels name). split_and!.
    + apply split_labels_nonempty.
    + symmetry. apply split_labels_join.
    + apply Forall_forall. intros l Hin. by apply valid_label_true, Hl.
  - intros (Hlen&labels&Hne&->&Hf).
    assert (Forall (λ l, contains_char "." l = false) labels) as Hd.
    { eapply Forall_impl; [done|]. intros l (_&Hs&_). by apply string_forallb_no_dot. }
    assert (is_empty_str (join_dots labels) = false) as ->.
    { apply is_empty_str_false. destruct labels as [|l ls]; [done|]. inv Hf. destruct l as [|c l]; [by destruct H1 as [[? _] _]; cbn in *; lia|].
      by destruct ls. }
    cbn [orb]. destruct (Nat.ltb_spec 253 (String.length (join_dots labels))); [lia|].
    rewrite join_split_labels by done. rewrite forallb_true. intros l Hl. apply valid_label_true. by eapply Forall_forall in Hl.
Qed.

(** ** Examples *)

Definition set_gw_status (st : GatewayStatus) (g : Gateway) : Gateway := mkGateway (gw_metadata g) (gw_spec g) (Some st).
Definition ex_class : GatewayClass := mkGatewayClass (meta_of "" "wicket") WICKET_CONTROLLER_NAME None None None.
Definition ex_api : GatewayApi :=
  mkGatewayApi (λ _, Ok ex_class) (λ _, None) (Err "not found") (Err "forbidden") (λ g st, Ok (set_gw_status st g)) None.
Definition ex_ready_store : SharedStore := mark_ready ex_managed_store.
Notation ex_managed := (reconcile_managed_runtime ex_sha256 ex_json ex_toml ex_from_str no_fault no_serialize_error ex_ssa_sa ex_ssa_cm ex_ssa_svc
    ex_ssa_dep ControllerConfig_default ex_api ex_managed_gateway ex_ready_store
    (unwrap_or "" (om_namespace (gw_metadata ex_managed_gateway))) (name_or_empty (gw_metadata ex_managed_gateway))).
Definition ex_reconcile :=
  reconcile_gateway ex_sha256 ex_json ex_toml ex_from_str no_fault no_serialize_error ex_ssa_sa ex_ssa_cm ex_ssa_svc
    ex_ssa_dep ControllerConfig_default.

Lemma ex_managed_eq :
  ex_managed empty_cluster = (Done (ex_nothing_observed, ex_apply_result, planner_snapshot ex_ready_store), ex_applied).
Proof.
  apply managed_Done. split; [reflexivity|]. eexists _, ex_runtime_plan. split; [reflexivity|]. split; [reflexivity|].
  split; [vm_compute; reflexivity|exact ex_apply_eq].
Qed.

Lemma runtime_converges_witness :
  ∃ obs' res' snap, ors_current_config_hash obs' = Some (grp_config_hash ex_runtime_plan) ∧
    ex_managed ex_applied = (Done (obs', res', snap), ex_applied) ∧ rar_rollout_triggered res' = false.
Proof.
  pose proof ex_managed_eq as E.
  apply (runtime_converges ex_sha256 ex_json ex_toml ex_from_str no_fault no_serialize_error ex_ssa_sa ex_ssa_cm ex_ssa_svc
    ex_ssa_dep ControllerConfig_default ex_api ex_managed_gateway ex_ready_store empty_cluster _ _ _ _ _ _ _ _) in E
    as (sn&p&obs'&res'&Hsn&Hp&_&Hc&_&Hm&Hr&_).
  exists obs', res', (planner_snapshot ex_ready_store). split; [|split; [exact (Hm 0)|by rewrite Hr]].
  injection Hsn as <-. assert (p = ex_runtime_plan) as <-; [|exact Hc].
  enough (Done p = (Done ex_runtime_plan : exec PlanError _)) as [= ->] by done. rewrite <-Hp. vm_compute. reflexivity.
Defined.

(** The same cluster once the deployment's pods are up. *)
Definition ex_up (d : Deployment) : Deployment :=
  mkDeployment
    (mkObjectMeta (om_name (dep_metadata d)) (om_namespace (dep_metadata d)) (Some 1%Z) None None (om_labels (dep_metadata d))
       (om_annotations (dep_metadata d)) (om_owner_references (dep_metadata d)))
    (dep_spec d) (Some (mkDeploymentStatus (Some 1%Z) (Some 1%Z) (Some 1%Z) (Some 1%Z))).
Definition ex_up_cluster : ClusterState :=
  mkClusterState (cs_service_accounts ex_applied) (cs_config_maps ex_applied) (cs_services ex_applied)
    (ex_up <$> cs_deployments ex_applied) (cs_in_memory_config ex_applied).
Definition ex_up_state : ReconcileState := mkReconcileState ex_up_cluster ex_ready_store [] ∅.
Definition ex_up_result := ex_reconcile "2024-01-01T00:00:00Z" ex_api ex_managed_gateway ex_up_state.
Definition ex_up_status : GatewayStatus := unwrap_or (mkGatewayStatus [] [] []) (head (rs_status_patches ex_up_result.2)).

Lemma programmed_is_truthful_witness :
  ex_up_result.1 = Done (Requeue 300) ∧
  ∃ obs, observe_runtime_state ex_sha256 ex_api ex_managed_gateway "infra" ex_up_cluster = Done obs ∧ converged obs.
Proof.
  split; [vm_compute; reflexivity|].
  destruct (programmed_is_truthful ex_sha256 ex_json ex_toml ex_from_str no_fault no_serialize_error ex_ssa_sa ex_ssa_cm ex_ssa_svc
    ex_ssa_dep ControllerConfig_default "2024-01-01T00:00:00Z" ex_api ex_managed_gateway ex_up_state ex_up_result.1 ex_up_result.2
    ex_up_status) as (obs&Ho&Hc&_).
  - apply surjective_pairing.
  - vm_compute. reflexivity.
  - eexists. split; [right; left|]. vm_compute. done.
  - exists obs. split; [exact Ho|exact Hc].
Defined.

Lemma gateway_status_settles_witness :
  needs_patch (set_gw_status ex_up_status ex_managed_gateway)
    (final_status (set_gw_status ex_up_status ex_managed_gateway)
       (desired_status "2025-06-01T00:00:00Z" ex_api (set_gw_status ex_up_status ex_managed_gateway) "infra" "edge"
          (ObservationFault "x"))) = true ∧
  needs_patch (set_gw_status (desired_status "2024-01-01T00:00:00Z" ex_api ex_managed_gateway "infra" "edge" (ObservationFault "x")) ex_managed_gateway)
    (final_status (set_gw_status (desired_status "2024-01-01T00:00:00Z" ex_api ex_managed_gateway "infra" "edge" (ObservationFault "x")) ex_managed_gateway)
       (desired_status "2025-06-01T00:00:00Z" ex_api
          (set_gw_status (desired_status "2024-01-01T00:00:00Z" ex_api ex_managed_gateway "infra" "edge" (ObservationFault "x")) ex_managed_gateway)
          "infra" "edge" (ObservationFault "x"))) = false.
Proof.
  split; [vm_compute; reflexivity|].
  by apply (gateway_status_settles "2024-01-01T00:00:00Z" "2025-06-01T00:00:00Z" ex_api ex_managed_gateway).
Defined.
