(* ===== verification/RouteReconciler.v ===== *)
(** * The route reconcilers (reconcilers/httproute.rs, tcproute.rs, tlsroute.rs)

    One reconcile of a route: every parent reference is looked up and judged, the
    verdicts become the route's status, and the route enters or leaves the shared
    store.  The API server's answers are parameters of a reconcile, as is the time. *)

From S2P Require Import Prelude Str Order Num Metrics Crds Store Attachment Status Config ConfigGen RuntimePlan GatewayReconciler.
From Stdlib Require Import Ascii.

(** The answer to a read: the object, a 404, or any other error. *)
Inductive ApiRead (A : Type) := Found (a : A) | NotFound | ReadFault (e : string).
Arguments Found {A} _.
Arguments NotFound {A}.
Arguments ReadFault {A} _.

Record RouteApi := mkRouteApi {
  ra_gateway : string → string → ApiRead Gateway;
  ra_gateway_class : string → ApiRead GatewayClass;
  ra_patch_status : option string;
  ra_list : option (list ObjectMeta)
}.

(** The error of a reconcile: a Kubernetes API fault. *)
Inductive RouteError := RouteKubeError (e : string).

Notation PlanCache := (gmap (string * string * Z) AttachmentPlan).

(** ** Judging a parent reference *)

Definition attachment_status_message (s : AttachmentStatus) : string :=
  match s with
  | Attached | RefNotPermitted _ _ _ | BackendNotFound _ _ _ => "Route is accepted by the listener"
  | NoMatchingParent => "No listener matches the parentRef sectionName or port"
  | NotAllowedByListenerProtocol => "Route kind is not compatible with the listener protocol"
  | NotAllowedByListenerNamespacePolicy => "Route namespace is not allowed by the listener AllowedRoutes namespace policy"
  | NotAllowedByListenerKindPolicy => "Route kind is not in the listener AllowedRoutes kinds list"
  | NoMatchingListenerHostname => "No route hostname intersects with the listener hostname"
  end.

(** [http_only_condition_from_spec] and its TCP and TLS copies: [compat] is the
    protocol test of the route kind. *)
Definition condition_from_spec (compat : ProtocolType → bool) (now : string) (g : Gateway) (section_name : string) (port : option N)
    : Condition :=
  match find_first (λ l, String.eqb (li_name l) section_name) (gw_listeners g) with
  | Some l =>
      if negb (compat (li_protocol l)) then
        Condition_new now "Accepted" false "NotAllowedByListenerProtocol" "Route kind is not compatible with the listener protocol"
      else
        match port with
        | Some ref_port =>
            if negb (li_port l =? ref_port)%N then
              Condition_new now "Accepted" false "NoMatchingParent" "No listener matches the parentRef sectionName or port"
            else Condition_accepted now
        | None => Condition_accepted now
        end
  | None => Condition_new now "Accepted" false "NoMatchingParent" "No listener matches the parentRef sectionName"
  end.

Definition http_only_condition_from_spec := condition_from_spec is_protocol_compatible_http.
Definition tcp_only_condition_from_spec := condition_from_spec is_protocol_compatible_tcp.
Definition tls_only_condition_from_spec := condition_from_spec is_protocol_compatible_tls.

Definition condition_from_plan (compat : ProtocolType → bool) (now : string) (ap : AttachmentPlan) (g : Gateway)
    (route_namespace route_name section_name : string) (port : option N) : Condition * option Condition :=
  match result_for_route_parent_ref ap route_namespace route_name section_name port with
  | Some r =>
      if is_attached (rar_status r) then
        (Condition_accepted now,
         (λ reason, Condition_new now "ResolvedRefs" false reason "Backend reference could not be resolved")
           <$> resolved_refs_reason (rar_status r))
      else
        (Condition_new now "Accepted" false (accepted_reason (rar_status r)) (attachment_status_message (rar_status r)), None)
  | None => (condition_from_spec compat now g section_name port, None)
  end.

(** With the cache of plans threaded through. *)
Definition planner_parent_conditions_for_section_cached (compat : ProtocolType → bool) (now : string)
    (planner_snapshot : SnapshotResult PlannerSnapshot) (g : Gateway) (route_namespace route_name section_name : string)
    (port : option N) (plan_cache : PlanCache) : Condition * option Condition * PlanCache :=
  match planner_snapshot with
  | NotReady => (condition_from_spec compat now g section_name port, None, plan_cache)
  | SnapReady snapshot =>
      let gw_ns := ns_or_default (gw_metadata g) in
      let gw_name := name_or_empty (gw_metadata g) in
      let gw_generation := unwrap_or 0%Z (om_generation (gw_metadata g)) in
      let cache_key := (gw_ns, gw_name, gw_generation) in
      let filled :=
        match plan_cache !! cache_key with
        | Some _ => Ok plan_cache
        | None =>
            match plan (mkAttachmentPlanInput gw_ns gw_name gw_generation snapshot) with
            | Ok ap => Ok (<[cache_key := ap]> plan_cache)
            | Err e => Err e
            end
        end in
      match filled with
      | Err _ => (condition_from_spec compat now g section_name port, None, plan_cache)
      | Ok plan_cache =>
          match plan_cache !! cache_key with
          | Some ap => (condition_from_plan compat now ap g route_namespace route_name section_name port, plan_cache)
          | None => (condition_from_spec compat now g section_name port, None, plan_cache)
          end
      end
  end.

(** The TCP and TLS reconcilers use the verdict on the attachment alone. *)
Definition planner_accepted_condition_for_section_cached (compat : ProtocolType → bool) (now : string)
    (planner_snapshot : SnapshotResult PlannerSnapshot) (g : Gateway) (route_namespace route_name section_name : string)
    (port : option N) (plan_cache : PlanCache) : Condition * PlanCache :=
  let '(accepted, _, plan_cache) :=
    planner_parent_conditions_for_section_cached compat now planner_snapshot g route_namespace route_name section_name port plan_cache in
  (accepted, plan_cache).

(** A reference without a section name: some listener speaks the protocol on the port. *)
Definition gateway_wide_listener (compat : ProtocolType → bool) (g : Gateway) (port : option N) : bool :=
  existsb (λ l, compat (li_protocol l) && match port with None => true | Some p => (li_port l =? p)%N end) (gw_listeners g).

Definition http_route_gateway_wide_condition_from_spec (now : string) (g : Gateway) (port : option N) : Condition * option Condition :=
  if gateway_wide_listener is_protocol_compatible_http g port then (Condition_accepted now, None)
  else (Condition_new now "Accepted" false "NoMatchingParent" "Gateway has no HTTP/HTTPS listener matching the parentRef port", None).

(** The same check of the TCP and TLS reconcilers; [proto] is the protocol's name. *)
Definition stream_gateway_wide_condition (compat : ProtocolType → bool) (proto now : string) (g : Gateway) (port : option N)
    : Condition :=
  if gateway_wide_listener compat g port then Condition_accepted now
  else Condition_new now "Accepted" false "NoMatchingListener"
         ("Gateway has no " +:+ proto +:+ " listener matching the parentRef port").

(** The first two steps, common to all kinds: the gateway and its class.  [inl] is a
    rejection message. *)
Definition resolve_parent (api : RouteApi) (namespace : string) (p : ParentReference) : result RouteError (string + Gateway) :=
  let parent_ns := unwrap_or namespace (pr_namespace p) in
  match ra_gateway api parent_ns (pr_name p) with
  | NotFound => Ok (inl "Parent Gateway not found")
  | ReadFault e => Err (RouteKubeError e)
  | Found g =>
      match ra_gateway_class api (gs_gateway_class_name (gw_spec g)) with
      | ReadFault e => Err (RouteKubeError e)
      | NotFound => Ok (inl "Gateway is not managed by Wicket")
      | Found gc => if is_wicket_managed gc then Ok (inr g) else Ok (inl "Gateway is not managed by Wicket")
      end
  end.

Definition invalid_parent (now message : string) : Condition := Condition_new now "Accepted" false "InvalidParentRef" message.

(** ** HTTPRoute *)

Definition build_route_parent_status (now : string) (parent_ref : ParentReference) (controller_name : string)
    (accepted_condition : Condition) (route_generation : option Z) (resolved_refs_condition : option Condition) : RouteParentStatus :=
  mkRouteParentStatus parent_ref controller_name
    [with_observed_generation route_generation accepted_condition;
     with_observed_generation route_generation (unwrap_or (Condition_resolved_refs now) resolved_refs_condition)].

(** One round of the loop over the parent references. *)
Definition http_parent_status (now : string) (api : RouteApi) (snapshot : SnapshotResult PlannerSnapshot) (namespace name : string)
    (route_generation : option Z) (p : ParentReference) (cache : PlanCache)
    : result RouteError (RouteParentStatus * bool * PlanCache) :=
  resolve_parent api namespace p ≫= λ resolved,
  match resolved with
  | inl message =>
      Ok (build_route_parent_status now p WICKET_CONTROLLER_NAME (invalid_parent now message) route_generation None, false, cache)
  | inr g =>
      let '(accepted, resolved_refs, cache) :=
        match pr_section_name p with
        | Some section_name =>
            planner_parent_conditions_for_section_cached is_protocol_compatible_http now snapshot g namespace name section_name
              (pr_port p) cache
        | None => (http_route_gateway_wide_condition_from_spec now g (pr_port p), cache)
        end in
      Ok (build_route_parent_status now p WICKET_CONTROLLER_NAME accepted route_generation resolved_refs,
          String.eqb (cond_status accepted) "True", cache)
  end.

(** The loop: the statuses in order and whether some parent accepted the route. *)
Fixpoint parent_loop (step : ParentReference → PlanCache → result RouteError (RouteParentStatus * bool * PlanCache))
    (refs : list ParentReference) (cache : PlanCache) : result RouteError (list RouteParentStatus * bool) :=
  match refs with
  | [] => Ok ([], false)
  | p :: refs' =>
      step p cache ≫= λ '(st, accepted, cache'),
      parent_loop step refs' cache' ≫= λ '(sts, any), Ok (st :: sts, accepted || any)
  end.

Definition set_rps_conditions (cs : list Condition) (p : RouteParentStatus) : RouteParentStatus :=
  mkRouteParentStatus (rps_parent_ref p) (rps_controller_name p) cs.

Definition preserve_httproute_status_timestamps (new_status existing : list RouteParentStatus) : list RouteParentStatus :=
  preserve_group rps_parent_ref rps_conditions set_rps_conditions existing <$> new_status.

Definition parent_status_semantically_equal (x y : RouteParentStatus) : bool :=
  bool_decide (rps_parent_ref x = rps_parent_ref y)
  && String.eqb (rps_controller_name x) (rps_controller_name y)
  && conditions_semantically_equal (rps_conditions x) (rps_conditions y).

Definition httproute_status_semantically_equal (a b : list RouteParentStatus) : bool :=
  if negb (length a =? length b) then false
  else forallb (λ '(x, y), parent_status_semantically_equal x y) (zip a b).

(** ** The state of a reconcile *)

(** The store, the status patches sent (latest first) and the metrics. *)
Record RouteState := mkRouteState {
  rt_store : SharedStore;
  rt_patches : list (list RouteParentStatus);
  rt_metrics : Metrics
}.

Definition rt_set_store (f : SharedStore → SharedStore) (s : RouteState) : RouteState :=
  mkRouteState (f (rt_store s)) (rt_patches s) (rt_metrics s).
Definition rt_push (st : list RouteParentStatus) (s : RouteState) : RouteState :=
  mkRouteState (rt_store s) (st :: rt_patches s) (rt_metrics s).
Definition rt_set_metrics (f : Metrics → Metrics) (s : RouteState) : RouteState :=
  mkRouteState (rt_store s) (rt_patches s) (f (rt_metrics s)).

Definition has_condition (ty status : string) (p : RouteParentStatus) : bool :=
  existsb (λ c, String.eqb (cond_type c) ty && String.eqb (cond_status c) status) (rps_conditions p).

Definition count_accepted (namespace kind : string) (parents : list RouteParentStatus) (m : Metrics) : Metrics :=
  foldl (λ m p, if has_condition "Accepted" "True" p
                then metric_set ["wicket_routes_accepted"; namespace; kind; pr_name (rps_parent_ref p)] 1 m else m) m parents.

Definition count_rejected (namespace kind : string) (parents : list RouteParentStatus) (m : Metrics) : Metrics :=
  foldl (λ m p, foldl (λ m c,
    if String.eqb (cond_type c) "Accepted" && String.eqb (cond_status c) "False"
    then metric_inc ["wicket_routes_rejected_total"; namespace; kind; cond_reason c] m else m) m (rps_conditions p)) m parents.

(** [update_httproute_metrics] and its copies: a gauge per namespace, from a fresh list. *)
Definition update_route_metrics (series : string) (listed : option (list ObjectMeta)) (m : Metrics) : Metrics :=
  match listed with
  | Some items => set_counts (λ ns, [series; ns]) (count_by ((λ o, unwrap_or "" (om_namespace o)) <$> items)) m
  | None => m
  end.

Definition with_http_status (st : list RouteParentStatus) (r : HTTPRoute) : HTTPRoute :=
  mkHTTPRoute (hr_metadata r) (hr_spec r) (Some st).

Definition http_final_status (r : HTTPRoute) (st : list RouteParentStatus) : list RouteParentStatus :=
  match hr_parents r with Some existing => preserve_httproute_status_timestamps st existing | None => st end.
Definition http_needs_patch (r : HTTPRoute) (st : list RouteParentStatus) : bool :=
  match hr_parents r with Some existing => negb (httproute_status_semantically_equal existing st) | None => true end.

(** The store and the metrics once the status is written. *)
Definition finish_httproute (namespace name : string) (r : HTTPRoute) (status : list RouteParentStatus) (has_valid_parent : bool)
    (listed : option (list ObjectMeta)) (s : RouteState) : RouteState :=
  let route_key := key namespace name in
  let s :=
    if has_valid_parent then
      rt_set_metrics (count_accepted namespace "HTTPRoute" status)
        (rt_set_store (upsert_http_route route_key (with_http_status status r)) s)
    else
      rt_set_metrics (count_rejected namespace "HTTPRoute" status) (rt_set_store (remove_http_route route_key) s) in
  rt_set_metrics (λ m, update_route_metrics "wicket_httproutes" listed (ReconcileMetrics_record_success "HTTPRoute" m)) s.

Definition reconcile_httproute (now : string) (api : RouteApi) (r : HTTPRoute) (s : RouteState)
    : result RouteError Action * RouteState :=
  let namespace := unwrap_or "" (om_namespace (hr_metadata r)) in
  let name := name_or_empty (hr_metadata r) in
  let route_key := key namespace name in
  if is_some (om_deletion_timestamp (hr_metadata r)) then
    (Ok AwaitChange, rt_set_store (remove_http_route route_key) s)
  else
    match parent_loop (http_parent_status now api (planner_snapshot (rt_store s)) namespace name (om_generation (hr_metadata r)))
            (hrs_parent_refs (hr_spec r)) ∅ with
    | Err e => (Err e, s)
    | Ok (parent_statuses, has_valid_parent) =>
        let status := http_final_status r parent_statuses in
        match (if http_needs_patch r status
               then match ra_patch_status api with Some e => Err (RouteKubeError e) | None => Ok (rt_push status s) end
               else Ok s) with
        | Err e => (Err e, s)
        | Ok s => (Ok (Requeue 60), finish_httproute namespace name r status has_valid_parent (ra_list api) s)
        end
    end.

(** ** TCPRoute and TLSRoute *)

Section stream_route.
Context {R : Type} (meta : R → ObjectMeta) (parents : R → list ParentReference) (with_status : list RouteParentStatus → R → R).
Context (compat : ProtocolType → bool) (proto kind series : string).
Context (upsert : string → R → SharedStore → SharedStore) (remove : string → SharedStore → SharedStore).

Definition stream_parent_status (now : string) (api : RouteApi) (snapshot : SnapshotResult PlannerSnapshot) (namespace name : string)
    (p : ParentReference) (cache : PlanCache) : result RouteError (RouteParentStatus * bool * PlanCache) :=
  resolve_parent api namespace p ≫= λ resolved,
  match resolved with
  | inl message => Ok (mkRouteParentStatus p WICKET_CONTROLLER_NAME [invalid_parent now message], false, cache)
  | inr g =>
      let '(accepted, cache) :=
        match pr_section_name p with
        | Some section_name =>
            planner_accepted_condition_for_section_cached compat now snapshot g namespace name section_name (pr_port p) cache
        | None => (stream_gateway_wide_condition compat proto now g (pr_port p), cache)
        end in
      let is_accepted := String.eqb (cond_status accepted) "True" in
      Ok (mkRouteParentStatus p WICKET_CONTROLLER_NAME
            (if is_accepted then [accepted; Condition_resolved_refs now] else [accepted]), is_accepted, cache)
  end.

(** The store and the metrics once the status is written. *)
Definition finish_stream_route (namespace name : string) (r : R) (status : list RouteParentStatus) (has_valid_parent : bool)
    (listed : option (list ObjectMeta)) (s : RouteState) : RouteState :=
  let route_key := key namespace name in
  let s :=
    if has_valid_parent then
      rt_set_metrics (count_accepted namespace kind status) (rt_set_store (upsert route_key (with_status status r)) s)
    else rt_set_metrics (count_rejected namespace kind status) (rt_set_store (remove route_key) s) in
  rt_set_metrics (λ m, update_route_metrics series listed (ReconcileMetrics_record_success kind m)) s.

Definition reconcile_stream_route (now : string) (api : RouteApi) (r : R) (s : RouteState) : result RouteError Action * RouteState :=
  let namespace := unwrap_or "" (om_namespace (meta r)) in
  let name := name_or_empty (meta r) in
  let route_key := key namespace name in
  if is_some (om_deletion_timestamp (meta r)) then (Ok AwaitChange, rt_set_store (remove route_key) s)
  else
    match parent_loop (stream_parent_status now api (planner_snapshot (rt_store s)) namespace name) (parents r) ∅ with
    | Err e => (Err e, s)
    | Ok (status, has_valid_parent) =>
        match ra_patch_status api with
        | Some e => (Err (RouteKubeError e), s)
        | None => (Ok (Requeue 60), finish_stream_route namespace name r status has_valid_parent (ra_list api) (rt_push status s))
        end
    end.

End stream_route.

Definition with_tcp_status (st : list RouteParentStatus) (r : TCPRoute) : TCPRoute := mkTCPRoute (tr_metadata r) (tr_spec r) (Some st).
Definition with_tls_status (st : list RouteParentStatus) (r : TLSRoute) : TLSRoute := mkTLSRoute (lr_metadata r) (lr_spec r) (Some st).

(** The copies the two files have of the shared steps. *)
Definition tcp_condition_from_plan (now : string) (ap : AttachmentPlan) (g : Gateway)
    (route_namespace route_name section_name : string) (port : option N) : Condition :=
  (condition_from_plan is_protocol_compatible_tcp now ap g route_namespace route_name section_name port).1.
Definition tls_condition_from_plan (now : string) (ap : AttachmentPlan) (g : Gateway)
    (route_namespace route_name section_name : string) (port : option N) : Condition :=
  (condition_from_plan is_protocol_compatible_tls now ap g route_namespace route_name section_name port).1.
Definition tls_planner_accepted_condition_for_section_cached :=
  planner_accepted_condition_for_section_cached is_protocol_compatible_tls.
Definition tls_parent_status := stream_parent_status is_protocol_compatible_tls "TLS".
Definition finish_tlsroute := finish_stream_route with_tls_status "TLSRoute" "wicket_tlsroutes" upsert_tls_route remove_tls_route.
Definition update_tcproute_metrics := update_route_metrics "wicket_tcproutes".
Definition update_tlsroute_metrics := update_route_metrics "wicket_tlsroutes".

Definition reconcile_tcproute :=
  reconcile_stream_route tr_metadata (λ r, trs_parent_refs (tr_spec r)) with_tcp_status is_protocol_compatible_tcp "TCP" "TCPRoute" "wicket_tcproutes"
    upsert_tcp_route remove_tcp_route.
Definition reconcile_tlsroute :=
  reconcile_stream_route lr_metadata (λ r, lrs_parent_refs (lr_spec r)) with_tls_status is_protocol_compatible_tls "TLS" "TLSRoute" "wicket_tlsroutes"
    upsert_tls_route remove_tls_route.

(** [error_policy_httproute] and its copies. *)
Definition error_policy_route (kind : string) (e : RouteError) (m : Metrics) : Action * Metrics :=
  (Requeue 5, count_reconcile_error kind m).
Definition error_policy_tcproute := error_policy_route "TCPRoute".
Definition error_policy_tlsroute := error_policy_route "TLSRoute".

(** ** Initial lists *)

Definition list_routes {R} (meta : R → ObjectMeta) (upsert : string → R → SharedStore → SharedStore) (rc : ResourceClass)
    (listed : option (list R)) (s : SharedStore) : option SharedStore :=
  match listed with
  | None => None
  | Some items =>
      Some (mark_listed rc (foldl (λ s r, upsert (key (unwrap_or "" (om_namespace (meta r))) (name_or_empty (meta r))) r s) s items))
  end.
Definition list_http_routes := list_routes hr_metadata upsert_http_route HttpRoutes.
Definition list_tcp_routes := list_routes tr_metadata upsert_tcp_route TcpRoutes.
Definition list_tls_routes := list_routes lr_metadata upsert_tls_route TlsRoutes.

(** ** The cache of plans is transparent *)

(** The conditions of a section reference without a cache. *)
Definition section_conditions (compat : ProtocolType → bool) (now : string) (snapshot : SnapshotResult PlannerSnapshot) (g : Gateway)
    (rns rname section : string) (port : option N) : Condition * option Condition :=
  match snapshot with
  | NotReady => (condition_from_spec compat now g section port, None)
  | SnapReady sn =>
      match plan (mkAttachmentPlanInput (ns_or_default (gw_metadata g)) (name_or_empty (gw_metadata g))
                    (unwrap_or 0%Z (om_generation (gw_metadata g))) sn) with
      | Ok ap => condition_from_plan compat now ap g rns rname section port
      | Err _ => (condition_from_spec compat now g section port, None)
      end
  end.

(** The cache holds plans of the snapshot at hand. *)
Definition cache_ok (snapshot : SnapshotResult PlannerSnapshot) (cache : PlanCache) : Prop :=
  ∀ ns n gen ap, cache !! (ns, n, gen) = Some ap →
    ∃ sn, snapshot = SnapReady sn ∧ plan (mkAttachmentPlanInput ns n gen sn) = Ok ap.

Lemma cached_conditions compat now snapshot g rns rname section port cache :
  cache_ok snapshot cache →
  ∃ cache', planner_parent_conditions_for_section_cached compat now snapshot g rns rname section port cache =
              (section_conditions compat now snapshot g rns rname section port, cache') ∧ cache_ok snapshot cache'.
Proof.
  intros Hc. unfold planner_parent_conditions_for_section_cached, section_conditions. destruct snapshot as [|sn]; [by eexists|].
  set (k := (ns_or_default (gw_metadata g), name_or_empty (gw_metadata g), unwrap_or 0%Z (om_generation (gw_metadata g)))).
  destruct (cache !! k) as [ap|] eqn:E.
  - rewrite E. destruct (Hc _ _ _ _ E) as (sn'&[= <-]&->). by eexists.
  - destruct (plan _) as [ap|e] eqn:Ep; [|by eexists]. rewrite lookup_insert_eq. eexists. split; [done|].
    intros ns n gen ap'. destruct (decide ((ns, n, gen) = k)) as [He|Hne].
    + rewrite He, lookup_insert_eq. intros [= <-]. injection He as -> -> ->. eauto.
    + rewrite lookup_insert_ne by done. apply Hc.
Qed.

(** The verdicts on a parent reference without a cache. *)
Definition http_verdict (now : string) (api : RouteApi) (snapshot : SnapshotResult PlannerSnapshot) (ns name : string)
    (gen : option Z) (p : ParentReference) : result RouteError (RouteParentStatus * bool) :=
  resolve_parent api ns p ≫= λ resolved,
  match resolved with
  | inl message => Ok (build_route_parent_status now p WICKET_CONTROLLER_NAME (invalid_parent now message) gen None, false)
  | inr g =>
      let '(accepted, refs) :=
        match pr_section_name p with
        | Some section => section_conditions is_protocol_compatible_http now snapshot g ns name section (pr_port p)
        | None => http_route_gateway_wide_condition_from_spec now g (pr_port p)
        end in
      Ok (build_route_parent_status now p WICKET_CONTROLLER_NAME accepted gen refs, String.eqb (cond_status accepted) "True")
  end.

Definition stream_verdict (compat : ProtocolType → bool) (proto now : string) (api : RouteApi)
    (snapshot : SnapshotResult PlannerSnapshot) (ns name : string) (p : ParentReference) : result RouteError (RouteParentStatus * bool) :=
  resolve_parent api ns p ≫= λ resolved,
  match resolved with
  | inl message => Ok (mkRouteParentStatus p WICKET_CONTROLLER_NAME [invalid_parent now message], false)
  | inr g =>
      let accepted :=
        match pr_section_name p with
        | Some section => (section_conditions compat now snapshot g ns name section (pr_port p)).1
        | None => stream_gateway_wide_condition compat proto now g (pr_port p)
        end in
      let is_accepted := String.eqb (cond_status accepted) "True" in
      Ok (mkRouteParentStatus p WICKET_CONTROLLER_NAME (if is_accepted then [accepted; Condition_resolved_refs now] else [accepted]),
          is_accepted)
  end.

Lemma parent_loop_spec snapshot step (verdict : ParentReference → result RouteError (RouteParentStatus * bool)) refs cache :
  (∀ p c, cache_ok snapshot c →
     match verdict p with
     | Ok v => ∃ c', step p c = Ok (v, c') ∧ cache_ok snapshot c'
     | Err e => step p c = Err e
     end) →
  cache_ok snapshot cache →
  parent_loop step refs cache = try_map verdict refs ≫= λ l, Ok (l.*1, existsb snd l).
Proof.
  intros Hstep. revert cache. induction refs as [|p refs IH]; intros cache Hc; cbn; [done|].
  specialize (Hstep p cache Hc). destruct (verdict p) as [[st b]|e]; [|by rewrite Hstep].
  destruct Hstep as (c'&->&Hc'). cbn. rewrite (IH c' Hc'). by destruct (try_map verdict refs).
Qed.

Lemma cache_ok_empty snapshot : cache_ok snapshot ∅.
Proof. intros ns n gen ap. by rewrite lookup_empty. Qed.

Lemma http_loop now api snapshot ns name gen refs :
  parent_loop (http_parent_status now api snapshot ns name gen) refs ∅ =
  try_map (http_verdict now api snapshot ns name gen) refs ≫= λ l, Ok (l.*1, existsb snd l).
Proof.
  apply (parent_loop_spec snapshot); [|apply cache_ok_empty]. intros p c Hc. unfold http_verdict, http_parent_status.
  destruct (resolve_parent api ns p) as [[message|g]|e]; cbn; [by exists c| |done].
  destruct (pr_section_name p) as [section|].
  - destruct (cached_conditions is_protocol_compatible_http now snapshot g ns name section (pr_port p) c Hc) as (c'&->&Hc').
    destruct (section_conditions _ _ _ _ _ _ _ _) as [a rr]. by exists c'.
  - destruct (http_route_gateway_wide_condition_from_spec _ _ _) as [a rr]. by exists c.
Qed.

Lemma stream_loop compat proto now api snapshot ns name refs :
  parent_loop (stream_parent_status compat proto now api snapshot ns name) refs ∅ =
  try_map (stream_verdict compat proto now api snapshot ns name) refs ≫= λ l, Ok (l.*1, existsb snd l).
Proof.
  apply (parent_loop_spec snapshot); [|apply cache_ok_empty]. intros p c Hc.
  unfold stream_verdict, stream_parent_status, planner_accepted_condition_for_section_cached.
  destruct (resolve_parent api ns p) as [[message|g]|e]; cbn; [by exists c| |done].
  destruct (pr_section_name p) as [section|].
  - destruct (cached_conditions compat now snapshot g ns name section (pr_port p) c Hc) as (c'&->&Hc').
    destruct (section_conditions _ _ _ _ _ _ _ _) as [a rr]. by exists c'.
  - by exists c.
Qed.

(** ** Statuses up to time stamps *)

Notation parent_sim := (group_sim rps_parent_ref rps_conditions set_rps_conditions).
Notation parents_sim := (Forall2 parent_sim).

#[local] Instance parent_sim_equiv : Equivalence parent_sim := group_sim_equiv _ _ _.

Lemma preserve_parents_sim new existing : parents_sim (preserve_httproute_status_timestamps new existing) new.
Proof.
  unfold preserve_httproute_status_timestamps. apply Forall2_fmap_l, Forall_Forall2_diag, Forall_true. intros x.
  by apply preserve_group_sim.
Qed.

Lemma http_final_sim r st : parents_sim (http_final_status r st) st.
Proof. unfold http_final_status. destruct (hr_parents r); [apply preserve_parents_sim|reflexivity]. Qed.

Lemma parent_status_semantically_equal_true x y : parent_status_semantically_equal x y = true ↔ parent_sim x y.
Proof.
  unfold parent_status_semantically_equal, group_sim. rewrite !andb_true_iff, bool_decide_eq_true, String.eqb_eq,
    conditions_semantically_equal_true. destruct x, y. unfold set_rps_conditions. cbn. naive_solver.
Qed.

Lemma httproute_status_semantically_equal_true a b : httproute_status_semantically_equal a b = true ↔ parents_sim a b.
Proof. apply zip_forallb_Forall2, parent_status_semantically_equal_true. Qed.

Lemma parent_sim_accepted x y : parent_sim x y → has_condition "Accepted" "True" x = has_condition "Accepted" "True" y.
Proof.
  intros (_&_&Hc). unfold has_condition. induction Hc as [|c d cs ds Hcd _ IH]; [done|]. cbn.
  by rewrite IH, (cond_sim_type _ _ Hcd), (cond_sim_status _ _ Hcd).
Qed.

Lemma parents_sim_accepted a b : parents_sim a b → parents_accepted_by_wicket a = parents_accepted_by_wicket b.
Proof.
  unfold parents_accepted_by_wicket. induction 1 as [|x y a b Hxy _ IH]; [done|]. cbn [existsb]. rewrite IH. f_equal. f_equal; [|by apply parent_sim_accepted].
  destruct Hxy as (_&Hs&_). destruct x, y. unfold set_rps_conditions in Hs. cbn in *. by injection Hs as -> ->.
Qed.

(** ** Verdicts *)

(** The verdict [b] on a parent and the status reported for it agree. *)
Definition verdict_ok (gen : option Z) (p : ParentReference) (st : RouteParentStatus) (b : bool) : Prop :=
  rps_parent_ref st = p ∧ rps_controller_name st = WICKET_CONTROLLER_NAME ∧
  ∃ a rr, rps_conditions st = [a; rr] ∧ cond_type a = "Accepted" ∧ cond_type rr = "ResolvedRefs" ∧
          b = String.eqb (cond_status a) "True" ∧ Forall (condition_ok gen) [a; rr].

Lemma section_conditions_ok compat now snapshot g rns rname section port :
  let '(a, rr) := section_conditions compat now snapshot g rns rname section port in
  cond_type a = "Accepted" ∧ (cond_status a = "True" ∨ cond_status a = "False") ∧
  ∀ c, rr = Some c → cond_type c = "ResolvedRefs" ∧ cond_status c = "False".
Proof.
  assert (cond_type (condition_from_spec compat now g section port) = "Accepted" ∧
          (cond_status (condition_from_spec compat now g section port) = "True" ∨
           cond_status (condition_from_spec compat now g section port) = "False")) as [Ht Hs].
  { unfold condition_from_spec. repeat case_match; cbn; auto. }
  unfold section_conditions. destruct snapshot as [|sn]; [done|]. destruct (plan _) as [ap|e]; [|done].
  unfold condition_from_plan. destruct (result_for_route_parent_ref _ _ _ _ _) as [r|]; [|done].
  destruct (is_attached _); [|cbn; naive_solver]. split; [done|]. split; [by left|]. intros c.
  destruct (resolved_refs_reason _); [|done]. by intros [= <-].
Qed.

Lemma http_verdict_ok now api snapshot ns name gen p st b :
  http_verdict now api snapshot ns name gen p = Ok (st, b) → verdict_ok gen p st b.
Proof.
  unfold http_verdict. destruct (resolve_parent api ns p) as [[message|g]|e]; cbn; [| |done].
  - intros [= <- <-]. split; [done|]. split; [done|]. unfold build_route_parent_status. cbn. do 2 eexists.
    split_and!; [done..|]. rewrite !Forall_cons, Forall_nil. unfold condition_ok. cbn. naive_solver.
  - set (v := match pr_section_name p with Some _ => _ | None => _ end).
    assert (cond_type v.1 = "Accepted" ∧ (cond_status v.1 = "True" ∨ cond_status v.1 = "False") ∧
            ∀ c, v.2 = Some c → cond_type c = "ResolvedRefs" ∧ cond_status c = "False") as (Ha&Hs&Hr).
    { unfold v. destruct (pr_section_name p) as [section|].
      - pose proof (section_conditions_ok is_protocol_compatible_http now snapshot g ns name section (pr_port p)) as H.
        by destruct (section_conditions _ _ _ _ _ _ _ _).
      - unfold http_route_gateway_wide_condition_from_spec. case_match; cbn; naive_solver. }
    destruct v as [a rr]. cbn in Ha, Hs, Hr. intros [= <- <-]. split; [done|]. split; [done|]. do 2 eexists.
    split; [done|]. cbn. split; [done|].
    assert (let c := unwrap_or (Condition_resolved_refs now) rr in
            cond_type c = "ResolvedRefs" ∧ (cond_status c = "True" ∨ cond_status c = "False")) as [Hc Hc'].
    { destruct rr as [c|]; cbn; [|auto]. destruct (Hr c eq_refl). auto. }
    split; [done|]. split; [done|]. rewrite !Forall_cons, Forall_nil. unfold condition_ok. cbn. naive_solver.
Qed.

(** ** One reconcile of an HTTPRoute *)

Definition http_key (r : HTTPRoute) : string := key (unwrap_or "" (om_namespace (hr_metadata r))) (name_or_empty (hr_metadata r)).

(** The verdicts on all parents, in order; the first fault wins. *)
Definition http_verdicts (now : string) (api : RouteApi) (store : SharedStore) (r : HTTPRoute)
    : result RouteError (list (RouteParentStatus * bool)) :=
  try_map (http_verdict now api (planner_snapshot store) (unwrap_or "" (om_namespace (hr_metadata r)))
             (name_or_empty (hr_metadata r)) (om_generation (hr_metadata r))) (hrs_parent_refs (hr_spec r)).

Lemma http_verdicts_ok now api store r l :
  http_verdicts now api store r = Ok l →
  Forall2 (λ p v, verdict_ok (om_generation (hr_metadata r)) p v.1 v.2) (hrs_parent_refs (hr_spec r)) l.
Proof.
  unfold http_verdicts. intros H%try_map_Ok. eapply Forall2_impl; [exact H|]. intros p [st b]. apply http_verdict_ok.
Qed.

Lemma verdicts_accepted gen refs l :
  Forall2 (λ p (v : RouteParentStatus * bool), verdict_ok gen p v.1 v.2) refs l →
  parents_accepted_by_wicket l.*1 = existsb snd l.
Proof.
  unfold parents_accepted_by_wicket. induction 1 as [|p v refs l (_&Hc&a&rr&Hs&Ha&Hr&Hb&_) _ IH]; [done|].
  cbn [fmap list_fmap existsb]. rewrite IH. f_equal. rewrite Hc, Hs, Hb. cbn [existsb]. by rewrite Ha, Hr, orb_false_r.
Qed.

(** The outcome [(result, s')] of a reconcile of [r] from [s], as [httproute_reconcile_spec] says it. *)
Definition http_outcome (now : string) (api : RouteApi) (r : HTTPRoute) (s : RouteState)
    (o : result RouteError Action * RouteState) : Prop :=
  match o with
  | (Err e, s') =>
      s' = s ∧ (http_verdicts now api (rt_store s) r = Err e ∨ ∃ m, ra_patch_status api = Some m ∧ e = RouteKubeError m)
  | (Ok a, s') =>
      if is_some (om_deletion_timestamp (hr_metadata r)) then
        a = AwaitChange ∧ rt_patches s' = rt_patches s ∧
        si_http_routes (ss_inner (rt_store s')) = delete (http_key r) (si_http_routes (ss_inner (rt_store s)))
      else
        a = Requeue 60 ∧ ∃ l st, http_verdicts now api (rt_store s) r = Ok l ∧ parents_sim st l.*1 ∧
          Forall2 (λ p v, verdict_ok (om_generation (hr_metadata r)) p v.1 v.2) (hrs_parent_refs (hr_spec r)) l ∧
          rt_patches s' = (if http_needs_patch r st then [st] else []) ++ rt_patches s ∧
          si_http_routes (ss_inner (rt_store s')) =
            (if existsb snd l then <[http_key r := with_http_status st r]> else delete (http_key r)) (si_http_routes (ss_inner (rt_store s))) ∧
          http_route_is_accepted (with_http_status st r) = existsb snd l
  end.

Lemma http_reconcile_outcome now api r s : http_outcome now api r s (reconcile_httproute now api r s).
Proof.
  unfold http_outcome, reconcile_httproute, finish_httproute. destruct (is_some _); [done|]. rewrite http_loop.
  change (try_map _ _) with (http_verdicts now api (rt_store s) r).
  destruct (http_verdicts now api (rt_store s) r) as [l|e] eqn:Ev; cbn [mbind result_bind]; [|by auto].
  pose proof (http_verdicts_ok _ _ _ _ _ Ev) as Hok. pose proof (http_final_sim r l.*1) as Hsim.
  set (st := http_final_status r l.*1) in *.
  assert (http_route_is_accepted (with_http_status st r) = existsb snd l) as Hacc.
  { unfold http_route_is_accepted, with_http_status. cbn. rewrite (parents_sim_accepted _ _ Hsim). by eapply verdicts_accepted. }
  destruct (http_needs_patch r st) eqn:Hp; [destruct (ra_patch_status api) as [m|]; [naive_solver|]|];
    (split; [done|]); exists l, st; rewrite Hp; destruct (existsb snd l); done.
Qed.

(** C7: one reconcile of an HTTPRoute.  On an error (a fault reading a parent, or a
    failed patch) nothing has changed.  A deleted route leaves the store.  Otherwise
    every parent reference gets one status, in order, with an "Accepted" and a
    "ResolvedRefs" condition of the route's generation; a patch is sent exactly when
    the status differs from the route's own; and the store holds the route, under its
    key and with that status, exactly when some parent accepted it, which is exactly
    when the configuration generator will see it as accepted. *)
Theorem httproute_reconcile_spec now api r s :
  match reconcile_httproute now api r s with
  | (Err e, s') =>
      s' = s ∧ (http_verdicts now api (rt_store s) r = Err e ∨ ∃ m, ra_patch_status api = Some m ∧ e = RouteKubeError m)
  | (Ok a, s') =>
      if is_some (om_deletion_timestamp (hr_metadata r)) then
        a = AwaitChange ∧ rt_patches s' = rt_patches s ∧
        si_http_routes (ss_inner (rt_store s')) = delete (http_key r) (si_http_routes (ss_inner (rt_store s)))
      else
        a = Requeue 60 ∧ ∃ l st, http_verdicts now api (rt_store s) r = Ok l ∧ parents_sim st l.*1 ∧
          Forall2 (λ p v, verdict_ok (om_generation (hr_metadata r)) p v.1 v.2) (hrs_parent_refs (hr_spec r)) l ∧
          rt_patches s' = (if http_needs_patch r st then [st] else []) ++ rt_patches s ∧
          si_http_routes (ss_inner (rt_store s')) =
            (if existsb snd l then <[http_key r := with_http_status st r]> else delete (http_key r)) (si_http_routes (ss_inner (rt_store s))) ∧
          http_route_is_accepted (with_http_status st r) = existsb snd l
  end.
Proof. apply http_reconcile_outcome. Qed.

(** ** Statuses come to rest *)

#[local] Instance cond_sim_reflexive : Reflexive cond_sim.
Proof. intros c. reflexivity. Qed.

Lemma Condition_new_sim now now' ty b reason message :
  cond_sim (Condition_new now ty b reason message) (Condition_new now' ty b reason message).
Proof. done. Qed.

Lemma observed_sim gen c d : cond_sim c d → cond_sim (with_observed_generation gen c) (with_observed_generation gen d).
Proof. destruct c, d. unfold cond_sim, with_last_transition_time, with_observed_generation. cbn. by intros [= -> -> _ -> ->]. Qed.

Lemma section_conditions_sim compat now now' snapshot g rns rname section port :
  let v := section_conditions compat now snapshot g rns rname section port in
  let v' := section_conditions compat now' snapshot g rns rname section port in
  cond_sim v.1 v'.1 ∧ option_Forall2 cond_sim v.2 v'.2.
Proof.
  assert (cond_sim (condition_from_spec compat now g section port) (condition_from_spec compat now' g section port)) as Hs.
  { unfold condition_from_spec. repeat case_match; apply Condition_new_sim. }
  unfold section_conditions. destruct snapshot as [|sn]; [by split; [|constructor]|].
  destruct (plan _) as [ap|e]; [|by split; [|constructor]]. unfold condition_from_plan.
  destruct (result_for_route_parent_ref _ _ _ _ _) as [r|]; [|by split; [|constructor]].
  destruct (is_attached _); [|split; [done|constructor]].
  split; [apply Condition_new_sim|]. cbn. destruct (resolved_refs_reason _); constructor. done.
Qed.

Lemma http_verdict_sim now now' api snapshot ns name gen p :
  match http_verdict now api snapshot ns name gen p, http_verdict now' api snapshot ns name gen p with
  | Ok v, Ok v' => parent_sim v.1 v'.1 ∧ v.2 = v'.2
  | Err e, Err e' => e = e'
  | _, _ => False
  end.
Proof.
  unfold http_verdict. destruct (resolve_parent api ns p) as [[message|g]|e]; cbn [mbind result_bind]; [| |done].
  { split; [|done]. split_and!; [done..|]. repeat constructor. }
  set (v := match pr_section_name p with Some _ => _ | None => _ end) at 1.
  set (v' := match pr_section_name p with Some _ => _ | None => _ end).
  assert (cond_sim v.1 v'.1 ∧ option_Forall2 cond_sim v.2 v'.2) as [Ha Hr].
  { unfold v, v'. destruct (pr_section_name p); [apply section_conditions_sim|].
    unfold http_route_gateway_wide_condition_from_spec. case_match; (split; [apply Condition_new_sim|constructor]). }
  destruct v as [a rr], v' as [a' rr']. cbn in *. split; [|by rewrite (cond_sim_status _ _ Ha)].
  split_and!; [done..|]. repeat constructor; apply observed_sim; [done|]. by destruct Hr.
Qed.

Lemma http_verdicts_sim now now' api store r l :
  http_verdicts now api store r = Ok l →
  ∃ l', http_verdicts now' api store r = Ok l' ∧ Forall2 (λ v v', parent_sim v.1 v'.1 ∧ v.2 = v'.2) l' l.
Proof.
  unfold http_verdicts. induction (hrs_parent_refs (hr_spec r)) as [|p refs IH] in l |- *; cbn [try_map].
  { intros [= <-]. by eexists. }
  pose proof (http_verdict_sim now' now api (planner_snapshot store) (unwrap_or "" (om_namespace (hr_metadata r)))
    (name_or_empty (hr_metadata r)) (om_generation (hr_metadata r)) p) as Hp.
  destruct (http_verdict now _ _ _ _ _ p) as [v|e]; cbn [mbind result_bind]; [|done].
  destruct (http_verdict now' _ _ _ _ _ p) as [v'|e]; cbn [mbind result_bind]; [|done].
  destruct (try_map (http_verdict now _ _ _ _ _) refs) as [l0|e]; cbn [mbind result_bind]; [|done]. intros [= <-].
  destruct (IH l0 eq_refl) as (l'&->&Hl). cbn [mbind result_bind]. eexists. split; [done|]. by constructor.
Qed.

Lemma parents_sim_distinct gen refs l st :
  Forall2 (λ p (v : RouteParentStatus * bool), verdict_ok gen p v.1 v.2) refs l → parents_sim st l.*1 →
  rps_parent_ref <$> st = refs ∧ ∀ y, y ∈ st → NoDup (cond_type <$> rps_conditions y).
Proof.
  intros Hok. revert st. induction Hok as [|p v refs l (Hp&_&a&rr&Hs&Ha&Hr&_) _ IH]; intros st Hst; csimpl in Hst.
  { inversion Hst; subst. split; [done|]. by intros y ?%elem_of_nil. }
  inversion Hst as [|x y xs ys Hx Hxs]; subst. destruct (IH _ Hxs) as [<- Hd]. split.
  { csimpl. by rewrite (proj1 Hx). }
  intros y [->|Hy]%elem_of_cons; [|by apply Hd]. destruct Hx as (_&_&Hc). rewrite (conds_sim_types _ _ Hc), Hs. csimpl.
  rewrite Ha, Hr. by apply (bool_decide_unpack _).
Qed.

(** Statuses of HTTPRoutes come to rest.  Once the status a reconcile computed
    is the route's status, a later reconcile that plans on the same snapshot succeeds
    without a patch, whatever the time and even if patches would fail; and when the
    parent references are distinct the store then holds the route exactly as the API
    server has it, time stamps included, or not at all when no parent accepts it. *)
Theorem httproute_status_settles now now' api r s s2 l :
  om_deletion_timestamp (hr_metadata r) = None →
  http_verdicts now api (rt_store s) r = Ok l →
  planner_snapshot (rt_store s2) = planner_snapshot (rt_store s) →
  let r' := with_http_status (http_final_status r l.*1) r in
  ∃ s', reconcile_httproute now' api r' s2 = (Ok (Requeue 60), s') ∧ rt_patches s' = rt_patches s2 ∧
    (NoDup (hrs_parent_refs (hr_spec r)) →
     si_http_routes (ss_inner (rt_store s')) !! http_key r = if existsb snd l then Some r' else None).
Proof.
  intros Hd Hl Hsn r'. set (st := http_final_status r l.*1) in *.
  destruct (http_verdicts_sim now now' api (rt_store s) r l Hl) as (l'&Hl'&Hs).
  assert (parents_sim l'.*1 l.*1 ∧ existsb snd l' = existsb snd l) as [Hs1 Hs2].
  { clear -Hs. induction Hs as [|v v' l' l [H1 H2] _ [IH1 IH2]]; csimpl; [by split; [constructor|]|]. split; [by constructor|]. by rewrite H2, IH2. }
  assert (parents_sim (http_final_status r' l'.*1) st) as Hst.
  { rewrite http_final_sim, Hs1. symmetry. apply http_final_sim. }
  assert (http_needs_patch r' (http_final_status r' l'.*1) = false) as Hn.
  { unfold http_needs_patch. cbn. apply negb_false_iff, httproute_status_semantically_equal_true. by symmetry. }
  unfold reconcile_httproute, finish_httproute. cbn [hr_metadata hr_spec r' with_http_status]. rewrite Hd. cbn [is_some]. rewrite http_loop, Hsn.
  change (try_map _ _) with (http_verdicts now' api (rt_store s) r). rewrite Hl'. cbn [mbind result_bind].
  fold r'. rewrite Hn, Hs2. eexists. split; [done|]. destruct (existsb snd l); (split; [done|]); intros Hnd.
  - cbn. rewrite lookup_insert_eq. change (Some (with_http_status (http_final_status r' l'.*1) r) = Some r'). do 2 f_equal.
    destruct (parents_sim_distinct _ _ _ _ (http_verdicts_ok _ _ _ _ _ Hl) (http_final_sim r l.*1)) as [Hp Hc].
    unfold http_final_status. cbn. apply preserve_groups_exact; try done.
    + by intros [].
    + unfold st. by rewrite Hp.
    + rewrite Hs1. symmetry. apply http_final_sim.
  - cbn. apply lookup_delete_eq.
Qed.

(** ** A rejected route is forgotten *)

(** No stored route of any kind has this namespace and name. *)
Definition unstored (i : StoreInner) (ns name : string) : Prop :=
  (∀ k r, si_http_routes i !! k = Some r → ¬ (ns_or_default (hr_metadata r) = ns ∧ name_or_empty (hr_metadata r) = name)) ∧
  (∀ k r, si_tcp_routes i !! k = Some r → ¬ (ns_or_default (tr_metadata r) = ns ∧ name_or_empty (tr_metadata r) = name)) ∧
  (∀ k r, si_tls_routes i !! k = Some r → ¬ (ns_or_default (lr_metadata r) = ns ∧ name_or_empty (lr_metadata r) = name)).

(** For such a route the plan has no result, and the specification alone decides. *)
Lemma unstored_uses_spec compat now store g ns name section port :
  unstored (ss_inner store) ns name →
  section_conditions compat now (planner_snapshot store) g ns name section port = (condition_from_spec compat now g section port, None).
Proof.
  intros (Hh&Ht&Hl). unfold section_conditions, planner_snapshot. destruct (negb _); [done|].
  destruct (plan _) as [ap|e] eqn:Ep; [|done]. unfold condition_from_plan, result_for_route_parent_ref.
  destruct (find_first _ _) as [x|] eqn:Ef; [|done]. apply find_first_Some_elem in Ef as [Hx Hm].
  rewrite !andb_true_iff, !String.eqb_eq in Hm. destruct Hm as [[[? ?] _] _].
  apply (elem_of_plan_results _ _ _ Ep) in Hx as (g'&ctx&_&Hc&Hx). destruct (evaluate_route _ _ Hx) as (Hns&Hn&_).
  exfalso. destruct Hc as [k r p Hk _ _|k r p Hk _ _|k r p Hk _ _]; cbn in Hns, Hn;
    [apply (Hh k r Hk)|apply (Ht k r Hk)|apply (Hl k r Hk)]; split; congruence.
Qed.

Lemma http_verdicts_elem now api store r l p st b :
  http_verdicts now api store r = Ok l → p ∈ hrs_parent_refs (hr_spec r) →
  http_verdict now api (planner_snapshot store) (unwrap_or "" (om_namespace (hr_metadata r))) (name_or_empty (hr_metadata r))
    (om_generation (hr_metadata r)) p = Ok (st, b) → (st, b) ∈ l.
Proof.
  unfold http_verdicts. rewrite try_map_Ok. intros Hl [i Hi]%list_elem_of_lookup Hv.
  destruct (Forall2_lookup_l _ _ _ _ _ Hl Hi) as (v&Hv'&He). rewrite Hv in He. injection He as <-. by eapply list_elem_of_lookup_2.
Qed.

(** Faults come from the API reads alone. *)
Lemma http_verdict_reads now now' api snapshot snapshot' ns name gen p :
  is_Some (ok (http_verdict now api snapshot ns name gen p)) → is_Some (ok (http_verdict now' api snapshot' ns name gen p)).
Proof.
  unfold http_verdict. destruct (resolve_parent api ns p) as [[m|g]|e]; cbn [mbind result_bind]; [by eauto| |by intros []].
  intros _. repeat case_match; by eexists.
Qed.

Lemma http_verdicts_reads now now' api store store' r r' l :
  hr_metadata r' = hr_metadata r → hr_spec r' = hr_spec r →
  http_verdicts now api store r = Ok l → is_Some (ok (http_verdicts now' api store' r')).
Proof.
  intros Hm Hs. unfold http_verdicts. rewrite Hm, Hs. intros Hl.
  assert (is_Some (ok (http_verdicts now api store r))) as Hsome by (unfold http_verdicts; rewrite Hl; by eexists).
  apply try_map_total in Hsome. apply try_map_total. eapply Forall_impl; [exact Hsome|]. intros p. apply http_verdict_reads.
Qed.

(** C39: a rejected route comes back.  When a reconcile rejects an HTTPRoute (no
    parent accepts it, whatever the policy that said so), the route leaves the store;
    if no other stored route of any kind has its namespace and name, the next
    reconcile of the same route finds no verdict of the attachment planner, and a
    reference to a section of a Wicket gateway whose listener speaks HTTP on the
    right port is accepted: the route is stored and served, against the namespace,
    kind or hostname policy that rejected it. *)
Theorem rejected_route_returns now now' api r r' s a s1 p g section :
  om_deletion_timestamp (hr_metadata r) = None → ra_patch_status api = None →
  hr_metadata r' = hr_metadata r → hr_spec r' = hr_spec r →
  reconcile_httproute now api r s = (Ok a, s1) →
  si_http_routes (ss_inner (rt_store s1)) !! http_key r = None →
  unstored (ss_inner (rt_store s1)) (unwrap_or "" (om_namespace (hr_metadata r))) (name_or_empty (hr_metadata r)) →
  p ∈ hrs_parent_refs (hr_spec r) → resolve_parent api (unwrap_or "" (om_namespace (hr_metadata r))) p = Ok (inr g) →
  pr_section_name p = Some section →
  condition_from_spec is_protocol_compatible_http now' g section (pr_port p) = Condition_accepted now' →
  ∃ s2 stored, reconcile_httproute now' api r' s1 = (Ok (Requeue 60), s2) ∧
    si_http_routes (ss_inner (rt_store s2)) !! http_key r = Some stored ∧ http_route_is_accepted stored = true.
Proof.
  intros Hd Hpatch Hm Hs H1 Hnone Hun Hp Hg Hsec Hspec.
  pose proof (http_reconcile_outcome now api r s) as Ho. rewrite H1 in Ho. unfold http_outcome in Ho. rewrite Hd in Ho.
  destruct Ho as (_&l&_&Hl&_). destruct (http_verdicts_reads now now' api _ (rt_store s1) _ _ _ Hm Hs Hl) as [l' Hl'].
  destruct (http_verdicts now' api (rt_store s1) r') as [l0|] eqn:Hv; [|done]. clear l' Hl'.
  pose proof (http_reconcile_outcome now' api r' s1) as Ho.
  destruct (reconcile_httproute now' api r' s1) as [[a2|e] s2]; unfold http_outcome in Ho.
  2:{ destruct Ho as [_ [He|(m&He&_)]]; congruence. }
  rewrite Hm, Hd in Ho. destruct Ho as (->&l2&st&Hl2&_&_&_&Hst&Hacc). rewrite Hv in Hl2. injection Hl2 as <-.
  assert (existsb snd l0 = true) as He.
  { apply existsb_exists. eexists (_, true). split; [|done]. apply list_elem_of_In.
    eapply http_verdicts_elem; [exact Hv|by rewrite Hs|]. unfold http_verdict. rewrite Hm, Hg. cbn [mbind result_bind].
    rewrite Hsec, (unstored_uses_spec _ _ _ _ _ _ _ _ Hun), Hspec. done. }
  rewrite He in Hst, Hacc. exists s2, (with_http_status st r'). split_and!; [done| |done].
  rewrite Hst. unfold http_key. rewrite Hm. apply lookup_insert_eq.
Qed.

(** A reference to the whole gateway is accepted without the planner.  For a
    parent reference with no section name to a Wicket gateway, the verdict is
    "Accepted" as soon as one listener speaks HTTP on the port, for every content of
    the store: a listener's namespace, kind and hostname policy have no say, whatever
    the attachment planner reports for the route. *)
Theorem gateway_wide_skips_planner now api snapshot ns name gen p g :
  resolve_parent api ns p = Ok (inr g) → pr_section_name p = None →
  (∃ st b, http_verdict now api snapshot ns name gen p = Ok (st, b) ∧
     (b = true ↔ ∃ l, l ∈ gw_listeners g ∧ is_protocol_compatible_http (li_protocol l) = true ∧
                      ∀ port, pr_port p = Some port → li_port l = port)).
Proof.
  intros Hr Hs. unfold http_verdict. rewrite Hr, Hs. cbn [mbind result_bind].
  unfold http_route_gateway_wide_condition_from_spec, gateway_wide_listener.
  destruct (existsb _ _) eqn:E.
  - do 2 eexists. split; [done|]. split; [|done]. intros _. apply existsb_true in E as (l&Hl&Hc). destruct_bools.
    exists l. split_and!; [done..|]. intros port Hp. rewrite Hp in *. by apply N.eqb_eq.
  - do 2 eexists. split; [done|]. split; [done|]. intros (l&Hl&Hc&Hp). exfalso.
    apply not_true_iff_false in E. apply E, existsb_true. exists l. split; [done|]. rewrite Hc. cbn.
    destruct (pr_port p) as [port|]; [|done]. by rewrite (Hp port eq_refl), N.eqb_refl.
Qed.

(** ** One reconcile of a TCPRoute or TLSRoute *)

Section stream_outcome.
Context {R : Type} (meta : R → ObjectMeta) (parents : R → list ParentReference) (with_status : list RouteParentStatus → R → R).
Context (compat : ProtocolType → bool) (proto kind series : string).
Context (upsert : string → R → SharedStore → SharedStore) (remove : string → SharedStore → SharedStore).
Context (routes : StoreInner → gmap string R).
Hypothesis routes_upsert : ∀ k r s, routes (ss_inner (upsert k r s)) = <[k := r]> (routes (ss_inner s)).
Hypothesis routes_remove : ∀ k s, routes (ss_inner (remove k s)) = delete k (routes (ss_inner s)).

Definition stream_key (r : R) : string := key (unwrap_or "" (om_namespace (meta r))) (name_or_empty (meta r)).
Definition stream_verdicts (now : string) (api : RouteApi) (store : SharedStore) (r : R) :=
  try_map (stream_verdict compat proto now api (planner_snapshot store) (unwrap_or "" (om_namespace (meta r)))
             (name_or_empty (meta r))) (parents r).

(** The status of a parent agrees with the verdict [b] and is stamped with [now]. *)
Definition stream_verdict_ok (now : string) (p : ParentReference) (st : RouteParentStatus) (b : bool) : Prop :=
  rps_parent_ref st = p ∧ rps_controller_name st = WICKET_CONTROLLER_NAME ∧
  cond_type <$> rps_conditions st = (if b then ["Accepted"; "ResolvedRefs"] else ["Accepted"]) ∧
  cond_status <$> rps_conditions st = (if b then ["True"; "True"] else ["False"]) ∧
  Forall (λ c, cond_last_transition_time c = now) (rps_conditions st).

Lemma section_conditions_time now snapshot g rns rname section port :
  cond_last_transition_time (section_conditions compat now snapshot g rns rname section port).1 = now.
Proof.
  assert (cond_last_transition_time (condition_from_spec compat now g section port) = now) as Hs.
  { unfold condition_from_spec. by repeat case_match. }
  unfold section_conditions. destruct snapshot as [|sn]; [done|]. destruct (plan _) as [ap|e]; [|done].
  unfold condition_from_plan. destruct (result_for_route_parent_ref _ _ _ _ _) as [r|]; [|done]. by destruct (is_attached _).
Qed.

Lemma stream_verdict_spec now api snapshot ns name p st b :
  stream_verdict compat proto now api snapshot ns name p = Ok (st, b) → stream_verdict_ok now p st b.
Proof.
  unfold stream_verdict. destruct (resolve_parent api ns p) as [[message|g]|e]; cbn [mbind result_bind]; [| |done].
  - intros [= <- <-]. split_and!; try done. by repeat constructor.
  - set (c := match pr_section_name p with Some _ => _ | None => _ end).
    assert (cond_type c = "Accepted" ∧ (cond_status c = "True" ∨ cond_status c = "False") ∧ cond_last_transition_time c = now)
      as (Ha&Hs&Ht).
    { unfold c. destruct (pr_section_name p) as [section|].
      - pose proof (section_conditions_time now snapshot g ns name section (pr_port p)).
        pose proof (section_conditions_ok compat now snapshot g ns name section (pr_port p)) as H2.
        destruct (section_conditions _ _ _ _ _ _ _ _). naive_solver.
      - unfold stream_gateway_wide_condition. case_match; cbn; auto. }
    intros [= <- <-]. unfold stream_verdict_ok. destruct Hs as [Hs|Hs]; rewrite Hs; cbn; rewrite Ha, Hs; split_and!; try done;
      by repeat constructor.
Qed.

Definition stream_outcome (now : string) (api : RouteApi) (r : R) (s : RouteState) (o : result RouteError Action * RouteState) : Prop :=
  match o with
  | (Err e, s') => s' = s ∧ (stream_verdicts now api (rt_store s) r = Err e ∨ ∃ m, ra_patch_status api = Some m ∧ e = RouteKubeError m)
  | (Ok a, s') =>
      if is_some (om_deletion_timestamp (meta r)) then
        a = AwaitChange ∧ rt_patches s' = rt_patches s ∧ routes (ss_inner (rt_store s')) = delete (stream_key r) (routes (ss_inner (rt_store s)))
      else
        a = Requeue 60 ∧ ∃ l, stream_verdicts now api (rt_store s) r = Ok l ∧
          Forall2 (λ p v, stream_verdict_ok now p v.1 v.2) (parents r) l ∧
          rt_patches s' = l.*1 :: rt_patches s ∧
          routes (ss_inner (rt_store s')) =
            (if existsb snd l then <[stream_key r := with_status l.*1 r]> else delete (stream_key r)) (routes (ss_inner (rt_store s)))
  end.

Lemma stream_reconcile_outcome now api r s :
  stream_outcome now api r s (reconcile_stream_route meta parents with_status compat proto kind series upsert remove now api r s).
Proof using routes_upsert routes_remove.
  unfold stream_outcome, reconcile_stream_route, finish_stream_route. destruct (is_some _); [by rewrite <-routes_remove|]. rewrite stream_loop.
  change (try_map _ _) with (stream_verdicts now api (rt_store s) r).
  destruct (stream_verdicts now api (rt_store s) r) as [l|e] eqn:Ev; cbn [mbind result_bind]; [|by auto].
  destruct (ra_patch_status api) as [m|]; [naive_solver|]. split; [done|]. exists l. split; [done|]. split.
  { unfold stream_verdicts in Ev. apply try_map_Ok in Ev. eapply Forall2_impl; [exact Ev|]. intros p [st b]. apply stream_verdict_spec. }
  destruct (existsb snd l); split; try done; [by rewrite <-routes_upsert|by rewrite <-routes_remove].
Qed.

End stream_outcome.

Notation tcp_outcome := (stream_outcome tr_metadata (λ r, trs_parent_refs (tr_spec r)) with_tcp_status is_protocol_compatible_tcp "TCP" si_tcp_routes).
Notation tls_outcome := (stream_outcome lr_metadata (λ r, lrs_parent_refs (lr_spec r)) with_tls_status is_protocol_compatible_tls "TLS" si_tls_routes).

(** One reconcile of a TCPRoute or a TLSRoute.  On an error nothing has changed;
    a deleted route leaves the store; otherwise every parent reference gets a status
    that agrees with its verdict, the route is stored with it exactly when some parent
    accepts it, and a patch is sent every time, with every condition stamped anew. *)
Theorem stream_route_reconcile_spec now api s :
  (∀ r, tcp_outcome now api r s (reconcile_tcproute now api r s)) ∧ (∀ r, tls_outcome now api r s (reconcile_tlsroute now api r s)).
Proof. split; intros r; by apply stream_reconcile_outcome. Qed.

(** ** Examples *)

(** A gateway whose listener admits routes of its own namespace only, a route of
    another namespace that names the listener, and the store after the initial lists. *)
Definition ex_private_gateway : Gateway :=
  mkGateway (meta_of "infra" "edge")
    (mkGatewaySpec "wicket"
       [mkListener "web" None 80 HTTP None (Some (mkAllowedRoutes (Some (mkRouteNamespaces FromSame None)) []))] []) None.
Definition ex_section_ref : ParentReference := mkParentReference GATEWAY_API_GROUP "Gateway" (Some "infra") "edge" (Some "web") None.
Definition ex_guest (p : ParentReference) : HTTPRoute :=
  mkHTTPRoute (meta_of "apps" "shop")
    (mkHTTPRouteSpec [p] ["shop.example.com"] [mkHTTPRouteRule None [] [] [mkHTTPBackendRef ex_backend []] None]) None.
Definition ex_route_api : RouteApi :=
  mkRouteApi (λ ns n, if String.eqb ns "infra" && String.eqb n "edge" then Found ex_private_gateway else NotFound)
    (λ n, if String.eqb n "wicket" then Found ex_class else NotFound) None None.
Definition ex_route_store (p : ParentReference) : SharedStore :=
  run_ops ([OpUpsertGateway "infra/edge" ex_private_gateway; OpUpsertHttpRoute "apps/shop" (ex_guest p)]
           ++ (OpMarkListed <$> ResourceClass_ALL)) SharedStore_new.
Definition ex_route_state (p : ParentReference) : RouteState := mkRouteState (ex_route_store p) [] ∅.

(** The first reconcile rejects the route. *)
Definition ex_rejected : result RouteError Action * RouteState :=
  reconcile_httproute "2024-01-01T00:00:00Z" ex_route_api (ex_guest ex_section_ref) (ex_route_state ex_section_ref).

Example ex_rejected_reason :
  map (map (λ p, map cond_reason (rps_conditions p))) (rt_patches ex_rejected.2) =
    [[["NotAllowedByListenerNamespacePolicy"; "ResolvedRefs"]]].
Proof. vm_compute. reflexivity. Qed.

Lemma rejected_route_returns_witness :
  http_key (ex_guest ex_section_ref) = "apps/shop" ∧
  ∃ s2 stored, reconcile_httproute "2024-01-01T00:01:00Z" ex_route_api (ex_guest ex_section_ref) ex_rejected.2 = (Ok (Requeue 60), s2) ∧
    si_http_routes (ss_inner (rt_store s2)) !! http_key (ex_guest ex_section_ref) = Some stored ∧ http_route_is_accepted stored = true.
Proof.
  split; [done|].
  apply (rejected_route_returns "2024-01-01T00:00:00Z" "2024-01-01T00:01:00Z" ex_route_api (ex_guest ex_section_ref)
    (ex_guest ex_section_ref) (ex_route_state ex_section_ref) (Requeue 60) ex_rejected.2 ex_section_ref ex_private_gateway "web");
    [reflexivity..|vm_compute; reflexivity|vm_compute; reflexivity| |left|vm_compute; reflexivity|reflexivity|reflexivity].
  split_and!; intros k r Hk; exfalso; vm_compute in Hk; discriminate Hk.
Defined.

Definition ex_settle_state : RouteState := ex_route_state ex_parent.
Lemma httproute_status_settles_witness :
  ∃ l, http_verdicts "2024-01-01T00:00:00Z" ex_route_api (rt_store ex_settle_state) (ex_guest ex_parent) = Ok l ∧
  ∃ s', reconcile_httproute "2025-06-01T00:00:00Z" ex_route_api (with_http_status (http_final_status (ex_guest ex_parent) l.*1) (ex_guest ex_parent))
          ex_settle_state = (Ok (Requeue 60), s') ∧ rt_patches s' = [].
Proof.
  eexists. split; [vm_compute; reflexivity|].
  edestruct (httproute_status_settles "2024-01-01T00:00:00Z" "2025-06-01T00:00:00Z" ex_route_api (ex_guest ex_parent)
    ex_settle_state ex_settle_state) as (s'&Hr&Hp&_); [done|vm_compute; reflexivity|done|].
  exists s'. split; [exact Hr|exact Hp].
Defined.

(** The planner rejects the guest's reference to the whole gateway; the reconciler
    accepts it and stores the route. *)
Definition ex_guest_plan : result PlanError AttachmentPlan :=
  plan (mkAttachmentPlanInput "infra" "edge" 0 (to_planner_snapshot (ss_inner (ex_route_store ex_parent)))).
Lemma gateway_wide_skips_planner_witness :
  (map rar_status ∘ ap_route_results) <$> ok ex_guest_plan = Some [NotAllowedByListenerNamespacePolicy] ∧
  ∃ st, http_verdict "2024-01-01T00:00:00Z" ex_route_api (planner_snapshot (ex_route_store ex_parent)) "apps" "shop" None ex_parent
        = Ok (st, true).
Proof.
  split; [vm_compute; reflexivity|].
  destruct (gateway_wide_skips_planner "2024-01-01T00:00:00Z" ex_route_api (planner_snapshot (ex_route_store ex_parent)) "apps" "shop" None
    ex_parent ex_private_gateway) as (st&b&Hv&Hb); [done..|].
  assert (b = true) as ->; [|by exists st].
  apply Hb. eexists. split; [left|]. split; [done|]. by intros port.
Defined.

(** The planner's verdicts are looked up without the route's kind: a TCPRoute takes
    over the verdict of the HTTPRoute of the same namespace, name and reference, and
    is accepted by an HTTP listener. *)
Definition ex_open_api : RouteApi :=
  mkRouteApi (λ _ _, Found ex_open_gateway) (λ _, Found ex_class) None None.
Definition ex_tcp_twin : TCPRoute :=
  mkTCPRoute (meta_of "apps" "shop") (mkTCPRouteSpec [ex_section_ref] []) None.
Definition ex_twin_store : SharedStore :=
  run_ops ([OpUpsertGateway "infra/edge" ex_open_gateway; OpUpsertHttpRoute "apps/shop" (ex_guest ex_section_ref);
            OpUpsertTcpRoute "apps/shop" ex_tcp_twin] ++ (OpMarkListed <$> ResourceClass_ALL)) SharedStore_new.

Example kind_confusion :
  (map (λ x, (rar_route_kind x, is_attached (rar_status x))) ∘ ap_route_results) <$>
    ok (plan (mkAttachmentPlanInput "infra" "edge" 0 (to_planner_snapshot (ss_inner ex_twin_store)))) =
    Some [(KHTTPRoute, true); (KTCPRoute, false)] ∧
  tcp_route_is_accepted <$>
    (si_tcp_routes (ss_inner (rt_store (reconcile_tcproute "2024-01-01T00:00:00Z" ex_open_api ex_tcp_twin (mkRouteState ex_twin_store [] ∅)).2))
       !! "apps/shop") = Some true.
Proof. split; vm_compute; reflexivity. Qed.
