(* ===== verification/SecretReconciler.v ===== *)
(** * The Secret reconciler (reconcilers/secret.rs)

    A TLS Secret that some Wicket gateway refers to is written to certificate files,
    checked, and its paths entered into the shared store.  The state is the store, the
    files and the metrics; the API server's answers and the faults of the file system
    are parameters of a reconcile, as is the parsing of certificates and keys. *)

From S2P Require Import Prelude Str Num Metrics Files Crds Store GatewayReconciler.
From Stdlib Require Import Ascii.

Record Secret := mkSecret {
  sec_metadata : ObjectMeta;
  sec_type : option string;
  sec_data : option (gmap string string)
}.

Inductive SecretError :=
| SecretKubeError (e : string)
| MissingTlsData
| Base64Decode (e : string)
| WriteFile (e : string)
| InvalidTlsMaterial (e : string)
| ReferenceNotPermitted
| SecretConfigError (e : string).

Record SecretApi := mkSecretApi {
  sa_gateways : result string (list Gateway);
  sa_gateway_class : string → option GatewayClass;
  sa_reference_grants : string → result string (list ReferenceGrant)
}.

(** ** File names *)

Definition is_ascii_alphanumeric (c : ascii) : bool :=
  let n := N_of_ascii c in
  ((97 <=? n) && (n <=? 122) || (65 <=? n) && (n <=? 90) || (48 <=? n) && (n <=? 57))%N.

Definition sanitize_char (c : ascii) : ascii :=
  if is_ascii_alphanumeric c || Ascii.eqb c "-" then c else "-"%char.

(** The loop that collapses hyphens; [prev_hyphen] starts true. *)
Fixpoint collapse_hyphens (prev_hyphen : bool) (s : string) : string :=
  match s with
  | EmptyString => EmptyString
  | String c s' =>
      if Ascii.eqb c "-" then
        if negb prev_hyphen then String c (collapse_hyphens true s') else collapse_hyphens prev_hyphen s'
      else String c (collapse_hyphens false s')
  end.

Definition MAX_COMPONENT_LEN : nat := 63.

Definition sanitize_filename_component (s : string) : string :=
  let sanitized := map_string sanitize_char s in
  let result := collapse_hyphens true sanitized in
  let result := match strip_suffix "-" result with Some r => r | None => result end in
  let result :=
    if MAX_COMPONENT_LEN <? String.length result then trim_end_matches "-" (slice_to MAX_COMPONENT_LEN result) else result in
  if is_empty_str result then "unnamed" else result.

Definition tls_filename (namespace name extension : string) : string :=
  sanitize_filename_component namespace +:+ "-" +:+ sanitize_filename_component name +:+ "." +:+ extension.
Definition tls_path (tls_cert_dir namespace name extension : string) : string :=
  path_join tls_cert_dir (tls_filename namespace name extension).
Definition tls_temp_path (pid : N) (tls_cert_dir namespace name extension : string) : string :=
  path_join tls_cert_dir ("." +:+ tls_filename namespace name extension +:+ ".tmp." +:+ show_N pid).

(** [0o600]. *)
Definition tls_file_mode : N := 384.

Definition write_tls_file (default_mode pid : N) (ff : FsFaults) (tls_cert_dir namespace name extension data : string) (fs : Files)
    : result SecretError string * Files :=
  match ff_create_dir ff with
  | Some DirNotWritable => (Ok (tls_path tls_cert_dir namespace name extension), fs)
  | Some (DirFailed e) => (Err (WriteFile ("Failed to create dir: " +:+ e)), fs)
  | None =>
      let path := tls_path tls_cert_dir namespace name extension in
      let temp_path := tls_temp_path pid tls_cert_dir namespace name extension in
      match fs_write default_mode ff temp_path data fs with
      | (Err e, fs) => (Err (WriteFile ("Failed to write temp file: " +:+ e)), fs)
      | (Ok _, fs) =>
          match fs_set_permissions ff temp_path tls_file_mode fs with
          | Err e => (Err (WriteFile ("Failed to set permissions: " +:+ e)), fs)
          | Ok fs =>
              match fs_rename ff temp_path path fs with
              | Err e => (Err (WriteFile ("Failed to rename temp file: " +:+ e)), fs)
              | Ok fs => (Ok path, fs)
              end
          end
      end
  end.

Definition delete_tls_files_if_present (ff : FsFaults) (cert_path key_path : string) (fs : Files) : Files :=
  foldl (λ fs path, fs_remove ff path fs) fs [cert_path; key_path].

(** ** The reconcile *)

Record SecretState := mkSecretState {
  st_store : SharedStore;
  st_files : Files;
  st_metrics : Metrics
}.

Definition st_set_store (f : SharedStore → SharedStore) (s : SecretState) : SecretState :=
  mkSecretState (f (st_store s)) (st_files s) (st_metrics s).
Definition st_set_files (f : Files → Files) (s : SecretState) : SecretState :=
  mkSecretState (st_store s) (f (st_files s)) (st_metrics s).
Definition st_set_metrics (f : Metrics → Metrics) (s : SecretState) : SecretState :=
  mkSecretState (st_store s) (st_files s) (f (st_metrics s)).

(** Each listener of a gateway pushes the gateway at most once. *)
Definition listener_refers (gw_ns secret_ns secret_name : string) (l : Listener) : bool :=
  match li_tls l with
  | Some tls => existsb (λ c, String.eqb (unwrap_or gw_ns (so_namespace c)) secret_ns && String.eqb (so_name c) secret_name)
                  (gt_certificate_refs tls)
  | None => false
  end.

Definition find_referencing_gateways (api : SecretApi) (secret_ns secret_name : string) : result SecretError (list (string * string)) :=
  map_err SecretKubeError (sa_gateways api) ≫= λ gateways,
  Ok (flat_map (λ g,
    let gw_ns := unwrap_or "" (om_namespace (gw_metadata g)) in
    let gw_name := name_or_empty (gw_metadata g) in
    if negb match sa_gateway_class api (gs_gateway_class_name (gw_spec g)) with Some gc => is_wicket_managed gc | None => false end
    then []
    else (λ _, (gw_ns, gw_name)) <$> filter (λ l, listener_refers gw_ns secret_ns secret_name l = true) (gw_listeners g)) gateways).

Definition validate_reference_grant (api : SecretApi) (secret_ns gateway_ns secret_name : string) (m : Metrics)
    : result SecretError bool * Metrics :=
  match sa_reference_grants api secret_ns with
  | Err e => (Err (SecretKubeError e), m)
  | Ok grants =>
      if existsb (λ g, allows_tls_secret_reference g gateway_ns (Some secret_name)
                       || allows_tls_secret_reference g gateway_ns None) grants
      then (Ok true, metric_inc ["wicket_reference_grant_validations_total"; gateway_ns; secret_ns; "allowed"] m)
      else (Ok false, metric_inc ["wicket_cross_namespace_blocked_total"; gateway_ns; secret_ns; "Secret"]
                        (metric_inc ["wicket_reference_grant_validations_total"; gateway_ns; secret_ns; "denied"] m))
  end.

(** The validation loop: a reference that is not permitted is skipped. *)
Fixpoint validate_references (api : SecretApi) (namespace name : string) (gateways : list (string * string)) (m : Metrics)
    : result SecretError unit * Metrics :=
  match gateways with
  | [] => (Ok tt, m)
  | (gw_ns, gw_name) :: gateways' =>
      if negb (String.eqb gw_ns namespace) then
        match validate_reference_grant api namespace gw_ns name m with
        | (Err e, m) => (Err e, m)
        | (Ok _, m) => validate_references api namespace name gateways' m
        end
      else validate_references api namespace name gateways' m
  end.

(** What a Secret must look like to be considered. *)
Definition tls_data (secret : Secret) : option (string * string) :=
  let secret_type := unwrap_or "" (sec_type secret) in
  if negb (String.eqb secret_type "kubernetes.io/tls") && negb (String.eqb secret_type "Opaque") then None
  else match sec_data secret with
       | Some d => match d !! "tls.crt", d !! "tls.key" with Some c, Some k => Some (c, k) | _, _ => None end
       | None => None
       end.

Section reconcile.
Context (pem_certs : string → list (result string string)) (pem_private_key : string → result string (option string)).
Context (any_supported_type : string → bool).
(** x509-parser: the contents of the first PEM block, and [NotAfter] of a DER certificate. *)
Context (parse_x509_pem : string → option string) (x509_not_after : string → option Z).
Context (default_mode pid : N) (tls_cert_dir : string) (ff : FsFaults).

Definition parse_certificate_expiry (cert_data : string) : option Z :=
  x509_not_after (unwrap_or cert_data (parse_x509_pem cert_data)).

Definition validate_written_tls_material (fs : Files) (cert_path key_path : string) : result SecretError unit :=
  match load_certified_key pem_certs pem_private_key any_supported_type ff fs cert_path key_path with
  | Ok _ => Ok tt
  | Err e => Err (InvalidTlsMaterial (PemError_fmt e))
  end.

Definition upsert_valid_tls_secret (secret_key cert_path key_path : string) (s : SecretState) : result SecretError SecretState :=
  validate_written_tls_material (st_files s) cert_path key_path ≫= λ _,
  Ok (st_set_store (upsert_tls_secret secret_key cert_path key_path) s).

(** Both files, in order; the second is not attempted when the first fails. *)
Definition write_tls_files (namespace name cert_data key_data : string) (s : SecretState)
    : result SecretError (string * string) * SecretState :=
  match write_tls_file default_mode pid ff tls_cert_dir namespace name "crt" cert_data (st_files s) with
  | (Err e, fs) => (Err e, st_set_files (λ _, fs) s)
  | (Ok cert_path, fs) =>
      match write_tls_file default_mode pid ff tls_cert_dir namespace name "key" key_data fs with
      | (Err e, fs) => (Err e, st_set_files (λ _, fs) s)
      | (Ok key_path, fs) => (Ok (cert_path, key_path), st_set_files (λ _, fs) s)
      end
  end.

Definition extraction_metrics (namespace name cert_data : string) (m : Metrics) : Metrics :=
  let m := metric_inc ["wicket_tls_secret_extractions_total"; namespace; "success"] m in
  let m := metric_inc ["wicket_tls_secret_extraction_duration_seconds"; namespace] m in
  let m := metric_inc ["wicket_tls_certificates"; namespace; "kubernetes"] m in
  match parse_certificate_expiry cert_data with
  | Some expiry => metric_set ["wicket_tls_certificate_expiry_timestamp_seconds"; namespace; name] expiry m
  | None => m
  end.

Definition reconcile_secret (api : SecretApi) (secret : Secret) (s : SecretState) : result SecretError Action * SecretState :=
  let namespace := unwrap_or "" (om_namespace (sec_metadata secret)) in
  let name := name_or_empty (sec_metadata secret) in
  let secret_key := key namespace name in
  if is_some (om_deletion_timestamp (sec_metadata secret)) then
    (Ok AwaitChange,
     st_set_files (λ fs, foldl (λ fs ext, fs_remove ff (tls_path tls_cert_dir namespace name ext) fs) fs ["crt"; "key"])
       (st_set_store (remove_tls_secret secret_key) s))
  else
    match tls_data secret with
    | None => (Ok AwaitChange, s)
    | Some (cert_data, key_data) =>
        match find_referencing_gateways api namespace name with
        | Err e => (Err e, s)
        | Ok referencing_gateways =>
            if is_empty referencing_gateways then (Ok AwaitChange, s)
            else
              match validate_references api namespace name referencing_gateways (st_metrics s) with
              | (Err e, m) => (Err e, st_set_metrics (λ _, m) s)
              | (Ok _, m) =>
                  match write_tls_files namespace name cert_data key_data (st_set_metrics (λ _, m) s) with
                  | (Err e, s) => (Err e, s)
                  | (Ok (cert_path, key_path), s) =>
                      match upsert_valid_tls_secret secret_key cert_path key_path s with
                      | Err e =>
                          (Err e, st_set_store (remove_tls_secret secret_key)
                                    (st_set_files (delete_tls_files_if_present ff cert_path key_path) s))
                      | Ok s =>
                          let s := st_set_metrics (extraction_metrics namespace name cert_data) s in
                          (Ok (Requeue 300),
                           st_set_metrics (ReconcileMetrics_record_success "Secret") (st_set_store (upsert_tls_secret secret_key cert_path key_path) s))
                      end
                  end
              end
        end
    end.

(** The loop over the initial list, [Some e] when it broke off with [e]. *)
Fixpoint list_secrets_loop (items : list Secret) (s : SecretState) : option SecretError * SecretState :=
  match items with
  | [] => (None, s)
  | secret :: items' =>
      match tls_data secret with
      | None => list_secrets_loop items' s
      | Some (cert_data, key_data) =>
          let namespace := unwrap_or "" (om_namespace (sec_metadata secret)) in
          let name := name_or_empty (sec_metadata secret) in
          match write_tls_files namespace name cert_data key_data s with
          | (Err e, s) => (Some e, s)
          | (Ok (cert_path, key_path), s) =>
              match upsert_valid_tls_secret (key namespace name) cert_path key_path s with
              | Err _ => list_secrets_loop items' (st_set_files (delete_tls_files_if_present ff cert_path key_path) s)
              | Ok s => list_secrets_loop items' s
              end
          end
      end
  end.

(** One pass of the retry loop: whether it is done, and the state. *)
Definition list_secrets (listed : option (list Secret)) (s : SecretState) : bool * SecretState :=
  match listed with
  | None => (false, s)
  | Some items =>
      match list_secrets_loop items s with
      | (Some _, s) => (false, s)
      | (None, s) => (true, st_set_store (mark_listed Secrets) s)
      end
  end.

End reconcile.

Definition error_policy_secret (secret : Secret) (e : SecretError) (m : Metrics) : Action * Metrics :=
  let namespace := unwrap_or "" (om_namespace (sec_metadata secret)) in
  let m := match e with
           | MissingTlsData | WriteFile _ | Base64Decode _ | InvalidTlsMaterial _ =>
               metric_inc ["wicket_tls_secret_extractions_total"; namespace; "failure"] m
           | _ => m
           end in
  (Requeue 5, count_reconcile_error "Secret" m).

(** ** File names are clean *)

Definition allowed_char (c : ascii) : bool := is_ascii_alphanumeric c || Ascii.eqb c "-".

Record clean_name (s : string) : Prop := {
  cn_nonempty : s ≠ "";
  cn_length : String.length s ≤ MAX_COMPONENT_LEN;
  cn_chars : string_forallb allowed_char s = true;
  cn_first : ∀ t, s ≠ "-" +:+ t;
  cn_last : ∀ t, s ≠ t +:+ "-";
  cn_double : ∀ a b, s ≠ a +:+ "--" +:+ b
}.

(** No hyphen follows another ([prev]: one comes before). *)
Fixpoint hyphen_ok (prev : bool) (s : string) : bool :=
  match s with
  | EmptyString => true
  | String c s' => if Ascii.eqb c "-" then negb prev && hyphen_ok true s' else hyphen_ok false s'
  end.

Lemma hyphen_ok_weaken s : hyphen_ok true s = true → hyphen_ok false s = true.
Proof. destruct s as [|c s]; cbn; [done|]. by destruct (Ascii.eqb c "-"). Qed.

Lemma hyphen_ok_spec prev s :
  hyphen_ok prev s = true ↔ (prev = true → ∀ t, s ≠ "-" +:+ t) ∧ ∀ a b, s ≠ a +:+ "--" +:+ b.
Proof.
  revert prev. induction s as [|c s IH]; intros prev; cbn [hyphen_ok].
  { split; [|done]. intros _. split; [by intros _ [] |by intros [] b]. }
  destruct (Ascii.eqb_spec c "-") as [->|Hne].
  - rewrite andb_true_iff, negb_true_iff, IH. split.
    + intros [-> [H1 H2]]. split; [done|]. intros [|x a] b; cbn; [intros [= Hs]; by apply (H1 eq_refl b)|intros [= _ Hs]; by apply (H2 a b)].
    + intros [H1 H2]. split; [destruct prev; [by destruct (H1 eq_refl s)|done]|]. split.
      * intros _ t ->. by apply (H2 "" t).
      * intros a b ->. by apply (H2 (String "-" a) b).
  - rewrite IH. split.
    + intros [_ H2]. split; [intros _ t; cbn; congruence|]. intros [|x a] b; cbn; [congruence|]. intros [= -> Hs]. by apply (H2 a b).
    + intros [_ H2]. split; [done|]. intros a b ->. by apply (H2 (String c a) b).
Qed.

Lemma collapse_ok prev s : hyphen_ok prev (collapse_hyphens prev s) = true.
Proof.
  revert prev. induction s as [|c s IH]; intros prev; cbn; [done|]. destruct (Ascii.eqb c "-") eqn:E; [|cbn; by rewrite E].
  destruct prev; cbn; [done|]. by rewrite E.
Qed.

Lemma collapse_id prev s : hyphen_ok prev s = true → collapse_hyphens prev s = s.
Proof.
  revert prev. induction s as [|c s IH]; intros prev; cbn; [done|]. destruct (Ascii.eqb c "-").
  - destruct prev; cbn; [done|]. intros H. by rewrite IH.
  - intros H. by rewrite IH.
Qed.

Lemma hyphen_ok_prefix prev a b : hyphen_ok prev (a +:+ b) = true → hyphen_ok prev a = true.
Proof.
  revert prev. induction a as [|c a IH]; intros prev; cbn; [done|]. destruct (Ascii.eqb c "-"); [|apply IH].
  rewrite !andb_true_iff. intros [? ?]. split; [done|]. by apply IH.
Qed.

Lemma string_forallb_app p a b : string_forallb p (a +:+ b) = string_forallb p a && string_forallb p b.
Proof. induction a as [|c a IH]; cbn; [done|]. by rewrite IH, andb_assoc. Qed.

Lemma sanitize_char_allowed c : allowed_char (sanitize_char c) = true.
Proof. unfold sanitize_char, allowed_char. destruct (is_ascii_alphanumeric c || Ascii.eqb c "-") eqn:E; [by rewrite E|done]. Qed.

Lemma sanitize_map_allowed s : string_forallb allowed_char (map_string sanitize_char s) = true.
Proof. induction s as [|c s IH]; cbn [map_string string_forallb]; [done|]. by rewrite sanitize_char_allowed. Qed.

Lemma sanitize_map_id s : string_forallb allowed_char s = true → map_string sanitize_char s = s.
Proof.
  induction s as [|c s IH]; cbn; [done|]. rewrite andb_true_iff. intros [Hc Hs]. rewrite IH by done. unfold sanitize_char.
  unfold allowed_char in Hc. by rewrite Hc.
Qed.

Lemma collapse_chars p prev s : string_forallb p s = true → string_forallb p (collapse_hyphens prev s) = true.
Proof.
  revert prev. induction s as [|c s IH]; intros prev; cbn; [done|]. rewrite andb_true_iff. intros [Hc Hs].
  destruct (Ascii.eqb c "-"); [destruct prev|]; cbn; [by apply IH|by rewrite Hc, IH..].
Qed.

(** What the stages after the collapse keep: they only cut at the end. *)
Lemma sanitize_stages s :
  let result := collapse_hyphens true (map_string sanitize_char s) in
  let result := match strip_suffix "-" result with Some r => r | None => result end in
  hyphen_ok true result = true ∧ string_forallb allowed_char result = true ∧ ends_with "-" result = false.
Proof.
  intros r0. pose proof (collapse_ok true (map_string sanitize_char s)) as Hok. fold r0 in Hok.
  assert (string_forallb allowed_char r0 = true) as Hch by (apply collapse_chars, sanitize_map_allowed).
  destruct (strip_suffix "-" r0) as [r|] eqn:E; cbn zeta.
  - apply strip_suffix_Some in E. rewrite E in Hok, Hch. split; [by eapply hyphen_ok_prefix|].
    rewrite string_forallb_app, andb_true_iff in Hch. split; [by apply Hch|].
    apply not_true_iff_false. rewrite ends_with_true. intros [t ->]. apply hyphen_ok_spec in Hok as [_ Hd].
    apply (Hd t ""). by rewrite app_str_assoc.
  - split_and!; [done..|]. unfold ends_with. by rewrite E.
Qed.

Lemma sanitize_clean s : clean_name (sanitize_filename_component s).
Proof.
  assert (∀ r, r ≠ "" → String.length r ≤ MAX_COMPONENT_LEN → hyphen_ok true r = true → string_forallb allowed_char r = true →
               ends_with "-" r = false → clean_name r) as Hclean.
  { intros r Hne Hlen Hok Hch Hend. apply hyphen_ok_spec in Hok as [Hf Hd]. split; try done.
    - by apply Hf.
    - intros t ->. apply not_true_iff_false in Hend. apply Hend, ends_with_true. eauto. }
  unfold sanitize_filename_component. destruct (sanitize_stages s) as (Hok&Hch&Hend). cbn zeta in *.
  set (r := match strip_suffix "-" _ with Some r => r | None => _ end) in *. clearbody r.
  set (r' := if MAX_COMPONENT_LEN <? String.length r then _ else _).
  assert (String.length r' ≤ MAX_COMPONENT_LEN ∧ hyphen_ok true r' = true ∧ string_forallb allowed_char r' = true ∧
          ends_with "-" r' = false) as (H1&H2&H3&H4).
  { unfold r'. destruct (Nat.ltb_spec MAX_COMPONENT_LEN (String.length r)) as [Hlt|Hge]; [|done].
    destruct (trim_end_matches_spec "-" (slice_to MAX_COMPONENT_LEN r)) as (t&Ht&_).
    pose proof (slice_to_from MAX_COMPONENT_LEN r) as Hs. rewrite Ht in Hs. rewrite <-Hs in Hok, Hch.
    rewrite !string_forallb_app, !andb_true_iff in Hch. split_and!.
    - pose proof (length_slice_to MAX_COMPONENT_LEN r) as Hl. rewrite Ht, length_app_str in Hl. lia.
    - by eapply hyphen_ok_prefix, hyphen_ok_prefix.
    - by apply Hch.
    - apply trim_end_matches_no_suffix. }
  destruct (is_empty_str r') eqn:E; [|apply is_empty_str_false in E; by apply Hclean].
  apply Hclean; try done. cbn. unfold MAX_COMPONENT_LEN. lia.
Qed.

Lemma tls_filename_dot ns name ext t : tls_filename ns name ext ≠ "." +:+ t.
Proof.
  unfold tls_filename. destruct (sanitize_clean ns) as [Hne _ Hch _ _ _].
  destruct (sanitize_filename_component ns) as [|c s]; [done|]. cbn. intros [= -> _]. done.
Qed.

Lemma temp_not_path pid dir ns name ext ns' name' ext' : tls_temp_path pid dir ns' name' ext' ≠ tls_path dir ns name ext.
Proof.
  unfold tls_temp_path, tls_path. destruct (path_join_eq dir) as (d&_&Hd). rewrite !Hd. intros H%app_str_inj_l.
  by apply (tls_filename_dot ns name ext _ (eq_sym H)).
Qed.

Lemma tls_path_ext dir ns name ext ext' : tls_path dir ns name ext = tls_path dir ns name ext' → ext = ext'.
Proof.
  unfold tls_path, tls_filename. destruct (path_join_eq dir) as (d&_&Hd). rewrite !Hd. by intros H; do 5 apply app_str_inj_l in H.
Qed.

Lemma sanitize_id s : clean_name s → sanitize_filename_component s = s.
Proof.
  intros [Hne Hlen Hch Hf Hl Hd]. unfold sanitize_filename_component. rewrite sanitize_map_id by done.
  rewrite collapse_id by (apply hyphen_ok_spec; naive_solver). cbn zeta.
  destruct (strip_suffix "-" s) as [r|] eqn:E; [by apply strip_suffix_Some, Hl in E|].
  destruct (Nat.ltb_spec MAX_COMPONENT_LEN (String.length s)) as [Hlt|_]; [lia|].
  by apply is_empty_str_false in Hne as ->.
Qed.

(** The names of certificate files are safe and stable.  Whatever a namespace or a
    name contains, its sanitised form is not empty, at most 63 bytes, made of ASCII
    letters, digits and single inner hyphens; a name that is of this form already is
    kept as it is, so sanitising twice changes nothing; and the path of a file is its
    directory followed by one component with no slash and no leading dot, so no Secret
    can name a file outside the directory or a temporary file inside it. *)
Theorem sanitized_paths_confined dir ns name ext :
  (∀ s, clean_name (sanitize_filename_component s)) ∧
  (∀ s, clean_name s → sanitize_filename_component s = s) ∧
  (contains_char "/" ext = false →
   contains_char "/" (tls_filename ns name ext) = false ∧ (∀ t, tls_filename ns name ext ≠ "." +:+ t) ∧
   ∃ d, (d = dir ∨ d = dir +:+ "/") ∧ tls_path dir ns name ext = d +:+ tls_filename ns name ext ∧
        ∀ pid ns' name' ext', tls_temp_path pid dir ns' name' ext' ≠ tls_path dir ns name ext).
Proof.
  split; [apply sanitize_clean|]. split; [apply sanitize_id|].
  intros Hext.
  assert (∀ s, string_forallb allowed_char s = true → contains_char "/" s = false) as Hslash.
  { induction s as [|c s IH]; cbn; [done|]. rewrite andb_true_iff. intros [Hc Hs].
    change (Ascii.eqb "/" c || contains_char "/" s = false). rewrite IH by done. rewrite orb_false_r.
    destruct (Ascii.eqb_spec "/" c) as [<-|]; done. }
  split_and!; [|apply tls_filename_dot|].
  - unfold tls_filename. rewrite !contains_char_app, Hext. by rewrite !(λ s, Hslash _ (cn_chars _ (sanitize_clean s))).
  - destruct (path_join_eq dir) as (d&Hd&Hj). exists d. split; [done|]. split; [apply Hj|]. intros. apply temp_not_path.
Qed.

(** ** Writing a file *)

Lemma write_tls_file_spec mode pid ff dir ns name ext data fs r fs' :
  write_tls_file mode pid ff dir ns name ext data fs = (r, fs') →
  let path := tls_path dir ns name ext in
  let temp := tls_temp_path pid dir ns name ext in
  match r with
  | Err _ => ∀ p, p ≠ temp → fs' !! p = fs !! p
  | Ok p =>
      p = path ∧
      match ff_create_dir ff with
      | None => fs' = <[path := mkFile data tls_file_mode]> (delete temp fs)
      | Some _ => fs' = fs
      end
  end.
Proof.
  intros H path temp. unfold write_tls_file in H. destruct (ff_create_dir ff) as [[|e]|]; [by simplify_eq|by simplify_eq|].
  unfold fs_write in H. fold path temp in H. destruct (ff_write ff temp) as [[e rest]|].
  { simplify_eq. intros p Hp. by apply lookup_partial_alter_ne. }
  set (fs1 := <[temp := _]> fs) in H.
  assert (∀ p, p ≠ temp → fs1 !! p = fs !! p) as H1 by (intros p Hp; by apply lookup_insert_ne).
  unfold fs_set_permissions in H. destruct (ff_set_permissions ff temp); [by simplify_eq|].
  unfold fs1 in H at 1. rewrite lookup_insert_eq in H. cbn in H.
  unfold fs_rename in H. destruct (ff_rename ff temp).
  { simplify_eq. intros p Hp. rewrite lookup_insert_ne by done. by apply H1. }
  rewrite lookup_insert_eq in H. simplify_eq. split; [done|]. f_equal. unfold fs1. by rewrite !delete_insert_eq.
Qed.


Definition no_fs_faults : FsFaults := mkFsFaults None (λ _, None) (λ _, None) (λ _, None) (λ _, None) (λ _, false).

(** ** One reconcile of a Secret *)

(** The entries of the store for Secrets. *)
Definition secrets_of (s : SecretState) : gmap string (string * string) := si_tls_secrets (ss_inner (st_store s)).
Definition secret_ns (secret : Secret) : string := unwrap_or "" (om_namespace (sec_metadata secret)).
Definition secret_name (secret : Secret) : string := name_or_empty (sec_metadata secret).
Definition secret_key (secret : Secret) : string := key (secret_ns secret) (secret_name secret).
Definition gateway_ns (g : Gateway) : string := unwrap_or "" (om_namespace (gw_metadata g)).

(** A gateway refers to a Secret: its class is managed by Wicket, and a certificate
    reference of one of its listeners names the Secret, in the gateway's namespace
    unless the reference gives another. *)
Definition refers (api : SecretApi) (secret : Secret) (g : Gateway) : Prop :=
  (∃ gc, sa_gateway_class api (gs_gateway_class_name (gw_spec g)) = Some gc ∧ is_wicket_managed gc = true) ∧
  ∃ l tls c, l ∈ gw_listeners g ∧ li_tls l = Some tls ∧ c ∈ gt_certificate_refs tls ∧
    unwrap_or (gateway_ns g) (so_namespace c) = secret_ns secret ∧ so_name c = secret_name secret.

Lemma listener_refers_spec gns ns name l :
  listener_refers gns ns name l = true ↔
  ∃ tls c, li_tls l = Some tls ∧ c ∈ gt_certificate_refs tls ∧ unwrap_or gns (so_namespace c) = ns ∧ so_name c = name.
Proof.
  unfold listener_refers. destruct (li_tls l) as [tls|]; [|naive_solver]. rewrite existsb_true. split.
  - intros (c&Hc&[H1%String.eqb_eq H2%String.eqb_eq]%andb_true_iff). eauto 6.
  - intros (tls'&c&[= <-]&Hc&H1&H2). exists c. split; [done|]. by rewrite H1, H2, !String.eqb_refl.
Qed.

Lemma find_referencing_gateways_spec api secret gws :
  sa_gateways api = Ok gws →
  ∃ l, find_referencing_gateways api (secret_ns secret) (secret_name secret) = Ok l ∧
       ∀ x, x ∈ l ↔ ∃ g, g ∈ gws ∧ refers api secret g ∧ x = (gateway_ns g, name_or_empty (gw_metadata g)).
Proof.
  intros Hgs. unfold find_referencing_gateways. rewrite Hgs. cbn [map_err mbind result_bind]. eexists. split; [done|].
  intros x. rewrite list_elem_of_In, in_flat_map. split.
  - intros (g&Hg%list_elem_of_In&Hx%list_elem_of_In). exists g. fold (gateway_ns g) in Hx. unfold refers.
    destruct (sa_gateway_class api _) as [gc|]; cbn [negb] in Hx; [|by apply elem_of_nil in Hx].
    destruct (is_wicket_managed gc) eqn:Em; cbn [negb] in Hx; [|by apply elem_of_nil in Hx].
    apply list_elem_of_fmap in Hx as (l&->&[Hr Hl]%list_elem_of_filter). apply listener_refers_spec in Hr as (tls&c&?&?&?&?).
    split_and!; eauto 10.
  - intros (g&Hg&[(gc&Hc&Hm) (l&tls&c&Hl&H)]&->). exists g. split; [by apply list_elem_of_In|].
    rewrite Hc, Hm. cbn [negb]. fold (gateway_ns g). apply list_elem_of_In, list_elem_of_fmap. exists l. split; [done|].
    apply list_elem_of_filter. split; [|done]. apply listener_refers_spec. eauto.
Qed.

(** The loop over the references fails exactly when the grants it needs cannot be listed. *)
Lemma validate_references_cases api ns name l m :
  match sa_reference_grants api ns with
  | Ok _ => ∃ m', validate_references api ns name l m = (Ok tt, m')
  | Err e =>
      (∃ x, x ∈ l ∧ x.1 ≠ ns) ∧ validate_references api ns name l m = (Err (SecretKubeError e), m) ∨
      (∀ x, x ∈ l → x.1 = ns) ∧ validate_references api ns name l m = (Ok tt, m)
  end.
Proof.
  destruct (sa_reference_grants api ns) as [gs|e] eqn:Hg.
  - revert m. induction l as [|[gns gname] l IH]; intros m; cbn [validate_references]; [by eexists|].
    destruct (negb _); [|apply IH]. unfold validate_reference_grant. rewrite Hg. destruct (existsb _ gs); apply IH.
  - induction l as [|[gns gname] l IH]; cbn [validate_references]; [right; split; [|done]; by intros x ?%elem_of_nil|].
    destruct (String.eqb_spec gns ns) as [->|Hne]; cbn [negb].
    + destruct IH as [[(x&Hx&Hn) H]|[Ha H]]; [left|right]; (split; [|done]).
      * exists x. split; [by right|done].
      * intros x [->|Hx]%elem_of_cons; auto.
    + left. split; [exists (gns, gname); split; [left|done]|]. unfold validate_reference_grant. by rewrite Hg.
Qed.

(** Writing the files touches nothing but files. *)
Lemma write_tls_files_store mode pid dir ff ns name c k s r s' :
  write_tls_files mode pid dir ff ns name c k s = (r, s') → st_store s' = st_store s ∧ st_metrics s' = st_metrics s.
Proof. unfold write_tls_files. intros H. by repeat case_match; simplify_eq. Qed.

Section outcome.
Context (pem_certs : string → list (result string string)) (pem_private_key : string → result string (option string)).
Context (any_supported_type : string → bool) (parse_x509_pem : string → option string) (x509_not_after : string → option Z).
Context (mode pid : N) (dir : string) (ff : FsFaults).

Notation reconcile := (reconcile_secret pem_certs pem_private_key any_supported_type parse_x509_pem x509_not_after mode pid dir ff).
Notation load := (load_certified_key pem_certs pem_private_key any_supported_type ff).

Definition secret_path (secret : Secret) (ext : string) : string := tls_path dir (secret_ns secret) (secret_name secret) ext.
Definition secret_temp (secret : Secret) (ext : string) : string := tls_temp_path pid dir (secret_ns secret) (secret_name secret) ext.
Definition secret_paths (secret : Secret) : string * string := (secret_path secret "crt", secret_path secret "key").

(** No step of writing the two files fails; in a directory that cannot be written none
    is attempted. *)
Definition files_writable (secret : Secret) : Prop :=
  match ff_create_dir ff with
  | None => ∀ ext, ext ∈ ["crt"; "key"] →
      ff_write ff (secret_temp secret ext) = None ∧ ff_set_permissions ff (secret_temp secret ext) = None ∧
      ff_rename ff (secret_temp secret ext) = None
  | Some DirNotWritable => True
  | Some (DirFailed _) => False
  end.

(** The files once the two have been written. *)
Definition written_files (secret : Secret) (c k : string) (fs : Files) : Files :=
  match ff_create_dir ff with
  | None =>
      <[secret_path secret "key" := mkFile k tls_file_mode]> (delete (secret_temp secret "key")
        (<[secret_path secret "crt" := mkFile c tls_file_mode]> (delete (secret_temp secret "crt") fs)))
  | Some _ => fs
  end.

(** The files once those of a Secret have been removed, where they can be. *)
Definition without_files (secret : Secret) (fs : Files) : Files :=
  fs_remove ff (secret_path secret "key") (fs_remove ff (secret_path secret "crt") fs).

Lemma written_files_hold secret c k fs :
  ff_create_dir ff = None →
  written_files secret c k fs !! secret_path secret "crt" = Some (mkFile c tls_file_mode) ∧
  written_files secret c k fs !! secret_path secret "key" = Some (mkFile k tls_file_mode).
Proof using pid dir ff.
  intros Hd. unfold written_files. rewrite Hd. split; [|apply lookup_insert_eq].
  rewrite lookup_insert_ne by (by intros ?%tls_path_ext). rewrite lookup_delete_ne by apply temp_not_path. apply lookup_insert_eq.
Qed.

Lemma write_tls_file_ok ns name ext data fs :
  let temp := tls_temp_path pid dir ns name ext in
  ff_create_dir ff = None →
  (ff_write ff temp = None ∧ ff_set_permissions ff temp = None ∧ ff_rename ff temp = None ∧
   write_tls_file mode pid ff dir ns name ext data fs =
     (Ok (tls_path dir ns name ext), <[tls_path dir ns name ext := mkFile data tls_file_mode]> (delete temp fs))) ∨
  (¬ (ff_write ff temp = None ∧ ff_set_permissions ff temp = None ∧ ff_rename ff temp = None) ∧
   ∃ e fs', write_tls_file mode pid ff dir ns name ext data fs = (Err (WriteFile e), fs') ∧ ∀ p, p ≠ temp → fs' !! p = fs !! p).
Proof using mode pid dir ff.
  intros temp Hd. destruct (write_tls_file mode pid ff dir ns name ext data fs) as [r fs'] eqn:E.
  pose proof (write_tls_file_spec _ _ _ _ _ _ _ _ _ _ _ E) as H. rewrite Hd in H. cbn zeta in H. fold temp in H.
  unfold write_tls_file in E. rewrite Hd in E. fold temp in E. unfold fs_write in E.
  destruct (ff_write ff temp) as [[e rest]|]; [simplify_eq; right; split; [by intros (?&?&?)|eauto]|].
  unfold fs_set_permissions in E. destruct (ff_set_permissions ff temp); [simplify_eq; right; split; [by intros (?&?&?)|eauto]|].
  rewrite lookup_insert_eq in E. unfold fs_rename in E. destruct (ff_rename ff temp); [simplify_eq; right; split; [by intros (?&?&?)|eauto]|].
  rewrite lookup_insert_eq in E. simplify_eq. left. destruct H as [_ ->]. done.
Qed.

(** Writing both files succeeds exactly when no step of it fails, and then has
    written them; when a step fails, a certificate file may have been replaced whole,
    and nothing else but temporary files has changed. *)
Lemma write_tls_files_cases secret c k s :
  let o := write_tls_files mode pid dir ff (secret_ns secret) (secret_name secret) c k s in
  (files_writable secret ∧ o = (Ok (secret_paths secret), st_set_files (written_files secret c k) s)) ∨
  (¬ files_writable secret ∧
   ∃ e fs, o = (Err (WriteFile e), st_set_files (λ _, fs) s) ∧
     (fs !! secret_path secret "crt" = st_files s !! secret_path secret "crt" ∨ fs !! secret_path secret "crt" = Some (mkFile c tls_file_mode)) ∧
     ∀ p, p ∉ [secret_temp secret "crt"; secret_temp secret "key"; secret_path secret "crt"] → fs !! p = st_files s !! p).
Proof using mode pid dir ff.
  intros o. unfold o, write_tls_files, files_writable, written_files.
  destruct (ff_create_dir ff) as [[|e]|] eqn:Hd.
  - left. split; [done|]. unfold write_tls_file. by rewrite Hd.
  - right. split; [by intros []|]. unfold write_tls_file. rewrite Hd. eexists _, _. split; [done|]. split; [by left|done].
  - destruct (write_tls_file_ok (secret_ns secret) (secret_name secret) "crt" c (st_files s) Hd) as [(W1&P1&R1&->)|(Hn&e&fs&->&Hfs)].
    2:{ right. split; [intros Ha; by apply Hn, (Ha "crt"); left|]. eexists _, _. split; [done|]. split.
        - left. by apply Hfs, not_eq_sym, temp_not_path.
        - intros p Hp. apply Hfs. intros ->. apply Hp. left. }
    set (fs1 := <[_ := _]> _).
    destruct (write_tls_file_ok (secret_ns secret) (secret_name secret) "key" k fs1 Hd) as [(W2&P2&R2&->)|(Hn&e&fs&->&Hfs)].
    + left. split; [|done]. intros ext [->|[->|[]%elem_of_nil]%elem_of_cons]%elem_of_cons; done.
    + right. split; [intros Ha; by apply Hn, (Ha "key"); right; left|]. eexists _, _. split; [done|].
      assert (∀ p, p ≠ secret_temp secret "key" → fs !! p = fs1 !! p) as Hfs' by exact Hfs. split.
      * right. rewrite Hfs' by apply not_eq_sym, temp_not_path. apply lookup_insert_eq.
      * intros p [H1 [H2 [H3 _]%not_elem_of_cons]%not_elem_of_cons]%not_elem_of_cons. rewrite Hfs' by done. unfold fs1.
        by rewrite lookup_insert_ne, lookup_delete_ne by done.
Qed.

(** The Secrets to be extracted: live, of a TLS type with both entries, referred to by
    a gateway of the list, and with their namespace's grants listed if a gateway of
    another namespace refers to them. *)
Definition to_extract (api : SecretApi) (secret : Secret) (c k : string) : Prop :=
  om_deletion_timestamp (sec_metadata secret) = None ∧ tls_data secret = Some (c, k) ∧
  ∃ gws, sa_gateways api = Ok gws ∧ (∃ g, g ∈ gws ∧ refers api secret g) ∧
    ((∃ grants, sa_reference_grants api (secret_ns secret) = Ok grants) ∨
     ∀ g, g ∈ gws → refers api secret g → gateway_ns g = secret_ns secret).

(** What a reconcile of [secret] in state [s] comes to, by the Secret and the API
    server's answers. *)
Inductive secret_outcome (api : SecretApi) (secret : Secret) (s : SecretState) : result SecretError Action * SecretState → Prop :=
| so_deleted s' :
    om_deletion_timestamp (sec_metadata secret) ≠ None →
    secrets_of s' = delete (secret_key secret) (secrets_of s) → st_files s' = without_files secret (st_files s) →
    secret_outcome api secret s (Ok AwaitChange, s')
| so_not_tls :
    om_deletion_timestamp (sec_metadata secret) = None → tls_data secret = None →
    secret_outcome api secret s (Ok AwaitChange, s)
| so_gateways_failed c k e :
    om_deletion_timestamp (sec_metadata secret) = None → tls_data secret = Some (c, k) → sa_gateways api = Err e →
    secret_outcome api secret s (Err (SecretKubeError e), s)
| so_unreferenced c k gws :
    om_deletion_timestamp (sec_metadata secret) = None → tls_data secret = Some (c, k) → sa_gateways api = Ok gws →
    (∀ g, g ∈ gws → ¬ refers api secret g) →
    secret_outcome api secret s (Ok AwaitChange, s)
| so_grants_failed c k gws g e :
    om_deletion_timestamp (sec_metadata secret) = None → tls_data secret = Some (c, k) → sa_gateways api = Ok gws →
    g ∈ gws → refers api secret g → gateway_ns g ≠ secret_ns secret → sa_reference_grants api (secret_ns secret) = Err e →
    secret_outcome api secret s (Err (SecretKubeError e), s)
| so_write_failed c k e s' :
    to_extract api secret c k → ¬ files_writable secret →
    st_store s' = st_store s →
    (st_files s' !! secret_path secret "crt" = st_files s !! secret_path secret "crt" ∨
     st_files s' !! secret_path secret "crt" = Some (mkFile c tls_file_mode)) →
    (∀ p, p ∉ [secret_temp secret "crt"; secret_temp secret "key"; secret_path secret "crt"] → st_files s' !! p = st_files s !! p) →
    secret_outcome api secret s (Err (WriteFile e), s')
| so_stored c k chain s' :
    to_extract api secret c k → files_writable secret →
    load (written_files secret c k (st_files s)) (secret_path secret "crt") (secret_path secret "key") = Ok chain →
    secrets_of s' = <[secret_key secret := secret_paths secret]> (secrets_of s) →
    st_files s' = written_files secret c k (st_files s) →
    secret_outcome api secret s (Ok (Requeue 300), s')
| so_invalid c k e s' :
    to_extract api secret c k → files_writable secret →
    load (written_files secret c k (st_files s)) (secret_path secret "crt") (secret_path secret "key") = Err e →
    secrets_of s' = delete (secret_key secret) (secrets_of s) →
    st_files s' = without_files secret (written_files secret c k (st_files s)) →
    secret_outcome api secret s (Err (InvalidTlsMaterial (PemError_fmt e)), s').

(** From the files on. *)
Lemma extraction_outcome api secret c k s m :
  to_extract api secret c k →
  secret_outcome api secret s
    match write_tls_files mode pid dir ff (secret_ns secret) (secret_name secret) c k (st_set_metrics (λ _, m) s) with
    | (Err e, s) => (Err e, s)
    | (Ok (cert_path, key_path), s) =>
        match upsert_valid_tls_secret pem_certs pem_private_key any_supported_type ff (secret_key secret) cert_path key_path s with
        | Err e =>
            (Err e, st_set_store (remove_tls_secret (secret_key secret))
                      (st_set_files (delete_tls_files_if_present ff cert_path key_path) s))
        | Ok s =>
            let s := st_set_metrics (extraction_metrics parse_x509_pem x509_not_after (secret_ns secret) (secret_name secret) c) s in
            (Ok (Requeue 300),
             st_set_metrics (ReconcileMetrics_record_success "Secret")
               (st_set_store (upsert_tls_secret (secret_key secret) cert_path key_path) s))
        end
    end.
Proof.
  intros Hx. destruct (write_tls_files_cases secret c k (st_set_metrics (λ _, m) s)) as [[Hw ->]|(Hw&e&fs&->&Hc&Hfs)].
  2:{ by eapply so_write_failed. }
  cbn [secret_paths]. unfold upsert_valid_tls_secret, validate_written_tls_material.
  destruct (load _ _ _) as [chain|e] eqn:El; cbn [mbind result_bind].
  - eapply so_stored; [done..|exact El| |done]. unfold secrets_of. cbn. apply insert_insert_eq.
  - by eapply so_invalid.
Qed.

Lemma secret_reconcile_outcome api secret s : secret_outcome api secret s (reconcile api secret s).
Proof.
  unfold reconcile_secret. fold (secret_ns secret) (secret_name secret). fold (secret_key secret).
  destruct (om_deletion_timestamp (sec_metadata secret)) as [t|] eqn:Ed; cbn [is_some].
  { apply so_deleted; [by rewrite Ed|done..]. }
  destruct (tls_data secret) as [[c k]|] eqn:Et; [|by apply so_not_tls].
  destruct (sa_gateways api) as [gws|e] eqn:Eg.
  2:{ unfold find_referencing_gateways. rewrite Eg. cbn. by eapply so_gateways_failed. }
  destruct (find_referencing_gateways_spec api secret gws Eg) as (l&->&Hl).
  destruct (is_empty l) eqn:El.
  { eapply so_unreferenced; [done..|]. intros g Hg Hr. destruct l; [|done]. eapply elem_of_nil, Hl. eauto. }
  assert (∃ g, g ∈ gws ∧ refers api secret g) as Hex.
  { destruct l as [|x l]; [done|]. destruct (proj1 (Hl x)) as (g&?&?&_); [left|eauto]. }
  pose proof (validate_references_cases api (secret_ns secret) (secret_name secret) l (st_metrics s)) as Hv.
  destruct (sa_reference_grants api (secret_ns secret)) as [gs|e] eqn:Er.
  - destruct Hv as [m' ->]. apply extraction_outcome. split_and!; [done..|]. exists gws. eauto 6.
  - destruct Hv as [[(x&Hx&Hne) ->]|[Hall ->]].
    + apply Hl in Hx as (g&Hg&Hr&->). destruct s. by eapply so_grants_failed.
    + apply extraction_outcome. split_and!; [done..|]. exists gws. split_and!; [done..|]. right.
      intros g Hg Hr. apply (Hall (gateway_ns g, name_or_empty (gw_metadata g))), Hl. eauto.
Qed.

Lemma secret_reconcile_stored api secret s :
  (∃ s', reconcile api secret s = (Ok (Requeue 300), s')) ↔
  ∃ c k, to_extract api secret c k ∧ files_writable secret ∧
    is_Some (ok (load (written_files secret c k (st_files s)) (secret_path secret "crt") (secret_path secret "key"))).
Proof.
  pose proof (secret_reconcile_outcome api secret s) as Ho. split.
  - intros [s' H]. rewrite H in Ho. inversion Ho as [| | | | | |c k chain ? Hx Hw Hl|]. exists c, k. by rewrite Hl.
  - intros (c&k&Hx&Hw&[chain Hl]). pose proof Hx as (Hd&Ht&gws&Hg&(g&Hin&Hr)&Hgr).
    inversion Ho as [?|?|?|? ? ? ? ? Hg' Hno|? ? gws' g' ? ? ? Hg' Hin' Hr' Hne He|? ? ? ? ? Hn|? ? ? s' Hx' Hw' Hl' Hs' Hf' Heq|? ? ? ? (_&Ht'&_) ? He];
      [congruence..| | |done|eauto|]; simplify_eq.
    + rewrite Hg in Hg'. simplify_eq. by destruct (Hno g).
    + rewrite Hg in Hg'. simplify_eq. destruct Hgr as [[gr Hgr]|Hgr]; [congruence|]. by destruct Hne; apply Hgr.
    + by rewrite He in Hl.
Qed.

End outcome.

Section findings.
Context (pem_certs : string → list (result string string)) (pem_private_key : string → result string (option string)).
Context (any_supported_type : string → bool) (parse_x509_pem : string → option string) (x509_not_after : string → option Z).
Context (mode pid : N) (dir : string) (ff : FsFaults).

Notation reconcile := (reconcile_secret pem_certs pem_private_key any_supported_type parse_x509_pem x509_not_after mode pid dir ff).

(** C20: one reconcile of a Secret, by its input.  A Secret is extracted when it is
    live, of a TLS type with both entries, referred to by a listener of a listed gateway
    whose class Wicket manages, and, if a gateway of another namespace refers to it,
    the grants of its namespace can be listed.  Then, if no step of writing the files
    fails: when the files load as a chain and a supported key the Secret is entered in
    the store under its key with its paths, the files hold its data under mode 0600 (in
    a directory that cannot be written they are left as they were) and it is run again
    after 300 seconds, which is the answer in no other case; when they do not load, its
    entry and files are removed and the error is returned.  A failed write leaves the
    store as it was and, temporary files aside, at most replaces the certificate file
    whole.  A deleted Secret loses its entry and files; every other Secret, and a
    failed list of gateways or grants, leaves the whole state as it was. *)
Theorem secret_reconcile_spec api secret s :
  secret_outcome pem_certs pem_private_key any_supported_type pid dir ff api secret s (reconcile api secret s) ∧
  ((∃ s', reconcile api secret s = (Ok (Requeue 300), s')) ↔
   ∃ c k, to_extract api secret c k ∧ files_writable pid dir ff secret ∧
     is_Some (ok (load_certified_key pem_certs pem_private_key any_supported_type ff
                    (written_files pid dir ff secret c k (st_files s)) (secret_path dir secret "crt") (secret_path dir secret "key")))).
Proof. split; [apply secret_reconcile_outcome|apply secret_reconcile_stored]. Qed.

(** *** Reference grants *)

Lemma validate_references_ok api ns name l m :
  (∃ gs, sa_reference_grants api ns = Ok gs) → ∃ m', validate_references api ns name l m = (Ok tt, m').
Proof.
  intros [gs Hg]. pose proof (validate_references_cases api ns name l m) as H. by rewrite Hg in H.
Qed.

Lemma write_tls_files_metrics ns name c k f s :
  write_tls_files mode pid dir ff ns name c k (st_set_metrics f s) =
  let '(r, s') := write_tls_files mode pid dir ff ns name c k s in (r, st_set_metrics f s').
Proof. unfold write_tls_files. cbn [st_set_metrics st_files]. by repeat case_match. Qed.

(** What a reconcile decides and does, its metrics aside. *)
Definition effects (o : result SecretError Action * SecretState) : result SecretError Action * SharedStore * Files :=
  (o.1, st_store o.2, st_files o.2).

(** Reference grants have no effect.  As long as the grants of the Secret's
    namespace can be listed, what they say changes nothing: the Secret is extracted,
    written and stored, for gateways of any namespace, exactly as if every reference
    had been granted. *)
Theorem reference_grants_never_enforced api api' secret s :
  sa_gateways api' = sa_gateways api → (∀ n, sa_gateway_class api' n = sa_gateway_class api n) →
  (∀ ns, ∃ gs, sa_reference_grants api ns = Ok gs) → (∀ ns, ∃ gs, sa_reference_grants api' ns = Ok gs) →
  effects (reconcile api' secret s) = effects (reconcile api secret s).
Proof.
  intros Hg Hc H1 H2. unfold reconcile_secret. destruct (is_some _); [done|]. destruct (tls_data secret) as [[c k]|]; [|done].
  set (ns := unwrap_or "" _). set (name := name_or_empty _).
  assert (find_referencing_gateways api' ns name = find_referencing_gateways api ns name) as ->.
  { unfold find_referencing_gateways. rewrite Hg. destruct (sa_gateways api) as [gws|]; cbn; [|done]. f_equal.
    apply flat_map_ext. intros g. by rewrite Hc. }
  destruct (find_referencing_gateways api ns name) as [gws|e]; [|done]. destruct (is_empty gws); [done|].
  destruct (validate_references_ok api ns name gws (st_metrics s) (H1 ns)) as [m ->].
  destruct (validate_references_ok api' ns name gws (st_metrics s) (H2 ns)) as [m' ->].
  rewrite !write_tls_files_metrics. destruct (write_tls_files _ _ _ _ _ _ _ _ s) as [[[cp kp]|e] s1]; [|done].
  unfold upsert_valid_tls_secret. cbn [st_set_metrics st_files]. by destruct (validate_written_tls_material _ _ _ _ _ _ _).
Qed.

(** *** The gauge of certificates *)

Lemma validate_references_gauge api ns name l m r m' n :
  validate_references api ns name l m = (r, m') → metric m' ["wicket_tls_certificates"; n; "kubernetes"] = metric m ["wicket_tls_certificates"; n; "kubernetes"].
Proof.
  revert m. induction l as [|[gns gname] l IH]; intros m; cbn [validate_references]; [by intros [= _ <-]|].
  destruct (negb _); [|apply IH]. unfold validate_reference_grant.
  destruct (sa_reference_grants api ns) as [gs|]; [|by intros [= _ <-]]. destruct (existsb _ gs); intros H%IH; rewrite H; by solve_metrics.
Qed.

(** Every reconcile that stores a Secret counts it again: the gauge "number of TLS
    certificates" is the number of extractions. *)
Lemma certificates_gauge_grows api secret s n s' :
  reconcile api secret s = (Ok (Requeue n), s') →
  metric (st_metrics s') ["wicket_tls_certificates"; secret_ns secret; "kubernetes"] =
  (metric (st_metrics s) ["wicket_tls_certificates"; secret_ns secret; "kubernetes"] + 1)%Z.
Proof.
  unfold reconcile_secret. destruct (is_some _); [done|]. destruct (tls_data secret) as [[c k]|]; [|done].
  fold (secret_ns secret) (secret_name secret). destruct (find_referencing_gateways _ _ _) as [gws|e]; [|done]. destruct (is_empty gws); [done|].
  destruct (validate_references _ _ _ _ _) as [[u|e] m] eqn:Ev; [|done].
  destruct (write_tls_files_cases mode pid dir ff secret c k (st_set_metrics (λ _, m) s)) as [[_ ->]|(_&e&fs&->&_)]; [|done].
  unfold upsert_valid_tls_secret. cbn [secret_paths]. case (validate_written_tls_material _ _ _ _ _ _ _); [intros ?|done]. cbn [mbind result_bind].
  intros [= _ <-]. cbn. unfold extraction_metrics, ReconcileMetrics_record_success, metric_inc. rewrite !metric_add_other by done.
  rewrite <-(validate_references_gauge _ _ _ _ _ _ _ (secret_ns secret) Ev).
  destruct (parse_certificate_expiry _ _ _); [rewrite metric_set_other by done|]; rewrite metric_add_same;
    by rewrite !metric_add_other by done.
Qed.

(** *** Colliding file names *)

Lemma tls_path_collision a b c ext :
  clean_name a → clean_name (b +:+ "-" +:+ c) → clean_name (a +:+ "-" +:+ b) → clean_name c →
  tls_path dir a (b +:+ "-" +:+ c) ext = tls_path dir (a +:+ "-" +:+ b) c ext.
Proof.
  intros Ha Hbc Hab Hc. unfold tls_path, tls_filename. rewrite !sanitize_id by done. by rewrite !app_str_assoc.
Qed.

(** Two Secrets can share their files.  The Secrets [a/b-c] and [a-b/c] have the
    same file names: once both have been processed, the store leads the gateways of the
    first to the certificate and the private key of the second. *)
Theorem colliding_secrets_share_files api api' secret secret' s s1 s2 n n' a b c :
  clean_name a → clean_name (b +:+ "-" +:+ c) → clean_name (a +:+ "-" +:+ b) → clean_name c →
  secret_ns secret = a → secret_name secret = b +:+ "-" +:+ c → secret_ns secret' = a +:+ "-" +:+ b → secret_name secret' = c →
  ff_create_dir ff = None →
  reconcile api secret s = (Ok (Requeue n), s1) → reconcile api' secret' s1 = (Ok (Requeue n'), s2) →
  ∃ cp kp cert key, secrets_of s2 !! secret_key secret = Some (cp, kp) ∧ tls_data secret' = Some (cert, key) ∧
    st_files s2 !! cp = Some (mkFile cert tls_file_mode) ∧ st_files s2 !! kp = Some (mkFile key tls_file_mode).
Proof.
  intros Ha Hbc Hab Hc Hn1 Hn2 Hm1 Hm2 Hd H1 H2.
  pose proof (secret_reconcile_outcome pem_certs pem_private_key any_supported_type parse_x509_pem x509_not_after mode pid dir ff api secret s) as Ho.
  rewrite H1 in Ho. inversion Ho as [| | | | | |? ? ? ? _ _ _ Hs1 _|]. clear Ho.
  pose proof (secret_reconcile_outcome pem_certs pem_private_key any_supported_type parse_x509_pem x509_not_after mode pid dir ff api' secret' s1) as Ho.
  rewrite H2 in Ho. inversion Ho as [| | | | | |cert k' ? ? (_&Ht&_) _ _ Hs2 Hf2|]. clear Ho.
  destruct (written_files_hold pid dir ff secret' cert k' (st_files s1) Hd) as [Hcp Hkp]. rewrite <-Hf2 in Hcp, Hkp.
  assert (secret_paths dir secret = secret_paths dir secret') as Hp.
  { unfold secret_paths, secret_path. rewrite Hn1, Hn2, Hm1, Hm2. by rewrite !tls_path_collision. }
  exists (secret_paths dir secret').1, (secret_paths dir secret').2, cert, k'. split_and!; [|done..].
  rewrite Hs2. destruct (decide (secret_key secret' = secret_key secret)) as [->|Hne]; [by rewrite lookup_insert_eq|].
  rewrite lookup_insert_ne, Hs1, lookup_insert_eq by done. by rewrite Hp.
Qed.

(** *** A directory that cannot be written *)

(** Without a writable directory no Secret is ever accepted.  Where the directory
    cannot be written the files are skipped, but the check still wants to read them: if
    they do not exist, no reconcile stores the Secret, and in the status of a gateway
    every listener that refers to it has an invalid certificate reference. *)
Theorem unwritable_dir_rejects_secrets api secret s a s' g l tls c :
  ff_create_dir ff = Some DirNotWritable → st_files s !! (secret_paths dir secret).1 = None →
  secrets_of s !! secret_key secret = None →
  reconcile api secret s = (a, s') →
  li_tls l = Some tls → c ∈ gt_certificate_refs tls →
  unwrap_or (unwrap_or "" (om_namespace (gw_metadata g))) (so_namespace c) = secret_ns secret → so_name c = secret_name secret →
  (∀ n, a ≠ Ok (Requeue n)) ∧ secrets_of s' !! secret_key secret = None ∧
  listener_certificate_refs_invalid l g (to_planner_snapshot (ss_inner (st_store s'))) = true.
Proof.
  intros Hd Hnone Hs Hr Htls Hc Hns Hname.
  assert ((∀ n, a ≠ Ok (Requeue n)) ∧ secrets_of s' !! secret_key secret = None) as [H1 H2].
  { revert Hr. unfold reconcile_secret. destruct (is_some _).
    { intros [= <- <-]. split; [done|]. apply lookup_delete_eq. }
    destruct (tls_data secret) as [[cert k]|]; [|by intros [= <- <-]].
    destruct (find_referencing_gateways _ _ _) as [gws|e]; [|by intros [= <- <-]]. destruct (is_empty gws); [by intros [= <- <-]|].
    destruct (validate_references _ _ _ _ _) as [[u|e] m]; [|by intros [= <- <-]].
    unfold write_tls_files, write_tls_file. rewrite Hd. unfold upsert_valid_tls_secret, validate_written_tls_material, load_certified_key.
    unfold load_certs, fs_open. cbn [st_files st_set_files st_set_metrics].
    change (tls_path dir (unwrap_or "" (om_namespace (sec_metadata secret))) (name_or_empty (sec_metadata secret)) "crt")
      with (secret_paths dir secret).1. rewrite Hnone.
    destruct (ff_open ff _); cbn [mbind result_bind]; intros [= <- <-]; (split; [done|]); apply lookup_delete_eq. }
  split_and!; [done..|]. unfold listener_certificate_refs_invalid. rewrite Htls. apply existsb_true. exists c. split; [done|].
  rewrite Hns, Hname. unfold tls_secret. change (ps_tls_secrets _) with (secrets_of s'). fold (secret_key secret).
  rewrite H2. by rewrite orb_true_r.
Qed.

End findings.

(** ** Examples *)

Definition ex_pem_certs (d : string) : list (result string string) := [Ok d].
Definition ex_private_key (d : string) : result string (option string) := Ok (Some d).
Definition ex_tls_listener : Listener :=
  mkListener "one" None 443 HTTPS (Some (mkGatewayTLSConfig Terminate [mkSecretObjectReference "" "Secret" "a-tls" (Some "team")])) None.
Definition ex_secret_gateway : Gateway :=
  mkGateway (meta_of "infra" "edge")
    (mkGatewaySpec "wicket"
       [ex_tls_listener;
        mkListener "two" None 8443 HTTPS (Some (mkGatewayTLSConfig Terminate [mkSecretObjectReference "" "Secret" "tls" (Some "team-a")])) None]
       []) None.
Definition ex_secret_api (grants : list ReferenceGrant) : SecretApi :=
  mkSecretApi (Ok [ex_secret_gateway]) (λ _, Some ex_class) (λ _, Ok grants).
Definition ex_secret (ns name cert key : string) : Secret :=
  mkSecret (meta_of ns name) (Some "kubernetes.io/tls") (Some (<["tls.crt" := cert]> (<["tls.key" := key]> ∅))).
Definition ex_secret_state : SecretState := mkSecretState SharedStore_new ∅ ∅.
Notation ex_reconcile_secret ff := (reconcile_secret ex_pem_certs ex_private_key (λ _, true) (λ _, None) (λ _, None) 420 7 "/tls" ff).

Lemma reference_grants_never_enforced_witness :
  effects (ex_reconcile_secret no_fs_faults (ex_secret_api [])  (ex_secret "team" "a-tls" "C1" "K1") ex_secret_state) =
  effects (ex_reconcile_secret no_fs_faults
    (ex_secret_api [mkReferenceGrant (meta_of "team" "g") [mkReferenceGrantFrom GATEWAY_API_GROUP "Gateway" "infra"] [mkReferenceGrantTo "" "Secret" None]])
    (ex_secret "team" "a-tls" "C1" "K1") ex_secret_state) ∧
  (ex_reconcile_secret no_fs_faults (ex_secret_api [])  (ex_secret "team" "a-tls" "C1" "K1") ex_secret_state).1 = Ok (Requeue 300).
Proof.
  split; [|vm_compute; reflexivity].
  apply reference_grants_never_enforced; [reflexivity|reflexivity|intros ns; eexists; reflexivity..].
Defined.

Definition ex_first : result SecretError Action * SecretState :=
  ex_reconcile_secret no_fs_faults (ex_secret_api []) (ex_secret "team" "a-tls" "C1" "K1") ex_secret_state.
Definition ex_second : result SecretError Action * SecretState :=
  ex_reconcile_secret no_fs_faults (ex_secret_api []) (ex_secret "team-a" "tls" "C2" "K2") ex_first.2.

(** A name that sanitising leaves alone is clean. *)
Lemma clean_of_id s : sanitize_filename_component s = s → clean_name s.
Proof. intros <-. apply sanitize_clean. Qed.

Lemma colliding_secrets_share_files_witness :
  ∃ cp kp, secrets_of ex_second.2 !! secret_key (ex_secret "team" "a-tls" "C1" "K1") = Some (cp, kp) ∧ st_files ex_second.2 !! kp = Some (mkFile "K2" 384).
Proof.
  assert (ex_first.1 = Ok (Requeue 300)) as H1 by (vm_compute; reflexivity).
  assert (ex_second.1 = Ok (Requeue 300)) as H2 by (vm_compute; reflexivity).
  edestruct (colliding_secrets_share_files ex_pem_certs ex_private_key (λ _, true) (λ _, None) (λ _, None) 420 7 "/tls" no_fs_faults
    (ex_secret_api []) (ex_secret_api []) (ex_secret "team" "a-tls" "C1" "K1") (ex_secret "team-a" "tls" "C2" "K2")
    ex_secret_state ex_first.2 ex_second.2 300 300 "team" "a" "tls") as (cp&kp&cert&k&Hs&Ht&_&Hk);
    [apply clean_of_id; reflexivity..|reflexivity|reflexivity|reflexivity|reflexivity|reflexivity
    |rewrite <-H1; apply surjective_pairing|rewrite <-H2; apply surjective_pairing|].
  exists cp, kp. split; [exact Hs|]. rewrite Hk. assert (tls_data (ex_secret "team-a" "tls" "C2" "K2") = Some ("C2", "K2")) as Ht' by (vm_compute; reflexivity).
  rewrite Ht' in Ht. injection Ht as <- <-. reflexivity.
Defined.

Definition read_only_fs : FsFaults := mkFsFaults (Some DirNotWritable) (λ _, None) (λ _, None) (λ _, None) (λ _, None) (λ _, false).
Lemma unwritable_dir_rejects_secrets_witness :
  let o := ex_reconcile_secret read_only_fs (ex_secret_api []) (ex_secret "team" "a-tls" "C1" "K1") ex_secret_state in
  (∀ n, o.1 ≠ Ok (Requeue n)) ∧
  ∃ l, l ∈ gw_listeners ex_secret_gateway ∧
       listener_certificate_refs_invalid l ex_secret_gateway (to_planner_snapshot (ss_inner (st_store o.2))) = true.
Proof.
  intros o.
  edestruct (unwritable_dir_rejects_secrets ex_pem_certs ex_private_key (λ _, true) (λ _, None) (λ _, None) 420 7 "/tls" read_only_fs
    (ex_secret_api []) (ex_secret "team" "a-tls" "C1" "K1") ex_secret_state o.1 o.2 ex_secret_gateway ex_tls_listener) as (H1&_&H3);
    [reflexivity|reflexivity|reflexivity|apply surjective_pairing|reflexivity|left|reflexivity|reflexivity|].
  split; [exact H1|]. exists ex_tls_listener. split; [left|exact H3].
Defined.
