(* ===== verification/ServiceReconciler.v ===== *)
(** * The Service and EndpointSlice reconcilers (reconcilers/service.rs)

    Which services are referenced, which endpoints they have, and how both enter the
    shared store.  The API server's answers are parameters. *)

From S2P Require Import Prelude Str Order Num Net Metrics Config Crds Store StreamUpstream StreamProxy ConfigGen GatewayReconciler.
From Stdlib Require Import Ascii.

(** A discovery/v1 endpoint: its addresses and its condition "ready", if any. *)
Record Endpoint := mkEndpoint { ep_addresses : list string; ep_conditions : option (option bool) }.
Record EndpointSlice := mkEndpointSlice {
  es_metadata : ObjectMeta;
  es_ports : option (list (option Z));
  es_endpoints : list Endpoint
}.

Inductive ServiceError := ServiceKubeError (e : string) | ServiceConfigError (e : string).

(** The lists the API server answers with ([None]: an error). *)
Record ServiceApi := mkServiceApi {
  sv_http_routes : option (list HTTPRoute);
  sv_tcp_routes : option (list TCPRoute);
  sv_tls_routes : option (list TLSRoute);
  sv_slices : string → string → result string (list EndpointSlice)
}.

Record ServiceState := mkServiceState { sv_store : SharedStore; sv_metrics : Metrics }.
Definition sv_set_store (f : SharedStore → SharedStore) (s : ServiceState) : ServiceState :=
  mkServiceState (f (sv_store s)) (sv_metrics s).
Definition sv_record_success (kind : string) (s : ServiceState) : ServiceState :=
  mkServiceState (sv_store s) (ReconcileMetrics_record_success kind (sv_metrics s)).

(** [i32]'s [Display]. *)
Definition show_Z (z : Z) : string := if (z <? 0)%Z then "-" +:+ show_N (Z.to_N (- z)) else show_N (Z.to_N z).

(** ** Endpoints of a slice *)

Definition slice_ports (s : EndpointSlice) : list Z :=
  match es_ports s with Some pp => omap id pp | None => [] end.

Definition ep_ready (ep : Endpoint) : bool := unwrap_or true (match ep_conditions ep with Some c => c | None => None end).

(** The addresses an endpoint contributes. *)
Definition addr_ports (ports : list Z) (addr : string) : list string :=
  if is_empty ports then [addr] else (λ port, addr +:+ ":" +:+ show_Z port) <$> ports.

Definition slice_addrs (s : EndpointSlice) : list string :=
  flat_map (λ ep, if ep_ready ep then flat_map (addr_ports (slice_ports s)) (ep_addresses ep) else []) (es_endpoints s).

Definition slice_unhealthy (s : EndpointSlice) : Z :=
  foldl (λ n ep, if ep_ready ep then n else (n + Z.of_nat (length (ep_addresses ep)))%Z) 0%Z (es_endpoints s).

(** ** Which services are referenced *)

Definition refers_to (route_ns namespace name : string) (br : BackendRef) : bool :=
  String.eqb (unwrap_or route_ns (br_namespace br)) namespace && String.eqb (br_name br) name.

Definition routes_refer {R} (meta : R → ObjectMeta) (refs : R → list BackendRef) (namespace name : string)
    (routes : option (list R)) : bool :=
  match routes with
  | Some rs => existsb (λ r, existsb (refers_to (unwrap_or "" (om_namespace (meta r))) namespace name) (refs r)) rs
  | None => false
  end.

(** [is_service_referenced] of service.rs: the store's index, or the lists. *)
Definition ctx_service_referenced (api : ServiceApi) (store : SharedStore) (namespace name : string) : bool :=
  match is_service_referenced store namespace name with
  | Some referenced => referenced
  | None =>
      routes_refer hr_metadata HTTPRoute_backend_refs namespace name (sv_http_routes api)
      || routes_refer tr_metadata TCPRoute_backend_refs namespace name (sv_tcp_routes api)
      || routes_refer lr_metadata TLSRoute_backend_refs namespace name (sv_tls_routes api)
  end.

(** ** The reconciles *)

Definition service_name_label : string := "kubernetes.io/service-name".
Definition slice_service_name (slice : EndpointSlice) : string :=
  unwrap_or "" (match om_labels (es_metadata slice) with Some ls => ls !! service_name_label | None => None end).

Definition reconcile_endpoint_slice (api : ServiceApi) (slice : EndpointSlice) (s : ServiceState)
    : result ServiceError Action * ServiceState :=
  let namespace := unwrap_or "" (om_namespace (es_metadata slice)) in
  let service_name := slice_service_name slice in
  if is_empty_str service_name then (Ok AwaitChange, sv_record_success "EndpointSlice" s)
  else if negb (ctx_service_referenced api (sv_store s) namespace service_name) then (Ok AwaitChange, sv_record_success "EndpointSlice" s)
  else
    match sv_slices api namespace service_name with
    | Err e => (Err (ServiceKubeError e), s)
    | Ok slices =>
        let endpoint_addrs := flat_map slice_addrs slices in
        let healthy_count := Z.of_nat (length endpoint_addrs) in
        let unhealthy_count := foldl (λ n s, (n + slice_unhealthy s)%Z) 0%Z slices in
        let m := metric_set ["wicket_backend_endpoints_healthy"; namespace; service_name] healthy_count (sv_metrics s) in
        let m := metric_set ["wicket_backend_endpoints_unhealthy"; namespace; service_name] unhealthy_count m in
        let k := key namespace service_name in
        let store :=
          if negb (is_empty endpoint_addrs)
          then upsert_endpoints k (mkServiceEndpoints namespace service_name endpoint_addrs) (sv_store s)
          else remove_endpoints k (sv_store s) in
        (Ok (Requeue 30), sv_record_success "EndpointSlice" (mkServiceState store m))
    end.

Definition error_policy_service (kind : string) (e : ServiceError) (m : Metrics) : Action * Metrics :=
  (Requeue 30, count_reconcile_error kind m).

Definition error_policy_endpoint_slice := error_policy_service "EndpointSlice".

Definition reconcile_service (api : ServiceApi) (meta : ObjectMeta) (s : ServiceState) : result ServiceError Action * ServiceState :=
  let namespace := unwrap_or "" (om_namespace meta) in
  let name := name_or_empty meta in
  let s := sv_set_store (upsert_service_presence (key namespace name)) s in
  if negb (ctx_service_referenced api (sv_store s) namespace name) 
  then (Ok AwaitChange, sv_record_success "Service" s) else (Ok (Requeue 300), sv_record_success "Service" s).

(** One pass of the retry loops of the initial lists. *)
Definition list_endpoint_slices (listed : option (list EndpointSlice)) (s : SharedStore) : option SharedStore :=
  match listed with None => None | Some _ => Some (mark_listed Endpoints s) end.
Definition list_services (listed : option (list ObjectMeta)) (s : SharedStore) : option SharedStore :=
  match listed with
  | None => None
  | Some items =>
      let presence := foldl (λ p meta, {[key (unwrap_or "" (om_namespace meta)) (name_or_empty meta)]} ∪ p) ∅ items in
      Some (mark_listed Services (replace_service_presence presence s))
  end.

(** ** Loading all endpoints *)

Definition referenced_services (st : GatewayState) : gset string :=
  let add {R} (meta : R → ObjectMeta) (refs : R → list BackendRef) (acc : gset string) (r : R) :=
    foldl (λ acc br, {[key (unwrap_or (unwrap_or "" (om_namespace (meta r))) (br_namespace br)) (br_name br)]} ∪ acc) acc (refs r) in
  let acc := foldl (add hr_metadata HTTPRoute_backend_refs) ∅ (values (gst_http_routes st)) in
  let acc := foldl (add tr_metadata TCPRoute_backend_refs) acc (values (gst_tcp_routes st)) in
  foldl (add lr_metadata TLSRoute_backend_refs) acc (values (gst_tls_routes st)).

(** [svc_key.split('/')] of length two. *)
Definition split_key (k : string) : option (string * string) :=
  match split_once "/" k with
  | Some (ns, name) => if contains_char "/" name then None else Some (ns, name)
  | None => None
  end.

(** What one key loads, given the addresses read for a service ([None]: the read failed). *)
Definition loaded (addrs_of : string → string → option (list string)) (svc_key : string) : option ServiceEndpoints :=
  match split_key svc_key with
  | None => None
  | Some (namespace, name) =>
      match addrs_of namespace name with
      | None => None
      | Some addrs => if negb (is_empty addrs) then Some (mkServiceEndpoints namespace name addrs) else None
      end
  end.

Definition load_service (addrs_of : string → string → option (list string)) (eps : gmap string ServiceEndpoints) (svc_key : string)
    : gmap string ServiceEndpoints :=
  match loaded addrs_of svc_key with Some e => <[svc_key := e]> eps | None => eps end.

Definition set_gst_service_endpoints (f : gmap string ServiceEndpoints → gmap string ServiceEndpoints) (st : GatewayState) : GatewayState :=
  mkGatewayState (gst_gateways st) (gst_http_routes st) (gst_tcp_routes st) (gst_tls_routes st) (f (gst_service_endpoints st))
    (gst_tls_secrets st).

Definition load_all_service_endpoints (api : ServiceApi) (st : GatewayState) (m : Metrics) : GatewayState * Metrics :=
  let referenced := elements (referenced_services st) in
  let counts := count_by (split_first "/" <$> referenced) in
  let addrs_of ns name := match sv_slices api ns name with Ok slices => Some (flat_map slice_addrs slices) | Err _ => None end in
  (set_gst_service_endpoints (λ eps, foldl (load_service addrs_of) eps referenced) st,
   set_counts (λ ns, ["wicket_backends"; ns]) counts m).

(** [load_service_endpoints] of gateway.rs reads Endpoints objects instead of slices. *)
Record EndpointSubset := mkEndpointSubset { sub_addresses : option (list string); sub_ports : option (list Z) }.

Definition subset_addrs (subset : EndpointSubset) : list string :=
  flat_map (λ ip, (λ port, ip +:+ ":" +:+ show_Z port) <$> unwrap_or [] (sub_ports subset)) (unwrap_or [] (sub_addresses subset)).

Definition load_service_endpoints (endpoints : string → string → result string (option (list EndpointSubset))) (st : GatewayState)
    : GatewayState :=
  let addrs_of ns name :=
    match endpoints ns name with Ok subsets => Some (flat_map subset_addrs (unwrap_or [] subsets)) | Err _ => None end in
  set_gst_service_endpoints (λ eps, foldl (load_service addrs_of) eps (elements (referenced_services st))) st.

(** ** Endpoints in the store *)

Lemma elem_of_addr_ports ports addr a :
  a ∈ addr_ports ports addr ↔ (ports = [] ∧ a = addr) ∨ ∃ port, port ∈ ports ∧ a = addr +:+ ":" +:+ show_Z port.
Proof.
  unfold addr_ports. destruct ports as [|p ports]; cbn [is_empty].
  - rewrite list_elem_of_singleton. split; [by left|]. by intros [[_ ?]|(port&?%elem_of_nil&_)].
  - rewrite list_elem_of_fmap. split; [intros (port&->&?); right; eauto|]. intros [[? _]|(port&?&->)]; [done|eauto].
Qed.

Lemma elem_of_slice_addrs slices a :
  a ∈ flat_map slice_addrs slices ↔
  ∃ s ep addr, s ∈ slices ∧ ep ∈ es_endpoints s ∧ ep_ready ep = true ∧ addr ∈ ep_addresses ep ∧
    ((slice_ports s = [] ∧ a = addr) ∨ ∃ port, port ∈ slice_ports s ∧ a = addr +:+ ":" +:+ show_Z port).
Proof.
  rewrite elem_of_flat_map. unfold slice_addrs. setoid_rewrite elem_of_flat_map. split.
  - intros (s&Hs&ep&Hep&Ha). destruct (ep_ready ep) eqn:Er; [|by apply elem_of_nil in Ha].
    apply elem_of_flat_map in Ha as (addr&Haddr&Ha%elem_of_addr_ports). by exists s, ep, addr.
  - intros (s&ep&addr&Hs&Hep&Hr&Haddr&Ha). exists s. split; [done|]. exists ep. split; [done|]. rewrite Hr.
    apply elem_of_flat_map. exists addr. by rewrite elem_of_addr_ports.
Qed.

Definition endpoints_of (s : ServiceState) : gmap string ServiceEndpoints := si_service_endpoints (ss_inner (sv_store s)).

(** C26: one reconcile of an EndpointSlice.  A slice without a service, of a service no
    route refers to, or whose sibling slices cannot be listed changes nothing (but the
    count of reconciles).
    Otherwise the service's entry in the store becomes exactly the addresses of the
    ready endpoints of all its slices, each with every port of its slice (bare when the
    slice has no ports), and disappears when there are none; the entries of all other
    services stay, and the gauge of healthy endpoints is the number of addresses. *)
Theorem endpoint_slice_reconcile_spec api slice s :
  let ns := unwrap_or "" (om_namespace (es_metadata slice)) in
  let name := slice_service_name slice in
  match reconcile_endpoint_slice api slice s with
  | (Err e, s') => s' = s ∧ ∃ m, sv_slices api ns name = Err m
  | (Ok AwaitChange, s') => s' = sv_record_success "EndpointSlice" s ∧ (name = "" ∨ ctx_service_referenced api (sv_store s) ns name = false)
  | (Ok (Requeue n), s') =>
      n = 30%N ∧ ∃ slices addrs, sv_slices api ns name = Ok slices ∧
        endpoints_of s' = partial_alter (λ _, if is_empty addrs then None else Some (mkServiceEndpoints ns name addrs))
                            (key ns name) (endpoints_of s) ∧
        metric (sv_metrics s') ["wicket_backend_endpoints_healthy"; ns; name] = Z.of_nat (length addrs) ∧
        ∀ a, a ∈ addrs ↔ ∃ sl ep addr, sl ∈ slices ∧ ep ∈ es_endpoints sl ∧ ep_ready ep = true ∧ addr ∈ ep_addresses ep ∧
               ((slice_ports sl = [] ∧ a = addr) ∨ ∃ port, port ∈ slice_ports sl ∧ a = addr +:+ ":" +:+ show_Z port)
  end.
Proof.
  intros ns name. unfold reconcile_endpoint_slice. fold ns name.
  destruct (is_empty_str name) eqn:En; [apply is_empty_str_true in En; by auto|].
  destruct (ctx_service_referenced _ _ _ _) eqn:Er; cbn [negb]; [|by auto].
  destruct (sv_slices api ns name) as [slices|e]; [|by eauto]. split; [done|]. exists slices, (flat_map slice_addrs slices).
  split; [done|]. split.
  - by destruct (is_empty _).
  - split; [|apply elem_of_slice_addrs]. cbn. unfold ReconcileMetrics_record_success, metric_inc.
    rewrite !metric_add_other, metric_set_other by done. apply metric_set_same.
Qed.

(** ** Loading is exact *)

(** Whatever the order of the keys, exactly the referenced services whose addresses
    can be read and are not none get an entry, and the others keep theirs. *)
Lemma load_services_lookup addrs_of ks eps k :
  foldl (load_service addrs_of) eps ks !! k =
  if decide (k ∈ ks) then match loaded addrs_of k with Some e => Some e | None => eps !! k end else eps !! k.
Proof.
  revert eps. induction ks as [|x ks IH]; intros eps; [by rewrite decide_False by apply not_elem_of_nil|].
  cbn [foldl]. rewrite IH. unfold load_service. destruct (decide (x = k)) as [->|Hx].
  - rewrite (decide_True (P:=k ∈ k :: ks)) by left.
    destruct (loaded addrs_of k) as [e|]; [|by destruct (decide _)]. rewrite lookup_insert_eq. by destruct (decide _).
  - assert (k ∈ x :: ks ↔ k ∈ ks) as Hk by set_solver.
    assert ((match loaded addrs_of x with Some e => <[x := e]> eps | None => eps end) !! k = eps !! k) as ->.
    { destruct (loaded addrs_of x); [|done]. by rewrite lookup_insert_ne. }
    destruct (decide (k ∈ ks)), (decide (k ∈ x :: ks)); tauto.
Qed.

Lemma load_service_endpoints_lookup endpoints st k :
  gst_service_endpoints (load_service_endpoints endpoints st) !! k =
  if decide (k ∈ referenced_services st)
  then match loaded (λ ns name, match endpoints ns name with Ok subsets => Some (flat_map subset_addrs (unwrap_or [] subsets))
                                | Err _ => None end) k with Some e => Some e | None => gst_service_endpoints st !! k end
  else gst_service_endpoints st !! k.
Proof.
  unfold load_service_endpoints. cbn [set_gst_service_endpoints gst_service_endpoints]. rewrite load_services_lookup.
  destruct (decide (k ∈ elements _)) as [H|H]; rewrite elem_of_elements in H; [by rewrite decide_True|by rewrite decide_False].
Qed.

Lemma elem_of_referenced_services st k :
  k ∈ referenced_services st ↔
  ∃ ns br, k = key (unwrap_or ns (br_namespace br)) (br_name br) ∧
    ((∃ r, r ∈ values (gst_http_routes st) ∧ ns = unwrap_or "" (om_namespace (hr_metadata r)) ∧ br ∈ HTTPRoute_backend_refs r) ∨
     (∃ r, r ∈ values (gst_tcp_routes st) ∧ ns = unwrap_or "" (om_namespace (tr_metadata r)) ∧ br ∈ TCPRoute_backend_refs r) ∨
     (∃ r, r ∈ values (gst_tls_routes st) ∧ ns = unwrap_or "" (om_namespace (lr_metadata r)) ∧ br ∈ TLSRoute_backend_refs r)).
Proof.
  assert (∀ {R} (meta : R → ObjectMeta) (refs : R → list BackendRef) (l : list R) (acc : gset string),
    k ∈ foldl (λ acc r, foldl (λ acc br, {[key (unwrap_or (unwrap_or "" (om_namespace (meta r))) (br_namespace br)) (br_name br)]} ∪ acc)
                 acc (refs r)) acc l ↔
    k ∈ acc ∨ ∃ r br, r ∈ l ∧ br ∈ refs r ∧ k = key (unwrap_or (unwrap_or "" (om_namespace (meta r))) (br_namespace br)) (br_name br)) as Hl.
  { intros R meta refs l. induction l as [|r l IH]; intros acc; cbn [foldl]; [set_solver|]. rewrite IH.
    assert (∀ (brs : list BackendRef) (acc : gset string),
      k ∈ foldl (λ acc br, {[key (unwrap_or (unwrap_or "" (om_namespace (meta r))) (br_namespace br)) (br_name br)]} ∪ acc) acc brs ↔
      k ∈ acc ∨ ∃ br, br ∈ brs ∧ k = key (unwrap_or (unwrap_or "" (om_namespace (meta r))) (br_namespace br)) (br_name br)) as Hb.
    { induction brs as [|br brs IHb]; intros acc'; cbn [foldl]; [set_solver|]. rewrite IHb. set_solver. }
    rewrite Hb. set_solver. }
  unfold referenced_services. rewrite !Hl. set_solver.
Qed.

(** ** No entry is ever empty *)

Definition endpoints_nonempty (store : SharedStore) : Prop :=
  ∀ k e, si_service_endpoints (ss_inner store) !! k = Some e → se_endpoints e ≠ [].

Lemma endpoint_slice_nonempty api slice s :
  endpoints_nonempty (sv_store s) → endpoints_nonempty (sv_store (reconcile_endpoint_slice api slice s).2).
Proof.
  unfold reconcile_endpoint_slice. intros Hs. destruct (is_empty_str _); [done|]. destruct (negb _); [done|].
  destruct (sv_slices _ _ _) as [slices|e]; [|done]. cbn [snd sv_store]. destruct (is_empty (flat_map slice_addrs slices)) eqn:E; cbn [negb].
  - intros k e. unfold remove_endpoints, write. cbn. intros [_ H]%lookup_delete_Some. by apply Hs in H.
  - intros k e. unfold upsert_endpoints, write. cbn. intros [[_ <-]|[_ H]]%lookup_insert_Some; [|by apply Hs in H].
    cbn. by apply is_empty_false in E.
Qed.

(** A history of reconciles of slices and services, each with its own API answers. *)
Inductive ServiceEvent := SliceEvent (api : ServiceApi) (slice : EndpointSlice) | ServiceChanged (api : ServiceApi) (meta : ObjectMeta).
Definition service_event (s : ServiceState) (e : ServiceEvent) : ServiceState :=
  match e with
  | SliceEvent api slice => (reconcile_endpoint_slice api slice s).2
  | ServiceChanged api meta => (reconcile_service api meta s).2
  end.

(** Every backend has a server.  After any history of EndpointSlice and Service
    reconciles from a store without endpoints, every backend of the configuration the
    controller generates has at least one server address, so neither an HTTP nor a
    stream upstream is ever rejected for having none. *)
Theorem backends_always_served store m events st ns name port d :
  si_service_endpoints (ss_inner store) = ∅ →
  st = to_gateway_state (ss_inner (sv_store (foldl service_event (mkServiceState store m) events))) →
  backend_servers st ns name port d ≠ [].
Proof.
  intros He -> (e&Hk&Hnil)%backend_servers_nil. cbn in Hk.
  assert (endpoints_nonempty (sv_store (foldl service_event (mkServiceState store m) events))) as Hinv; [|by apply (Hinv _ _ Hk)].
  apply (foldl_inv (λ s, endpoints_nonempty (sv_store s))).
  - intros s [api slice|api meta] Hs; [by apply endpoint_slice_nonempty|]. unfold service_event, reconcile_service. by destruct (negb _).
  - intros k e' Hk'. cbn in Hk'. rewrite He in Hk'. by rewrite lookup_empty in Hk'.
Qed.

(** Services are only ever added by the reconcile, the deleted ones too. *)
Lemma service_presence_grows api meta s :
  key (unwrap_or "" (om_namespace meta)) (name_or_empty meta) ∈ si_service_presence (ss_inner (sv_store (reconcile_service api meta s).2)) ∧
  si_service_presence (ss_inner (sv_store s)) ⊆ si_service_presence (ss_inner (sv_store (reconcile_service api meta s).2)).
Proof. unfold reconcile_service. destruct (negb _); cbn; set_solver. Qed.
