(* ===== verification/GatewayWatches.v ===== *)
(** * What wakes a gateway (the watches of [run_gateway_controller], reconcilers/gateway.rs)

    The gateway controller watches routes, services, endpoint slices, secrets and
    reference grants besides its own gateways, and maps every event to the gateways to
    reconcile: a route's event by its parent references, the others through the reverse
    index.  The theorems relate this to what a gateway's configuration depends on. *)

From S2P Require Import Prelude Str Order Num Metrics Crds Store Config ConfigGen RuntimePlan GatewayReconciler ServiceReconciler.
From Stdlib Require Import Ascii.

(** ** Events *)

Inductive WatchEvent :=
| EvHttpRoute (r : HTTPRoute)
| EvTcpRoute (r : TCPRoute)
| EvTlsRoute (r : TLSRoute)
| EvService (metadata : ObjectMeta)
| EvEndpointSlice (slice : EndpointSlice)
| EvSecret (metadata : ObjectMeta)
| EvReferenceGrant (metadata : ObjectMeta).

(** [ResourceExt::namespace().unwrap_or_default()]. *)
Definition event_namespace (m : ObjectMeta) : string := unwrap_or "" (om_namespace m).

(** The gateways an event wakes. *)
Definition woken (ix : ReverseIndexInner) (e : WatchEvent) : list (string * string) :=
  match e with
  | EvHttpRoute r => gateway_refs_from_parent_refs (event_namespace (hr_metadata r)) (hrs_parent_refs (hr_spec r))
  | EvTcpRoute r => gateway_refs_from_parent_refs (event_namespace (tr_metadata r)) (trs_parent_refs (tr_spec r))
  | EvTlsRoute r => gateway_refs_from_parent_refs (event_namespace (lr_metadata r)) (lrs_parent_refs (lr_spec r))
  | EvService m => gateway_refs_from_keys (gateways_for_service ix (event_namespace m) (name_or_empty m))
  | EvEndpointSlice slice =>
      match om_labels (es_metadata slice) ≫= (.!! service_name_label) with
      | Some name => gateway_refs_from_keys (gateways_for_service ix (event_namespace (es_metadata slice)) name)
      | None => []
      end
  | EvSecret m => gateway_refs_from_keys (gateways_for_secret ix (event_namespace m) (name_or_empty m))
  | EvReferenceGrant m => gateway_refs_from_keys (gateways_for_reference_grant ix (event_namespace m) (name_or_empty m))
  end.

(** The counters of the controller's result stream. *)
Definition note_reconcile_result (kind : string) (ok : bool) (m : Metrics) : Metrics :=
  if ok then metric_inc ["wicket_watch_events_total"; kind; "reconcile_success"] m
  else metric_inc ["wicket_watch_errors_total"; kind; "controller_error"] (metric_inc ["wicket_watch_events_total"; kind; "reconcile_error"] m).

(** ** Writes

    What the reconcilers write into the store for the object of an event: a route is
    stored (its status aside) or removed, the endpoints of a service are replaced. *)

Inductive event_write (s : SharedStore) : WatchEvent → SharedStore → Prop :=
| http_written k r st : event_write s (EvHttpRoute r) (upsert_http_route k (mkHTTPRoute (hr_metadata r) (hr_spec r) st) s)
| http_removed k r : event_write s (EvHttpRoute r) (remove_http_route k s)
| tcp_written k r st : event_write s (EvTcpRoute r) (upsert_tcp_route k (mkTCPRoute (tr_metadata r) (tr_spec r) st) s)
| tcp_removed k r : event_write s (EvTcpRoute r) (remove_tcp_route k s)
| tls_written k r st : event_write s (EvTlsRoute r) (upsert_tls_route k (mkTLSRoute (lr_metadata r) (lr_spec r) st) s)
| tls_removed k r : event_write s (EvTlsRoute r) (remove_tls_route k s)
| endpoints_written slice e ns name :
    om_namespace (es_metadata slice) = Some ns → om_labels (es_metadata slice) ≫= (.!! service_name_label) = Some name →
    event_write s (EvEndpointSlice slice) (upsert_endpoints (key ns name) e s)
| endpoints_removed slice ns name :
    om_namespace (es_metadata slice) = Some ns → om_labels (es_metadata slice) ≫= (.!! service_name_label) = Some name →
    event_write s (EvEndpointSlice slice) (remove_endpoints (key ns name) s).

(** The version of a route that the write replaces or removes names the gateway. *)
Definition replaced_references (s s' : SharedStore) (gns gname : string) : Prop :=
  (∃ k r, si_http_routes (ss_inner s) !! k = Some r ∧ si_http_routes (ss_inner s') !! k ≠ Some r ∧
     references hr_metadata (λ r, hrs_parent_refs (hr_spec r)) gns gname r = true) ∨
  (∃ k r, si_tcp_routes (ss_inner s) !! k = Some r ∧ si_tcp_routes (ss_inner s') !! k ≠ Some r ∧
     references tr_metadata (λ r, trs_parent_refs (tr_spec r)) gns gname r = true) ∨
  (∃ k r, si_tls_routes (ss_inner s) !! k = Some r ∧ si_tls_routes (ss_inner s') !! k ≠ Some r ∧
     references lr_metadata (λ r, lrs_parent_refs (lr_spec r)) gns gname r = true).

(** ** What a configuration depends on *)

Lemma foldl_ext_in {A B} (f g : A → B → A) l a : (∀ a x, x ∈ l → f a x = g a x) → foldl f a l = foldl g a l.
Proof.
  revert a. induction l as [|x l IH]; intros a Hf; cbn; [done|].
  rewrite (Hf a x) by left. apply IH. intros. apply Hf. by right.
Qed.

Lemma fold_panic_ext_in {A B} (f g : A → B → option A) l a :
  (∀ a x, x ∈ l → f a x = g a x) → fold_panic f a l = fold_panic g a l.
Proof.
  revert a. induction l as [|x l IH]; intros a Hf; cbn; [done|].
  rewrite (Hf a x) by left. destruct (g a x) as [a'|]; cbn; [|done]. apply IH. intros. apply Hf. by right.
Qed.

Lemma flat_map_ext_in' {A B} (f g : A → list B) l : (∀ x, x ∈ l → f x = g x) → flat_map f l = flat_map g l.
Proof.
  induction l as [|x l IH]; intros Hf; cbn; [done|]. rewrite (Hf x) by left. f_equal. apply IH. intros. apply Hf. by right.
Qed.

(** The backend references of the routes of a generator state, with the namespace they
    are resolved in. *)
Definition state_ref (st : GatewayState) (ns : string) (br : BackendRef) : Prop :=
  (∃ k r, gst_http_routes st !! k = Some r ∧ ns = ns_or_default (hr_metadata r) ∧ br ∈ HTTPRoute_backend_refs r) ∨
  (∃ k r, gst_tcp_routes st !! k = Some r ∧ ns = ns_or_default (tr_metadata r) ∧ br ∈ TCPRoute_backend_refs r) ∨
  (∃ k r, gst_tls_routes st !! k = Some r ∧ ns = ns_or_default (lr_metadata r) ∧ br ∈ TLSRoute_backend_refs r).

Definition set_endpoints (e : gmap string ServiceEndpoints) (st : GatewayState) : GatewayState :=
  mkGatewayState (gst_gateways st) (gst_http_routes st) (gst_tcp_routes st) (gst_tls_routes st) e (gst_tls_secrets st).

Section endpoints.
  Context (st : GatewayState) (e : gmap string ServiceEndpoints).
  Hypothesis Hsame : ∀ ns br, state_ref st ns br →
    e !! key (unwrap_or ns (br_namespace br)) (br_name br) = gst_service_endpoints st !! key (unwrap_or ns (br_namespace br)) (br_name br).

Lemma backend_servers_endpoints ns br d :
  state_ref st ns br →
  backend_servers (set_endpoints e st) (unwrap_or ns (br_namespace br)) (br_name br) (br_port br) d =
  backend_servers st (unwrap_or ns (br_namespace br)) (br_name br) (br_port br) d.
Proof. intros Hr. unfold backend_servers. cbn. by rewrite (Hsame _ _ Hr). Qed.

Lemma render_http_route_endpoints acc x :
  x ∈ btree_iter (gst_http_routes st) → render_http_route (set_endpoints e st) acc x = render_http_route st acc x.
Proof.
  destruct x as [k r]. intros Hx%elem_of_btree_iter. unfold render_http_route. cbn [snd]. destruct (negb _); [done|].
  apply fold_panic_ext_in. intros acc' [i rule] Hi. unfold render_rule.
  assert (rule_backends (set_endpoints e st) (ns_or_default (hr_metadata r)) rule = rule_backends st (ns_or_default (hr_metadata r)) rule) as ->; [|done].
  unfold rule_backends. apply flat_map_ext_in'. intros b Hb. apply backend_servers_endpoints. left. exists k, r. split_and!; [done..|].
  unfold HTTPRoute_backend_refs. apply list_elem_of_In, in_flat_map. exists rule. split.
  - apply elem_of_enumerate in Hi. apply list_elem_of_In. by eapply list_elem_of_lookup_2.
  - apply list_elem_of_In, list_elem_of_fmap. by exists b.
Qed.

Lemma stream_acc_endpoints : stream_acc (set_endpoints e st) = stream_acc st.
Proof.
  unfold stream_acc. cbn [gst_tls_routes gst_tcp_routes set_endpoints].
  rewrite (foldl_ext_in (render_tls_route (set_endpoints e st)) (render_tls_route st)).
  - apply foldl_ext_in. intros acc [k r] Hx%elem_of_btree_iter. unfold render_tcp_route. cbn [snd]. destruct (negb _); [done|].
    apply foldl_ext_in. intros acc' br Hbr. f_equal. unfold stream_upstream. f_equal. apply backend_servers_endpoints. right. left. eauto 10.
  - intros acc [k r] Hx%elem_of_btree_iter. unfold render_tls_route. cbn [snd]. destruct (negb _); [done|].
    apply foldl_ext_in. intros acc' br Hbr. unfold render_tls_backend.
    assert (stream_upstream (set_endpoints e st) (ns_or_default (lr_metadata r)) 443 br = stream_upstream st (ns_or_default (lr_metadata r)) 443 br) as ->; [|done].
    unfold stream_upstream. f_equal. apply backend_servers_endpoints. right. right. eauto 10.
Qed.

(** The configuration reads only the endpoints of the services its routes refer to. *)
Lemma generate_config_endpoints : generate_config (set_endpoints e st) = generate_config st.
Proof.
  unfold generate_config. cbn [gst_gateways gst_http_routes set_endpoints].
  rewrite (fold_panic_ext_in (render_http_route (set_endpoints e st)) (render_http_route st)) by apply render_http_route_endpoints.
  unfold generate_stream. rewrite stream_acc_endpoints. reflexivity.
Qed.

End endpoints.

(** Two versions of a route map that differ only in routes of other gateways. *)
Lemma scoped_filter_same {R} (f : R → bool) (m m' : gmap string R) :
  (∀ k, m' !! k = m !! k ∨ (∀ r, m !! k = Some r ∨ m' !! k = Some r → f r = false)) →
  filter (λ e : string * R, f e.2 = true) m' = filter (λ e : string * R, f e.2 = true) m.
Proof.
  intros H. apply map_eq. intros k. apply option_eq. intros r. rewrite !map_lookup_filter_Some. cbn.
  destruct (H k) as [->|Hk]; [done|]. split; intros [Hr Hf]; rewrite (Hk r) in Hf by auto; done.
Qed.

(** An entry that is replaced by [o]: neither the old nor the new route is the gateway's. *)
Lemma scoped_filter_replace {R} (f : R → bool) (m : gmap string R) k (o : option R) :
  (∀ r, o = Some r → f r = false) → (∀ r, m !! k = Some r → o ≠ Some r → f r = false) →
  filter (λ e : string * R, f e.2 = true) (partial_alter (λ _, o) k m) = filter (λ e : string * R, f e.2 = true) m.
Proof.
  intros Ho Hm. apply scoped_filter_same. intros k'. destruct (decide (k = k')) as [<-|]; [|left; by rewrite lookup_partial_alter_ne].
  right. rewrite lookup_partial_alter_eq. intros r [Hr|Hr]; [|by apply Ho].
  destruct (f r) eqn:Hf; [|done]. rewrite <- Hf. apply Hm; [done|]. intros E. rewrite (Ho r E) in Hf. done.
Qed.

Lemma key_inj ns name ns' name' :
  contains_char "/" ns = false → contains_char "/" ns' = false → key ns name = key ns' name' → ns = ns' ∧ name = name'.
Proof.
  intros H H' E. assert (∀ a b, contains_char "/" a = false → split_once "/" (key a b) = Some (a, b)) as Hs.
  { intros a b Ha. by apply split_once_Some. }
  pose proof (Hs ns name H) as E1. rewrite E, (Hs ns' name' H') in E1. by injection E1 as <- <-.
Qed.

(** The backend references of the stored routes are to namespaces whose names are labels. *)
Definition plain_namespaces (s : StoreInner) : Prop :=
  ∀ v br, has_route s v → br ∈ rv_refs v → contains_char "/" (unwrap_or (rv_namespace v) (br_namespace br)) = false.

(** A route of the gateway refers to the service of an endpoint slice by a reference that
    is not to a core Service, which the reverse index leaves out. *)
Definition foreign_reference (s : StoreInner) (e : WatchEvent) (gns gname : string) : Prop :=
  ∃ slice ns name v br, e = EvEndpointSlice slice ∧ om_namespace (es_metadata slice) = Some ns ∧
    om_labels (es_metadata slice) ≫= (.!! service_name_label) = Some name ∧
    has_route s v ∧ has_parent v (gns, gname) ∧ br ∈ rv_refs v ∧ is_core_service_ref (br_group br) (br_kind br) = false ∧
    unwrap_or (rv_namespace v) (br_namespace br) = ns ∧ br_name br = name.

(** The event's object has a namespace, whose name is a label. *)
Definition event_metadata (e : WatchEvent) : ObjectMeta :=
  match e with
  | EvHttpRoute r => hr_metadata r | EvTcpRoute r => tr_metadata r | EvTlsRoute r => lr_metadata r
  | EvEndpointSlice s => es_metadata s | EvService m | EvSecret m | EvReferenceGrant m => m
  end.
Definition namespaced (e : WatchEvent) : Prop := ∃ ns, om_namespace (event_metadata e) = Some ns ∧ contains_char "/" ns = false.

Lemma scoped_ref s gns gname ns br :
  state_ref (scoped_state gns gname (to_planner_snapshot s)) ns br →
  ∃ v, has_route s v ∧ ns = rv_namespace v ∧ br ∈ rv_refs v ∧ has_parent v (gns, gname).
Proof.
  assert (∀ ns ps refs, route_references_gateway ns ps gns gname = true → has_parent (mkRouteView ns ps refs) (gns, gname)) as Hp.
  { intros ? ? ? Hr. by apply route_references_gateway_spec, elem_of_route_parent_gateways in Hr. }
  unfold has_route. intros [(k&r&Hk&->&Hbr)|[(k&r&Hk&->&Hbr)|(k&r&Hk&->&Hbr)]]; apply map_lookup_filter_Some in Hk as [Hk Href].
  - exists (http_view r). split_and!; [eauto 10|done|done|by apply Hp].
  - exists (tcp_view r). split_and!; [eauto 10|done|done|by apply Hp].
  - exists (tls_view r). split_and!; [eauto 10|done|done|by apply Hp].
Qed.

Lemma endpoints_not_read s gns gname slice ns name e :
  indexes_current (s, 0) → plain_namespaces (ss_inner s) → contains_char "/" ns = false →
  om_namespace (es_metadata slice) = Some ns → om_labels (es_metadata slice) ≫= (.!! service_name_label) = Some name →
  (gns, gname) ∉ gateways_for_service (ss_reverse_index s) ns name →
  ¬ foreign_reference (ss_inner s) (EvEndpointSlice slice) gns gname →
  (∀ k, k ≠ key ns name → e !! k = si_service_endpoints (ss_inner s) !! k) →
  generate_config (set_endpoints e (scoped_state gns gname (to_planner_snapshot (ss_inner s)))) =
  generate_config (scoped_state gns gname (to_planner_snapshot (ss_inner s))).
Proof.
  intros [_ Hix] Hplain Hns Hsn Hl Hnot Hforeign He. apply generate_config_endpoints. intros rns br (v&Hv&->&Hbr&Hp)%scoped_ref.
  apply He. intros E. apply key_inj in E as [En Enm]; [|by apply (Hplain v)|done].
  destruct (is_core_service_ref (br_group br) (br_kind br)) eqn:Hcore; [|apply Hforeign; by exists slice, ns, name, v, br].
  apply Hnot. cbn in Hix. rewrite (Hix eq_refl). unfold gateways_for_service. rewrite elem_of_gateways_for_key.
  apply rebuild_service_spec. exists v. split_and!; [done| |done]. by exists br.
Qed.

(** Which of the three cases of [replaced_references] the stored route [Hr] is. *)
Ltac replaced_case Hr Ht tac :=
  first [left; do 2 eexists; split; [exact Hr|split; [tac|exact Ht]]
        |right; left; do 2 eexists; split; [exact Hr|split; [tac|exact Ht]]
        |right; right; do 2 eexists; split; [exact Hr|split; [tac|exact Ht]]].

(** C10: every gateway whose configuration an event changes is woken by it, with two
    exceptions.  In every state the store can reach, no replacement of its contents being
    half done, with namespaces that are labels, let the object of an event (a route, or an
    endpoint slice, with a namespace) be written: a gateway that the event does not wake keeps its configuration text, unless the
    replaced or removed version of the route references it, or one of its routes refers
    to the slice's service by a backend reference that is not to a core Service. *)
Theorem config_change_wakes toml_to_string_pretty s e s' gns gname :
  reachable s 0 → plain_namespaces (ss_inner s) → namespaced e → event_write s e s' →
  (gns, gname) ∉ woken (ss_reverse_index s) e → ¬ replaced_references s s' gns gname → ¬ foreign_reference (ss_inner s) e gns gname →
  config_toml_from_snapshot toml_to_string_pretty gns gname (to_planner_snapshot (ss_inner s')) =
  config_toml_from_snapshot toml_to_string_pretty gns gname (to_planner_snapshot (ss_inner s)).
Proof.
  intros Hreach%reachable_current Hplain (ns0&Hns&Hslash) Hw Hnot Hrep Hfor. unfold config_toml_from_snapshot.
  assert (∀ ps, (gns, gname) ∉ gateway_refs_from_parent_refs ns0 ps → route_references_gateway ns0 ps gns gname = false) as Href.
  { intros ps H. apply not_true_is_false. intros Ht. apply H. by rewrite gateway_refs_elem, <- route_references_gateway_spec. }
  enough (generate_config (scoped_state gns gname (to_planner_snapshot (ss_inner s'))) =
          generate_config (scoped_state gns gname (to_planner_snapshot (ss_inner s)))) as -> by done.
  destruct Hw as [k r st|k r|k r st|k r|k r st|k r|slice e ns name Hsn Hl|slice ns name Hsn Hl];
    cbn [event_metadata woken] in Hns, Hnot; unfold event_namespace in Hnot; rewrite Hns in Hnot; cbn [unwrap_or] in Hnot.
  1, 3, 5: f_equal; unfold scoped_state; cbn; f_equal; apply scoped_filter_replace;
    [intros r' [= <-]; unfold references, ns_or_default; cbn; rewrite Hns; by apply Href
    |intros r' Hr' Hne; apply not_true_is_false; intros Ht; apply Hrep; unfold replaced_references;
     replaced_case Hr' Ht ltac:(cbn; by rewrite lookup_insert_eq)].
  1, 2, 3: f_equal; unfold scoped_state; cbn; f_equal; apply (scoped_filter_replace _ _ k None);
    [done
    |intros r' Hr' _; apply not_true_is_false; intros Ht; apply Hrep; unfold replaced_references;
     replaced_case Hr' Ht ltac:(cbn; by rewrite lookup_delete_eq)].
  all: cbn in Hsn; pose proof Hns as Hns'; rewrite Hsn in Hns'; injection Hns' as <-; rewrite Hl in Hnot; cbn in Hnot;
    unfold gateway_refs_from_keys in Hnot; rewrite elem_of_sort_refs in Hnot.
  - apply (endpoints_not_read s gns gname slice ns name (<[key ns name := e]> (si_service_endpoints (ss_inner s)))); [done..|].
    intros k Hk. by rewrite lookup_insert_ne.
  - apply (endpoints_not_read s gns gname slice ns name (delete (key ns name) (si_service_endpoints (ss_inner s)))); [done..|].
    intros k Hk. by rewrite lookup_delete_ne.
Qed.

(** ** Examples *)

Module Demo.

Definition accepted : option (list RouteParentStatus) :=
  Some [mkRouteParentStatus ex_parent WICKET_CONTROLLER_NAME [Condition_accepted "t"]].

Definition parent (name : string) : ParentReference := mkParentReference GATEWAY_API_GROUP "Gateway" (Some "infra") name None None.

(** A route of the gateway [edge] in the namespace [infra] with one backend, and the same
    route after it was moved to the gateway [other]. *)
Definition route_to (gw : string) : HTTPRoute :=
  mkHTTPRoute (meta_of "apps" "shop")
    (mkHTTPRouteSpec [parent gw] ["shop.example.com"] [mkHTTPRouteRule None [] [] [mkHTTPBackendRef ex_backend []] None]) accepted.

Definition store_ops : list StoreOp :=
  [OpUpsertGateway "infra/edge" ex_managed_gateway; OpUpsertHttpRoute "apps/shop" (route_to "edge")].
Definition store : SharedStore := run_ops store_ops SharedStore_new.

Lemma store_reachable : reachable store 0.
Proof. apply run_ops_steps. Qed.

(** A route whose backend is named by a reference of this group and kind. *)
Definition kind_route (gw name group kind : string) : HTTPRoute :=
  mkHTTPRoute (meta_of "apps" name)
    (mkHTTPRouteSpec [parent gw] ["shop.example.com"]
       [mkHTTPRouteRule None [] [] [mkHTTPBackendRef (mkBackendRef group kind "db" (Some "backend") (Some 5432%N) 1) []] None]) accepted.

(** The gateway [edge] refers to the backend under another kind, the gateway [other] as a
    core Service. *)
Definition foreign_store : SharedStore :=
  run_ops [OpUpsertGateway "infra/edge" ex_managed_gateway;
           OpUpsertHttpRoute "apps/shop" (kind_route "edge" "shop" "net.example.com" "ServiceImport");
           OpUpsertHttpRoute "apps/plain" (kind_route "other" "plain" "" "Service")] SharedStore_new.
Lemma foreign_store_reachable : reachable foreign_store 0.
Proof. apply run_ops_steps. Qed.

Lemma store_view v : has_route (ss_inner store) v → v = http_view (route_to "edge").
Proof.
  intros [(k&r&Hk&->)|[(k&r&Hk&->)|(k&r&Hk&->)]].
  2: exfalso; exact (lookup_empty_Some (M := gmap string) k r Hk).
  2: exfalso; exact (lookup_empty_Some (M := gmap string) k r Hk).
  replace (si_http_routes (ss_inner store)) with ({["apps/shop" := route_to "edge"]} : gmap string HTTPRoute) in Hk by done.
  by apply lookup_singleton_Some in Hk as [_ <-].
Qed.

Lemma store_plain : plain_namespaces (ss_inner store).
Proof. intros v br ->%store_view. cbn. intros ->%list_elem_of_singleton. done. Qed.

Lemma store_core e gns gname : ¬ foreign_reference (ss_inner store) e gns gname.
Proof. intros (slice&ns&name&v&br&_&_&_&->%store_view&_&Hbr&Hc&_). cbn in Hbr. by apply list_elem_of_singleton in Hbr as ->. Qed.

Definition slice : EndpointSlice :=
  mkEndpointSlice (mkObjectMeta (Some "db-1") (Some "backend") None None None (Some {["kubernetes.io/service-name" := "db"]}) None None) None [].

End Demo.

(** A route that is moved to another gateway leaves the first one stale.  The event of
    the update carries only the new version: the gateway the route left has another
    configuration now, and the event does not wake it. *)
Theorem moved_route_wakes_too_few :
  ∃ s e s', reachable s 0 ∧ namespaced e ∧ event_write s e s' ∧ ("infra", "edge") ∉ woken (ss_reverse_index s) e ∧
    config_toml_from_snapshot ex_toml "infra" "edge" (to_planner_snapshot (ss_inner s)) = Done "1" ∧
    config_toml_from_snapshot ex_toml "infra" "edge" (to_planner_snapshot (ss_inner s')) = Done "0".
Proof.
  exists Demo.store, (EvHttpRoute (Demo.route_to "other")),
    (upsert_http_route "apps/shop" (mkHTTPRoute (hr_metadata (Demo.route_to "other")) (hr_spec (Demo.route_to "other")) Demo.accepted) Demo.store).
  split_and!; [apply Demo.store_reachable|by exists "apps"|apply http_written| | |].
  - cbn. rewrite gateway_refs_elem, elem_of_route_parent_gateways. intros (p&->%list_elem_of_singleton&_&[=]).
  - vm_compute. reflexivity.
  - vm_compute. reflexivity.
Qed.

(** The endpoints of a backend of another kind are used but not watched.  The
    generator resolves a backend reference by its name whatever its group and kind are,
    the reverse index keeps only those to core Services: new endpoints of a service, which
    are stored because another route refers to it, change the gateway's configuration,
    and their event does not wake it. *)
Theorem foreign_backend_not_woken :
  ∃ s e s', reachable s 0 ∧ namespaced e ∧ key "backend" "db" ∈ si_service_ref_index (ss_inner s) ∧ event_write s e s' ∧
    woken (ss_reverse_index s) e = [("infra", "other")] ∧
    ∃ c c', generate_config (scoped_state "infra" "edge" (to_planner_snapshot (ss_inner s))) = Some c ∧
      generate_config (scoped_state "infra" "edge" (to_planner_snapshot (ss_inner s'))) = Some c' ∧
      up_backends <$> cfg_upstreams c !! "apps-shop-rule0" = Some ["db.backend.svc.cluster.local:5432"] ∧
      up_backends <$> cfg_upstreams c' !! "apps-shop-rule0" = Some ["10.0.0.1:5432"].
Proof.
  exists Demo.foreign_store, (EvEndpointSlice Demo.slice),
    (upsert_endpoints (key "backend" "db") (mkServiceEndpoints "backend" "db" ["10.0.0.1:5432"]) Demo.foreign_store).
  split_and!; [apply Demo.foreign_store_reachable|by exists "backend"|vm_compute; reflexivity|by apply endpoints_written|vm_compute; reflexivity|].
  do 2 eexists. split_and!; vm_compute; reflexivity.
Qed.

Lemma config_change_wakes_witness :
  config_toml_from_snapshot ex_toml "infra" "edge"
    (to_planner_snapshot (ss_inner (upsert_endpoints (key "backend" "db") (mkServiceEndpoints "backend" "db" ["10.0.0.1:5432"]) Demo.store))) =
  Done "1".
Proof.
  rewrite (config_change_wakes ex_toml Demo.store (EvEndpointSlice Demo.slice)).
  - vm_compute. reflexivity.
  - apply Demo.store_reachable.
  - apply Demo.store_plain.
  - by exists "backend".
  - by apply endpoints_written.
  - replace (woken (ss_reverse_index Demo.store) (EvEndpointSlice Demo.slice)) with ([] : list (string * string)) by (vm_compute; reflexivity).
    apply not_elem_of_nil.
  - intros [(k&r&Hk&Hn&_)|[(k&r&Hk&Hn&_)|(k&r&Hk&Hn&_)]]; by apply Hn.
  - apply Demo.store_core.
Defined.
