(* ===== verification/HttpEndToEnd.v ===== *)
(** * From HTTPRoutes to requests

    The configuration generator (reconcilers/config_generator.rs) and the router of the
    proxy (wicket-core/src/routing.rs) put together: which backends a request reaches,
    said of the HTTPRoute resources alone. *)

From S2P Require Import Prelude Str Order Num Config HttpRouting Crds Store ConfigGen.
From Stdlib Require Import Ascii.

(** ** What a rule of an HTTPRoute takes *)

(** A request as the router sees it. *)
Record Request := mkRequest {
  req_host : option string;
  req_path : string;
  req_method : string;
  req_headers : gmap string string
}.

Definition under_prefix (prefix path : string) : Prop := (∃ rest, path = prefix +:+ rest) ∨ prefix = path +:+ "/".

(** A match without a path takes every absolute path; one with a regular expression
    takes nothing. *)
Definition match_takes (m : HTTPRouteMatch) (q : Request) : Prop :=
  match hrm_path m with
  | None => under_prefix "/" (req_path q)
  | Some pm => match pm_type pm with
               | PathExact => req_path q = pm_value pm
               | PathPrefix => under_prefix (pm_value pm) (req_path q)
               | PathRegularExpression => False
               end
  end ∧
  (∀ x, hrm_method m = Some x → to_uppercase (show_method x) = to_uppercase (req_method q)) ∧
  collect_headers (hrm_headers m) ⊆ req_headers q.

Definition host_takes (route : HTTPRoute) (q : Request) : Prop :=
  ∀ h, head (hrs_hostnames (hr_spec route)) = Some h → ∃ host, req_host q = Some host ∧ host_rule h host.

Definition rule_takes (route : HTTPRoute) (rule : HTTPRouteRule) (q : Request) : Prop :=
  host_takes route q ∧
  match hrr_matches rule with
  | [] => under_prefix "/" (req_path q)
  | ms => ∃ m, m ∈ ms ∧ match_takes m q
  end.

(** The rules that are served, in order: the accepted routes by key, their rules in turn,
    those without any backend address left out. *)
Definition served_rules (st : GatewayState) : list (HTTPRoute * (nat * HTTPRouteRule)) :=
  flat_map (λ e, (λ ir, (e.2, ir)) <$>
      filter (λ ir, rule_backends st (ns_or_default (hr_metadata e.2)) ir.2 ≠ []) (enumerate (hrs_rules (hr_spec e.2))))
    (filter (λ e, http_route_is_accepted e.2 = true) (btree_iter (gst_http_routes st))).

(** ** The routes of a configuration, rule by rule *)

(** The routes generated for a served rule. *)
Definition rule_emits (x : HTTPRoute * (nat * HTTPRouteRule)) (out : list RouteConfig) : Prop :=
  ∃ t, rule_timeout x.2.2 = Some t ∧ out = rule_output x.1 x.2.1 x.2.2 t.

(** The upstream of a rule, and the table of upstreams of some rules in turn: a later
    rule replaces an earlier one of the same name. *)
Definition served_name (x : HTTPRoute * (nat * HTTPRouteRule)) : string := route_rule_name x.1 x.2.1.
Definition served_upstream (st : GatewayState) (x : HTTPRoute * (nat * HTTPRouteRule)) : UpstreamConfig :=
  mkUpstreamConfig (rule_backends st (ns_or_default (hr_metadata x.1)) x.2.2) RoundRobin None.
Definition add_upstreams (st : GatewayState) : gmap string UpstreamConfig → list (HTTPRoute * (nat * HTTPRouteRule)) → gmap string UpstreamConfig :=
  foldl (λ ups x, <[served_name x := served_upstream st x]> ups).

Lemma render_rules_list st route rules acc acc' :
  fold_panic (render_rule st route) acc rules = Some acc' →
  let served := (λ ir, (route, ir)) <$> filter (λ ir, rule_backends st (ns_or_default (hr_metadata route)) ir.2 ≠ []) rules in
  acc'.1 = add_upstreams st acc.1 served ∧ ∃ outs, acc'.2 = acc.2 ++ concat outs ∧ Forall2 rule_emits served outs.
Proof.
  revert acc. induction rules as [|[i rule] rules IH]; intros acc; cbn [fold_panic].
  - intros [= <-]. split; [done|]. exists []. by rewrite app_nil_r.
  - intros (acc1&H1&(E1&outs&E&Hf)%IH)%bind_Some. apply render_rule_Some in H1 as [[Hn ->]|(Hn&t&Ht&->)].
    + rewrite filter_cons_False by (cbn; by intros []). eauto.
    + rewrite filter_cons_True by done. split; [exact E1|]. exists (rule_output route i rule t :: outs). split.
      * rewrite E. cbn [snd concat]. by rewrite (assoc_L (++)).
      * cbn. constructor; [|done]. by exists t.
Qed.

Lemma render_routes_list st l acc acc' :
  fold_panic (render_http_route st) acc l = Some acc' →
  let served := flat_map (λ e, (λ ir, (e.2, ir)) <$>
      filter (λ ir, rule_backends st (ns_or_default (hr_metadata e.2)) ir.2 ≠ []) (enumerate (hrs_rules (hr_spec e.2))))
      (filter (λ e, http_route_is_accepted e.2 = true) l) in
  acc'.1 = add_upstreams st acc.1 served ∧ ∃ outs, acc'.2 = acc.2 ++ concat outs ∧ Forall2 rule_emits served outs.
Proof.
  revert acc. induction l as [|[k route] l IH]; intros acc; cbn [fold_panic].
  - intros [= <-]. split; [done|]. exists []. by rewrite app_nil_r.
  - intros (acc1&H1&(Eu&outs&E&Hf)%IH)%bind_Some. unfold render_http_route in H1. cbn [snd] in H1.
    destruct (http_route_is_accepted route) eqn:Ea; cbn [negb] in H1.
    + apply render_rules_list in H1 as (Eu1&outs1&E1&Hf1). rewrite filter_cons_True by done. cbn [flat_map snd]. split.
      * unfold add_upstreams in *. by rewrite foldl_app, <-Eu1.
      * exists (outs1 ++ outs). split; [by rewrite E, E1, concat_app, (assoc_L (++))|by apply Forall2_app].
    + injection H1 as <-. rewrite filter_cons_False by (cbn; congruence). eauto.
Qed.

Lemma generated_routes_list st c :
  generate_config st = Some c →
  cfg_upstreams c = add_upstreams st ∅ (served_rules st) ∧ ∃ outs, cfg_routes c = concat outs ∧ Forall2 rule_emits (served_rules st) outs.
Proof.
  intros (ups&rs&Hf&Hu&Hr&_)%generate_config_Some. apply render_routes_list in Hf as (E1&outs&E&Hf). cbn [fst snd] in E1, E.
  rewrite Hu, Hr. split; [exact E1|]. by exists outs.
Qed.

(** The last rule of a name has its upstream in the table. *)
Lemma add_upstreams_last st ups l n x :
  l !! n = Some x →
  ∃ k y, n ≤ k ∧ l !! k = Some y ∧ served_name y = served_name x ∧ (∀ k' y', k < k' → l !! k' = Some y' → served_name y' ≠ served_name x) ∧
    add_upstreams st ups l !! served_name x = Some (served_upstream st y).
Proof.
  revert n x. induction l as [|z l IH] using rev_ind; intros n x Hx; [done|]. unfold add_upstreams. rewrite foldl_app. cbn [foldl].
  destruct (decide (served_name z = served_name x)) as [E|Hne].
  - exists (length l), z. rewrite E, lookup_insert_eq. split_and!; [|by apply lookup_snoc_Some; right|done| |done].
    + apply lookup_lt_Some in Hx. rewrite length_app in Hx. cbn in Hx. lia.
    + intros k' y' Hk Hy. apply lookup_lt_Some in Hy. rewrite length_app in Hy. cbn in Hy. lia.
  - rewrite lookup_insert_ne by done. apply lookup_snoc_Some in Hx as [[Hlt Hx]|[-> ->]]; [|done].
    destruct (IH n x Hx) as (k&y&Hk&Hy&Hn&Hlast&Hu). exists k, y. split_and!; [done|by apply lookup_app_l_Some|done| |done].
    intros k' y' Hk' [[_ Hy']|[-> ->]]%lookup_snoc_Some; [by apply (Hlast k')|done].
Qed.

(** A route of the configuration holds for a request exactly when it comes from a match
    that takes it. *)
Lemma rule_output_takes route i rule t q :
  (∃ r, r ∈ rule_output route i rule t ∧ config_rule r (req_host q) (req_path q) (req_method q) (req_headers q)) ↔ rule_takes route rule q.
Proof.
  unfold rule_takes, rule_output, rule_routes. destruct (hrr_matches rule) as [|m0 ms0] eqn:E.
  - split.
    + intros (r&->%list_elem_of_singleton&Hh&Hp&_). done.
    + intros [Hh Hp]. eexists. split; [by apply list_elem_of_singleton|]. split_and!; [done|done|by left|apply map_empty_subseteq].
  - rewrite <-E. clear E m0 ms0. split.
    + intros (r&([j m]&Hj&Hr)%list_elem_of_omap&Hrule). apply elem_of_enumerate in Hj. unfold match_route in Hr.
      destruct (match_path m) as [[pa pp]|] eqn:Em; [|done]. cbn in Hr. injection Hr as <-.
      destruct Hrule as (Hh&Hp&Hm&Hd). cbn in Hh, Hp, Hm, Hd. split; [exact Hh|]. exists m.
      split; [by eapply list_elem_of_lookup_2|]. unfold match_takes, match_path, path_rule in *.
      split_and!; [|intros x Hx; rewrite Hx in Hm; destruct Hm as [|(y&->%list_elem_of_singleton&?)]; done|done].
      destruct (hrm_path m) as [[[] v]|]; cbn in *; simplify_eq; done.
    + intros (Hh&m&[j Hj]%list_elem_of_lookup&Hp&Hm&Hd).
      assert (∃ pa pp, match_path m = Some (pa, pp) ∧ path_rule (mkRouteMatch None pp pa [] ∅) (req_path q)) as (pa&pp&Em&Hpr).
      { unfold match_path, path_rule. destruct (hrm_path m) as [[[] v]|]; cbn in *; eauto; done. }
      eexists. split.
      { apply list_elem_of_omap. exists (j, m). split; [by apply elem_of_enumerate|]. unfold match_route. rewrite Em. reflexivity. }
      split_and!; [exact Hh|exact Hpr| |exact Hd]. cbn. destruct (hrm_method m) as [x|]; [right|by left].
      exists (show_method x). split; [by apply list_elem_of_singleton|]. by apply Hm.
Qed.

(** The first element of a concatenation with a property, part by part. *)
Lemma first_in_concat {A B} (R : A → list B → Prop) (P : B → Prop) (Q : A → Prop) xs outs i b :
  Forall2 R xs outs → (∀ x out, R x out → (∃ b, b ∈ out ∧ P b) ↔ Q x) →
  concat outs !! i = Some b → P b → (∀ j b', j < i → concat outs !! j = Some b' → ¬ P b') →
  ∃ n x out, xs !! n = Some x ∧ outs !! n = Some out ∧ R x out ∧ b ∈ out ∧ Q x ∧ ∀ n' x', n' < n → xs !! n' = Some x' → ¬ Q x'.
Proof.
  intros Hf HQ. revert i. induction Hf as [|x out xs outs Hx Hf IH]; intros i Hi Hb Hmin; [done|].
  cbn [concat] in Hi, Hmin. destruct (decide (i < length out)) as [Hlt|Hge].
  - rewrite lookup_app_l in Hi by done. exists 0, x, out. split_and!; [done..|by eapply list_elem_of_lookup_2| |lia].
    apply (HQ x out Hx). exists b. split; [by eapply list_elem_of_lookup_2|done].
  - rewrite lookup_app_r in Hi by lia. destruct (IH (i - length out)) as (n&x'&out'&H1&H2&H3&H4&H5&H6); [done|done| |].
    { intros j b' Hj Hb'. apply (Hmin (length out + j)); [lia|]. rewrite lookup_app_r by lia. by replace (length out + j - length out) with j by lia. }
    exists (S n), x', out'. split_and!; [done..|]. intros [|n'] y Hn' Hy; [|apply (H6 n'); [lia|done]]. cbn in Hy. injection Hy as <-.
    intros (b'&[j Hj]%list_elem_of_lookup&Hb')%(HQ x out Hx). apply (Hmin j b'); [apply lookup_lt_Some in Hj; lia| |done].
    rewrite lookup_app_l; [done|by eapply lookup_lt_Some].
Qed.

(** ** The whole way *)

Lemma request_first_rule st c r q :
  generate_config st = Some c → Router_build (cfg_routes c) = Ok r →
  match match_request r (req_host q) (req_path q) (req_method q) (req_headers q) with
  | Some m => ∃ n x, served_rules st !! n = Some x ∧ rule_takes x.1 x.2.2 q ∧ mr_upstream m = served_name x ∧
                ∀ n' x', n' < n → served_rules st !! n' = Some x' → ¬ rule_takes x'.1 x'.2.2 q
  | None => ∀ x, x ∈ served_rules st → ¬ rule_takes x.1 x.2.2 q
  end.
Proof.
  intros Hg Hb. destruct (generated_routes_list _ _ Hg) as (_&outs&E&Hf).
  assert (∀ x out, rule_emits x out →
    (∃ r, r ∈ out ∧ config_rule r (req_host q) (req_path q) (req_method q) (req_headers q)) ↔ rule_takes x.1 x.2.2 q) as HQ.
  { intros [route [i rule]] out (t&_&->). apply rule_output_takes. }
  pose proof (match_request_first _ _ (req_host q) (req_path q) (req_method q) (req_headers q) Hb) as Hm.
  destruct (match_request _ _ _ _ _) as [m|].
  - destruct Hm as (i&rc&Hi&Hrc&->&Hmin). pose proof (list_elem_of_lookup_2 _ _ _ Hi) as Hrin. rewrite E in Hi, Hmin.
    destruct (first_in_concat _ _ _ _ _ _ _ Hf HQ Hi Hrc Hmin) as (n&x&out&Hn&_&(t&_&Eo)&Hin&Hx&Hfirst).
    exists n, x. rewrite Eo in Hin. by apply rule_output_spec in Hin as [Hu _].
  - intros x [n Hn]%list_elem_of_lookup Ht. destruct (Forall2_lookup_l _ _ _ _ _ Hf Hn) as (out&Hout&Hr).
    destruct (proj2 (HQ _ _ Hr) Ht) as (rc&Hin&Hrc). apply (Hm rc); [|done]. rewrite E.
    apply list_elem_of_In, in_concat. exists out. split; apply list_elem_of_In; [by eapply list_elem_of_lookup_2|done].
Qed.

(** A hostname the router cannot compile: a star that is not the whole first label. *)
Definition bad_hostname (h : string) : Prop := strip_prefix "*." h = None ∧ contains_char "*" h = true.

Lemma rule_output_host route i rule t rc :
  rc ∈ rule_output route i rule t → rm_host (rc_match_rules rc) = head (hrs_hostnames (hr_spec route)).
Proof.
  unfold rule_output, rule_routes. destruct (hrr_matches rule); [by intros ->%list_elem_of_singleton|].
  intros ([j x]&_&H)%list_elem_of_omap. unfold match_route in H. destruct (match_path x) as [[]|]; [|done]. cbn in H. by simplify_eq.
Qed.

(** The router of a configuration builds unless a served rule has such a hostname. *)
Lemma router_build_fails st c e :
  generate_config st = Some c → Router_build (cfg_routes c) = Err e →
  ∃ x h, x ∈ served_rules st ∧ head (hrs_hostnames (hr_spec x.1)) = Some h ∧ bad_hostname h.
Proof.
  intros (_&outs&E&Hf)%generated_routes_list Hb.
  assert (¬ Forall (λ rc, is_Some (ok (CompiledRoute_compile rc))) (cfg_routes c)) as Hn.
  { rewrite <-try_map_total. unfold Router_build in Hb. destruct (try_map _ _); [done|]. by intros []. }
  apply not_Forall_Exists in Hn; [|intros rc; apply _]. apply Exists_exists in Hn as (rc&Hin&Hn). rewrite E in Hin. apply list_elem_of_In, in_concat in Hin as (out&Ho&Hin).
  apply list_elem_of_In in Ho, Hin. apply list_elem_of_lookup in Ho as [n Ho].
  destruct (Forall2_lookup_r _ _ _ _ _ Hf Ho) as (x&Hx&t&_&->). apply rule_output_host in Hin.
  change (¬ is_Some (ok (CompiledRoute_compile rc))) in Hn. unfold CompiledRoute_compile in Hn. rewrite Hin in Hn. destruct (head _) as [h|] eqn:Eh; [|by destruct Hn; eexists].
  exists x, h. split_and!; [by eapply list_elem_of_lookup_2|done|]. unfold HostMatcher_compile, bad_hostname in *.
  destruct (strip_prefix "*." h); [by destruct Hn; eexists|]. destruct (contains_char "*" h); [done|by destruct Hn; eexists].
Qed.

(** C2: the proxy serves what the HTTPRoutes say.  Load a configuration the generator
    makes.  The router refuses it only if a served rule has a hostname with a star that is
    not its first label.  Otherwise a request goes to no route exactly when no served rule
    takes its host, path, method and headers, and else the first one in the order of
    route keys and rules that takes it decides: the request is sent to the backends of
    the last served rule with the same upstream name, which are that first rule's own
    backends unless a later served rule has the same name. *)
Theorem request_reaches_first_rule st c :
  generate_config st = Some c →
  match Router_build (cfg_routes c) with
  | Err _ => ∃ x h, x ∈ served_rules st ∧ head (hrs_hostnames (hr_spec x.1)) = Some h ∧ bad_hostname h
  | Ok r =>
      ∀ q,
      match match_request r (req_host q) (req_path q) (req_method q) (req_headers q) with
      | Some m =>
          ∃ n x, served_rules st !! n = Some x ∧ rule_takes x.1 x.2.2 q ∧
            (∀ n' x', n' < n → served_rules st !! n' = Some x' → ¬ rule_takes x'.1 x'.2.2 q) ∧
            (∃ k y, n ≤ k ∧ served_rules st !! k = Some y ∧ served_name y = served_name x ∧
               (∀ k' y', k < k' → served_rules st !! k' = Some y' → served_name y' ≠ served_name x) ∧
               cfg_upstreams c !! mr_upstream m = Some (served_upstream st y)) ∧
            ((∀ k y, n < k → served_rules st !! k = Some y → served_name y ≠ served_name x) →
             cfg_upstreams c !! mr_upstream m = Some (served_upstream st x))
      | None => ∀ x, x ∈ served_rules st → ¬ rule_takes x.1 x.2.2 q
      end
  end.
Proof.
  intros Hg. destruct (Router_build _) as [r|e] eqn:Hb; [|by eapply router_build_fails]. intros q.
  pose proof (request_first_rule st c r q Hg Hb) as H. destruct (match_request _ _ _ _ _) as [m|]; [|done].
  destruct H as (n&x&Hn&Ht&Hu&Hmin). exists n, x. split_and!; [done..| |]; rewrite (proj1 (generated_routes_list _ _ Hg)), Hu;
    destruct (add_upstreams_last st ∅ _ _ _ Hn) as (k&y&Hk&Hy&Hname&Hlast&He).
  - by exists k, y.
  - intros Hone. rewrite He. destruct (decide (n = k)) as [->|Hne]; [congruence|]. by destruct (Hone k y); [lia|..].
Qed.

(** ** Examples *)

Module Demo.

(** A rule for [/shop] with the query parameter [v=2], in front of a rule for the rest. *)
Definition picky : HTTPRouteMatch :=
  mkHTTPRouteMatch (Some (mkHTTPPathMatch PathPrefix "/shop")) [] [mkHTTPQueryParamMatch QueryExact "v" "2"] None.

Definition backend (name : string) : HTTPBackendRef := mkHTTPBackendRef (mkBackendRef "" "Service" name None (Some 80%N) 1) [].

Definition route : HTTPRoute :=
  mkHTTPRoute (meta_of "apps" "shop")
    (mkHTTPRouteSpec [ex_parent] ["shop.example.com"]
       [mkHTTPRouteRule None [picky] [] [backend "v2"] None; mkHTTPRouteRule None [] [] [backend "web"] None])
    accepted_by_wicket.

Definition state : GatewayState := mkGatewayState ∅ {["apps/shop" := route]} ∅ ∅ ∅ ∅.

Definition config : Config := match generate_config state with Some c => c | None => Config_default end.
Definition router : Router := match Router_build (cfg_routes config) with Ok r => r | Err _ => mkRouter [] end.
Definition request (path : string) : Request := mkRequest (Some "shop.example.com") path "GET" ∅.
Definition reached (path : string) : option (list string) :=
  let q := request path in
  match_request router (req_host q) (req_path q) (req_method q) (req_headers q) ≫= λ m,
  up_backends <$> cfg_upstreams config !! mr_upstream m.

End Demo.

(** Conditions on the query are ignored, and a path prefix is one of characters.  The
    first rule of the example asks for the prefix [/shop] and for the query parameter
    [v=2]; a request for [/shopping] without any query goes to its backend, and not to
    the backend of the rule for everything else. *)
Theorem query_ignored_prefix_of_characters :
  generate_config Demo.state = Some Demo.config ∧ Router_build (cfg_routes Demo.config) = Ok Demo.router ∧
  Demo.reached "/shopping" = Some ["v2.apps.svc.cluster.local:80"] ∧
  Demo.reached "/about" = Some ["web.apps.svc.cluster.local:80"].
Proof. by vm_compute. Qed.

Lemma request_reaches_first_rule_witness :
  ∃ m n x, match_request Demo.router (Some "shop.example.com") "/about" "GET" ∅ = Some m ∧ served_rules Demo.state !! n = Some x ∧
    rule_takes x.1 x.2.2 (Demo.request "/about").
Proof.
  assert (generate_config Demo.state = Some Demo.config) as Hg by (vm_compute; reflexivity).
  assert (Router_build (cfg_routes Demo.config) = Ok Demo.router) as Hb by (vm_compute; reflexivity).
  pose proof (request_reaches_first_rule Demo.state Demo.config Hg) as H. rewrite Hb in H. specialize (H (Demo.request "/about")).
  cbn [Demo.request req_host req_path req_method req_headers] in H.
  destruct (match_request Demo.router (Some "shop.example.com") "/about" "GET" ∅) as [m|] eqn:E;
    [|assert (is_some (match_request Demo.router (Some "shop.example.com") "/about" "GET" ∅) = true) as Hs by (vm_compute; reflexivity);
      rewrite E in Hs; discriminate Hs].
  destruct H as (n&x&Hn&Ht&_). exists m, n, x. split_and!; [reflexivity|exact Hn|exact Ht].
Defined.
