(* ===== verification/EndToEnd.v ===== *)
(** * From the cluster to the stream proxy

    The pieces put together: the endpoints the Service reconciler stores, the stream
    configuration the controller generates from the store, and the stream proxy that
    loads it (reconcilers/service.rs, config_generator.rs, wicket-stream/src/proxy.rs). *)

From S2P Require Import Prelude Str Order Num Net Metrics Config Crds Store SniRouter StreamUpstream StreamProxy ConfigGen GatewayReconciler.
From S2P Require Import SecretReconciler ServiceReconciler.
From Stdlib Require Import Ascii.

(** ** What an IPv4 socket address looks like *)

Definition v4_char (c : ascii) : bool := is_some (to_digit 10 c) || Ascii.eqb c ".".

(** A reader that takes only such characters off its input. *)
Definition takes_v4 {A} (r : reader A) : Prop :=
  ∀ s v rest, r s = Some (v, rest) → ∃ c, s = c +:+ rest ∧ string_forallb v4_char c = true.

Lemma read_digits_takes acc n s v c rest :
  read_digits 10 acc n s = (v, c, rest) → ∃ ds, s = ds +:+ rest ∧ string_forallb v4_char ds = true.
Proof.
  revert acc n. induction s as [|d s IH]; intros acc n; cbn [read_digits].
  { intros [= _ _ <-]. by exists "". }
  destruct (to_digit 10 d) as [x|] eqn:E.
  - intros (ds&->&Hds)%IH. exists (String d ds). split; [done|]. cbn [string_forallb]. unfold v4_char. by rewrite E.
  - intros [= _ _ <-]. by exists "".
Qed.

Lemma read_octet_takes : takes_v4 read_octet.
Proof.
  intros s v rest. unfold read_octet, read_number. destruct (read_digits 10 0 0 s) as [[x c] r] eqn:E.
  repeat case_match; try done; intros [= _ <-]; by eapply read_digits_takes.
Qed.

Lemma read_separator_takes {A} i (r : reader A) : takes_v4 r → takes_v4 (read_separator "." i r).
Proof.
  intros Hr s v rest. unfold read_separator, read_given_char. destruct (0 <? i); [|apply Hr]. destruct s as [|d s]; [done|].
  destruct (Ascii.eqb_spec "." d) as [<-|]; [|done]. intros (c&->&Hc)%Hr. by exists (String "." c).
Qed.

Lemma bind_takes {A B} (r : reader A) (f : A → reader B) :
  takes_v4 r → (∀ x, takes_v4 (f x)) → takes_v4 (λ s, '(x, s') ← r s; f x s').
Proof.
  intros Hr Hf s v rest H. destruct (r s) as [[x s']|] eqn:E; cbn in H; [|done]. apply Hr in E as (c&->&Hc).
  apply Hf in H as (c'&->&Hc'). exists (c +:+ c'). split; [by rewrite app_str_assoc|]. by rewrite string_forallb_app, Hc.
Qed.

Lemma read_ipv4_takes : takes_v4 read_ipv4_addr.
Proof.
  unfold read_ipv4_addr. do 4 (apply bind_takes; [apply read_separator_takes, read_octet_takes|intros ?]).
  intros s v rest [= _ <-]. by exists "".
Qed.

Lemma v4_char_no_colon s : string_forallb v4_char s = true → contains_char ":" s = false.
Proof.
  induction s as [|c s IH]; cbn [string_forallb]; [done|]. rewrite andb_true_iff. intros [Hc Hs].
  change (Ascii.eqb ":" c || contains_char ":" s = false). rewrite IH by done. rewrite orb_false_r.
  by destruct (Ascii.eqb_spec ":" c) as [<-|].
Qed.

(** An address without a bracket is an IPv4 address: digits and dots up to its colon. *)
Lemma parse_socket_addr_host s a :
  parse_socket_addr s = Some a → contains_char "[" (split_first ":" s) = false → string_forallb v4_char (split_first ":" s) = true.
Proof.
  unfold parse_socket_addr. intros H Hb. destruct (read_socket_addr_v4 s) as [r|] eqn:E4.
  - clear H Hb. unfold read_socket_addr_v4 in E4. destruct (read_ipv4_addr s) as [[ip s1]|] eqn:E; cbn in E4; [|done].
    apply read_ipv4_takes in E as (c&->&Hc). unfold read_port, read_given_char in E4.
    destruct s1 as [|d s1]; [done|]. destruct (Ascii.eqb_spec ":" d) as [<-|]; cbn in E4; [|done].
    rewrite split_first_app; [done|]. by apply v4_char_no_colon.
  - exfalso. destruct (read_socket_addr_v6 s) as [r|] eqn:E6; [|done]. unfold read_socket_addr_v6, read_given_char in E6.
    destruct s as [|d s]; [done|]. destruct (Ascii.eqb_spec "[" d) as [<-|]; [|done]. done.
Qed.

(** ** The cluster name of a service is no socket address *)

Definition dns_part (s : string) : Prop := contains_char ":" s = false ∧ contains_char "[" s = false.

Lemma dns_name_rejected name ns port :
  dns_part name → dns_part ns →
  ∃ e, StreamBackendAddr_from_str (name +:+ "." +:+ ns +:+ ".svc.cluster.local:" +:+ port) = Err e.
Proof.
  intros [Hn1 Hn2] [Hs1 Hs2]. set (host := name +:+ "." +:+ ns +:+ ".svc.cluster.local").
  assert (name +:+ "." +:+ ns +:+ ".svc.cluster.local:" +:+ port = host +:+ String ":" port) as ->.
  { unfold host. by rewrite !app_str_assoc. }
  assert (contains_char ":" host = false) as Hc by (unfold host; by rewrite !contains_char_app, Hn1, Hs1).
  assert (contains_char "[" host = false) as Hb by (unfold host; by rewrite !contains_char_app, Hn2, Hs2).
  pose proof (split_first_app ":" host port Hc) as Hsplit. unfold StreamBackendAddr_from_str.
  destruct (is_empty_str _); [by eexists|]. destruct (strip_prefix "unix:" _) as [path|] eqn:Eu.
  - exfalso. apply strip_prefix_Some in Eu. rewrite Eu in Hsplit.
    assert (host = "unix") as Hh by (etransitivity; [symmetry; exact Hsplit|reflexivity]).
    assert (contains_char "." host = true) as Hd by (unfold host; by rewrite !contains_char_app, orb_true_r).
    by rewrite Hh in Hd.
  - destruct (parse_socket_addr (host +:+ String ":" port)) as [a|] eqn:Ep; [|by eexists]. exfalso.
    apply parse_socket_addr_host in Ep; rewrite Hsplit in *; [|done].
    unfold host in Ep. rewrite !string_forallb_app, !andb_true_iff in Ep. by destruct Ep as (_&_&_&?).
Qed.

(** The names of the backends of a state are DNS names. *)
Definition backend_names_ok (st : GatewayState) : Prop :=
  ∀ ns br, stream_backend st ns br → dns_part (br_name br) ∧ dns_part (unwrap_or ns (br_namespace br)).

Definition loadable (a : string) : Prop := is_Some (ok (StreamBackendAddr_from_str a)).

Lemma parse_upstreams_total config :
  is_Some (ok (parse_upstreams config)) ↔ ∀ u a, u ∈ st_upstreams config → a ∈ su_servers u → loadable a.
Proof.
  unfold parse_upstreams. rewrite try_map_total, Forall_forall. split.
  - intros H u a Hu Ha. specialize (H u Hu). cbn in H. unfold parse_backend_endpoints in H.
    assert (is_Some (ok (try_map StreamBackendAddr_from_str (su_servers u)))) as Hs.
    { destruct (try_map StreamBackendAddr_from_str (su_servers u)); [by eexists|by destruct H]. }
    rewrite try_map_total, Forall_forall in Hs. by apply Hs.
  - intros H u Hu. cbn. unfold parse_backend_endpoints.
    assert (is_Some (ok (try_map StreamBackendAddr_from_str (su_servers u)))) as [x Hx].
    { rewrite try_map_total, Forall_forall. intros a Ha. by apply (H u). }
    destruct (try_map _ _); [by eexists|done].
Qed.

Lemma backend_loadable st ns br d :
  dns_part (br_name br) → dns_part (unwrap_or ns (br_namespace br)) →
  (∀ a, a ∈ su_servers (stream_upstream st ns d br) → loadable a) ↔
  ∃ e, gst_service_endpoints st !! key (unwrap_or ns (br_namespace br)) (br_name br) = Some e ∧ ∀ a, a ∈ se_endpoints e → loadable a.
Proof.
  intros Hn Hs. unfold stream_upstream, backend_servers. cbn [su_servers].
  destruct (gst_service_endpoints st !! _) as [e|].
  - setoid_rewrite (elem_of_sort_by str_cmp). naive_solver.
  - split; [|naive_solver]. intros H. specialize (H _ (list_elem_of_here _ _)).
    destruct (dns_name_rejected (br_name br) (unwrap_or ns (br_namespace br)) (show_N (unwrap_or d (br_port br))) Hn Hs) as [e He].
    unfold loadable in H. rewrite He in H. by destruct H.
Qed.

Lemma generated_upstreams_loadable st cfg :
  generate_stream st (listeners_of is_stream (btree_iter (gst_gateways st))) = Some cfg → backend_names_ok st →
  is_Some (ok (parse_upstreams cfg)) ↔
  ∀ ns br, stream_backend st ns br →
    ∃ e, gst_service_endpoints st !! key (unwrap_or ns (br_namespace br)) (br_name br) = Some e ∧ ∀ a, a ∈ se_endpoints e → loadable a.
Proof.
  intros (_&Hup&_)%generate_stream_Some Hn. rewrite parse_upstreams_total, Hup.
  destruct (stream_upstreams_backend st) as [H1 H2]. split.
  - intros H ns br Hb. destruct (Hn ns br Hb), (H2 ns br Hb) as [d Hd]. apply (backend_loadable st ns br d); [done..|]. eauto.
  - intros H u a Hu Ha. destruct (H1 u Hu) as (ns&br&d&Hb&->). destruct (Hn ns br Hb).
    by apply (proj2 (backend_loadable st ns br d ltac:(done) ltac:(done)) (H ns br Hb)).
Qed.

(** C13: which generated streams the proxy can load.  The stream the controller
    generates is accepted by the stream proxy exactly when, for every backend of every
    accepted TCP or TLS route, the store knows the service's endpoints and each of them
    is a literal socket address: one route to a service without known endpoints, for
    which the generator falls back to the cluster's DNS name, makes the whole stream
    unloadable. *)
Theorem generated_stream_loads_iff st cfg routes m :
  generate_stream st (listeners_of is_stream (btree_iter (gst_gateways st))) = Some cfg → ports_ok st → backend_names_ok st →
  is_Some (ok (from_config routes cfg m)) ↔
  ∀ ns br, stream_backend st ns br →
    ∃ e, gst_service_endpoints st !! key (unwrap_or ns (br_namespace br)) (br_name br) = Some e ∧
         ∀ a, a ∈ se_endpoints e → is_Some (ok (StreamBackendAddr_from_str a)).
Proof.
  intros Hg Hp Hn. rewrite <-(generated_upstreams_loadable st cfg Hg Hn).
  apply generate_stream_Some in Hg as (_&_&_&_&_&Hl). destruct (Hl Hp) as [addr Ha].
  unfold from_config. destruct (parse_upstreams cfg) as [ups|e]; cbn; [|by split; intros []].
  rewrite Ha. cbn. destruct (alloc_upstreams _ _ _ _) as [[h n] t]. by split; eexists.
Qed.

(** ** Scale to zero *)

Definition slice_key (slice : EndpointSlice) : string :=
  key (unwrap_or "" (om_namespace (es_metadata slice))) (slice_service_name slice).

(** Scaling a stream backend to zero freezes the stream.  When a service of an
    accepted TCP or TLS route loses its last ready endpoint, the reconcile takes its
    entry out of the store, the generated stream names the service by DNS, and the
    proxy refuses to reload: it keeps the configuration it has, with the endpoints that
    are gone, for every route of the stream. *)
Theorem scale_to_zero_blocks_reload api slice s n s' slices ns br cfg routes w :
  reconcile_endpoint_slice api slice s = (Ok (Requeue n), s') →
  sv_slices api (unwrap_or "" (om_namespace (es_metadata slice))) (slice_service_name slice) = Ok slices →
  (∀ sl ep, sl ∈ slices → ep ∈ es_endpoints sl → ep_ready ep = false) →
  let st := to_gateway_state (ss_inner (sv_store s')) in
  stream_backend st ns br → key (unwrap_or ns (br_namespace br)) (br_name br) = slice_key slice → backend_names_ok st →
  generate_stream st (listeners_of is_stream (btree_iter (gst_gateways st))) = Some cfg →
  ∃ e, stream_reload routes cfg w = (w, Err e).
Proof.
  intros Hr Hsl Hzero st Hb Hk Hn Hg.
  assert (flat_map slice_addrs slices = []) as Hnil.
  { apply elem_of_nil_inv. intros a (sl&ep&addr&H1&H2&H3&_)%elem_of_slice_addrs. by rewrite (Hzero sl ep H1 H2) in H3. }
  assert (gst_service_endpoints st !! slice_key slice = None) as Hnone.
  { revert Hr. unfold reconcile_endpoint_slice. destruct (is_empty_str _); [done|]. destruct (negb _); [done|].
    rewrite Hsl, Hnil. cbn [is_empty negb]. intros [= _ Hs']. unfold st. rewrite <-Hs'. cbn. apply lookup_delete_eq. }
  unfold stream_reload. destruct (parse_upstreams cfg) as [ups|e] eqn:Ep; [|by eexists]. exfalso.
  assert (is_Some (ok (parse_upstreams cfg))) as Hsome by (rewrite Ep; by eexists).
  destruct (proj1 (generated_upstreams_loadable st cfg Hg Hn) Hsome ns br Hb) as (e&He&_). by rewrite Hk, Hnone in He.
Qed.

(** ** What the endpoints look like *)

(** An IPv4 endpoint with a port is a literal socket address. *)
Lemma ipv4_endpoint_loadable ip port :
  (0 ≤ port < 65536)%Z → loadable (show_ipv4 ip +:+ ":" +:+ show_Z port).
Proof.
  intros Hp. unfold show_Z. destruct (Z.ltb_spec port 0) as [|_]; [lia|]. set (p := Z.to_N port).
  assert ((p < 65536)%N) as Hlt by lia. pose proof (parse_show_socket_v4 ip p Hlt) as H. unfold show_socket in H.
  unfold loadable, StreamBackendAddr_from_str. destruct (is_empty_str _) eqn:Ee.
  { apply is_empty_str_true in Ee. rewrite Ee in H. done. }
  destruct (strip_prefix "unix:" _) as [path|] eqn:Eu; [|rewrite H; by eexists].
  apply strip_prefix_Some in Eu. rewrite Eu in H. done.
Qed.

(** An IPv6 endpoint is written without brackets, and a slice without ports yields bare
    addresses: neither can be loaded. *)
Example ipv6_endpoint_not_loadable : ¬ loadable ("fd00::1" +:+ ":" +:+ show_Z 8080) ∧ ¬ loadable "10.0.0.1".
Proof. split; intros [x Hx]; vm_compute in Hx; done. Qed.

(** ** Examples *)

(** A TCP route to the service [db/pg], accepted, on a gateway with a TCP listener. *)
Definition ex_tcp_gateway : Gateway :=
  mkGateway (meta_of "infra" "edge") (mkGatewaySpec "wicket" [mkListener "pg" None 5432 TCP None None] []) None.
Definition ex_pg_ref : BackendRef := mkBackendRef "" "Service" "pg" None (Some 5432%N) 1.
Definition ex_tcp_route : TCPRoute :=
  mkTCPRoute (meta_of "db" "pg") (mkTCPRouteSpec [ex_parent] [mkTCPRouteRule None [ex_pg_ref]])
    (Some [mkRouteParentStatus ex_parent WICKET_CONTROLLER_NAME [Condition_accepted "t"]]).
Definition ex_slice (ready : bool) : EndpointSlice :=
  mkEndpointSlice (mkObjectMeta (Some "pg-1") (Some "db") None None None (Some {[ service_name_label := "pg" ]}) None None)
    (Some [Some 5432%Z]) [mkEndpoint ["10.0.0.7"] (Some (Some ready))].
Definition ex_service_api (ready : bool) : ServiceApi := mkServiceApi None None None (λ _ _, Ok [ex_slice ready]).
Definition ex_service_state : ServiceState :=
  mkServiceState (run_ops ([OpUpsertGateway "infra/edge" ex_tcp_gateway; OpUpsertTcpRoute "db/pg" ex_tcp_route]
                           ++ (OpMarkListed <$> ResourceClass_ALL)) SharedStore_new) ∅.
Definition ex_after (ready : bool) : result ServiceError Action * ServiceState :=
  reconcile_endpoint_slice (ex_service_api ready) (ex_slice ready) ex_service_state.
Definition ex_gst (ready : bool) : GatewayState := to_gateway_state (ss_inner (sv_store (ex_after ready).2)).
Definition ex_stream (ready : bool) : option StreamConfig :=
  generate_stream (ex_gst ready) (listeners_of is_stream (btree_iter (gst_gateways (ex_gst ready)))).
Definition ex_stream_config (servers : list string) : StreamConfig :=
  mkStreamConfig "stream-5432" "0.0.0.0:5432" 8000 true PPC_None [] None ∅ [mkStreamUpstreamConfig "db-pg" servers] 30 5000 10000 30.

Example ex_streams :
  ex_stream true = Some (ex_stream_config ["10.0.0.7:5432"]) ∧ ex_stream false = Some (ex_stream_config ["pg.db.svc.cluster.local:5432"]).
Proof. split; vm_compute; reflexivity. Qed.

Lemma ex_gst_routes ready : gst_tcp_routes (ex_gst ready) = {["db/pg" := ex_tcp_route]} ∧ gst_tls_routes (ex_gst ready) = ∅.
Proof. destruct ready; split; vm_compute; reflexivity. Qed.

Lemma ex_stream_backend ready ns br : stream_backend (ex_gst ready) ns br ↔ ns = "db" ∧ br = ex_pg_ref.
Proof.
  destruct (ex_gst_routes ready) as [H1 H2]. unfold stream_backend. rewrite H1, H2. split.
  - intros [(k&r&Hk&_)|(k&r&Hk&_&->&Hbr)]; [by rewrite lookup_empty in Hk|].
    apply lookup_singleton_Some in Hk as [_ <-]. cbn in Hbr. apply list_elem_of_singleton in Hbr as ->. split; reflexivity.
  - intros [-> ->]. right. exists "db/pg", ex_tcp_route. rewrite lookup_singleton_eq. split_and!; [reflexivity..|]. left.
Qed.

Lemma ex_backend_names ready : backend_names_ok (ex_gst ready).
Proof. intros ns br [-> ->]%ex_stream_backend. done. Qed.

Lemma ex_stream_ports ready : ports_ok (ex_gst ready).
Proof.
  assert (gst_gateways (ex_gst ready) = {["infra/edge" := ex_tcp_gateway]}) as Hg by (destruct ready; vm_compute; reflexivity).
  intros k g l. rewrite Hg. intros [_ <-]%lookup_singleton_Some Hl. cbn in Hl. apply list_elem_of_singleton in Hl as ->. done.
Qed.

Lemma generated_stream_loads_iff_witness :
  is_Some (ok (from_config [] (ex_stream_config ["10.0.0.7:5432"]) ∅)) ∧
  ¬ is_Some (ok (from_config [] (ex_stream_config ["pg.db.svc.cluster.local:5432"]) ∅)).
Proof.
  destruct ex_streams as [H1 H2]. split.
  - apply (generated_stream_loads_iff (ex_gst true) _ [] ∅ H1 (ex_stream_ports true) (ex_backend_names true)).
    intros ns br [-> ->]%ex_stream_backend. exists (mkServiceEndpoints "db" "pg" ["10.0.0.7:5432"]). split; [vm_compute; reflexivity|].
    intros a ->%list_elem_of_singleton. vm_compute. by eexists.
  - rewrite (generated_stream_loads_iff (ex_gst false) _ [] ∅ H2 (ex_stream_ports false) (ex_backend_names false)). intros H.
    destruct (H "db" ex_pg_ref) as (e&He&_); [apply ex_stream_backend; split; reflexivity|]. vm_compute in He. discriminate He.
Defined.

Definition ex_world : World :=
  mkWorld ∅ 0 (mkStreamProxy "s" (SniRouter_new [] None) ∅ (SourceIpPool_new []) None (any_addr 1) 0 None 0) ∅.
Lemma scale_to_zero_blocks_reload_witness :
  ∃ e, stream_reload [] (ex_stream_config ["pg.db.svc.cluster.local:5432"]) ex_world = (ex_world, Err e).
Proof.
  apply (scale_to_zero_blocks_reload (ex_service_api false) (ex_slice false) ex_service_state 30 (ex_after false).2 [ex_slice false] "db" ex_pg_ref).
  - assert ((ex_after false).1 = Ok (Requeue 30)) as H by (vm_compute; reflexivity). rewrite <-H. apply surjective_pairing.
  - reflexivity.
  - intros sl ep ->%list_elem_of_singleton Hep. cbn in Hep. apply list_elem_of_singleton in Hep as ->. reflexivity.
  - apply ex_stream_backend. split; reflexivity.
  - reflexivity.
  - apply ex_backend_names.
  - apply ex_streams.
Defined.

Lemma backends_always_served_witness :
  backend_servers (to_gateway_state (ss_inner (sv_store (foldl service_event ex_service_state
    [SliceEvent (ex_service_api true) (ex_slice true); SliceEvent (ex_service_api false) (ex_slice false)])))) "db" "pg" None 9000 ≠ [].
Proof. eapply backends_always_served; [|reflexivity]. vm_compute. reflexivity. Defined.
