(* ===== verification/ClassReconciler.v ===== *)
(** * The GatewayClass and ReferenceGrant reconcilers
      (reconcilers/gateway_class.rs and referencegrant.rs) *)

From S2P Require Import Prelude Str Metrics Crds Store Status GatewayReconciler.

(** ** GatewayClass *)

Inductive GatewayClassError := ClassKubeError (e : string) | StatusUpdateError (e : string).

(** Type, status, reason and message of the conditions a class should have. *)
Definition desired_class_conditions : list (string * bool * string * string) :=
  [("Accepted", true, "Accepted", "Resource has been accepted");
   ("SupportedVersion", true, "SupportedVersion", "Gateway API v1 is supported")].

Definition bool_status (b : bool) : string := if b then "True" else "False".

Definition build_gateway_class_conditions (now : string) (existing_conditions : list Condition) (generation : option Z) : list Condition :=
  (λ '(type_, status, reason, message),
     let cond := with_observed_generation generation (Condition_new now type_ status reason message) in
     match find_first (λ c, String.eqb (cond_type c) type_) existing_conditions with
     | Some existing =>
         if String.eqb (cond_status existing) (bool_status status)
         then with_last_transition_time (cond_last_transition_time existing) cond else cond
     | None => cond
     end) <$> desired_class_conditions.

Definition gateway_class_status_matches (existing_conditions : list Condition) (generation : option Z) : bool :=
  forallb (λ '(type_, status, reason, _),
    existsb (λ c, String.eqb (cond_type c) type_ && String.eqb (cond_status c) (bool_status status)
                  && String.eqb (cond_reason c) reason && bool_decide (cond_observed_generation c = generation)) existing_conditions)
    desired_class_conditions.

Definition supported_features : list string := ["HTTPRoute"; "TCPRoute"; "TLSRoute"; "ReferenceGrant"].

(** The API server's answers: to the status patch, and to the list for the metrics. *)
Record ClassApi := mkClassApi {
  ca_patch_status : option string;
  ca_list : option (list GatewayClass)
}.

(** The store, the status patches sent (latest first) and the metrics. *)
Record ClassState := mkClassState {
  cls_store : SharedStore;
  cls_patches : list GatewayClassStatus;
  cls_metrics : Metrics
}.
Definition cls_set_store (f : SharedStore → SharedStore) (s : ClassState) : ClassState :=
  mkClassState (f (cls_store s)) (cls_patches s) (cls_metrics s).

Definition cls_set_metrics (f : Metrics → Metrics) (s : ClassState) : ClassState :=
  mkClassState (cls_store s) (cls_patches s) (f (cls_metrics s)).
Definition cls_push (st : GatewayClassStatus) (s : ClassState) : ClassState :=
  mkClassState (cls_store s) (st :: cls_patches s) (cls_metrics s).

Definition update_gateway_class_metrics (api : ClassApi) (m : Metrics) : Metrics :=
  match ca_list api with
  | Some items => metric_set ["wicket_gateway_classes"] (Z.of_nat (length (filter (λ gc, is_wicket_managed gc = true) items))) m
  | None => m
  end.

Definition reconcile_gateway_class (now : string) (api : ClassApi) (gc : GatewayClass) (s : ClassState)
    : result GatewayClassError Action * ClassState :=
  let name := name_or_empty (gc_metadata gc) in
  if is_some (om_deletion_timestamp (gc_metadata gc)) then 
    (Ok AwaitChange, cls_set_metrics (ReconcileMetrics_record_success "GatewayClass") (cls_set_store (remove_gateway_class name) s))
  else if negb (is_wicket_managed gc) then (Ok AwaitChange, cls_set_metrics (ReconcileMetrics_record_success "GatewayClass") s)
  else
    let generation := om_generation (gc_metadata gc) in
    let existing_conditions := match gc_status gc with Some st => gcs_conditions st | None => [] end in
    if gateway_class_status_matches existing_conditions generation then
      (Ok (Requeue 300), cls_set_store (upsert_gateway_class name gc) (cls_set_metrics (ReconcileMetrics_record_success "GatewayClass") s))
    else
      let status := mkGatewayClassStatus (build_gateway_class_conditions now existing_conditions generation) supported_features in
      match ca_patch_status api with
      | Some e => (Err (ClassKubeError e), s)
      | None =>
          (Ok (Requeue 300),
           cls_set_metrics (update_gateway_class_metrics api)
             (cls_set_store (upsert_gateway_class name gc)
                (cls_set_metrics (ReconcileMetrics_record_success "GatewayClass") (cls_push status s))))
      end.

Definition error_policy_gateway_class (e : GatewayClassError) (m : Metrics) : Action * Metrics :=
  (Requeue 5, count_reconcile_error "GatewayClass" m).

Definition list_gateway_classes (listed : option (list GatewayClass)) (s : SharedStore) : option SharedStore :=
  match listed with
  | None => None
  | Some items =>
      Some (mark_listed GatewayClasses (foldl (λ s gc,
        if is_wicket_managed gc then upsert_gateway_class (name_or_empty (gc_metadata gc)) gc s else s) s items))
  end.

(** ** ReferenceGrant *)

Inductive ReferenceGrantError := GrantKubeError (e : string) | GrantConfigError (e : string).

Record GrantState := mkGrantState { gr_store : SharedStore; gr_metrics : Metrics }.

(** [listed] is the answer to the list of all grants. *)
Definition update_referencegrant_metrics (listed : option (list ReferenceGrant)) (m : Metrics) : Metrics :=
  match listed with
  | Some items =>
      set_counts (λ ns, ["wicket_reference_grants"; ns]) (count_by ((λ g, unwrap_or "" (om_namespace (rg_metadata g))) <$> items)) m
  | None => m
  end.

Definition reconcile_referencegrant (listed : option (list ReferenceGrant)) (grant : ReferenceGrant) (s : GrantState)
    : result ReferenceGrantError Action * GrantState :=
  let namespace := unwrap_or "" (om_namespace (rg_metadata grant)) in
  let name := name_or_empty (rg_metadata grant) in
  let k := namespace +:+ "/" +:+ name in
  if is_some (om_deletion_timestamp (rg_metadata grant)) then
    (Ok AwaitChange, mkGrantState (remove_reference_grant k (gr_store s)) (ReconcileMetrics_record_success "ReferenceGrant" (gr_metrics s)))
  else
    (Ok (Requeue 300),
     mkGrantState (upsert_reference_grant k grant (gr_store s))
       (ReconcileMetrics_record_success "ReferenceGrant" (update_referencegrant_metrics listed (gr_metrics s)))).

Definition error_policy_referencegrant (e : ReferenceGrantError) (m : Metrics) : Action * Metrics :=
  (Requeue 5, count_reconcile_error "ReferenceGrant" m).

Definition list_reference_grants (listed : option (list ReferenceGrant)) (s : SharedStore) : option SharedStore :=
  match listed with
  | None => None
  | Some items =>
      Some (mark_listed ReferenceGrants (foldl (λ s g,
        upsert_reference_grant (unwrap_or "" (om_namespace (rg_metadata g)) +:+ "/" +:+ name_or_empty (rg_metadata g)) g s) s items))
  end.

(** ** Facts *)

(** The conditions built are the ones the check looks for. *)
Lemma built_conditions_match now existing gen :
  gateway_class_status_matches (build_gateway_class_conditions now existing gen) gen = true.
Proof.
  unfold gateway_class_status_matches. rewrite forallb_true. intros [[[ty st] reason] message] Hin.
  apply existsb_true. eexists. split.
  { unfold build_gateway_class_conditions. apply list_elem_of_fmap. eexists. split; [reflexivity|exact Hin]. }
  cbn beta iota. set (c := with_observed_generation gen (Condition_new now ty st reason message)).
  assert (∀ t, String.eqb (cond_type (with_last_transition_time t c)) ty && String.eqb (cond_status (with_last_transition_time t c)) (bool_status st)
    && String.eqb (cond_reason (with_last_transition_time t c)) reason
    && bool_decide (cond_observed_generation (with_last_transition_time t c) = gen) = true) as H.
  { intros t. cbn. rewrite !String.eqb_refl. by rewrite bool_decide_eq_true_2. }
  destruct (find_first _ _) as [e|]; [|apply (H now)]. destruct (String.eqb (cond_status e) _); [apply H|apply (H now)].
Qed.

(** Statuses of GatewayClasses come to rest, and the store follows.  A reconcile
    of a live Wicket class that succeeds leaves the class in the store and, unless its
    status is up to date, sends one patch whose conditions are the two desired ones;
    with that status in place every later reconcile of the same generation succeeds
    without a patch, at any time and even if patches would fail. *)
Theorem gateway_class_settles now now' api api' gc s s' a s2 :
  om_deletion_timestamp (gc_metadata gc) = None → is_wicket_managed gc = true →
  reconcile_gateway_class now api gc s = (Ok a, s') →
  let name := name_or_empty (gc_metadata gc) in
  a = Requeue 300 ∧ si_gateway_classes (ss_inner (cls_store s')) = <[name := gc]> (si_gateway_classes (ss_inner (cls_store s))) ∧
  (cls_patches s' = cls_patches s ∨
   ∃ st, cls_patches s' = st :: cls_patches s ∧ cond_type <$> gcs_conditions st = ["Accepted"; "SupportedVersion"] ∧
         let gc' := mkGatewayClass (gc_metadata gc) (gc_controller_name gc) (gc_description gc) (gc_parameters_ref gc) (Some st) in
         ∃ s3, reconcile_gateway_class now' api' gc' s2 = (Ok (Requeue 300), s3) ∧ cls_patches s3 = cls_patches s2 ∧
               si_gateway_classes (ss_inner (cls_store s3)) !! name = Some gc').
Proof.
  intros Hd Hm Hr name. unfold reconcile_gateway_class in Hr. rewrite Hd, Hm in Hr. cbn [is_some negb] in Hr.
  destruct (gateway_class_status_matches _ _) eqn:E; [injection Hr as <- <-; split_and!; [done..|by left]|].
  destruct (ca_patch_status api) as [e|]; [done|]. injection Hr as <- <-. split_and!; [done..|]. right. eexists. split; [done|]. split.
  - unfold build_gateway_class_conditions, desired_class_conditions. cbn. repeat case_match; reflexivity.
  - unfold reconcile_gateway_class. cbn [gc_metadata gc_status gcs_conditions]. rewrite Hd. cbn [is_some].
    unfold is_wicket_managed in *. cbn [gc_controller_name]. rewrite Hm. cbn [negb]. rewrite built_conditions_match.
    eexists. split; [done|]. split; [done|]. apply lookup_insert_eq.
Qed.

(** The gauge of a namespace is the number of its grants, but only while it has one:
    with the last one gone it keeps its value. *)
Lemma grants_gauge_spec items m ns :
  let nss := (λ g, unwrap_or "" (om_namespace (rg_metadata g))) <$> items in
  metric (update_referencegrant_metrics (Some items) m) ["wicket_reference_grants"; ns] =
    if decide (ns ∈ nss) then Z.of_nat (length (filter (λ x, x = ns) nss)) else metric m ["wicket_reference_grants"; ns].
Proof.
  intros nss. unfold update_referencegrant_metrics. fold nss.
  rewrite (set_counts_spec (λ ns, ["wicket_reference_grants"; ns]) (count_by nss) m ns), count_by_spec. by destruct (decide _).
Qed.

(** ** Examples *)

Definition ex_plain_class : GatewayClass := mkGatewayClass (meta_of "" "wicket") WICKET_CONTROLLER_NAME None None None.
Definition ex_class_state : ClassState := mkClassState SharedStore_new [] ∅.

Lemma gateway_class_settles_witness :
  ∃ s', reconcile_gateway_class "2024-01-01T00:00:00Z" (mkClassApi None None) ex_plain_class ex_class_state = (Ok (Requeue 300), s') ∧
  ∃ st, cls_patches s' = [st] ∧
  ∃ s3, reconcile_gateway_class "2025-01-01T00:00:00Z" (mkClassApi (Some "down") None)
          (mkGatewayClass (meta_of "" "wicket") WICKET_CONTROLLER_NAME None None (Some st)) ex_class_state = (Ok (Requeue 300), s3) ∧
        cls_patches s3 = [].
Proof.
  eexists. split; [reflexivity|]. cbn [cls_patches]. eexists. split; [reflexivity|].
  edestruct (gateway_class_settles "2024-01-01T00:00:00Z" "2025-01-01T00:00:00Z" (mkClassApi None None) (mkClassApi (Some "down") None)
    ex_plain_class ex_class_state) as (_&_&[Hp|(st&Hp&_&s3&Hr&Hs3&_)]); [reflexivity|reflexivity|reflexivity|done|].
  cbn in Hp. injection Hp as <-. exists s3. split; [exact Hr|exact Hs3].
Defined.
