(* ===== verification/LeaderElection.v ===== *)
(** * Leader election (leader_election.rs and the election loop of main.rs)

    Replicas of the controller compete for a Lease object.  An attempt reads the lease
    and then writes it; the replicas' attempts interleave.  Times are microseconds of a
    clock the replicas share. *)

From S2P Require Import Prelude.

Record LeaderElectionConfig := mkLeaderElectionConfig {
  le_lease_name : string;
  le_namespace : string;
  le_holder_identity : string;
  le_lease_duration : Z;
  le_retry_period : Z;
  le_renew_deadline : Z
}.

Definition second : Z := 1000000.

Definition LeaderElectionConfig_default : LeaderElectionConfig :=
  mkLeaderElectionConfig "wicket-controller-leader" "wicket-system" "" (15 * second) (2 * second) (10 * second).

(** coordination.k8s.io/v1: the fields of a lease the code uses. *)
Record LeaseSpec := mkLeaseSpec {
  ls_holder_identity : option string;
  ls_lease_duration_seconds : option Z;
  ls_acquire_time : option Z;
  ls_renew_time : option Z;
  ls_lease_transitions : option Z
}.
Record Lease := mkLease { lease_spec : option LeaseSpec }.

Record LeaseState := mkLeaseState {
  lst_is_leader : bool;
  lst_holder : option string;
  lst_expire_time : option Z
}.

(** [as i32]. *)
Definition as_i32 (z : Z) : Z := ((z + 2147483648) mod 4294967296 - 2147483648)%Z.

(** How the API server answers a write: as asked, with 409, or with another error. *)
Inductive WriteAnswer := WriteOk | WriteConflict | WriteFault (e : string).

Definition opt_spec {A} (f : LeaseSpec → option A) (l : Lease) : option A :=
  match lease_spec l with Some s => f s | None => None end.

Definition not_leader : LeaseState := mkLeaseState false None None.

Definition create_lease (c : LeaderElectionConfig) (now : Z) (answer : WriteAnswer) (server : option Lease)
    : result string LeaseState * option Lease :=
  let expire_time := (now + le_lease_duration c)%Z in
  let lease := mkLease (Some (mkLeaseSpec (Some (le_holder_identity c)) (Some (as_i32 (le_lease_duration c / second)))
                                (Some now) (Some now) (Some 0%Z))) in
  match answer, server with
  | WriteFault e, _ => (Err e, server)
  | WriteConflict, _ | WriteOk, Some _ => (Ok not_leader, server)
  | WriteOk, None => (Ok (mkLeaseState true (Some (le_holder_identity c)) (Some expire_time)), Some lease)
  end.

(** A merge patch without a resource version: it changes the object whatever it is now. *)
Definition merge_patch (holder : string) (duration now transitions : Z) (l : Lease) : Lease :=
  mkLease (Some (mkLeaseSpec (Some holder) (Some duration) (opt_spec ls_acquire_time l) (Some now) (Some transitions))).

(** A fault or a conflict leaves the lease as it was; a write that lands while its answer
    is lost is not represented. *)
Definition update_lease (c : LeaderElectionConfig) (now : Z) (lease : Lease) (answer : WriteAnswer) (server : option Lease)
    : result string LeaseState * option Lease :=
  let expire_time := (now + le_lease_duration c)%Z in
  let current_transitions := unwrap_or 0%Z (opt_spec ls_lease_transitions lease) in
  let current_holder := opt_spec ls_holder_identity lease in
  let is_new_leader := negb (bool_decide (current_holder = Some (le_holder_identity c))) in
  match answer, server with
  | WriteFault e, _ => (Err e, server)
  | WriteConflict, _ => (Ok not_leader, server)
  | WriteOk, None => (Err "404 Not Found", None)
  | WriteOk, Some l =>
      (Ok (mkLeaseState true (Some (le_holder_identity c)) (Some expire_time)),
       Some (merge_patch (le_holder_identity c) (as_i32 (le_lease_duration c / second)) now
               (if is_new_leader then as_i32 (current_transitions + 1) else current_transitions) l))
  end.

Definition lease_expire_time (l : Lease) : option Z :=
  (λ t, (t + unwrap_or 15 (opt_spec ls_lease_duration_seconds l) * second)%Z) <$> opt_spec ls_renew_time l.

(** One attempt: [read] is what it read at [now], [server] the object when its write
    arrives at [now']. *)
Definition try_acquire_or_renew (c : LeaderElectionConfig) (now now' : Z) (read : option Lease) (answer : WriteAnswer)
    (server : option Lease) : result string LeaseState * option Lease :=
  match read with
  | None => create_lease c now' answer server
  | Some lease =>
      let current_holder := opt_spec ls_holder_identity lease in
      let is_current_holder := bool_decide (current_holder = Some (le_holder_identity c)) in
      let expire_time := lease_expire_time lease in
      let is_expired := match expire_time with Some t => (t <? now)%Z | None => true end in
      if is_current_holder || is_expired then update_lease c now' lease answer server
      else (Ok (mkLeaseState false current_holder expire_time), server)
  end.

(** The loop of main.rs keeps the outcome of the last attempt. *)
Definition note_outcome (r : result string LeaseState) : LeaseState :=
  match r with Ok st => st | Err _ => not_leader end.

(** ** The replicas *)

(** A replica between attempts, or after the read at a time. *)
Inductive Phase := Resting | HasRead (read : option Lease) (at_ : Z).

Record System := mkSystem {
  sy_now : Z;
  sy_lease : option Lease;
  sy_replicas : gmap string (Phase * LeaseState)
}.

Section system.
(** All replicas run with the same durations. *)
Context (duration : Z).
Definition config_of (id : string) : LeaderElectionConfig :=
  mkLeaderElectionConfig "wicket-controller-leader" "wicket-system" id duration (2 * second) (10 * second).

Definition set_replica (id : string) (p : Phase * LeaseState) (s : System) : System :=
  mkSystem (sy_now s) (sy_lease s) (<[id := p]> (sy_replicas s)).

(** The write of [id] arrives. *)
Definition write_step (id : string) (read : option Lease) (at_ : Z) (answer : WriteAnswer) (s : System) : System :=
  let '(r, lease) := try_acquire_or_renew (config_of id) at_ (sy_now s) read answer (sy_lease s) in
  mkSystem (sy_now s) lease (<[id := (Resting, note_outcome r)]> (sy_replicas s)).

Inductive step : System → System → Prop :=
| step_tick s d : (0 ≤ d)%Z → step s (mkSystem (sy_now s + d) (sy_lease s) (sy_replicas s))
| step_start s id : sy_replicas s !! id = None → step s (set_replica id (Resting, not_leader) s)
| step_read s id st : sy_replicas s !! id = Some (Resting, st) → step s (set_replica id (HasRead (sy_lease s) (sy_now s), st) s)
| step_read_fault s id st : sy_replicas s !! id = Some (Resting, st) → step s (set_replica id (Resting, not_leader) s)
| step_write s id read at_ st answer :
    sy_replicas s !! id = Some (HasRead read at_, st) → step s (write_step id read at_ answer s).

(** The steps in which reads and writes are not torn apart. *)
Inductive atomic_step : System → System → Prop :=
| atomic_tick s d : (0 ≤ d)%Z → atomic_step s (mkSystem (sy_now s + d) (sy_lease s) (sy_replicas s))
| atomic_start s id : sy_replicas s !! id = None → atomic_step s (set_replica id (Resting, not_leader) s)
| atomic_read_fault s id st : sy_replicas s !! id = Some (Resting, st) → atomic_step s (set_replica id (Resting, not_leader) s)
| atomic_attempt s id st answer :
    sy_replicas s !! id = Some (Resting, st) → atomic_step s (write_step id (sy_lease s) (sy_now s) answer s).

Definition initial : System := mkSystem 0 None ∅.

(** [id] takes itself for the leader and its lease has not run out. *)
Definition leads (s : System) (id : string) : Prop :=
  ∃ ph st t, sy_replicas s !! id = Some (ph, st) ∧ lst_is_leader st = true ∧ lst_expire_time st = Some t ∧ (sy_now s ≤ t)%Z.

End system.

(** ** Mutual exclusion *)

Section mutual_exclusion.
Context (duration : Z).
Hypothesis duration_secs : ∃ n, duration = (n * second)%Z ∧ (0 ≤ n < 2147483648)%Z.

(** An unexpired leader holds the lease, and the lease runs out when it thinks. *)
Definition leaders_hold (s : System) : Prop :=
  ∀ id ph st t, sy_replicas s !! id = Some (ph, st) → lst_is_leader st = true → lst_expire_time st = Some t → (sy_now s ≤ t)%Z →
    ∃ l, sy_lease s = Some l ∧ opt_spec ls_holder_identity l = Some id ∧ lease_expire_time l = Some t.

Lemma duration_roundtrip : (as_i32 (duration / second) * second = duration)%Z.
Proof using duration_secs.
  destruct duration_secs as (n&->&Hn). rewrite Z.div_mul by done. unfold as_i32.
  rewrite Z.mod_small by lia. lia.
Qed.

Lemma attempt_outcome id now answer lease :
  let '(r, lease') := try_acquire_or_renew (config_of duration id) now now lease answer lease in
  (lst_is_leader (note_outcome r) = false ∧ lease' = lease) ∨
  (note_outcome r = mkLeaseState true (Some id) (Some (now + duration)%Z) ∧
   (∃ l', lease' = Some l' ∧ opt_spec ls_holder_identity l' = Some id ∧ lease_expire_time l' = Some (now + duration)%Z) ∧
   match lease with
   | None => True
   | Some l => opt_spec ls_holder_identity l = Some id ∨ ∀ t, lease_expire_time l = Some t → (t < now)%Z
   end).
Proof using duration_secs.
  pose proof duration_roundtrip as Hd. unfold try_acquire_or_renew, create_lease, update_lease. cbn [config_of le_holder_identity le_lease_duration].
  destruct lease as [l|].
  - destruct (bool_decide _ || _) eqn:E; [|by left]. destruct answer; [|by left..]. right. cbn. split; [done|]. split.
    + eexists. split; [done|]. unfold lease_expire_time, merge_patch. cbn. split; [done|]. by rewrite Hd.
    + apply orb_true_iff in E as [E|E]; [left; by apply bool_decide_eq_true in E|]. right. intros t Ht. rewrite Ht in E. lia.
  - destruct answer; [|by left..]. right. cbn. split; [done|]. split; [|done]. eexists. split; [done|].
    unfold lease_expire_time. cbn. split; [done|]. by rewrite Hd.
Qed.

Lemma leaders_hold_step s s' : atomic_step duration s s' → leaders_hold s → leaders_hold s'.
Proof using duration_secs.
  assert (∀ s id, leaders_hold s → leaders_hold (set_replica id (Resting, not_leader) s)) as Hreset.
  { intros s0 id H id' ph st t. unfold set_replica. cbn. intros [[<- [= <- <-]]|[_ Hl]]%lookup_insert_Some; [done|]. exact (H id' ph st t Hl). }
  destruct 1 as [s d Hd|s id Hn|s id st Hr|s id st answer Hr]; intros H; [|by apply Hreset..|].
  - intros id ph st t Hl Hb Ht Hle. cbn in *. eapply H; eauto. lia.
  - unfold write_step. pose proof (attempt_outcome id (sy_now s) answer (sy_lease s)) as Ho.
    destruct (try_acquire_or_renew _ _ _ _ _ _) as [r lease'].
    intros id' ph st' t. cbn. intros [[<- [= <- <-]]|[Hne Hl]]%lookup_insert_Some Hb Ht Hle.
    + destruct Ho as [[Hf _]|(Hst&(l'&Hl'&Hh&He)&_)]; [congruence|]. rewrite Hst in Ht. cbn in Ht. injection Ht as <-. eauto.
    + destruct (H id' ph st' t Hl Hb Ht Hle) as (l&Hlease&Hh&He). destruct Ho as [[_ ->]|(_&_&Hm)]; [eauto|].
      rewrite Hlease in Hm. destruct Hm as [Hm|Hm]; [congruence|]. specialize (Hm t He). lia.
Qed.

Lemma leaders_hold_reachable s : rtc (atomic_step duration) initial s → leaders_hold s.
Proof using duration_secs.
  intros H. assert (leaders_hold initial) as H0.
  { intros id ph st t Hl. cbn in Hl. by rewrite lookup_empty in Hl. }
  revert H0. induction H as [s|s1 s2 s3 Hs _ IH]; [done|]. intros H. by apply IH, (leaders_hold_step s1).
Qed.

End mutual_exclusion.

(** C19: one leader at a time, if attempts do not interleave.  When the read and the
    write of every attempt happen together, the replicas use one whole number of
    seconds for the lease and share a clock, then at every reachable moment at most
    one replica both takes itself for the leader and has not outlived its lease. *)
Theorem one_leader_if_atomic duration n s i j :
  duration = (n * second)%Z → (0 ≤ n < 2147483648)%Z →
  rtc (atomic_step duration) initial s → leads s i → leads s j → i = j.
Proof.
  intros Hd Hn Hs (ph&st&t&Hi&Hb&Ht&Hle) (ph'&st'&t'&Hj&Hb'&Ht'&Hle').
  pose proof (leaders_hold_reachable duration (ex_intro _ n (conj Hd Hn)) s Hs) as H.
  destruct (H i ph st t Hi Hb Ht Hle) as (l&Hl&Hh&_), (H j ph' st' t' Hj Hb' Ht' Hle') as (l'&Hl'&Hh'&_). congruence.
Qed.

(** An atomic step is a read and a write in a row. *)
Lemma atomic_step_steps duration s s' : atomic_step duration s s' → rtc (step duration) s s'.
Proof.
  destruct 1 as [s d Hd|s id Hn|s id st Hr|s id st answer Hr].
  - by apply rtc_once, step_tick.
  - by apply rtc_once, step_start.
  - by eapply rtc_once, step_read_fault.
  - eapply rtc_l; [by apply (step_read duration s id st)|]. apply rtc_once.
    pose proof (step_write duration (set_replica id (HasRead (sy_lease s) (sy_now s), st) s) id (sy_lease s) (sy_now s) st answer) as Hw.
    unfold set_replica, write_step in *. cbn [sy_now sy_lease sy_replicas] in Hw.
    destruct (try_acquire_or_renew _ _ _ _ _ _) as [r l]. rewrite insert_insert_eq in Hw. apply Hw, lookup_insert_eq.
Qed.

(** ** Interleaved attempts *)

(** The trace: [a] takes the lease and falls silent; when it has run out, [a] and [b]
    both read it, and then both write. *)
Definition lease_15s : Z := (15 * second)%Z.
Definition held_lease : Lease := mkLease (Some (mkLeaseSpec (Some "a") (Some 15%Z) (Some 0%Z) (Some 0%Z) (Some 0%Z))).
Definition leader_until (id : string) (t : Z) : LeaseState := mkLeaseState true (Some id) (Some t).
Definition after_expiry : System :=
  mkSystem (16 * second) (Some held_lease)
    (<["a" := (Resting, leader_until "a" lease_15s)]> (<["b" := (Resting, not_leader)]> ∅)).
Definition both_read : System :=
  set_replica "b" (HasRead (Some held_lease) (16 * second), not_leader)
    (set_replica "a" (HasRead (Some held_lease) (16 * second), leader_until "a" lease_15s) after_expiry).
Definition split : System :=
  write_step lease_15s "b" (Some held_lease) (16 * second) WriteOk
    (write_step lease_15s "a" (Some held_lease) (16 * second) WriteOk both_read).

Lemma after_expiry_reachable : rtc (step lease_15s) initial after_expiry.
Proof.
  eapply rtc_l; [by apply (step_start lease_15s initial "b")|].
  eapply rtc_l; [by apply (step_start lease_15s _ "a")|].
  eapply rtc_l; [by apply (step_read lease_15s _ "a" not_leader)|].
  eapply rtc_l; [by apply (step_write lease_15s _ "a" None 0 not_leader WriteOk)|].
  eapply rtc_l; [by apply (step_tick lease_15s _ (16 * second))|]. 
  match goal with |- rtc _ ?x _ => assert (x = after_expiry) as -> by (vm_compute; reflexivity) end. reflexivity.
Qed.

(** C40: two leaders at once.  The write of an attempt is a merge patch that carries
    no resource version, so it succeeds whatever has happened since the read: there is
    a reachable state, with the lease time of the program, in which two replicas both
    take themselves for the leader and neither has outlived its lease. *)
Theorem two_leaders_reachable : ∃ s, rtc (step lease_15s) initial s ∧ leads s "a" ∧ leads s "b".
Proof.
  exists split. split; [|split].
  - etrans; [apply after_expiry_reachable|].
    eapply rtc_l; [by apply (step_read lease_15s after_expiry "a" (leader_until "a" lease_15s))|].
    eapply rtc_l; [by apply (step_read lease_15s _ "b" not_leader)|].
    eapply rtc_l; [by apply (step_write lease_15s both_read "a" (Some held_lease) (16 * second) (leader_until "a" lease_15s) WriteOk)|].
    apply rtc_once. by apply (step_write lease_15s _ "b" (Some held_lease) (16 * second) not_leader WriteOk).
  - eexists _, _, _. split; [vm_compute; reflexivity|]. done.
  - eexists _, _, _. split; [vm_compute; reflexivity|]. done.
Qed.

(** ** Example *)

Definition alone : System := set_replica "a" (Resting, not_leader) initial.
Definition elected : System := write_step lease_15s "a" None 0 WriteOk alone.

Lemma one_leader_if_atomic_witness :
  rtc (atomic_step lease_15s) initial elected ∧ leads elected "a" ∧ ∀ j, leads elected j → j = "a".
Proof.
  assert (rtc (atomic_step lease_15s) initial elected) as H.
  { eapply rtc_l; [by apply (atomic_start lease_15s initial "a")|]. apply rtc_once. by apply (atomic_attempt lease_15s alone "a" not_leader WriteOk). }
  assert (leads elected "a") as Ha by (eexists _, _, _; split; [vm_compute; reflexivity|]; done).
  split; [exact H|]. split; [exact Ha|]. intros j Hj.
  by apply (one_leader_if_atomic lease_15s 15 elected j "a").
Defined.
