(* ===== verification/ControllerMain.v ===== *)
(** * The controller process (crates/wicket-controller/src/main.rs, reconcilers/context.rs)

    The context the reconcilers share, the checked start-up options, the identity used in
    the leader election, and the loop that publishes uptime and synchronisation lag.  The
    debug text of a string is a parameter. *)

From S2P Require Import Prelude Str Num Net Config Metrics Crds Store RuntimePlan LeaderElection.

(** ** The context *)

Record Context := mkContext {
  cx_config : Config;
  cx_store : SharedStore;
  cx_controller_name : string;
  cx_controller_namespace : string;
  cx_watch_all_namespaces : bool;
  cx_tls_cert_dir : string;
  cx_controller_config : ControllerConfig
}.

Definition DEFAULT_TLS_CERT_DIR : string := "/var/run/wicket/tls".

Definition with_controller_config (controller_namespace : string) (watch_all_namespaces : bool) (tls_cert_dir : string)
    (controller_config : ControllerConfig) : Context :=
  mkContext Config_default SharedStore_new WICKET_CONTROLLER_NAME controller_namespace watch_all_namespaces tls_cert_dir controller_config.

Definition with_tls_dir (controller_namespace : string) (watch_all_namespaces : bool) (tls_cert_dir : string) : Context :=
  mkContext Config_default SharedStore_new WICKET_CONTROLLER_NAME controller_namespace watch_all_namespaces tls_cert_dir ControllerConfig_default.

Definition Context_new (controller_namespace : string) (watch_all_namespaces : bool) : Context :=
  with_tls_dir controller_namespace watch_all_namespaces DEFAULT_TLS_CERT_DIR.

(** ** The start *)

Record ControllerArgs := mkControllerArgs {
  ca_metrics_addr : SocketAddr;
  ca_namespace : string;
  ca_watch_all_namespaces : bool;
  ca_log_level : string;
  ca_json_logs : bool;
  ca_leader_election : bool;
  ca_leader_election_name : string;
  ca_proxy_image : string;
  ca_default_replicas : N;
  ca_default_service_type : string
}.

Definition controller_setup (debug_str : string → string) (args : ControllerArgs) : result string Context :=
  map_err (λ e, "--default-service-type / WICKET_DEFAULT_SERVICE_TYPE: " +:+ e)
    (ServiceType_from_str debug_str (ca_default_service_type args)) ≫= λ default_service_type,
  map_err (λ e, "invalid managed-runtime defaults: " +:+ e)
    (ControllerConfig_new (ca_proxy_image args) (ca_default_replicas args) default_service_type) ≫= λ controller_config,
  Ok (with_controller_config (ca_namespace args) (ca_watch_all_namespaces args) DEFAULT_TLS_CERT_DIR controller_config).

(** The name of the pod, else of the host, else one from the process id. *)
Definition holder_identity (pod_name hostname : option string) (pid : N) : string :=
  match pod_name with
  | Some n => n
  | None => unwrap_or ("wicket-controller-" +:+ show_N pid) hostname
  end.

Definition election_config (args : ControllerArgs) (holder : string) : LeaderElectionConfig :=
  mkLeaderElectionConfig (ca_leader_election_name args) (ca_namespace args) holder (15 * second) (2 * second) (10 * second).

(** Whether the replica takes itself for the leader before any attempt. *)
Definition initial_leader (args : ControllerArgs) : bool := negb (ca_leader_election args).

Definition CONTROLLER_IS_LEADER : list string := ["wicket_controller_is_leader"].

(** A round of the election loop: the flag and the gauge take the outcome of the attempt;
    without the election they are set once. *)
Definition election_round (r : result string LeaseState) (st : bool * Metrics) : bool * Metrics :=
  let now_leader := match r with Ok state => lst_is_leader state | Err _ => false end in
  (now_leader, metric_set CONTROLLER_IS_LEADER (if now_leader then 1 else 0) st.2).
Definition act_as_leader (st : bool * Metrics) : bool * Metrics := (true, metric_set CONTROLLER_IS_LEADER 1 st.2).

(** ** Uptime and synchronisation lag *)

Definition CONFIG_GENERATION : list string := ["wicket_controller_config_generation"].
Definition CONTROLLER_UPTIME_SECONDS : list string := ["wicket_controller_uptime_seconds"].
Definition CONFIG_SYNC_LAG_SECONDS : list string := ["wicket_config_sync_lag_seconds"].

(** Times are seconds since the start of the process. *)
Record SyncTracker := mkSyncTracker { sy_last_generation : Z; sy_last_update : Z }.

Definition tracker_init (now : Z) : SyncTracker := mkSyncTracker 0 now.

Definition tracker_tick (now : Z) (st : SyncTracker * Metrics) : SyncTracker * Metrics :=
  let '(t, m) := st in
  let m := metric_set CONTROLLER_UPTIME_SECONDS now m in
  let current := metric m CONFIG_GENERATION in
  let t := if Z.eqb current (sy_last_generation t) then t else mkSyncTracker current now in
  (t, metric_set CONFIG_SYNC_LAG_SECONDS (now - sy_last_update t) m).

(** ** Facts *)

(** The controller starts with exactly the managed-runtime defaults it was given.
    It starts if and only if the service type is one of the three and the replica count
    is positive and fits an i32, and then the context holds these values, an empty store
    and the controller's name. *)
Theorem controller_setup_iff debug_str args ctx :
  controller_setup debug_str args = Ok ctx ↔
  ∃ ty, ServiceType_fmt ty = ca_default_service_type args ∧ (1 ≤ ca_default_replicas args ≤ i32_max)%N ∧
    ctx = mkContext Config_default SharedStore_new WICKET_CONTROLLER_NAME (ca_namespace args) (ca_watch_all_namespaces args)
            DEFAULT_TLS_CERT_DIR (mkControllerConfig (ca_proxy_image args) (ca_default_replicas args) ty ∅ ∅).
Proof.
  assert (∀ s ty, ServiceType_from_str debug_str s = Ok ty ↔ ServiceType_fmt ty = s) as Hty.
  { intros s ty. unfold ServiceType_from_str. repeat case_match; subst;
      repeat match goal with H : String.eqb _ _ = true |- _ => apply String.eqb_eq in H | H : String.eqb _ _ = false |- _ => apply String.eqb_neq in H end;
      subst; destruct ty; cbn; split; congruence. }
  unfold controller_setup, ControllerConfig_new. split.
  - destruct (ServiceType_from_str debug_str (ca_default_service_type args)) as [ty|e] eqn:E; [|done]. apply Hty in E. cbn.
    destruct (N.eqb_spec (ca_default_replicas args) 0); [done|]. destruct (N.ltb_spec i32_max (ca_default_replicas args)); [done|].
    intros [= <-]. exists ty. split_and!; [done|lia..|done].
  - intros (ty&E&Hr&->). rewrite (proj2 (Hty _ ty) E). cbn. destruct (N.eqb_spec (ca_default_replicas args) 0); [lia|].
    destruct (N.ltb_spec i32_max (ca_default_replicas args)); [lia|done].
Qed.

(** The reported synchronisation lag is the uptime.  Nothing in the controller sets
    the generation gauge; as long as it is zero, every round of the loop reports as lag
    the time since the loop began, however often the configuration was applied in
    between. *)
Theorem sync_lag_is_uptime start times m :
  metric m CONFIG_GENERATION = 0%Z → times ≠ [] →
  let '(_, m') := foldl (λ st now, tracker_tick now st) (tracker_init start, m) times in
  Some (metric m' CONFIG_SYNC_LAG_SECONDS) = (λ now, (now - start)%Z) <$> last times.
Proof.
  intros Hm Hne.
  enough (∀ ts, let '(t, m') := foldl (λ st now, tracker_tick now st) (tracker_init start, m) ts in
    t = tracker_init start ∧ metric m' CONFIG_GENERATION = 0%Z ∧
    (∀ now, last ts = Some now → metric m' CONFIG_SYNC_LAG_SECONDS = (now - start)%Z)) as H.
  { specialize (H times). destruct (foldl _ _ _) as [t m']. destruct H as (_&_&H). destruct (last times) as [now|] eqn:El.
    - cbn. f_equal. by apply H.
    - by apply last_None in El. }
  intros ts. induction ts as [|now ts IH] using rev_ind; [done|]. rewrite foldl_app. cbn [foldl].
  destruct (foldl _ _ ts) as [t m']. destruct IH as (->&Hg&_). unfold tracker_tick.
  assert (metric (metric_set CONTROLLER_UPTIME_SECONDS now m') CONFIG_GENERATION = 0%Z) as Hg'.
  { unfold metric, metric_set in *. by rewrite lookup_insert_ne. }
  rewrite Hg'. cbn [sy_last_generation tracker_init Z.eqb]. split_and!; [done|..].
  - unfold metric, metric_set in *. by rewrite lookup_insert_ne.
  - intros now'. rewrite last_snoc. intros [= <-]. by rewrite metric_set_same.
Qed.

Lemma sync_lag_is_uptime_witness :
  let '(_, m') := foldl (λ st now, tracker_tick now st) (tracker_init 0, ∅) [1; 2; 3]%Z in
  Some (metric m' CONFIG_SYNC_LAG_SECONDS) = Some 3%Z.
Proof. exact (sync_lag_is_uptime 0 [1; 2; 3]%Z ∅ eq_refl ltac:(discriminate)). Defined.
