(* ===== verification/Bootstrap.v ===== *)
(** * The start of the controllers (the [run_*_controller] functions of
    crates/wicket-controller/src/reconcilers)

    Each of the nine controllers lists its resources before it watches them, and retries the
    list until it succeeds; the tasks run concurrently over one store, and the planners must
    not work before every one of them has listed.  The answers of the API server, the
    durations and the state of the disk at each attempt are inputs; times are seconds. *)

From S2P Require Import Prelude Metrics Crds Store Files.
From S2P Require Import RuntimePlan GatewayReconciler RouteReconciler SecretReconciler ServiceReconciler ClassReconciler GatewayWatches FileWatcher.
From S2P Require Import ControllerMain.

(** ** What a controller lists *)

Definition Item (rc : ResourceClass) : Type :=
  match rc with
  | GatewayClasses => GatewayClass
  | ReferenceGrants => ReferenceGrant
  | Gateways => Gateway
  | HttpRoutes => HTTPRoute
  | TcpRoutes => TCPRoute
  | TlsRoutes => TLSRoute
  | Services => ObjectMeta
  | Endpoints => EndpointSlice
  | Secrets => Secret
  end.

(** The label of its metrics. *)
Definition kind_label (rc : ResourceClass) : string :=
  match rc with
  | GatewayClasses => "GatewayClass"
  | ReferenceGrants => "ReferenceGrant"
  | Gateways => "Gateway"
  | HttpRoutes => "HTTPRoute"
  | TcpRoutes => "TCPRoute"
  | TlsRoutes => "TLSRoute"
  | Services => "Service"
  | Endpoints => "EndpointSlice"
  | Secrets => "Secret"
  end.

(** [Api::all] is [None], [Api::namespaced] the namespace. *)
Definition api_scope (ctx : Context) (rc : ResourceClass) : option string :=
  match rc with
  | GatewayClasses => None
  | _ => if cx_watch_all_namespaces ctx then None else Some (cx_controller_namespace ctx)
  end.

(** An answer to [tokio::time::timeout(30 s, api.list(..))]. *)
Inductive ListAnswer (A : Type) := ListOk (items : list A) | ListErr (e : string) | ListTimedOut.
Arguments ListOk {A} _.
Arguments ListErr {A} _.
Arguments ListTimedOut {A}.

Definition list_timeout : N := 30.
Definition timeout_pause : N := 5.

Section bootstrap.
Context (pem_certs : string → list (result string string)) (pem_private_key : string → result string (option string)).
Context (any_supported_type : string → bool) (default_mode pid : N) (tls_cert_dir : string).

(** The handling of a list, by class: whether it ended the loop. *)
Definition on_store {A} (f : option (list A) → SharedStore → option SharedStore) (items : list A) (s : SecretState)
    : bool * SecretState :=
  match f (Some items) (st_store s) with
  | Some store => (true, st_set_store (λ _, store) s)
  | None => (false, s)
  end.

Definition list_pass (ff : FsFaults) (rc : ResourceClass) : list (Item rc) → SecretState → bool * SecretState :=
  match rc with
  | GatewayClasses => on_store list_gateway_classes
  | ReferenceGrants => on_store list_reference_grants
  | Gateways => on_store list_gateways
  | HttpRoutes => on_store list_http_routes
  | TcpRoutes => on_store list_tcp_routes
  | TlsRoutes => on_store list_tls_routes
  | Services => on_store list_services
  | Endpoints => on_store list_endpoint_slices
  | Secrets => λ items s, list_secrets pem_certs pem_private_key any_supported_type default_mode pid tls_cert_dir ff (Some items) s
  end.

(** One round of the loop, [attempt] already incremented: the seconds to sleep before the
    next one, or [None] when the loop is left. *)
Definition list_attempt (rc : ResourceClass) (ff : FsFaults) (attempt : N) (answer : ListAnswer (Item rc)) (s : SecretState)
    : option N * SecretState :=
  match answer with
  | ListOk items =>
      match list_pass ff rc items s with
      | (true, s') => (None, s')
      | (false, s') => (Some (list_backoff attempt), s')
      end
  | ListErr _ => (Some (list_backoff attempt), s)
  | ListTimedOut => (Some timeout_pause, s)
  end.

(** What the [n]-th attempt meets: the answer, the seconds it took, the disk. *)
Record Attempt (rc : ResourceClass) := mkAttempt {
  at_answer : ListAnswer (Item rc);
  at_took : N;
  at_disk : FsFaults
}.
#[global] Arguments at_answer {rc} _.
#[global] Arguments at_took {rc} _.
#[global] Arguments at_disk {rc} _.

(** The loop, at most [fuel] rounds of it: the attempts made, the time and the state. *)
Fixpoint list_loop (rc : ResourceClass) (fuel : nat) (attempts : nat → Attempt rc) (n : nat) (now : N) (s : SecretState)
    : option (nat * N * SecretState) :=
  match fuel with
  | 0 => None
  | S fuel' =>
      let a := attempts n in
      let now := (now + at_took a)%N in
      match list_attempt rc (at_disk a) (N.of_nat (S n)) (at_answer a) s with
      | (None, s') => Some (S n, now, s')
      | (Some pause, s') => list_loop rc fuel' attempts (S n) (now + pause)%N s'
      end
  end.

(** ** The tasks *)

Definition WATCH_CONNECTIONS_ACTIVE (rc : ResourceClass) : list string := ["wicket_watch_connections_active"; kind_label rc].

(** Two of the controllers set the gauge only after the list. *)
Definition gauge_before_list (rc : ResourceClass) : bool :=
  match rc with GatewayClasses | ReferenceGrants => false | _ => true end.

Inductive Task := Listing (attempt : N) (since : N) | Watching | Stopped.

(** A whole controller, run by itself: [results] is what kube's controller yields, whose
    reconciles are the reconcilers' own. *)
Definition set_watch_gauge (rc : ResourceClass) (n : Z) : SecretState → SecretState :=
  st_set_metrics (metric_set (WATCH_CONNECTIONS_ACTIVE rc) n).

Definition run_controller (rc : ResourceClass) (fuel : nat) (attempts : nat → Attempt rc) (results : list bool) (now : N) (s : SecretState)
    : option (N * SecretState) :=
  let s := if gauge_before_list rc then set_watch_gauge rc 1 s else s in
  '(_, now, s) ← list_loop rc fuel attempts 0 now s;
  let s := if gauge_before_list rc then s else set_watch_gauge rc 1 s in
  let s := foldl (λ s ok, st_set_metrics (note_reconcile_result (kind_label rc) ok) s) s results in
  Some (now, set_watch_gauge rc 0 s).

Definition run_gateway_class_controller := run_controller GatewayClasses.
Definition run_gateway_controller := run_controller Gateways.
Definition run_httproute_controller := run_controller HttpRoutes.
Definition run_tcproute_controller := run_controller TcpRoutes.
Definition run_tlsroute_controller := run_controller TlsRoutes.
Definition run_endpoints_controller := run_controller Endpoints.
Definition run_service_controller := run_controller Services.
Definition run_secret_controller := run_controller Secrets.
Definition run_referencegrant_controller := run_controller ReferenceGrants.

(** The state the tasks share (the store, the disk, the metrics) and the tasks started. *)
Record Controllers := mkControllers {
  bt_now : N;
  bt_state : SecretState;
  bt_tasks : gmap ResourceClass Task
}.

Definition start_task (rc : ResourceClass) (b : Controllers) : Controllers :=
  mkControllers (bt_now b) (if gauge_before_list rc then set_watch_gauge rc 1 (bt_state b) else bt_state b)
    (<[rc := Listing 0 (bt_now b)]> (bt_tasks b)).

(** The answer to the list that task [rc] is waiting for. *)
Definition answer_task (rc : ResourceClass) (ff : FsFaults) (attempt : N) (answer : ListAnswer (Item rc)) (b : Controllers) : Controllers :=
  match list_attempt rc ff (attempt + 1) answer (bt_state b) with
  | (None, s) =>
      mkControllers (bt_now b) (if gauge_before_list rc then s else set_watch_gauge rc 1 s) (<[rc := Watching]> (bt_tasks b))
  | (Some pause, s) => mkControllers (bt_now b) s (<[rc := Listing (attempt + 1) (bt_now b + pause)]> (bt_tasks b))
  end.

(** The stream of reconcile results: one result, and the end of the stream. *)
Definition note_result (rc : ResourceClass) (ok : bool) (b : Controllers) : Controllers :=
  mkControllers (bt_now b) (st_set_metrics (note_reconcile_result (kind_label rc) ok) (bt_state b)) (bt_tasks b).
Definition end_task (rc : ResourceClass) (b : Controllers) : Controllers :=
  mkControllers (bt_now b) (set_watch_gauge rc 0 (bt_state b)) (<[rc := Stopped]> (bt_tasks b)).

(** The writes of the reconcilers are all but the ones that change the phase. *)
Definition reconciler_op (op : StoreOp) : bool :=
  match op with OpMarkListed _ | OpMarkReady => false | _ => true end.

(** The tasks interleaved.  A reconciler that watches writes the store, the disk and the
    metrics.  The process ends with the first task that ends, or at the shutdown signal; the
    relation lets the other tasks go on, so that what it reaches includes what the process
    reaches. *)
Inductive boot_step : Controllers → Controllers → Prop :=
| boot_tick d b : boot_step b (mkControllers (bt_now b + d) (bt_state b) (bt_tasks b))
| boot_start rc b : bt_tasks b !! rc = None → boot_step b (start_task rc b)
| boot_answer rc ff attempt since answer b :
    bt_tasks b !! rc = Some (Listing attempt since) → (since ≤ bt_now b ≤ since + list_timeout)%N →
    (answer = ListTimedOut → bt_now b = (since + list_timeout)%N) →
    boot_step b (answer_task rc ff attempt answer b)
| boot_reconcile rc op files metrics b :
    bt_tasks b !! rc = Some Watching → reconciler_op op = true →
    boot_step b (mkControllers (bt_now b) (mkSecretState (apply_op op (st_store (bt_state b))) files metrics) (bt_tasks b))
| boot_result rc ok b : bt_tasks b !! rc = Some Watching → boot_step b (note_result rc ok b)
| boot_end rc b : bt_tasks b !! rc = Some Watching → boot_step b (end_task rc b).

Definition boot_init (now : N) (files : Files) : Controllers := mkControllers now (mkSecretState SharedStore_new files ∅) ∅.

(** The tasks that are done listing. *)
Definition has_listed (b : Controllers) (rc : ResourceClass) : bool :=
  match bt_tasks b !! rc with Some (Watching | Stopped) => true | _ => false end.
Definition listed_tasks (b : Controllers) : gset ResourceClass :=
  list_to_set (filter (λ rc, has_listed b rc = true) ResourceClass_ALL).

(** ** The phase of the store *)

Notation phase s := (si_phase (ss_inner s)).

Lemma mark_listed_phase rc s listed : phase s = phase_of listed → phase (mark_listed rc s) = phase_of ({[rc]} ∪ listed).
Proof.
  intros Hp. unfold mark_listed. rewrite Hp. unfold phase_of in *. destruct (WarmingProgress_is_complete listed) eqn:E; [|done].
  rewrite Hp. assert (WarmingProgress_is_complete ({[rc]} ∪ listed) = true) as ->; [|done].
  rewrite complete_true in E |- *. set_solver.
Qed.

Lemma foldl_phase {A} (f : SharedStore → A → SharedStore) l s :
  (∀ s x, phase (f s x) = phase s) → phase (foldl f s l) = phase s.
Proof. intros Hf. revert s. induction l as [|x l IH]; intros s; [done|]. cbn [foldl]. by rewrite IH, Hf. Qed.

Lemma list_secrets_loop_phase ff items s o s' :
  list_secrets_loop pem_certs pem_private_key any_supported_type default_mode pid tls_cert_dir ff items s = (o, s') →
  phase (st_store s') = phase (st_store s).
Proof.
  revert s. induction items as [|secret items IH]; intros s; cbn [list_secrets_loop]; [intros; by simplify_eq|].
  destruct (tls_data secret) as [[c k]|]; [|apply IH].
  destruct (write_tls_files _ _ _ _ _ _ _ _ s) as [[[cp kp]|e] s1] eqn:Ew; apply write_tls_files_store in Ew as [Ew _];
    [|intros; simplify_eq; by rewrite Ew].
  rewrite <-Ew. unfold upsert_valid_tls_secret. destruct (validate_written_tls_material _ _ _ _ _ _ _); intros H%IH; exact H.
Qed.

(** A list that ends the loop marks its class and no other, one that does not leaves the
    phase as it was. *)
Lemma list_pass_phase rc ff items s b s' listed :
  list_pass ff rc items s = (b, s') → phase (st_store s) = phase_of listed →
  phase (st_store s') = phase_of (if b then {[rc]} ∪ listed else listed).
Proof.
  intros H Hp. destruct rc; cbn in H; unfold on_store in H; simplify_eq/=;
    try (apply mark_listed_phase; try rewrite foldl_phase; [exact Hp..|]; intros ? ?; try case_match; done).
  - by apply mark_listed_phase.
  - by apply mark_listed_phase.
  - unfold list_secrets in H. destruct (list_secrets_loop _ _ _ _ _ _ _ _ _) as [o s1] eqn:El. apply list_secrets_loop_phase in El.
    destruct o; simplify_eq/=; [by rewrite El|]. apply mark_listed_phase. by rewrite El.
Qed.

Lemma list_attempt_phase rc ff n answer s o s' listed :
  list_attempt rc ff n answer s = (o, s') → phase (st_store s) = phase_of listed →
  phase (st_store s') = phase_of (match o with None => {[rc]} ∪ listed | Some _ => listed end).
Proof.
  intros H Hp. unfold list_attempt in H. destruct answer as [items| |]; [|by simplify_eq..].
  destruct (list_pass ff rc items s) as [[] s1] eqn:E; simplify_eq; exact (list_pass_phase _ _ _ _ _ _ _ E Hp).
Qed.

Lemma reconciler_op_phase op s : reconciler_op op = true → phase (apply_op op s) = phase s.
Proof. by destruct op. Qed.

(** ** The tasks, interleaved *)

Lemma elem_of_listed_tasks b rc : rc ∈ listed_tasks b ↔ has_listed b rc = true.
Proof.
  unfold listed_tasks. rewrite elem_of_list_to_set, list_elem_of_filter. split; [by intros [? _]|]. intros H. split; [done|].
  destruct rc; set_solver.
Qed.

(** A task's next state counts for its class alone. *)
Lemma listed_tasks_insert now s b rc t :
  listed_tasks (mkControllers now s (<[rc := t]> (bt_tasks b))) =
  match t with Listing _ _ => listed_tasks b ∖ {[rc]} | _ => {[rc]} ∪ listed_tasks b end.
Proof.
  apply set_eq. intros rc'. rewrite elem_of_listed_tasks. unfold has_listed. cbn. destruct (decide (rc' = rc)) as [->|Hne].
  - rewrite lookup_insert_eq. destruct t; set_solver.
  - rewrite lookup_insert_ne by done. fold (has_listed b rc'). rewrite <-elem_of_listed_tasks. destruct t; set_solver.
Qed.

Lemma listed_tasks_same now s b : listed_tasks (mkControllers now s (bt_tasks b)) = listed_tasks b.
Proof. done. Qed.

Lemma not_listed b rc : (∀ t, bt_tasks b !! rc = Some t → ∃ n since, t = Listing n since) → listed_tasks b ∖ {[rc]} = listed_tasks b.
Proof.
  intros Hrc. assert (rc ∉ listed_tasks b); [|set_solver]. rewrite elem_of_listed_tasks. unfold has_listed.
  destruct (bt_tasks b !! rc) as [t|]; [|done]. destruct (Hrc t eq_refl) as (?&?&->). done.
Qed.

(** The phase of the store says which tasks have listed. *)
Definition boot_wf (b : Controllers) : Prop := phase (st_store (bt_state b)) = phase_of (listed_tasks b).

Lemma boot_step_wf b b' : boot_step b b' → boot_wf b → boot_wf b'.
Proof.
  unfold boot_wf. destruct 1 as [d b|rc b Hrc|rc ff n since answer b Hrc _ _|rc op files metrics b Hrc Hop|rc ok b Hrc|rc b Hrc]; intros Hb.
  - done.
  - unfold start_task. rewrite listed_tasks_insert, not_listed by (intros; congruence). by destruct (gauge_before_list rc).
  - unfold answer_task. destruct (list_attempt rc ff (n + 1) answer (bt_state b)) as [[pause|] s] eqn:E;
      rewrite listed_tasks_insert; apply list_attempt_phase with (listed := listed_tasks b) in E; try done.
    + rewrite not_listed by (intros; simplify_eq; eauto). exact E.
    + by destruct (gauge_before_list rc).
  - cbn. by rewrite reconciler_op_phase.
  - done.
  - unfold end_task. rewrite listed_tasks_insert. cbn. rewrite Hb. f_equal. apply set_eq. intros rc'.
    rewrite elem_of_union, elem_of_singleton. split; [by right|]. intros [->|]; [|done]. apply elem_of_listed_tasks.
    unfold has_listed. by rewrite Hrc.
Qed.

Lemma boot_run_wf b b' : rtc boot_step b b' → boot_wf b → boot_wf b'.
Proof. induction 1 as [|b1 b2 b3 Hstep _ IH]; [done|]. intros H1. by eapply IH, boot_step_wf. Qed.

(** C11: no planning before the lists.  However the nine controllers are started, their
    lists fail, time out and succeed, and the reconcilers of those that already watch
    write, the planners get a snapshot exactly when every one of the nine has listed its
    resources, and it is then the current contents of the store. *)
Theorem planners_wait_for_lists now files b :
  rtc boot_step (boot_init now files) b →
  let store := st_store (bt_state b) in
  planner_snapshot store =
    if bool_decide (∀ rc, has_listed b rc = true) then SnapReady (to_planner_snapshot (ss_inner store)) else NotReady.
Proof.
  intros Hrun store. assert (boot_wf b) as Hb by (exact (boot_run_wf _ _ Hrun eq_refl)).
  unfold planner_snapshot, is_complete, store. rewrite Hb. unfold phase_of.
  destruct (WarmingProgress_is_complete (listed_tasks b)) eqn:E.
  - rewrite complete_true in E. rewrite bool_decide_true; [done|]. intros rc. by apply elem_of_listed_tasks.
  - rewrite bool_decide_false; [done|]. intros Hall. apply not_true_iff_false in E. apply E, complete_true.
    intros rc. by apply elem_of_listed_tasks.
Qed.

(** ** The loop ends *)

(** An attempt that ends the loop whatever the state. *)
Definition succeeds (rc : ResourceClass) (ff : FsFaults) (answer : ListAnswer (Item rc)) : Prop :=
  ∀ n s, (list_attempt rc ff n answer s).1 = None.

Lemma pause_bounds rc ff n answer s pause s' :
  (1 ≤ n)%N → list_attempt rc ff n answer s = (Some pause, s') → (2 ≤ pause ≤ 30)%N.
Proof.
  intros Hn H. unfold list_attempt, list_backoff, timeout_pause in H. repeat case_match; simplify_eq; lia.
Qed.

Lemma list_loop_S rc fuel attempts n now s :
  list_loop rc (S fuel) attempts n now s =
  let now' := (now + at_took (attempts n))%N in
  match list_attempt rc (at_disk (attempts n)) (N.of_nat (S n)) (at_answer (attempts n)) s with
  | (None, s') => Some (S n, now', s')
  | (Some pause, s') => list_loop rc fuel attempts (S n) (now' + pause)%N s'
  end.
Proof. done. Qed.

(** C12: the initial list is retried until it succeeds.  If every request ends by its
    timeout and one of the answers succeeds, the loop is left at that answer or before, the
    class is then marked and no other; between two attempts it waits at least 2 and at
    most 30 seconds, so that [n] attempts take at most [60 n - 30] seconds, and the 32-bit
    attempt counter cannot overflow in less than 136 years. *)
Theorem initial_list_ends rc attempts k now s listed :
  (∀ i, (at_took (attempts i) ≤ list_timeout)%N) → succeeds rc (at_disk (attempts k)) (at_answer (attempts k)) →
  phase (st_store s) = phase_of listed →
  ∃ n t s', list_loop rc (S k) attempts 0 now s = Some (S n, t, s') ∧ n ≤ k ∧
    (now + 2 * N.of_nat n ≤ t ≤ now + 60 * N.of_nat n + 30)%N ∧
    phase (st_store s') = phase_of ({[rc]} ∪ listed).
Proof.
  intros Htook Hk. enough (∀ d i now s, i + d = k → phase (st_store s) = phase_of listed →
    ∃ n t s', list_loop rc (S d) attempts i now s = Some (S n, t, s') ∧ i ≤ n ≤ k ∧
      (now + 2 * N.of_nat (n - i) ≤ t ≤ now + 60 * N.of_nat (n - i) + 30)%N ∧ phase (st_store s') = phase_of ({[rc]} ∪ listed)) as Hd.
  { intros Hs. destruct (Hd k 0 now s eq_refl Hs) as (n&t&s'&H&Hn&Ht&Hp). rewrite Nat.sub_0_r in Ht. exists n, t, s'. split_and!; [done|lia..|done]. }
  clear now s. induction d as [|d IH]; intros i now s Hi Hs; pose proof (Htook i) as Hti; unfold list_timeout in Hti;
    rewrite list_loop_S;
    destruct (list_attempt rc (at_disk (attempts i)) (N.of_nat (S i)) (at_answer (attempts i)) s) as [[pause|] s1] eqn:E.
  - specialize (Hk (N.of_nat (S i)) s). replace k with i in Hk by lia. by rewrite E in Hk.
  - exists i, (now + at_took (attempts i))%N, s1. rewrite Nat.sub_diag. split_and!; [done|lia..|].
    exact (list_attempt_phase _ _ _ _ _ _ _ _ E Hs).
  - apply pause_bounds in E as Hpause; [|lia].
    apply list_attempt_phase with (listed := listed) in E; [|done].
    destruct (IH (S i) (now + at_took (attempts i) + pause)%N s1 ltac:(lia) E) as (n&t&s'&H&Hn&Ht&Hp).
    exists n, t, s'. split_and!; [done|lia..|done].
  - exists i, (now + at_took (attempts i))%N, s1. rewrite Nat.sub_diag. split_and!; [done|lia..|].
    exact (list_attempt_phase _ _ _ _ _ _ _ _ E Hs).
Qed.

(** A class that has listed stays listed. *)
Lemma boot_step_listed b b' rc : boot_step b b' → has_listed b rc = true → has_listed b' rc = true.
Proof.
  destruct 1 as [d b|rc' b Hrc|rc' ff n since answer b Hrc _ _|rc' op files metrics b Hrc Hop|rc' ok b Hrc|rc' b Hrc]; try done;
    unfold start_task, answer_task, end_task; repeat case_match; rewrite <-!elem_of_listed_tasks, ?listed_tasks_insert;
    try set_solver; rewrite not_listed; [done|intros; simplify_eq; eauto..].
Qed.

Lemma listed_for_good b b' rc : rtc boot_step b b' → has_listed b rc = true → has_listed b' rc = true.
Proof. induction 1 as [|b1 b2 b3 Hstep _ IH]; [done|]. intros H1. by eapply IH, boot_step_listed. Qed.

(** The controllers get ready.  Once each of the nine lists has been answered, at
    whatever attempt and in whatever interleaving with the others, by an answer that
    succeeds, the planners get their snapshot, and keep getting one. *)
Theorem ready_once_listed now files b :
  rtc boot_step (boot_init now files) b →
  (∀ rc, ∃ b1 ff attempt since answer, bt_tasks b1 !! rc = Some (Listing attempt since) ∧ succeeds rc ff answer ∧
     rtc boot_step (answer_task rc ff attempt answer b1) b) →
  planner_snapshot (st_store (bt_state b)) = SnapReady (to_planner_snapshot (ss_inner (st_store (bt_state b)))).
Proof.
  intros Hrun Hall. assert (boot_wf b) as Hb by (exact (boot_run_wf _ _ Hrun eq_refl)).
  unfold planner_snapshot, is_complete. rewrite Hb. unfold phase_of. rewrite (proj2 (complete_true _)); [done|].
  intros rc. apply elem_of_listed_tasks. destruct (Hall rc) as (b1&ff&n&since&answer&_&Hok&Hto). apply (listed_for_good _ _ _ Hto).
  unfold answer_task. specialize (Hok (n + 1)%N (bt_state b1)). destruct (list_attempt _ _ _ _ _) as [[pause|] s]; [done|].
  unfold has_listed. cbn. by rewrite lookup_insert_eq.
Qed.

End bootstrap.

(** ** Examples *)

Module Demo.

Notation step := (boot_step (λ _, []) (λ _, Err "no key") (λ _, true) 420 1 "/tls").
Notation answer rc n a := (answer_task (λ _, []) (λ _, Err "no key") (λ _, true) 420 1 "/tls" rc FileWatcher.Demo.no_faults n a).

Definition all_started : Controllers := foldl (λ b rc, start_task rc b) (boot_init 0 ∅) ResourceClass_ALL.
(** The list of gateways fails at first. *)
Definition one_failed : Controllers := answer Gateways 0 (ListErr "503") all_started.
Definition two_later : Controllers := mkControllers 2 (bt_state one_failed) (bt_tasks one_failed).
Definition attempts_of (rc : ResourceClass) : N := if bool_decide (rc = Gateways) then 1 else 0.
Definition answers (l : list ResourceClass) (b : Controllers) : Controllers := foldl (λ b rc, answer rc (attempts_of rc) (ListOk []) b) b l.
Definition answered (b : Controllers) : Controllers := answers ResourceClass_ALL b.

Lemma empty_list_succeeds rc : succeeds (λ _, []) (λ _, Err "no key") (λ _, true) 420 1 "/tls" rc FileWatcher.Demo.no_faults (ListOk []).
Proof. intros n s. by destruct rc. Qed.

Tactic Notation "boot_answers" integer(n) :=
  do n (eapply rtc_r; [|eapply boot_answer; [vm_compute; reflexivity|vm_compute; split; discriminate|discriminate]]); apply rtc_refl.

Lemma all_started_run : rtc step (boot_init 0 ∅) all_started.
Proof.
  unfold all_started. cbn [foldl ResourceClass_ALL]. do 9 (eapply rtc_r; [|apply boot_start; vm_compute; reflexivity]). apply rtc_refl.
Defined.
Lemma two_later_run : rtc step (boot_init 0 ∅) two_later.
Proof.
  eapply rtc_r; [|exact (boot_tick _ _ _ _ _ _ 2 one_failed)]. eapply rtc_r; [exact all_started_run|].
  eapply boot_answer; [vm_compute; reflexivity|vm_compute; split; discriminate|discriminate].
Defined.
(** The [n]-th list is answered after those before it. *)
Lemma answered_in_turn n rc : ResourceClass_ALL !! n = Some rc →
  ∃ b1 since, bt_tasks b1 !! rc = Some (Listing (attempts_of rc) since) ∧
    rtc step (answer rc (attempts_of rc) (ListOk []) b1) (answered two_later).
Proof.
  intros H. exists (answers (take n ResourceClass_ALL) two_later).
  destruct n as [|[|[|[|[|[|[|[|[|n]]]]]]]]]; [injection H as <-; eexists; (split; [vm_compute; reflexivity|]);
    unfold answered, answers; cbn [foldl take ResourceClass_ALL]..|discriminate H].
  - boot_answers 8.
  - boot_answers 7.
  - boot_answers 6.
  - boot_answers 5.
  - boot_answers 4.
  - boot_answers 3.
  - boot_answers 2.
  - boot_answers 1.
  - boot_answers 0.
Defined.

Lemma answered_run : rtc step two_later (answered two_later).
Proof.
  unfold answered, answers. cbn [foldl ResourceClass_ALL]. boot_answers 9.
Defined.

Lemma whole_run : rtc step (boot_init 0 ∅) (answered two_later).
Proof. etrans; [exact two_later_run|exact answered_run]. Defined.

End Demo.

(** With one list missing there is no snapshot; with all of them there is. *)
Lemma planners_wait_for_lists_witness :
  planner_snapshot (st_store (bt_state Demo.two_later)) = NotReady ∧
  planner_snapshot (st_store (bt_state (Demo.answered Demo.two_later))) ≠ NotReady.
Proof.
  split.
  - etrans; [exact (planners_wait_for_lists _ _ _ _ _ _ 0 ∅ Demo.two_later Demo.two_later_run)|]. vm_compute. reflexivity.
  - intros H. pose proof (planners_wait_for_lists _ _ _ _ _ _ 0 ∅ _ Demo.whole_run) as E.
    cbv zeta in E. rewrite H in E. vm_compute in E. discriminate E.
Defined.

(** The Secret list fails, times out and then succeeds: three attempts, 30 + 2 + 5 seconds
    of waiting and the two requests that did not time out. *)
Lemma initial_list_ends_witness :
  let attempts n := match n with
                    | 0 => mkAttempt Secrets (ListErr "503") 1 FileWatcher.Demo.no_faults
                    | 1 => mkAttempt Secrets ListTimedOut 30 FileWatcher.Demo.no_faults
                    | _ => mkAttempt Secrets (ListOk []) 1 FileWatcher.Demo.no_faults
                    end in
  let loop := list_loop (λ _, []) (λ _, Err "no key") (λ _, true) 420 1 "/tls" Secrets 3 attempts 0 0 (mkSecretState SharedStore_new ∅ ∅) in
  (λ '(n, t, s), (n, t, si_phase (ss_inner (st_store s)))) <$> loop = Some (3, 39%N, phase_of {[Secrets]}).
Proof.
  cbv zeta.
  destruct (initial_list_ends (λ _, []) (λ _, Err "no key") (λ _, true) 420 1 "/tls" Secrets
    (λ n, match n with
          | 0 => mkAttempt Secrets (ListErr "503") 1 FileWatcher.Demo.no_faults
          | 1 => mkAttempt Secrets ListTimedOut 30 FileWatcher.Demo.no_faults
          | _ => mkAttempt Secrets (ListOk []) 1 FileWatcher.Demo.no_faults
          end) 2 0 (mkSecretState SharedStore_new ∅ ∅) ∅) as (n&t&s&H&_).
  - intros [|[|i]]; vm_compute; discriminate.
  - apply Demo.empty_list_succeeds.
  - reflexivity.
  - rewrite H. vm_compute in H. injection H as <- <- <-. vm_compute. reflexivity.
Defined.

Lemma ready_once_listed_witness :
  let store := st_store (bt_state (Demo.answered Demo.two_later)) in
  planner_snapshot store = SnapReady (to_planner_snapshot (ss_inner store)).
Proof.
  apply (ready_once_listed _ _ _ _ _ _ 0 ∅ _ Demo.whole_run). intros rc.
  assert (∃ n, ResourceClass_ALL !! n = Some rc) as [n Hn] by (apply list_elem_of_lookup; destruct rc; set_solver).
  destruct (Demo.answered_in_turn n rc Hn) as (b1&since&Ht&Hrun).
  exists b1, FileWatcher.Demo.no_faults, (Demo.attempts_of rc), since, (ListOk []). split; [exact Ht|].
  split; [apply Demo.empty_list_succeeds|exact Hrun].
Defined.
