(* ===== verification/ControllerLabels.v ===== *)
(** * The labels of the controller's metrics

    Every update of a metric by the reconcilers, their error policies, the start of the
    controllers and the loops of crates/wicket-controller/src/main.rs goes to a collector of
    crates/wicket-controller/src/metrics/mod.rs with one value per label. *)

From S2P Require Import Prelude Metrics MetricsRegistry Config Crds Store Files.
From S2P Require Import RuntimePlan RuntimeApplier GatewayReconciler RouteReconciler SecretReconciler ServiceReconciler ClassReconciler.
From S2P Require Import GatewayWatches LeaderElection ControllerMain Bootstrap.

(** The collectors that no code updates. *)
Definition unused_controller_metrics : list string := [
  "wicket_reconcile_queue_depth"; "wicket_config_updates_total"; "wicket_config_last_update_timestamp_seconds";
  "wicket_controller_config_generation"; "wicket_k8s_api_duration_seconds"; "wicket_k8s_api_errors_total"; "wicket_config_hash";
  "wicket_resources_pending_sync"
].

(** A count of a reconcile with a result other than success. *)
Definition failed_reconcile (k : list string) : bool :=
  match k with
  | [name; _; result] => String.eqb name "wicket_reconcile_total" && negb (String.eqb result "success")
  | _ => false
  end.

Definition series_ok (k : list string) : bool :=
  declared (without unused_controller_metrics controller_metrics) k && negb (failed_reconcile k).
Notation labelled := (well_labelled series_ok).

Lemma record_success_labelled kind m : labelled m → labelled (ReconcileMetrics_record_success kind m).
Proof. intros H. unfold ReconcileMetrics_record_success. solve_labels. Qed.
Lemma reconcile_error_labelled kind m : labelled m → labelled (count_reconcile_error kind m).
Proof. intros H. unfold count_reconcile_error. solve_labels. Qed.

(** ** Gateways *)

Lemma update_gateway_labelled listed m : labelled m → labelled (update_gateway_metrics listed m).
Proof. intros H. unfold update_gateway_metrics. destruct listed; [|done]. apply well_labelled_set_counts; [by intros []|done]. Qed.

Lemma finish_gateway_labelled now api g ns name input e s :
  labelled (rs_metrics s) → labelled (rs_metrics (finish_gateway now api g ns name input e s).2).
Proof.
  intros H. unfold finish_gateway. destruct (build_managed_runtime_status _ _ _ _ _) as [[[ls programmed] ?] ?].
  repeat case_match; simplify_eq; try exact H; cbn; apply update_gateway_labelled, record_success_labelled; solve_labels; exact H.
Qed.

(** ** Routes *)

Lemma count_accepted_labelled ns kind parents m : labelled m → labelled (count_accepted ns kind parents m).
Proof. intros H. unfold count_accepted. solve_labels. Qed.
Lemma count_rejected_labelled ns kind parents m : labelled m → labelled (count_rejected ns kind parents m).
Proof. intros H. unfold count_rejected. apply well_labelled_foldl; [|done]. intros m' p Hm'. solve_labels. Qed.
Lemma update_route_labelled series listed m :
  (∀ ns, series_ok [series; ns] = true) → labelled m → labelled (update_route_metrics series listed m).
Proof. intros Hs H. unfold update_route_metrics. destruct listed; [|done]. by apply well_labelled_set_counts. Qed.

Lemma reconcile_httproute_labelled now api r s : labelled (rt_metrics s) → labelled (rt_metrics (reconcile_httproute now api r s).2).
Proof.
  intros H. unfold reconcile_httproute. repeat case_match; simplify_eq; try exact H; unfold finish_httproute; cbn;
    (apply update_route_labelled; [done|]); apply record_success_labelled;
    case_match; cbn; first [apply count_accepted_labelled | apply count_rejected_labelled]; exact H.
Qed.

Lemma reconcile_stream_route_labelled {R} meta parents (with_status : _ → R → R) compat proto kind series upsert remove now api r s :
  (∀ ns, series_ok [series; ns] = true) → labelled (rt_metrics s) →
  labelled (rt_metrics (reconcile_stream_route meta parents with_status compat proto kind series upsert remove now api r s).2).
Proof.
  intros Hs H. unfold reconcile_stream_route. repeat case_match; simplify_eq; try exact H; unfold finish_stream_route; cbn;
    (apply update_route_labelled; [done|]); apply record_success_labelled;
    case_match; cbn; first [apply count_accepted_labelled | apply count_rejected_labelled]; exact H.
Qed.

(** ** Secrets *)

Lemma validate_references_labelled api ns name gws m : labelled m → labelled (validate_references api ns name gws m).2.
Proof.
  revert m. induction gws as [|[gns gname] gws IH]; intros m H; [done|]. cbn [validate_references].
  destruct (negb _); [|by apply IH]. unfold validate_reference_grant.
  destruct (sa_reference_grants api ns); [|done]. destruct (existsb _ _); apply IH; solve_labels.
Qed.

Section secrets.
Context (pem_certs : string → list (result string string)) (pem_private_key : string → result string (option string)).
Context (any_supported_type : string → bool) (parse_x509_pem : string → option string) (x509_not_after : string → option Z).
Context (default_mode pid : N) (tls_cert_dir : string) (ff : FsFaults).

Lemma extraction_labelled ns name c m : labelled m → labelled (extraction_metrics parse_x509_pem x509_not_after ns name c m).
Proof. intros H. unfold extraction_metrics. solve_labels. Qed.

Lemma reconcile_secret_labelled api secret s :
  labelled (st_metrics s) →
  labelled (st_metrics (reconcile_secret pem_certs pem_private_key any_supported_type parse_x509_pem x509_not_after default_mode pid
                          tls_cert_dir ff api secret s).2).
Proof.
  intros H. unfold reconcile_secret. destruct (is_some _); [done|]. destruct (tls_data secret) as [[c k]|]; [|done].
  set (ns := unwrap_or "" _). set (name := name_or_empty _).
  destruct (find_referencing_gateways api ns name) as [gws|]; [|done]. destruct (is_empty gws); [done|].
  pose proof (validate_references_labelled api ns name gws _ H) as Hv.
  destruct (validate_references api ns name gws (st_metrics s)) as [[u|e] m]; [|exact Hv].
  destruct (write_tls_files _ _ _ _ _ _ _ _ _) as [[[cp kp]|e] s1] eqn:Ew; apply write_tls_files_store in Ew as [_ Hw];
    cbn in Hv, Hw; [|cbn; by rewrite Hw].
  unfold upsert_valid_tls_secret. destruct (validate_written_tls_material _ _ _ _ _ _ _); cbn; [|by rewrite Hw].
  apply record_success_labelled, extraction_labelled. by rewrite Hw.
Qed.

End secrets.

(** ** The other resources *)

Lemma reconcile_endpoint_slice_labelled api slice s : labelled (sv_metrics s) → labelled (sv_metrics (reconcile_endpoint_slice api slice s).2).
Proof. intros H. unfold reconcile_endpoint_slice, sv_record_success. repeat case_match; cbn; try apply record_success_labelled; solve_labels. Qed.

Lemma reconcile_service_labelled api meta s : labelled (sv_metrics s) → labelled (sv_metrics (reconcile_service api meta s).2).
Proof. intros H. unfold reconcile_service, sv_record_success. repeat case_match; cbn; by apply record_success_labelled. Qed.

Lemma load_endpoints_labelled api st m : labelled m → labelled (load_all_service_endpoints api st m).2.
Proof. intros H. cbn. by apply well_labelled_set_counts. Qed.

Lemma reconcile_gateway_class_labelled now api gc s : labelled (cls_metrics s) → labelled (cls_metrics (reconcile_gateway_class now api gc s).2).
Proof.
  intros H. unfold reconcile_gateway_class. repeat case_match; simplify_eq; try exact H; cbn; try (by apply record_success_labelled);
    pose proof (record_success_labelled "GatewayClass" _ H); unfold update_gateway_class_metrics; solve_labels.
Qed.

Lemma reconcile_referencegrant_labelled listed grant s : labelled (gr_metrics s) → labelled (gr_metrics (reconcile_referencegrant listed grant s).2).
Proof.
  intros H. unfold reconcile_referencegrant. case_match; cbn; apply record_success_labelled; [done|].
  unfold update_referencegrant_metrics. destruct listed; [|done]. by apply well_labelled_set_counts.
Qed.

(** ** The processes around them *)

Lemma error_policy_secret_labelled secret e m : labelled m → labelled (error_policy_secret secret e m).2.
Proof. intros H. unfold error_policy_secret. cbn. apply reconcile_error_labelled. solve_labels. Qed.
Lemma note_result_labelled kind ok m : labelled m → labelled (note_reconcile_result kind ok m).
Proof. intros H. unfold note_reconcile_result. solve_labels. Qed.
Lemma tracker_tick_labelled now st : labelled st.2 → labelled (tracker_tick now st).2.
Proof. destruct st as [t m]. intros H. cbn. solve_labels. Qed.
Lemma election_round_labelled r st : labelled st.2 → labelled (election_round r st).2.
Proof. intros H. unfold election_round. cbn. solve_labels. Qed.

(** ** The invariant *)

Section registry.
Context (sha256 : string → list N) (json_to_string : Value → result string string).
Context (toml_to_string_pretty : Config → result string string) (toml_from_str : string → result string Config).
Context (fault : ApiCall → option string) (serialize_error : ObjectKind → option string).
Context (ssa_sa : option ServiceAccount → ServiceAccount → ServiceAccount).
Context (ssa_cm : option ConfigMap → ConfigMap → ConfigMap).
Context (ssa_svc : option K8sService → K8sService → K8sService).
Context (ssa_dep : option Deployment → Deployment → Deployment).
Context (controller_config : ControllerConfig).
Context (pem_certs : string → list (result string string)) (pem_private_key : string → result string (option string)).
Context (any_supported_type : string → bool) (parse_x509_pem : string → option string) (x509_not_after : string → option Z).
Context (default_mode pid : N) (tls_cert_dir : string).

Notation reconcile_gateway :=
  (reconcile_gateway sha256 json_to_string toml_to_string_pretty toml_from_str fault serialize_error ssa_sa ssa_cm ssa_svc ssa_dep controller_config).
Notation reconcile_secret :=
  (reconcile_secret pem_certs pem_private_key any_supported_type parse_x509_pem x509_not_after default_mode pid tls_cert_dir).

Lemma reconcile_gateway_labelled now api g s : labelled (rs_metrics s) → labelled (rs_metrics (reconcile_gateway now api g s).2).
Proof.
  intros H. unfold GatewayReconciler.reconcile_gateway. destruct (is_some _); [done|].
  destruct (match get_gateway_class _ _ with Some _ => _ | None => _ end) as [gc|]; [|done].
  destruct (negb _); [by apply record_success_labelled|].
  destruct (reconcile_managed_runtime _ _ _ _ _ _ _ _ _ _ _ _ _ _ _ _ _) as [[|[]|[[? ?] ?]] cl]; try done; by apply finish_gateway_labelled.
Qed.

(** What happens to the controller's registry: a reconcile of one of the nine kinds, an
    error policy, a step of a controller's own loop, the election, the clock. *)
Inductive controller_step : Metrics → Metrics → Prop :=
| ctl_gateway now api g s : controller_step (rs_metrics s) (rs_metrics (reconcile_gateway now api g s).2)
| ctl_gateway_class now api gc s : controller_step (cls_metrics s) (cls_metrics (reconcile_gateway_class now api gc s).2)
| ctl_http_route now api r s : controller_step (rt_metrics s) (rt_metrics (reconcile_httproute now api r s).2)
| ctl_tcp_route now api r s : controller_step (rt_metrics s) (rt_metrics (reconcile_tcproute now api r s).2)
| ctl_tls_route now api r s : controller_step (rt_metrics s) (rt_metrics (reconcile_tlsroute now api r s).2)
| ctl_endpoint_slice api slice s : controller_step (sv_metrics s) (sv_metrics (reconcile_endpoint_slice api slice s).2)
| ctl_service api meta s : controller_step (sv_metrics s) (sv_metrics (reconcile_service api meta s).2)
| ctl_load_endpoints api st m : controller_step m (load_all_service_endpoints api st m).2
| ctl_secret ff api secret s : controller_step (st_metrics s) (st_metrics (reconcile_secret ff api secret s).2)
| ctl_reference_grant listed grant s : controller_step (gr_metrics s) (gr_metrics (reconcile_referencegrant listed grant s).2)
| ctl_error_gateway e m : controller_step m (error_policy_gateway e m).2
| ctl_error_gateway_class e m : controller_step m (error_policy_gateway_class e m).2
| ctl_error_route kind e m : controller_step m (error_policy_route kind e m).2
| ctl_error_service kind e m : controller_step m (error_policy_service kind e m).2
| ctl_error_secret secret e m : controller_step m (error_policy_secret secret e m).2
| ctl_error_reference_grant e m : controller_step m (error_policy_referencegrant e m).2
| ctl_watch rc n s : controller_step (st_metrics s) (st_metrics (set_watch_gauge rc n s))
| ctl_result rc ok m : controller_step m (note_reconcile_result (kind_label rc) ok m)
| ctl_election r st : controller_step st.2 (election_round r st).2
| ctl_leader st : controller_step st.2 (act_as_leader st).2
| ctl_tick now st : controller_step st.2 (tracker_tick now st).2.

Lemma controller_step_labelled m m' : controller_step m m' → labelled m → labelled m'.
Proof.
  destruct 1; intros Hm.
  - by apply reconcile_gateway_labelled.
  - by apply reconcile_gateway_class_labelled.
  - by apply reconcile_httproute_labelled.
  - by apply reconcile_stream_route_labelled.
  - by apply reconcile_stream_route_labelled.
  - by apply reconcile_endpoint_slice_labelled.
  - by apply reconcile_service_labelled.
  - by apply load_endpoints_labelled.
  - by apply reconcile_secret_labelled.
  - by apply reconcile_referencegrant_labelled.
  - by apply reconcile_error_labelled.
  - by apply reconcile_error_labelled.
  - by apply reconcile_error_labelled.
  - by apply reconcile_error_labelled.
  - by apply error_policy_secret_labelled.
  - by apply reconcile_error_labelled.
  - cbn. solve_labels.
  - by apply note_result_labelled.
  - by apply election_round_labelled.
  - cbn. solve_labels.
  - by apply tracker_tick_labelled.
Qed.

Lemma controller_run_labelled m m' : rtc controller_step m m' → labelled m → labelled m'.
Proof. induction 1 as [|m1 m2 m3 Hstep _ IH]; [done|]. intros H1. by eapply IH, controller_step_labelled. Qed.

(** C29: labels of the controller's metrics.  However the reconciles of the nine kinds, their
    error policies and the loops of the process interleave, every series the controller
    has ever updated belongs to a collector of its registry and carries one value per
    label: no [with_label_values] panics and stops a controller.  Eight collectors are
    never updated, and a reconcile that fails is never counted as such in
    [wicket_reconcile_total]. *)
Theorem controller_series_declared m :
  rtc controller_step ∅ m →
  well_labelled (declared controller_metrics) m ∧
  (∀ name values, name ∈ unused_controller_metrics → m !! (name :: values) = None) ∧
  (∀ kind result, result ≠ "success" → m !! ["wicket_reconcile_total"; kind; result] = None).
Proof.
  intros Hrun. pose proof (controller_run_labelled _ _ Hrun (well_labelled_empty _)) as H. split_and!.
  - revert H. apply well_labelled_mono. intros k [Hk _]%andb_true_iff. by apply declared_without in Hk as [Hk _].
  - intros name values Hn. revert H. apply well_labelled_absent, not_true_iff_false. intros [Hk _]%andb_true_iff.
    apply declared_without in Hk as [_ Hk]. exact (Hk name eq_refl Hn).
  - intros kind result Hr. revert H. apply well_labelled_absent. apply andb_false_iff. right. cbn.
    by rewrite (proj2 (String.eqb_neq _ _) Hr).
Qed.

End registry.

(** A replica that leads, the start of a watch, and an error policy. *)
Lemma controller_series_declared_witness :
  let m1 := (act_as_leader (false, ∅)).2 in
  let m2 := st_metrics (set_watch_gauge Secrets 1 (mkSecretState SharedStore_new ∅ m1)) in
  let m3 := (error_policy_secret (mkSecret (mkObjectMeta (Some "tls") (Some "infra") None None None None None None) None None) MissingTlsData m2).2 in
  well_labelled (declared controller_metrics) m3 ∧ metric m3 ["wicket_tls_secret_extractions_total"; "infra"; "failure"] = 1%Z.
Proof.
  split; [|vm_compute; reflexivity].
  apply (controller_series_declared (λ _, []) (λ _, Err "") (λ _, Err "") (λ _, Err "") (λ _, None) (λ _, None) (λ _ x, x) (λ _ x, x)
    (λ _ x, x) (λ _ x, x) ControllerConfig_default (λ _, []) (λ _, Err "") (λ _, true) (λ _, None) (λ _, None) 420 1 "/tls").
  eapply rtc_r; [|apply ctl_error_secret]. eapply rtc_r; [|apply ctl_watch]. eapply rtc_r; [|apply ctl_leader]. apply rtc_refl.
Defined.
